(* ===== verification/_CoqProject ===== *)
-Q . S2P
Prelude.v
Bytes.v
InfoElement.v
Records.v
Sets.v
Wire.v
RegistryData.v
Registry.v
Exporter.v
ExporterThreads.v
Collector.v
Tcp.v
Udp.v
EndToEnd.v
UdpSession.v
Typing.v
Heap.v
PriorityQueue.v
NetIP.v
AddressText.v
Generator.v
Kafka.v
Convertor.v
Publishing.v
Cmd.v
Aggregate.v
Correlate.v
FlowKeys.v
AggregationProcess.v
Workers.v
FirstRecord.v
Flows.v
FlowTotals.v
WorkerPool.v
Timeline.v
Reset.v
Conservation.v
Pipeline.v
