(* ===== verification/Prelude.v ===== *)
(** * go-ipfix: a verification development

    go-ipfix is a Go library for the IPFIX protocol (RFC 7011): an exporting process
    builds messages from templates and data records and sends them; a collecting
    process receives them over TCP or UDP and decodes them; a registry knows the
    information elements; an intermediate process aggregates flow records and expires
    them from a priority queue; a Kafka producer publishes them and a consumer reads
    them back.  This library models those parts as executable Rocq definitions and
    proves what makes them correct.

    ** How the code is modelled

    - A call that can fail returns a [go] value: [Ok], an error value, a run-time
      [Panic], or [Block] for a call that never returns (a mutex that is not
      released, a loop that makes no progress, a channel nobody serves).
    - A method with a receiver is a function [M S A] that returns the outcome
      together with the receiver's state, also when the outcome is an error.
    - Goroutines that interact are transition systems: a record of where each of them
      is and of the state they share, and an inductive step relation; properties hold
      in all states reachable from the start.  Histories in the state (bytes received,
      packets decoded) only serve the statements.  [decodePacket] is one step.
    - Integers are [Z] with Go's wrap-around written out ([u16], [u32], [i64], ...);
      byte slices are lists of bytes, with [None] for nil where the code can tell the
      difference; floats are their bit patterns; strings are byte strings; maps are
      [gmap]s; times are integers.
    - Pointers that the code shares (the items of the expiry queue, the flow records)
      are keys of a store.
    - What is not in the repository is a parameter of the definitions that use it: the
      network, the clock, TLS, the JSON encoder, the callbacks of the aggregation
      process, and, as classes with laws, the Kafka client and the protobuf encoding.

    ** The files

    - Prelude.v: errors, outcomes, the state monad, machine integers, automation.
    - Bytes.v: big-endian integers, slices, [bytes.Buffer], [util.Decode]
      (src/pkg/util/util.go).
    - InfoElement.v: src/pkg/entities/ie.go and ie_value.go.  The sixteen struct types
      are the constructors of [InfoElementWithValue]; [wire] is the specification of
      an element's bytes, [canonical] the form a decoder gives back, [typed] says that
      the struct type is the one of the data type.
    - Records.v: src/pkg/entities/record.go.  [IPFIXRecord] is the interface [Record].
    - Sets.v: src/pkg/entities/set.go and message.go, the step relation of a set's
      life and its invariant.
    - Wire.v: the layout of whole messages, the contract between the exporter and the
      collector; [framed] is the part of it a stream reader relies on.
    - RegistryData.v, Registry.v: src/pkg/registry; the generated tables row by row,
      the two global maps as a state that is passed, and its coherence invariant.
    - Generator.v: src/pkg/registry/build_registry, the generator of those tables, its [main] included.
    - Exporter.v: src/pkg/exporter/process.go and msg.go; ExporterThreads.v: the user's
      calls of [SendSet], in atomic steps, next to the template refresh goroutine.
    - Collector.v: src/pkg/collector/process.go.
    - Tcp.v and Udp.v: src/pkg/collector/tcp.go and udp.go, the servers: one handler as
      a function, the whole server as a transition system.
    - EndToEnd.v: the exporter, the TCP handler and the collector put together; the
      abstract specification of an export session and the simulation that implements
      it.
    - UdpSession.v: the exporter and the UDP server with a network between them that
      loses, repeats and reorders datagrams; the specification is a cache of templates.
    - Typing.v: the types of everything the collector delivers.
    - Heap.v: Go's container/heap over a type class for [heap.Interface] and a class
      of laws; PriorityQueue.v: src/pkg/intermediate/priorityqueue.go as an instance.
    - NetIP.v: the texts of addresses and numbers; AddressText.v: reading an address
      back from its text.
    - Aggregate.v: the parts of src/pkg/intermediate/aggregate.go that work on records
      (flow keys, correlation, statistics, throughput), with records seen as maps from
      names to elements; Correlate.v: what correlation does; FlowKeys.v: which records
      share a flow.
    - AggregationProcess.v: the process of aggregate.go and types.go: the flow map, the
      queue that points into it, messages, expiry with callbacks, and the
      specification of an expiry run with the queue as a bag.
    - Workers.v: the worker goroutines, [Start] and [Stop] (worker.go, aggregate.go).
    - FirstRecord.v: the elements that are added to the first record of a flow.
    - Flows.v: the abstract specification of the aggregation process, a map from flow
      keys to summaries, and the proof that the process implements it; FlowTotals.v: what
      follows for sums, readiness and late records.
    - WorkerPool.v: several workers adding records at the same time.
    - Timeline.v: messages and expiry runs together, with a specification that looks at
      one flow at a time; Reset.v: what resetting a reported record does;
      Conservation.v: the deltas of a flow over its whole life.
    - Pipeline.v: from exported records to aggregated and reported flows.
    - Kafka.v: src/pkg/kafka/producer/kafka.go, the convertor interface, and
      src/pkg/kafka/consumer/consumer.go.
    - Convertor.v: src/pkg/kafka/producer/convertor/test/flowtype1.go, the convertor for
      the schema FlowType1 of flow.proto, and the schema itself; Publishing.v: from the
      exporter to the consumers of the Kafka topic.
    - Cmd.v: src/cmd/collector/collector.go and src/cmd/consumer/consumer.go.

    ** What the theorems show

    - Round trips: an element, a data message, and a whole export session over a byte
      stream arrive at the collector as they were exported ([element_roundtrip],
      [data_message_decoded], [template_message_learnt],
      [exporter_collector_refine]); over UDP, what the network delivers arrives as long as
      templates come first and none is old enough to expire ([udp_session_delivers]), and
      in general as a cache of templates says ([udp_session_refines]); the flows of an
      exported session reach the consumers of the Kafka topic ([exported_flows_published]),
      whatever the convertor makes of them; the one of the repository fills every field of
      its schema with a value of the field's type ([delivered_message_converts],
      [flow_messages_fit_schema]).
    - Wire format: sets and messages have the RFC's layout ([SendSet_data_message],
      [SendSet_template_message]); no call writes more than one message or one of more than
      65535 bytes ([SendSet_writes_one_message]); the two encoders agree
      ([encoders_agree]).
    - Ordering: both servers decode what each client sent in the order it was sent,
      under every interleaving and segmentation ([tcp_server_order],
      [udp_server_order]); the template refresh of the exporter does not disturb the
      messages of the user ([refresh_does_not_disturb]).
    - Types: what is delivered is well typed and can be printed
      ([decoded_message_typed], [collector_prints_every_message]).
    - Aggregation: what one record does to the stored record
      ([aggregate_record_correct], [correlate_records_correct]), what a message does to
      the flows ([message_flows]), which records share a flow ([flow_keys_identify]),
      and what an expiry run does ([expiry_refines], [expiry_correct]).
    - The whole: for any sequence of messages the process has the flows and values of
      its specification ([aggregation_refines]), sums and readiness among them
      ([flow_totals], [flow_ready]); several workers do not interfere
      ([workers_linearize]); and records exported on one side are the flows on the
      other ([exported_flows_aggregated]).
    - Reporting: every flow has the life it would have alone, whatever the other flows in
      the priority queue do ([flows_live_independently]); when the callback resets what
      it has sent, no delta is lost or reported twice ([deltas_reported_once]), from the
      exporter to the callback ([exported_deltas_reported]).
    - Invariants over all reachable states: of a set, of the registry, of the
      collector's templates, of the expiry queue, of the flow map and its queue.
    - Termination and liveness: decoding a packet ends unless an empty template is
      known; the loop of a connection ends with its bytes ([tcp_loop_ends]); sending
      never blocks by itself.
    - Errors: what each operation refuses, and that a refusal leaves no trace.
    - Generated code: the Antrea table in the repository is what the generator writes
      ([antrea_registry_generated]).
    - Defects of the code, each as a theorem with a concrete witness: an empty template
      hangs the collector; a template that was refreshed expires all the same
      ([stale_template_silences]); a download that fails leaves an empty registry
      ([failed_download_empties_registry]); a message of length 0 makes a TCP handler spin; an
      undecodable packet silences the UDP server; a timeout can crash it; a failed
      callback loses a flow; a late record makes a duplicate count twice; [Stop] of the aggregation process deadlocks with a busy
      worker; a failed template refresh locks the exporter; the Kafka consumer cannot
      be stopped; and others.

    ** Bounds and fuel

    The record loop of the collector runs with as much fuel as the buffer has bytes, the
    loop of a TCP handler with one more than the stream has, and both answer [Block]
    when it runs out: an iteration that reads no byte repeats for ever, and more fuel
    never changes the answer.  The loop of an expiry run has four times the length of
    the queue and one more, which is enough whenever the active timeout is not
    negative: an item that is queued again is not due again.  In the specification of
    a single flow the bound is five.  The loops of
    container/heap run with the height of the index they start from; their
    specifications show that the fuel is enough.  Numbers are printed with at most
    twenty digits, those of 64 bits.

    ** What is not modelled

    Generated protobuf code, the convertor of the schema FlowType2 (the code of FlowType1
    line by line), the command framework of the programs, logging, and the
    test helpers.  The clock is read once
    per call.  Data races on Go maps (the UDP server reads the client map without the
    mutex) are outside the model. *)

From Stdlib Require Import ZArith Lia.
From stdpp Require Import base gmap strings list numbers relations.

(* stdpp's case analysis clears hypotheses that another branch has already cleared. *)
#[export] Set Warnings "-clear-no-such-hyp".

#[global] Set Default Goal Selector "!".

Declare Scope ipfix_scope.
Delimit Scope ipfix_scope with ipfix.

(** ** Errors

    One constructor per [fmt.Errorf] site (or family of identical sites) of the
    code that is modelled, with the values the message prints. *)
Inductive error : Type :=
| ErrEOF                        (* util.Decode: "error in decoding data: EOF" *)
| ErrUnexpectedEOF              (* util.Decode: "error in decoding data: unexpected EOF" *)
| ErrTimeNotSupported           (* "API does not support micro and nano seconds types yet" *)
| ErrInvalidDataType            (* "API supports only valid information elements ..." *)
| ErrNotBytes                   (* decodeToIEDataType: "error when converting value to []bytes" *)
| ErrWrongGoType                (* EncodeToIEDataType: "val argument %v is not of type ..." *)
| ErrBufferSize                 (* "buffer size is not enough for encoding" *)
| ErrNotIPv4                    (* "provided IP %v does not belong to IPv4 address family" *)
| ErrNotIPv6                    (* "provided IPv6 address %v is not of correct length" *)
| ErrStringTooLong (len : Z)    (* "provided String value is too long ..." *)
| ErrNonEmptyTemplateValue (name : string)
| ErrUndefinedSetType           (* "set type is not properly defined" *)
| ErrUnsupportedSetType         (* "set type is not supported" *)
| ErrNoRegistry                 (* "Please use LoadRegistry before ..." *)
| ErrRegistryNotInitialized (enterpriseID : Z)
| ErrRegistryNotSupported (enterpriseID : Z)
| ErrElementRegistered (name : string) (enterpriseID : Z)
| ErrElementIDNotFound (elementID enterpriseID : Z)
| ErrElementNameNotFound (name : string) (enterpriseID : Z)
| ErrNotReversible (name : string)
| ErrMsgTooLarge                (* "message size exceeds max socket buffer size" *)
| ErrTemplateUnknown (templateID : Z)
| ErrFieldCountMismatch (templateID : Z)
| ErrMinRecordLength (minLen templateID : Z)
| ErrSanityCheck (e : error)    (* "error when doing sanity check:%v" *)
| ErrSend (e : error)           (* "error when sending message on the connection: %v" *)
| ErrPartialSend                (* "could not send the complete message on the connection" *)
| ErrJSON (e : error)           (* "error when encoding message to JSON: %v" *)
| ErrVersion (version : Z)      (* "collector only supports IPFIX (v10) ..." *)
| ErrDecodeMsg (e : error)      (* "error in decoding message: %v" *)
| ErrCollectorTemplate (templateID obsDomainID : Z)
| ErrNoMessageChan              (* "cannot create AggregationProcess process without message channel" *)
| ErrWorkerNum                  (* "worker number cannot be <= 0" *)
| ErrStatsLength                (* "stats elements, source stats elements and ..." *)
| ErrThroughputLength           (* "throughput elements, source throughput elements and ..." *)
| ErrFieldMissing (name : string)     (* "%s does not exist" *)
| ErrNotInIncoming (name : string)    (* "element with name %v ... not present in the incoming record" *)
| ErrNotInRecord (name : string)      (* "element does not exist in the record: %v" and the like *)
| ErrAllRecordsInvalid          (* "all data records in the message are invalid" *)
| ErrFlowKeyMissing             (* "flow key %v is not present in the map" *)
| ErrDeleteFlow (e : error)     (* "error while deleting flow record after ...: %v" *)
| ErrCallback (e : error)       (* "callback execution failed ...: %v" *)
| ErrRootCertificate            (* "failed to parse root certificate" *)
| ErrKafkaVersion               (* "kafka version is not provided correctly" *)
| ErrNoConvertor                (* "requires a protoschema convertor to convert IPFIX messages ..." *)
| ErrKafkaKeyPair (e : error)   (* "kafka TLS load X509 key pair error: %v" *)
| ErrKafkaCAFile (e : error)    (* "kafka TLS CA file error: %v" *)
| ErrPartitionConsumer (e : error)    (* "error when getting partition consumer: %v" *)
| ErrInvalidMessage (e : error) (* "invalid message received: %v" *)
| ErrCSVFieldCount              (* csv: "wrong number of fields" *)
| ErrTransport (code : Z).      (* an error value produced by the network layer *)

#[global] Instance error_eq_dec : EqDecision error.
Proof. solve_decision. Defined.

(** ** Outcomes of a Go call

    [Ok a] is a normal return, [Err e] a return with a non-nil error, [Panic] a
    run-time panic (index out of range, nil map write, wrong element type) and
    [Block] a call that never returns (a mutex that is never released, a loop
    that makes no progress). *)
Inductive go (A : Type) : Type :=
| Ok (a : A)
| Err (e : error)
| Panic
| Block.
Arguments Ok {A} a.
Arguments Err {A} e.
Arguments Panic {A}.
Arguments Block {A}.

#[global] Instance go_eq_dec {A} `{EqDecision A} : EqDecision (go A).
Proof. solve_decision. Defined.

#[global] Instance go_ret : MRet go := fun A a => Ok a.
#[global] Instance go_bind : MBind go := fun A B f m =>
  match m with
  | Ok a => f a
  | Err e => Err e
  | Panic => Panic
  | Block => Block
  end.
#[global] Instance go_fmap : FMap go := fun A B f m =>
  match m with
  | Ok a => Ok (f a)
  | Err e => Err e
  | Panic => Panic
  | Block => Block
  end.

(** [with_err f m] is [if err != nil { return f(err) }] around a call. *)
Definition with_err {A} (f : error → error) (m : go A) : go A :=
  match m with Err e => Err (f e) | _ => m end.

(** [guard_err b e k]: [if b { return e }; k]. *)
Definition guard_err {A} (b : bool) (e : error) (k : go A) : go A :=
  if b then Err e else k.

Definition of_option {A} (d : go A) (o : option A) : go A :=
  match o with Some a => Ok a | None => d end.

Definition is_ok {A} (m : go A) : Prop := ∃ a, m = Ok a.
Definition is_okb {A} (m : go A) : bool := match m with Ok _ => true | _ => false end.

(** The value of a call that is known to return normally. *)
Definition from_ok {A} (d : A) (m : go A) : A := match m with Ok a => a | _ => d end.

(** A [for _, x := range l] loop whose body can return early. *)
Fixpoint go_mapM {A B} (f : A → go B) (l : list A) : go (list B) :=
  match l with
  | [] => Ok []
  | x :: l => y ← f x; ys ← go_mapM f l; Ok (y :: ys)
  end.

Fixpoint go_foldM {A S} (f : S → A → go S) (s : S) (l : list A) : go S :=
  match l with
  | [] => Ok s
  | x :: l => s' ← f s x; go_foldM f s' l
  end.

(** ** Stateful calls

    [M S A] is a method on a receiver of type [S]: the outcome together with the
    receiver's state after the call, whatever the outcome is. *)
Definition M (S A : Type) : Type := S → go A * S.

#[global] Instance M_ret {S} : MRet (M S) := fun A a s => (Ok a, s).
#[global] Instance M_bind {S} : MBind (M S) := fun A B f m s =>
  match m s with
  | (Ok a, s') => f a s'
  | (Err e, s') => (Err e, s')
  | (Panic, s') => (Panic, s')
  | (Block, s') => (Block, s')
  end.

Definition M_lift {S A} (m : go A) : M S A := fun s => (m, s).
Definition M_get {S} : M S S := fun s => (Ok s, s).
Definition M_modify {S} (f : S → S) : M S unit := fun s => (Ok tt, f s).

Lemma M_bind_Ok {S A B} (m : M S A) (f : A → M S B) s a s' :
  m s = (Ok a, s') → (m ≫= f) s = f a s'.
Proof. unfold mbind, M_bind. by intros ->. Qed.

Lemma M_bind_Err {S A B} (m : M S A) (f : A → M S B) s e s' :
  m s = (Err e, s') → (m ≫= f) s = (Err e, s').
Proof. unfold mbind, M_bind. by intros ->. Qed.

Lemma M_bind_inv {S A B} (m : M S A) (f : A → M S B) s b s' :
  (m ≫= f) s = (Ok b, s') → ∃ a s1, m s = (Ok a, s1) ∧ f a s1 = (Ok b, s').
Proof.
  unfold mbind, M_bind. destruct (m s) as [[a| | |] s1]; [eauto | discriminate..].
Qed.

(** ** Lemmas on outcomes *)

Lemma go_bind_Ok {A B} (m : go A) (f : A → go B) b :
  (m ≫= f) = Ok b ↔ ∃ a, m = Ok a ∧ f a = Ok b.
Proof.
  split; [destruct m as [a| | |]; [eauto | discriminate..]|].
  by intros (a & -> & ?).
Qed.

Lemma from_ok_eq {A} (d : A) (m : go A) : is_okb m = true → m = Ok (from_ok d m).
Proof. by destruct m. Qed.

Lemma go_mapM_Ok {A B} (f : A → go B) l ys :
  go_mapM f l = Ok ys ↔ Forall2 (λ x y, f x = Ok y) l ys.
Proof.
  revert ys. induction l as [|x l IH]; intros ys; simpl.
  - split; [intros [= <-]; constructor | by inversion 1].
  - rewrite go_bind_Ok. setoid_rewrite go_bind_Ok. split.
    + intros (y & Hy & ys' & Hys & [= <-]). constructor; [done|]. by apply IH.
    + inversion 1 as [|? y ? ys' Hy Hys]; subst.
      exists y; split; [done|]. exists ys'; split; [by apply IH|done].
Qed.

Lemma go_mapM_map {A B} (f : A → go B) (g : A → B) l :
  Forall (λ x, f x = Ok (g x)) l → go_mapM f l = Ok (map g l).
Proof. induction 1 as [|x l Hx _ IH]; simpl; [done|]. by rewrite Hx; simpl; rewrite IH. Qed.

Lemma go_foldM_app {A S} (f : S → A → go S) s l1 l2 :
  go_foldM f s (l1 ++ l2) = (s' ← go_foldM f s l1; go_foldM f s' l2).
Proof.
  revert s. induction l1 as [|x l1 IH]; intros s; simpl; [done|].
  destruct (f s x); simpl; auto.
Qed.

(** An invariant of the loop state is kept by a loop that returns normally. *)
Lemma go_foldM_inv {A S} (P : S → Prop) (f : S → A → go S) l s s' :
  (∀ s x s', P s → f s x = Ok s' → P s') →
  P s → go_foldM f s l = Ok s' → P s'.
Proof.
  intros Hstep. revert s. induction l as [|x l IH]; intros s HP; simpl.
  - by intros [= <-].
  - rewrite go_bind_Ok. intros (s1 & H1 & H2). eauto.
Qed.

(** A call that cannot block: neither its parts nor what is done with their
    results do. *)
Lemma Ok_not_block {A} (a : A) : Ok a ≠ Block.
Proof. done. Qed.
Lemma Err_not_block {A} e : @Err A e ≠ Block.
Proof. done. Qed.
Lemma Panic_not_block {A} : @Panic A ≠ Block.
Proof. done. Qed.

Lemma go_bind_not_block {A B} (m : go A) (f : A → go B) :
  m ≠ Block → (∀ a, f a ≠ Block) → (m ≫= f) ≠ Block.
Proof. destruct m; simpl; auto. Qed.

Lemma go_fmap_not_block {A B} (f : A → B) (m : go A) : m ≠ Block → f <$> m ≠ Block.
Proof. by destruct m. Qed.

Lemma go_foldM_not_block {A S} (f : S → A → go S) s l :
  (∀ s x, f s x ≠ Block) → go_foldM f s l ≠ Block.
Proof.
  intros Hf. revert s. induction l as [|x l IH]; intros s; simpl; [done|].
  by apply go_bind_not_block.
Qed.

Lemma go_mapM_not_block {A B} (f : A → go B) l : (∀ x, f x ≠ Block) → go_mapM f l ≠ Block.
Proof.
  intros Hf. induction l as [|x l IH]; simpl; [done|].
  apply go_bind_not_block; [done|]. intros y. by apply go_bind_not_block.
Qed.

(** ** Machine integers

    A [uintN] is a [Z] in [0 .. 2^N - 1]; Go's conversions and arithmetic wrap. *)
Definition u8 (z : Z) : Z := (z mod 256)%Z.
Definition u16 (z : Z) : Z := (z mod 65536)%Z.
Definition u32 (z : Z) : Z := (z mod 4294967296)%Z.
Definition u64 (z : Z) : Z := (z mod 18446744073709551616)%Z.

(** [to_signed w z]: reinterpretation of a [w]-bit pattern as two's complement. *)
Definition to_signed (w : Z) (z : Z) : Z :=
  let m := (z mod 2 ^ w)%Z in
  if (m <? 2 ^ (w - 1))%Z then m else (m - 2 ^ w)%Z.
Definition i8 := to_signed 8.
Definition i16 := to_signed 16.
Definition i32 := to_signed 32.
Definition i64 := to_signed 64.

Definition in_u (w z : Z) : Prop := (0 <= z < 2 ^ w)%Z.
Definition in_i (w z : Z) : Prop := (- 2 ^ (w - 1) <= z < 2 ^ (w - 1))%Z.

#[global] Instance in_u_dec w z : Decision (in_u w z).
Proof. unfold in_u. apply _. Defined.
#[global] Instance in_i_dec w z : Decision (in_i w z).
Proof. unfold in_i. apply _. Defined.

Lemma in_u_mod w z : in_u w z → (z mod 2 ^ w = z)%Z.
Proof. intros. by apply Z.mod_small. Qed.

Lemma mod_in_u w z : (0 <= w)%Z → in_u w (z mod 2 ^ w)%Z.
Proof. intros. apply Z.mod_pos_bound. by apply Z.pow_pos_nonneg. Qed.

(** A signed value survives the conversion to the unsigned type and back. *)
Lemma to_signed_mod w z : (0 < w)%Z → in_i w z → to_signed w (z mod 2 ^ w)%Z = z.
Proof.
  intros Hw [H1 H2]. unfold to_signed.
  assert (Hp : (2 ^ w = 2 * 2 ^ (w - 1))%Z).
  { rewrite <- Z.pow_succ_r by lia. f_equal. lia. }
  rewrite Z.mod_mod by lia.
  destruct (decide (0 <= z)%Z) as [Hz|Hz].
  - rewrite Z.mod_small by lia. by destruct (Z.ltb_spec z (2 ^ (w - 1))); lia.
  - rewrite <- (Z.mod_add z 1) by lia. rewrite Z.mod_small by lia.
    destruct (Z.ltb_spec (z + 1 * 2 ^ w) (2 ^ (w - 1))); lia.
Qed.

Lemma to_signed_range w z : (0 < w)%Z → in_i w (to_signed w z).
Proof.
  intros Hw. unfold to_signed, in_i.
  assert (Hp : (2 ^ w = 2 * 2 ^ (w - 1))%Z).
  { rewrite <- Z.pow_succ_r by lia. f_equal. lia. }
  assert (0 < 2 ^ (w - 1))%Z by (apply Z.pow_pos_nonneg; lia).
  pose proof (Z.mod_pos_bound z (2 ^ w)%Z). 
  destruct (Z.ltb_spec (z mod 2 ^ w) (2 ^ (w - 1))); lia.
Qed.

(** ** Strings *)

(** A Go [switch] on a string: the first matching case, else the default. *)
Fixpoint switch {A} (s : string) (cases : list (string * A)) (d : A) : A :=
  match cases with
  | [] => d
  | (k, a) :: cases => if String.eqb s k then a else switch s cases d
  end.

Fixpoint has_char (c : Ascii.ascii) (s : string) : bool :=
  match s with
  | EmptyString => false
  | String a s => bool_decide (a = c) || has_char c s
  end.

Lemma string_app_nil (s : string) : s +:+ "" = s.
Proof. induction s as [|a s IH]; simpl; [done|]. exact (f_equal (String a) IH). Qed.

Lemma string_app_assoc (s t u : string) : (s +:+ t) +:+ u = s +:+ (t +:+ u).
Proof. induction s as [|a s IH]; simpl; [done|]. exact (f_equal (String a) IH). Qed.

(** A string is cut in one way at the first occurrence of a character. *)
Lemma string_cut_inj c (s1 s2 t1 t2 : string) :
  has_char c s1 = false → has_char c s2 = false →
  s1 +:+ String c t1 = s2 +:+ String c t2 → s1 = s2 ∧ t1 = t2.
Proof.
  revert s2. induction s1 as [|a s1 IH]; intros s2 H1 H2; destruct s2 as [|b s2]; simpl in *.
  - by intros [= ->].
  - intros [= <- _]. apply orb_false_iff in H2 as [H2 _]. by apply bool_decide_eq_false in H2.
  - intros [= -> _]. apply orb_false_iff in H1 as [H1 _]. by apply bool_decide_eq_false in H1.
  - apply orb_false_iff in H1 as [_ H1], H2 as [_ H2]. intros [= -> E].
    by destruct (IH s2 H1 H2 E) as [-> ->].
Qed.

Lemma has_char_app c s t : has_char c (s +:+ t) = has_char c s || has_char c t.
Proof.
  induction s as [|a s IH]; [done|].
  change (bool_decide (a = c) || has_char c (s +:+ t) = (bool_decide (a = c) || has_char c s) || has_char c t).
  rewrite IH. apply orb_assoc.
Qed.

(** [strings.Split(s, c)] for a one-character separator. *)
Fixpoint split_on (c : Ascii.ascii) (s : string) : list string :=
  match s with
  | EmptyString => [EmptyString]
  | String a s =>
      match split_on c s with
      | [] => []
      | x :: xs => if decide (a = c) then EmptyString :: x :: xs else String a x :: xs
      end
  end.

(** ** Lists *)

Lemma take_app_exact {A} n (l k : list A) : length l = n → take n (l ++ k) = l.
Proof. intros <-. by rewrite take_app_length. Qed.

Lemma drop_app_exact {A} n (l k : list A) : length l = n → drop n (l ++ k) = k.
Proof. intros <-. by rewrite drop_app_length. Qed.

Lemma Forall2_map_eq {A B} (f : A → B) l l' :
  Forall2 (λ x y, f x = y) l l' → l' = map f l.
Proof. induction 1; simpl; congruence. Qed.

(** Filtering with a property that every element has changes nothing. *)
Lemma filter_all {A} (P : A → Prop) `{∀ x, Decision (P x)} l : Forall P l → filter P l = l.
Proof.
  induction 1 as [|x l Hx _ IH]; [done|]. rewrite filter_cons_True by done. by rewrite IH.
Qed.

(** ** Transition systems *)

(** A property that every step keeps holds as long as the system runs. *)
Lemma rtc_invariant {A} (R : A → A → Prop) (I : A → Prop) s s' :
  (∀ x y, R x y → I x → I y) → rtc R s s' → I s → I s'.
Proof. intros HI. induction 1 as [|x y z Hxy _ IH]; eauto. Qed.

(** ** Automation *)

(** The development's hint databases: [ipfix] closes side conditions on
    lengths and ranges, [live] shows that a call does not block, [len] rewrites
    the lengths of lists. *)
Create HintDb ipfix discriminated.
#[export] Hint Resolve take_app_exact drop_app_exact in_u_mod mod_in_u : ipfix.
Create HintDb live discriminated.
#[export] Hint Resolve go_bind_not_block go_fmap_not_block go_foldM_not_block go_mapM_not_block
  Ok_not_block Err_not_block Panic_not_block : live.
Create Rewrite HintDb len.
#[export] Hint Rewrite @length_app @length_take @length_drop @length_map @length_replicate : len.

(** Split the hypotheses that say a sequence of calls returned normally. *)
Ltac go_inv :=
  repeat match goal with
  | H : (_ ≫= _) = Ok _ |- _ => apply go_bind_Ok in H; destruct H as (? & ? & H)
  | H : Ok _ = Ok _ |- _ => injection H as H
  | H : Err _ = Ok _ |- _ => discriminate H
  | H : Panic = Ok _ |- _ => discriminate H
  | H : Block = Ok _ |- _ => discriminate H
  | H : _ ∧ _ |- _ => destruct H
  | H : ∃ _, _ |- _ => destruct H
  end; simplify_eq.

Ltac len := autorewrite with len in *; cbn [length] in *; try lia.
