(* ===== verification/Bytes.v ===== *)
(** * Bytes, byte slices, big-endian integers and read buffers

    The parts of Go's [encoding/binary], [bytes] and built-in slices that the
    IPFIX code uses, and [util.Decode] (src/pkg/util/util.go). *)

From Stdlib Require Import ZArith Lia.
From Stdlib.Strings Require Import Byte.
From stdpp Require Import base strings list numbers.
From S2P Require Import Prelude.

#[local] Open Scope Z_scope.

(** ** Bytes *)

Abbreviation byte := Byte.byte.

Definition byte_to_Z (b : byte) : Z := Z.of_N (Byte.to_N b).

(** [byte_of_Z z] is Go's conversion [byte(z)]: the low eight bits. *)
Definition byte_of_Z (z : Z) : byte :=
  match Byte.of_N (Z.to_N (z mod 256)) with Some b => b | None => Byte.x00 end.

#[global] Instance byte_eq_dec : EqDecision byte := Byte.byte_eq_dec.

(** A Go [[]byte] value: [None] is the nil slice, which Go code can tell from an
    empty one. *)
Abbreviation slice := (option (list byte)).
Definition slice_bytes (s : slice) : list byte := default [] s.

Lemma slice_bytes_Some bs : slice_bytes (Some bs) = bs.
Proof. done. Qed.

(** ** encoding/binary: big-endian integers *)

(** [put_be n v] is the [n] bytes that [binary.BigEndian.PutUint<8n>] stores. *)
Fixpoint put_be (n : nat) (v : Z) : list byte :=
  match n with
  | O => []
  | S m => byte_of_Z (Z.shiftr v (8 * Z.of_nat m)) :: put_be m v
  end.

(** The number a byte sequence denotes, most significant byte first. *)
Fixpoint be_val (bs : list byte) : Z :=
  match bs with
  | [] => 0
  | b :: bs => Z.lor (Z.shiftl (byte_to_Z b) (8 * Z.of_nat (length bs))) (be_val bs)
  end.

(** [get_be n bs] is [binary.BigEndian.Uint<8n>(bs)], which panics on a short
    slice and ignores what follows the first [n] bytes. *)
Definition get_be (n : nat) (bs : list byte) : go Z :=
  if decide (n <= length bs)%nat then Ok (be_val (take n bs)) else Panic.

(** ** Writing into a slice *)

(** [binary.BigEndian.PutUintN(buf[off:], v)] with the bytes already split. *)
Definition write_at (buf : list byte) (off : nat) (bs : list byte) : go (list byte) :=
  if decide (off + length bs <= length buf)%nat
  then Ok (take off buf ++ bs ++ drop (off + length bs) buf)
  else Panic.

(** [copy(buf[lo:hi], src)]: slicing panics out of range, [copy] truncates. *)
Definition copy_range (buf : list byte) (lo hi : nat) (src : list byte) : go (list byte) :=
  if decide (lo <= hi ∧ hi <= length buf)%nat
  then let s := take (hi - lo) src in Ok (take lo buf ++ s ++ drop (lo + length s) buf)
  else Panic.

(** [copy(buf[off:], src)]. *)
Definition copy_at (buf : list byte) (off : nat) (src : list byte) : go (list byte) :=
  copy_range buf off (length buf) src.

(** [buf[i] = b]. *)
Definition set_byte (buf : list byte) (i : nat) (b : byte) : go (list byte) :=
  write_at buf i [b].

(** ** bytes.Buffer

    A read buffer is the list of its unread bytes. *)

(** [io.ReadFull] into [n] bytes, as [binary.Read] does: all or an error, and a
    short buffer is drained. *)
Definition read_full (n : nat) : M (list byte) (list byte) := fun buf =>
  if decide (n <= length buf)%nat then (Ok (take n buf), drop n buf)
  else match buf with
       | [] => (Err ErrEOF, [])
       | _ => (Err ErrUnexpectedEOF, [])
       end.

(** [buffer.Next(n)]: the next [n] bytes, fewer when the buffer is short. *)
Definition buf_Next (n : nat) : M (list byte) (list byte) := fun buf =>
  (Ok (take n buf), drop n buf).

(** [b, _ := buffer.ReadByte()]: zero when the buffer is empty. *)
Definition buf_ReadByte : M (list byte) Z := fun buf =>
  match buf with
  | [] => (Ok 0, [])
  | b :: buf => (Ok (byte_to_Z b), buf)
  end.

(** ** util.Decode

    The outputs are unsigned integers of the given byte sizes. *)
Fixpoint Decode (outputs : list nat) : M (list byte) (list Z) :=
  match outputs with
  | [] => mret []
  | n :: outputs =>
      bs ← read_full n;
      vs ← Decode outputs;
      mret (be_val bs :: vs)
  end.

(** ** Lemmas *)

Lemma byte_to_Z_range b : 0 <= byte_to_Z b < 256.
Proof.
  unfold byte_to_Z. pose proof (Byte.to_N_bounded b). lia.
Qed.

Lemma byte_to_of_Z z : byte_to_Z (byte_of_Z z) = z mod 256.
Proof.
  unfold byte_to_Z, byte_of_Z.
  pose proof (Z.mod_pos_bound z 256).
  destruct (Byte.of_N (Z.to_N (z mod 256))) as [b|] eqn:E.
  - apply Byte.to_of_N in E. rewrite E. lia.
  - apply Byte.of_N_None_iff in E. lia.
Qed.

Lemma byte_of_to_Z b : byte_of_Z (byte_to_Z b) = b.
Proof.
  unfold byte_to_Z, byte_of_Z. pose proof (byte_to_Z_range b) as H. unfold byte_to_Z in H.
  rewrite Z.mod_small, N2Z.id by lia. by rewrite Byte.of_to_N.
Qed.

Lemma byte_of_Z_eq a b : a mod 256 = b mod 256 → byte_of_Z a = byte_of_Z b.
Proof. unfold byte_of_Z. by intros ->. Qed.

Lemma length_put_be n v : length (put_be n v) = n.
Proof. induction n; simpl; congruence. Qed.
#[export] Hint Rewrite length_put_be : len.

Lemma lor_shiftl_add a b k :
  0 <= k → 0 <= b < 2 ^ k → Z.lor (Z.shiftl a k) b = a * 2 ^ k + b.
Proof.
  intros Hk Hb.
  assert (Hland : Z.land (Z.shiftl a k) b = 0).
  { apply Z.bits_inj'. intros i Hi. rewrite Z.land_spec, Z.bits_0.
    destruct (decide (i < k)).
    - by rewrite Z.shiftl_spec_low by lia.
    - destruct (decide (b = 0)) as [->|]; [by rewrite Z.bits_0, andb_false_r|].
      rewrite (Z.bits_above_log2 b i), andb_false_r; [done|lia|].
      apply Z.log2_lt_pow2; [lia|]. eapply Z.lt_le_trans; [apply Hb|].
      apply Z.pow_le_mono_r; lia. }
  rewrite <- Z.lxor_lor by done. rewrite <- Z.add_nocarry_lxor by done.
  by rewrite Z.shiftl_mul_pow2.
Qed.

Lemma be_val_range bs : 0 <= be_val bs < 2 ^ (8 * Z.of_nat (length bs)).
Proof.
  induction bs as [|b bs IH]; [simpl; lia|]. cbn [be_val].
  pose proof (byte_to_Z_range b).
  rewrite lor_shiftl_add by lia. cbn [length].
  replace (8 * Z.of_nat (S (length bs))) with (8 + 8 * Z.of_nat (length bs)) by lia.
  rewrite Z.pow_add_r by lia. change (2 ^ 8) with 256. nia.
Qed.

(** Horner's form of [be_val]. *)
Lemma be_val_cons b bs :
  be_val (b :: bs) = byte_to_Z b * 2 ^ (8 * Z.of_nat (length bs)) + be_val bs.
Proof. cbn [be_val]. apply lor_shiftl_add; [lia | apply be_val_range]. Qed.

Lemma be_val_put_be n v : be_val (put_be n v) = v mod 2 ^ (8 * Z.of_nat n).
Proof.
  induction n as [|n IH]; [by rewrite Z.mod_1_r|].
  cbn [put_be]. rewrite be_val_cons, length_put_be, IH, byte_to_of_Z.
  rewrite Z.shiftr_div_pow2 by lia.
  replace (8 * Z.of_nat (S n)) with (8 * Z.of_nat n + 8) by lia.
  rewrite Z.pow_add_r by lia. change (2 ^ 8) with 256.
  rewrite Z.rem_mul_r; [lia| |lia]. apply Z.pow_nonzero; lia.
Qed.

Lemma put_be_mod n v : put_be n (v mod 2 ^ (8 * Z.of_nat n)) = put_be n v.
Proof.
  enough (∀ m, (m <= n)%nat → put_be m (v mod 2 ^ (8 * Z.of_nat n)) = put_be m v) by auto.
  induction m as [|m IH]; intros Hm; [done|]. cbn [put_be]. f_equal; [|apply IH; lia].
  apply byte_of_Z_eq.
  rewrite !Z.shiftr_div_pow2 by lia.
  replace (8 * Z.of_nat n) with (8 * Z.of_nat m + (8 * Z.of_nat (n - m))) by lia.
  rewrite Z.pow_add_r by lia.
  rewrite Z.rem_mul_r; [|apply Z.pow_nonzero; lia|apply Z.pow_pos_nonneg; lia].
  rewrite (Z.mul_comm (2 ^ _)), Z.div_add; [|apply Z.pow_nonzero; lia].
  rewrite Z.div_small by (apply Z.mod_pos_bound, Z.pow_pos_nonneg; lia).
  rewrite Z.add_0_l. change 256 with (2 ^ 8).
  replace (8 * Z.of_nat (n - m)) with (8 + 8 * Z.of_nat (n - m - 1)) by lia.
  rewrite Z.pow_add_r by lia.
  rewrite Z.rem_mul_r; [|done|apply Z.pow_pos_nonneg; lia].
  rewrite (Z.mul_comm (2 ^ 8) (_ mod _)), Z.mod_add by done. by rewrite Z.mod_mod.
Qed.

Lemma put_be_val bs : put_be (length bs) (be_val bs) = bs.
Proof.
  induction bs as [|b bs IH]; [done|]. cbn [length put_be].
  pose proof (be_val_range bs) as Hr. pose proof (byte_to_Z_range b).
  rewrite be_val_cons. f_equal.
  - rewrite Z.shiftr_div_pow2 by lia.
    rewrite Z.add_comm, Z.div_add by lia. rewrite Z.div_small, Z.add_0_l by lia.
    apply byte_of_to_Z.
  - rewrite <- put_be_mod, Z.add_comm, Z.mod_add by lia.
    rewrite Z.mod_small by lia. apply IH.
Qed.

(** Decoding the bytes of a [8n]-bit number gives the number back, whatever
    follows it. *)
Lemma get_put_be n v rest :
  in_u (8 * Z.of_nat n) v → get_be n (put_be n v ++ rest) = Ok v.
Proof.
  intros Hv. unfold get_be. rewrite decide_True by len.
  rewrite take_app_exact by len. rewrite be_val_put_be. f_equal. by apply in_u_mod.
Qed.

Lemma get_be_exact n bs : length bs = n → get_be n bs = Ok (be_val bs).
Proof. intros <-. unfold get_be. rewrite decide_True by lia. by rewrite firstn_all. Qed.

Lemma get_be_short n bs : (length bs < n)%nat → get_be n bs = Panic.
Proof. intros. unfold get_be. by rewrite decide_False by lia. Qed.

(** *** Slices *)

Lemma write_at_app pre mid post bs :
  length bs = length mid →
  write_at (pre ++ mid ++ post) (length pre) bs = Ok (pre ++ bs ++ post).
Proof.
  intros E. unfold write_at. rewrite decide_True by len.
  rewrite take_app_length, drop_app_add, drop_app_exact by done. done.
Qed.

Lemma copy_range_app pre mid post hi src :
  length src = length mid → hi = (length pre + length mid)%nat →
  copy_range (pre ++ mid ++ post) (length pre) hi src = Ok (pre ++ src ++ post).
Proof.
  intros E ->. unfold copy_range. rewrite decide_True by len.
  rewrite (take_ge src) by len.
  rewrite take_app_length, drop_app_add, drop_app_exact by done. done.
Qed.

Lemma copy_at_app pre mid post src :
  length src = length mid →
  copy_at (pre ++ mid ++ post) (length pre) src = Ok (pre ++ src ++ post).
Proof.
  intros E. unfold copy_at, copy_range. rewrite decide_True by len.
  rewrite (take_ge src) by len.
  rewrite take_app_length, drop_app_add, drop_app_exact by done. done.
Qed.

Lemma write_at_length buf off bs buf' :
  write_at buf off bs = Ok buf' → length buf' = length buf.
Proof. unfold write_at. case_decide; intros; simplify_eq. len. Qed.

Lemma copy_range_length buf lo hi src buf' :
  copy_range buf lo hi src = Ok buf' → length buf' = length buf.
Proof. unfold copy_range. case_decide; intros; simplify_eq. len. Qed.

(** Copying leaves what is before it alone. *)
Lemma copy_range_prefix n buf lo hi src buf' :
  copy_range buf lo hi src = Ok buf' → (n <= lo)%nat → take n buf' = take n buf.
Proof.
  unfold copy_range. case_decide; intros [= <-] Hn. rewrite take_app_le by len. rewrite take_take. f_equal. lia.
Qed.

(** *** Buffers *)

Lemma read_full_app bs rest n : length bs = n → read_full n (bs ++ rest) = (Ok bs, rest).
Proof.
  intros E. unfold read_full. rewrite decide_True by len.
  by rewrite take_app_exact, drop_app_exact.
Qed.

Lemma read_full_put n v rest : read_full n (put_be n v ++ rest) = (Ok (put_be n v), rest).
Proof. apply read_full_app. len. Qed.

Lemma read_full_short n buf :
  (length buf < n)%nat → ∃ e, read_full n buf = (Err e, []).
Proof.
  intros. unfold read_full. rewrite decide_False by lia. destruct buf; eauto.
Qed.

Lemma read_full_inv n buf bs buf' :
  read_full n buf = (Ok bs, buf') → buf = bs ++ buf' ∧ length bs = n.
Proof.
  unfold read_full. case_decide; [|destruct buf; discriminate].
  intros; simplify_eq. rewrite take_drop. split; [done|len].
Qed.

(** What [util.Decode] reads is what the writer's big-endian fields hold. *)
Lemma Decode_put (fields : list (nat * Z)) rest :
  Forall (λ f, in_u (8 * Z.of_nat f.1) f.2) fields →
  Decode fields.*1 ((fields ≫= λ f, put_be f.1 f.2) ++ rest) = (Ok fields.*2, rest).
Proof.
  induction 1 as [|[n v] fs Hv _ IH]; simpl; [done|].
  rewrite <- app_assoc. erewrite M_bind_Ok by apply read_full_put.
  erewrite M_bind_Ok by apply IH. unfold mret, M_ret.
  rewrite be_val_put_be. simpl in Hv. by rewrite in_u_mod.
Qed.

(** [util.Decode] either consumes exactly the bytes of its outputs or fails. *)
Lemma Decode_inv outputs buf vs buf' :
  Decode outputs buf = (Ok vs, buf') →
  length buf = (sum_list outputs + length buf')%nat ∧ length vs = length outputs.
Proof.
  revert buf vs. induction outputs as [|n outputs IH]; intros buf vs; simpl.
  - intros [= <- <-]. done.
  - intros (bs & b1 & H1 & (vs' & b2 & H2 & [= <- <-])%M_bind_inv)%M_bind_inv.
    apply read_full_inv in H1 as [-> ?]. apply IH in H2 as [??]. simpl. split; len.
Qed.

Lemma Decode_short outputs buf :
  (length buf < sum_list outputs)%nat →
  ∃ e buf', Decode outputs buf = (Err e, buf') ∧ (e = ErrEOF ∨ e = ErrUnexpectedEOF).
Proof.
  revert buf. induction outputs as [|n outputs IH]; intros buf; simpl; [lia|]. intros Hl.
  unfold mbind, M_bind, read_full. case_decide; [|destruct buf; eauto].
  destruct (IH (drop n buf)) as (e & b & -> & He); [rewrite length_drop; lia|]. eauto.
Qed.

Lemma Decode_long outputs buf :
  (sum_list outputs <= length buf)%nat →
  ∃ vs buf', Decode outputs buf = (Ok vs, buf') ∧ length vs = length outputs.
Proof.
  revert buf. induction outputs as [|n outputs IH]; intros buf; simpl; [by eauto|]. intros Hl.
  unfold mbind, M_bind, read_full. rewrite decide_True by lia.
  destruct (IH (drop n buf)) as (vs & b & -> & Hvs); [rewrite length_drop; lia|].
  eexists _, _. split; [done|]. simpl. by rewrite Hvs.
Qed.

(** *** Nothing here blocks *)

Lemma get_be_not_block n bs : get_be n bs ≠ Block.
Proof. unfold get_be. by case_decide. Qed.

Lemma write_at_not_block buf off bs : write_at buf off bs ≠ Block.
Proof. unfold write_at. by case_decide. Qed.

Lemma copy_range_not_block buf lo hi src : copy_range buf lo hi src ≠ Block.
Proof. unfold copy_range. by case_decide. Qed.

Lemma copy_at_not_block buf off src : copy_at buf off src ≠ Block.
Proof. apply copy_range_not_block. Qed.

Lemma set_byte_not_block buf i b : set_byte buf i b ≠ Block.
Proof. apply write_at_not_block. Qed.

Lemma read_full_not_block n buf : (read_full n buf).1 ≠ Block.
Proof. unfold read_full. case_decide; [done|]. by destruct buf. Qed.

Lemma Decode_not_block outs buf : (Decode outs buf).1 ≠ Block.
Proof.
  revert buf. induction outs as [|n outs IH]; intros buf; [done|]. cbn [Decode].
  unfold mbind, M_bind. pose proof (read_full_not_block n buf).
  destruct (read_full n buf) as [[bs| | |] b1]; [|done..].
  specialize (IH b1). by destruct (Decode outs b1) as [[vs| | |] b2].
Qed.
#[export] Hint Resolve get_be_not_block write_at_not_block copy_range_not_block
  copy_at_not_block set_byte_not_block : live.
