(* ===== verification/InfoElement.v ===== *)
(** * Information elements and their values

    src/pkg/entities/ie.go and src/pkg/entities/ie_value.go: the data types of
    RFC 7011, information elements, elements with a value, and the encoding and
    decoding of one value. *)

From Stdlib Require Import ZArith Lia.
From Stdlib.Strings Require Import Byte.
From stdpp Require Import base strings list numbers.
From S2P Require Import Prelude Bytes.

#[local] Open Scope Z_scope.

(** ** ie.go: data types *)

(** [StringType] is the source's constant [String]. *)
Inductive IEDataType : Type :=
| OctetArray | Unsigned8 | Unsigned16 | Unsigned32 | Unsigned64
| Signed8 | Signed16 | Signed32 | Signed64 | Float32 | Float64 | Boolean
| MacAddress | StringType | DateTimeSeconds | DateTimeMilliseconds
| DateTimeMicroseconds | DateTimeNanoseconds | Ipv4Address | Ipv6Address
| BasicList | SubTemplateList | SubTemplateMultiList | InvalidDataType.

#[global] Instance IEDataType_eq_dec : EqDecision IEDataType.
Proof. solve_decision. Defined.

(** The [iota] numbering of the constants. *)
Definition IEDataTypes : list IEDataType :=
  [OctetArray; Unsigned8; Unsigned16; Unsigned32; Unsigned64; Signed8; Signed16; Signed32;
   Signed64; Float32; Float64; Boolean; MacAddress; StringType; DateTimeSeconds;
   DateTimeMilliseconds; DateTimeMicroseconds; DateTimeNanoseconds; Ipv4Address; Ipv6Address;
   BasicList; SubTemplateList; SubTemplateMultiList].

Definition IEDataType_of_Z (z : Z) : IEDataType :=
  default InvalidDataType (IEDataTypes !! Z.to_nat z).

Definition VariableLength : Z := 65535.

Definition InfoElementLength (t : IEDataType) : Z :=
  match t with
  | OctetArray => VariableLength
  | Unsigned8 => 1
  | Unsigned16 => 2
  | Unsigned32 => 4
  | Unsigned64 => 8
  | Signed8 => 1
  | Signed16 => 2
  | Signed32 => 4
  | Signed64 => 8
  | Float32 => 4
  | Float64 => 8
  | Boolean => 1
  | MacAddress => 6
  | StringType => VariableLength
  | DateTimeSeconds => 4
  | DateTimeMilliseconds => 8
  | DateTimeMicroseconds => 8
  | DateTimeNanoseconds => 8
  | Ipv4Address => 4
  | Ipv6Address => 16
  | BasicList => VariableLength
  | SubTemplateList => VariableLength
  | SubTemplateMultiList => VariableLength
  | InvalidDataType => 0
  end.

Record InfoElement : Type := NewInfoElement {
  Name : string;
  ElementId : Z;
  DataType : IEDataType;
  EnterpriseId : Z;
  Len : Z;
}.

#[global] Instance InfoElement_eq_dec : EqDecision InfoElement.
Proof. solve_decision. Defined.

Definition IENameToType (name : string) : IEDataType :=
  switch name
    [("octetArray", OctetArray);
     ("unsigned8", Unsigned8);
     ("unsigned16", Unsigned16);
     ("unsigned32", Unsigned32);
     ("unsigned64", Unsigned64);
     ("signed8", Signed8);
     ("signed16", Signed16);
     ("signed32", Signed32);
     ("signed64", Signed64);
     ("float32", Float32);
     ("float64", Float64);
     ("boolean", Boolean);
     ("macAddress", MacAddress);
     ("string", StringType);
     ("dateTimeSeconds", DateTimeSeconds);
     ("dateTimeMilliseconds", DateTimeMilliseconds);
     ("dateTimeMicroseconds", DateTimeMicroseconds);
     ("dateTimeNanoseconds", DateTimeNanoseconds);
     ("ipv4Address", Ipv4Address);
     ("ipv6Address", Ipv6Address);
     ("basicList", BasicList);
     ("subTemplateList", SubTemplateList);
     ("subTemplateMultiList", SubTemplateMultiList)]%string
    InvalidDataType.

(** ** Go's [net.IP] and strings *)

Definition v4InV6Prefix : list byte :=
  replicate 10 Byte.x00 ++ [Byte.xff; Byte.xff].

(** [IP.To4]: [None] is nil. *)
Definition To4 (ip : slice) : slice :=
  let bs := slice_bytes ip in
  if decide (length bs = 4%nat) then Some bs
  else if decide (length bs = 16%nat ∧ take 12 bs = v4InV6Prefix) then Some (drop 12 bs)
  else None.

(** [IP.To16]. *)
Definition To16 (ip : slice) : slice :=
  let bs := slice_bytes ip in
  if decide (length bs = 4%nat) then Some (v4InV6Prefix ++ bs)
  else if decide (length bs = 16%nat) then Some bs
  else None.

(** A Go string is a sequence of bytes. *)
Definition string_bytes (s : string) : list byte := String.list_byte_of_string s.
Definition bytes_string (bs : list byte) : string := String.string_of_list_byte bs.

(** ** ie_value.go: elements with a value

    One constructor per struct type; floats are their IEEE bit patterns. *)
Inductive InfoElementWithValue : Type :=
| Unsigned8InfoElement (element : InfoElement) (value : Z)
| Unsigned16InfoElement (element : InfoElement) (value : Z)
| Unsigned32InfoElement (element : InfoElement) (value : Z)
| Unsigned64InfoElement (element : InfoElement) (value : Z)
| Signed8InfoElement (element : InfoElement) (value : Z)
| Signed16InfoElement (element : InfoElement) (value : Z)
| Signed32InfoElement (element : InfoElement) (value : Z)
| Signed64InfoElement (element : InfoElement) (value : Z)
| Float32InfoElement (element : InfoElement) (value : Z)
| Float64InfoElement (element : InfoElement) (value : Z)
| BooleanInfoElement (element : InfoElement) (value : bool)
| MacAddressInfoElement (element : InfoElement) (value : slice)
| StringInfoElement (element : InfoElement) (value : string)
| DateTimeSecondsInfoElement (element : InfoElement) (value : Z)
| DateTimeMillisecondsInfoElement (element : InfoElement) (value : Z)
| IPAddressInfoElement (element : InfoElement) (value : slice).

#[global] Instance InfoElementWithValue_eq_dec : EqDecision InfoElementWithValue.
Proof. solve_decision. Defined.

(** The constructors of the struct types. *)
Definition NewUnsigned8InfoElement (element : InfoElement) (val : Z) : InfoElementWithValue :=
  Unsigned8InfoElement element val.
Definition NewUnsigned16InfoElement (element : InfoElement) (val : Z) : InfoElementWithValue :=
  Unsigned16InfoElement element val.
Definition NewUnsigned32InfoElement (element : InfoElement) (val : Z) : InfoElementWithValue :=
  Unsigned32InfoElement element val.
Definition NewUnsigned64InfoElement (element : InfoElement) (val : Z) : InfoElementWithValue :=
  Unsigned64InfoElement element val.
Definition NewSigned8InfoElement (element : InfoElement) (val : Z) : InfoElementWithValue :=
  Signed8InfoElement element val.
Definition NewSigned16InfoElement (element : InfoElement) (val : Z) : InfoElementWithValue :=
  Signed16InfoElement element val.
Definition NewSigned32InfoElement (element : InfoElement) (val : Z) : InfoElementWithValue :=
  Signed32InfoElement element val.
Definition NewSigned64InfoElement (element : InfoElement) (val : Z) : InfoElementWithValue :=
  Signed64InfoElement element val.
Definition NewFloat32InfoElement (element : InfoElement) (val : Z) : InfoElementWithValue :=
  Float32InfoElement element val.
Definition NewFloat64InfoElement (element : InfoElement) (val : Z) : InfoElementWithValue :=
  Float64InfoElement element val.
Definition NewBoolInfoElement (element : InfoElement) (val : bool) : InfoElementWithValue :=
  BooleanInfoElement element val.
Definition NewMacAddressInfoElement (element : InfoElement) (val : slice) : InfoElementWithValue :=
  MacAddressInfoElement element val.
Definition NewStringInfoElement (element : InfoElement) (val : string) : InfoElementWithValue :=
  StringInfoElement element val.
Definition NewDateTimeSecondsInfoElement (element : InfoElement) (val : Z) : InfoElementWithValue :=
  DateTimeSecondsInfoElement element val.
Definition NewDateTimeMillisecondsInfoElement (element : InfoElement) (val : Z) : InfoElementWithValue :=
  DateTimeMillisecondsInfoElement element val.
Definition NewIPAddressInfoElement (element : InfoElement) (val : slice) : InfoElementWithValue :=
  IPAddressInfoElement element val.

(** Unfold the constructors of the struct types. *)
Ltac unfold_new :=
  unfold NewUnsigned8InfoElement, NewUnsigned16InfoElement, NewUnsigned32InfoElement, NewUnsigned64InfoElement,
    NewSigned8InfoElement, NewSigned16InfoElement, NewSigned32InfoElement, NewSigned64InfoElement,
    NewFloat32InfoElement, NewFloat64InfoElement, NewBoolInfoElement, NewMacAddressInfoElement,
    NewStringInfoElement, NewDateTimeSecondsInfoElement, NewDateTimeMillisecondsInfoElement, NewIPAddressInfoElement in *.

Definition GetInfoElement (e : InfoElementWithValue) : InfoElement :=
  match e with
  | Unsigned8InfoElement ie _
  | Unsigned16InfoElement ie _
  | Unsigned32InfoElement ie _
  | Unsigned64InfoElement ie _
  | Signed8InfoElement ie _
  | Signed16InfoElement ie _
  | Signed32InfoElement ie _
  | Signed64InfoElement ie _
  | Float32InfoElement ie _
  | Float64InfoElement ie _
  | BooleanInfoElement ie _
  | MacAddressInfoElement ie _
  | StringInfoElement ie _
  | DateTimeSecondsInfoElement ie _
  | DateTimeMillisecondsInfoElement ie _
  | IPAddressInfoElement ie _ => ie
  end.

Definition GetName (e : InfoElementWithValue) : string := Name (GetInfoElement e).
Definition GetDataType (e : InfoElementWithValue) : IEDataType := DataType (GetInfoElement e).

(** [AddInfoElement] of [baseInfoElement]: replaces the element. *)
Definition BaseAddInfoElement (e : InfoElementWithValue) (infoElement : InfoElement)
    : InfoElementWithValue :=
  match e with
  | Unsigned8InfoElement _ v => Unsigned8InfoElement infoElement v
  | Unsigned16InfoElement _ v => Unsigned16InfoElement infoElement v
  | Unsigned32InfoElement _ v => Unsigned32InfoElement infoElement v
  | Unsigned64InfoElement _ v => Unsigned64InfoElement infoElement v
  | Signed8InfoElement _ v => Signed8InfoElement infoElement v
  | Signed16InfoElement _ v => Signed16InfoElement infoElement v
  | Signed32InfoElement _ v => Signed32InfoElement infoElement v
  | Signed64InfoElement _ v => Signed64InfoElement infoElement v
  | Float32InfoElement _ v => Float32InfoElement infoElement v
  | Float64InfoElement _ v => Float64InfoElement infoElement v
  | BooleanInfoElement _ v => BooleanInfoElement infoElement v
  | MacAddressInfoElement _ v => MacAddressInfoElement infoElement v
  | StringInfoElement _ v => StringInfoElement infoElement v
  | DateTimeSecondsInfoElement _ v => DateTimeSecondsInfoElement infoElement v
  | DateTimeMillisecondsInfoElement _ v => DateTimeMillisecondsInfoElement infoElement v
  | IPAddressInfoElement _ v => IPAddressInfoElement infoElement v
  end.

(** The accessors [baseInfoElement] supplies for every other type panic. *)
Definition wrong_get {A} : go A := Panic.
Definition wrong_set : go InfoElementWithValue := Panic.

Definition GetUnsigned8Value (e : InfoElementWithValue) : go Z :=
  match e with
  | Unsigned8InfoElement _ v => Ok v
  | _ => wrong_get
  end.

Definition GetUnsigned16Value (e : InfoElementWithValue) : go Z :=
  match e with
  | Unsigned16InfoElement _ v => Ok v
  | _ => wrong_get
  end.

Definition GetUnsigned32Value (e : InfoElementWithValue) : go Z :=
  match e with
  | Unsigned32InfoElement _ v => Ok v
  | DateTimeSecondsInfoElement _ v => Ok v
  | _ => wrong_get
  end.

Definition GetUnsigned64Value (e : InfoElementWithValue) : go Z :=
  match e with
  | Unsigned64InfoElement _ v => Ok v
  | DateTimeMillisecondsInfoElement _ v => Ok v
  | _ => wrong_get
  end.

Definition GetSigned8Value (e : InfoElementWithValue) : go Z :=
  match e with
  | Signed8InfoElement _ v => Ok v
  | _ => wrong_get
  end.

Definition GetSigned16Value (e : InfoElementWithValue) : go Z :=
  match e with
  | Signed16InfoElement _ v => Ok v
  | _ => wrong_get
  end.

Definition GetSigned32Value (e : InfoElementWithValue) : go Z :=
  match e with
  | Signed32InfoElement _ v => Ok v
  | _ => wrong_get
  end.

Definition GetSigned64Value (e : InfoElementWithValue) : go Z :=
  match e with
  | Signed64InfoElement _ v => Ok v
  | _ => wrong_get
  end.

Definition GetFloat32Value (e : InfoElementWithValue) : go Z :=
  match e with
  | Float32InfoElement _ v => Ok v
  | _ => wrong_get
  end.

Definition GetFloat64Value (e : InfoElementWithValue) : go Z :=
  match e with
  | Float64InfoElement _ v => Ok v
  | _ => wrong_get
  end.

Definition GetBooleanValue (e : InfoElementWithValue) : go (bool) :=
  match e with
  | BooleanInfoElement _ v => Ok v
  | _ => wrong_get
  end.

Definition GetMacAddressValue (e : InfoElementWithValue) : go (slice) :=
  match e with
  | MacAddressInfoElement _ v => Ok v
  | _ => wrong_get
  end.

Definition GetStringValue (e : InfoElementWithValue) : go (string) :=
  match e with
  | StringInfoElement _ v => Ok v
  | _ => wrong_get
  end.

Definition GetIPAddressValue (e : InfoElementWithValue) : go (slice) :=
  match e with
  | IPAddressInfoElement _ v => Ok v
  | _ => wrong_get
  end.

Definition SetUnsigned8Value (val : Z) (e : InfoElementWithValue) : go InfoElementWithValue :=
  match e with
  | Unsigned8InfoElement ie _ => Ok (Unsigned8InfoElement ie val)
  | _ => wrong_set
  end.

Definition SetUnsigned16Value (val : Z) (e : InfoElementWithValue) : go InfoElementWithValue :=
  match e with
  | Unsigned16InfoElement ie _ => Ok (Unsigned16InfoElement ie val)
  | _ => wrong_set
  end.

Definition SetUnsigned32Value (val : Z) (e : InfoElementWithValue) : go InfoElementWithValue :=
  match e with
  | Unsigned32InfoElement ie _ => Ok (Unsigned32InfoElement ie val)
  | DateTimeSecondsInfoElement ie _ => Ok (DateTimeSecondsInfoElement ie val)
  | _ => wrong_set
  end.

Definition SetUnsigned64Value (val : Z) (e : InfoElementWithValue) : go InfoElementWithValue :=
  match e with
  | Unsigned64InfoElement ie _ => Ok (Unsigned64InfoElement ie val)
  | DateTimeMillisecondsInfoElement ie _ => Ok (DateTimeMillisecondsInfoElement ie val)
  | _ => wrong_set
  end.

Definition SetSigned8Value (val : Z) (e : InfoElementWithValue) : go InfoElementWithValue :=
  match e with
  | Signed8InfoElement ie _ => Ok (Signed8InfoElement ie val)
  | _ => wrong_set
  end.

Definition SetSigned16Value (val : Z) (e : InfoElementWithValue) : go InfoElementWithValue :=
  match e with
  | Signed16InfoElement ie _ => Ok (Signed16InfoElement ie val)
  | _ => wrong_set
  end.

Definition SetSigned32Value (val : Z) (e : InfoElementWithValue) : go InfoElementWithValue :=
  match e with
  | Signed32InfoElement ie _ => Ok (Signed32InfoElement ie val)
  | _ => wrong_set
  end.

Definition SetSigned64Value (val : Z) (e : InfoElementWithValue) : go InfoElementWithValue :=
  match e with
  | Signed64InfoElement ie _ => Ok (Signed64InfoElement ie val)
  | _ => wrong_set
  end.

Definition SetFloat32Value (val : Z) (e : InfoElementWithValue) : go InfoElementWithValue :=
  match e with
  | Float32InfoElement ie _ => Ok (Float32InfoElement ie val)
  | _ => wrong_set
  end.

Definition SetFloat64Value (val : Z) (e : InfoElementWithValue) : go InfoElementWithValue :=
  match e with
  | Float64InfoElement ie _ => Ok (Float64InfoElement ie val)
  | _ => wrong_set
  end.

Definition SetBooleanValue (val : bool) (e : InfoElementWithValue) : go InfoElementWithValue :=
  match e with
  | BooleanInfoElement ie _ => Ok (BooleanInfoElement ie val)
  | _ => wrong_set
  end.

Definition SetMacAddressValue (val : slice) (e : InfoElementWithValue) : go InfoElementWithValue :=
  match e with
  | MacAddressInfoElement ie _ => Ok (MacAddressInfoElement ie val)
  | _ => wrong_set
  end.

Definition SetStringValue (val : string) (e : InfoElementWithValue) : go InfoElementWithValue :=
  match e with
  | StringInfoElement ie _ => Ok (StringInfoElement ie val)
  | _ => wrong_set
  end.

Definition SetIPAddressValue (val : slice) (e : InfoElementWithValue) : go InfoElementWithValue :=
  match e with
  | IPAddressInfoElement ie _ => Ok (IPAddressInfoElement ie val)
  | _ => wrong_set
  end.

(** [float == 0] holds for both zeroes. *)
Definition float32_is_zero (bits : Z) : bool := (bits =? 0) || (bits =? 2 ^ 31).
Definition float64_is_zero (bits : Z) : bool := (bits =? 0) || (bits =? 2 ^ 63).

Definition IsValueEmpty (e : InfoElementWithValue) : bool :=
  match e with
  | Unsigned8InfoElement _ v | Unsigned16InfoElement _ v | Unsigned32InfoElement _ v
  | Unsigned64InfoElement _ v | Signed8InfoElement _ v | Signed16InfoElement _ v
  | Signed32InfoElement _ v | Signed64InfoElement _ v
  | DateTimeSecondsInfoElement _ v | DateTimeMillisecondsInfoElement _ v => v =? 0
  | Float32InfoElement _ v => float32_is_zero v
  | Float64InfoElement _ v => float64_is_zero v
  | BooleanInfoElement _ v => negb v
  | MacAddressInfoElement _ v | IPAddressInfoElement _ v => bool_decide (v = None)
  | StringInfoElement _ v => String.eqb v ""
  end.

Definition ResetValue (e : InfoElementWithValue) : InfoElementWithValue :=
  match e with
  | Unsigned8InfoElement ie _ => Unsigned8InfoElement ie 0
  | Unsigned16InfoElement ie _ => Unsigned16InfoElement ie 0
  | Unsigned32InfoElement ie _ => Unsigned32InfoElement ie 0
  | Unsigned64InfoElement ie _ => Unsigned64InfoElement ie 0
  | Signed8InfoElement ie _ => Signed8InfoElement ie 0
  | Signed16InfoElement ie _ => Signed16InfoElement ie 0
  | Signed32InfoElement ie _ => Signed32InfoElement ie 0
  | Signed64InfoElement ie _ => Signed64InfoElement ie 0
  | Float32InfoElement ie _ => Float32InfoElement ie 0
  | Float64InfoElement ie _ => Float64InfoElement ie 0
  | BooleanInfoElement ie _ => BooleanInfoElement ie false
  | MacAddressInfoElement ie _ => MacAddressInfoElement ie None
  | StringInfoElement ie _ => StringInfoElement ie ""
  | DateTimeSecondsInfoElement ie _ => DateTimeSecondsInfoElement ie 0
  | DateTimeMillisecondsInfoElement ie _ => DateTimeMillisecondsInfoElement ie 0
  | IPAddressInfoElement ie _ => IPAddressInfoElement ie None
  end.

(** The length of a string field on the wire, with its length prefix. *)
Definition StringGetLength (value : string) : nat :=
  if decide (String.length value < 255)%nat then (String.length value + 1)%nat
  else (String.length value + 3)%nat.

Definition GetLength (e : InfoElementWithValue) : nat :=
  match e with
  | StringInfoElement _ v => StringGetLength v
  | _ => Z.to_nat (Len (GetInfoElement e))
  end.

(** ** Values of type [interface{}] *)
Inductive GoVal : Type :=
| VUint8 (v : Z) | VUint16 (v : Z) | VUint32 (v : Z) | VUint64 (v : Z)
| VInt8 (v : Z) | VInt16 (v : Z) | VInt32 (v : Z) | VInt64 (v : Z)
| VFloat32 (bits : Z) | VFloat64 (bits : Z) | VBool (b : bool)
| VBytes (bs : slice) | VHardwareAddr (bs : slice) | VIP (bs : slice)
| VString (s : string) | VError (e : error).

#[global] Instance GoVal_eq_dec : EqDecision GoVal.
Proof. solve_decision. Defined.

(** ** ie.go: decoding one value *)

(** [decodeToIEDataType] is the reference decoder of the tests. *)
Definition decodeToIEDataType (dataType : IEDataType) (val : GoVal) : go GoVal :=
  match val with
  | VBytes bs =>
      let value := slice_bytes bs in
      match dataType with
      | Unsigned8 => VUint8 <$> get_be 1 value
      | Unsigned16 => VUint16 <$> get_be 2 value
      | Unsigned32 => VUint32 <$> get_be 4 value
      | Unsigned64 => VUint64 <$> get_be 8 value
      | Signed8 => VInt8 ∘ i8 <$> get_be 1 value
      | Signed16 => VInt16 ∘ i16 <$> get_be 2 value
      | Signed32 => VInt32 ∘ i32 <$> get_be 4 value
      | Signed64 => VInt64 ∘ i64 <$> get_be 8 value
      | Float32 => VFloat32 <$> get_be 4 value
      | Float64 => VFloat64 <$> get_be 8 value
      | Boolean => (λ b, VBool (i8 b =? 1)) <$> get_be 1 value
      | DateTimeSeconds => VUint32 <$> get_be 4 value
      | DateTimeMilliseconds => VUint64 <$> get_be 8 value
      | DateTimeMicroseconds | DateTimeNanoseconds => Err ErrTimeNotSupported
      | MacAddress => Ok (VHardwareAddr bs)
      | Ipv4Address | Ipv6Address => Ok (VIP bs)
      | StringType => Ok (VString (bytes_string value))
      | _ => Err ErrInvalidDataType
      end
  | _ => Err ErrNotBytes
  end.

(** [if value == nil { val = 0 } else { val = conv(BigEndian.Uint<8n>(value)) }]. *)
Definition num_or_zero (n : nat) (conv : Z → Z) (value : slice) : go Z :=
  match value with
  | None => Ok 0
  | Some bs => conv <$> get_be n bs
  end.

(** The branch for [Signed64] has no [else]: a nil value is read as well. *)
Definition DecodeAndCreateInfoElementWithValue (element : InfoElement) (value : slice)
    : go InfoElementWithValue :=
  match DataType element with
  | Unsigned8 => NewUnsigned8InfoElement element <$> num_or_zero 1 id value
  | Unsigned16 => NewUnsigned16InfoElement element <$> num_or_zero 2 id value
  | Unsigned32 => NewUnsigned32InfoElement element <$> num_or_zero 4 id value
  | Unsigned64 => NewUnsigned64InfoElement element <$> num_or_zero 8 id value
  | Signed8 => NewSigned8InfoElement element <$> num_or_zero 1 i8 value
  | Signed16 => NewSigned16InfoElement element <$> num_or_zero 2 i16 value
  | Signed32 => NewSigned32InfoElement element <$> num_or_zero 4 i32 value
  | Signed64 => NewSigned64InfoElement element ∘ i64 <$> get_be 8 (slice_bytes value)
  | Float32 => NewFloat32InfoElement element <$> num_or_zero 4 id value
  | Float64 => NewFloat64InfoElement element <$> num_or_zero 8 id value
  | Boolean =>
      match value with
      | None => Ok (NewBoolInfoElement element false)
      | Some bs => (λ b, NewBoolInfoElement element (i8 b =? 1)) <$> get_be 1 bs
      end
  | DateTimeSeconds => NewDateTimeSecondsInfoElement element <$> num_or_zero 4 id value
  | DateTimeMilliseconds => NewDateTimeMillisecondsInfoElement element <$> num_or_zero 8 id value
  | DateTimeMicroseconds | DateTimeNanoseconds => Err ErrTimeNotSupported
  | MacAddress => Ok (NewMacAddressInfoElement element value)
  | Ipv4Address | Ipv6Address => Ok (NewIPAddressInfoElement element value)
  | StringType => Ok (NewStringInfoElement element (bytes_string (slice_bytes value)))
  | _ => Err ErrInvalidDataType
  end.

(** ** ie.go: encoding one value *)

(** The RFC 7011 encoding of a variable-length string, shared by both encoders'
    [String] branches. *)
Definition encode_string (v : string) : go (list byte) :=
  let bs := string_bytes v in
  let n := Z.of_nat (length bs) in
  if decide (n < 255) then Ok (byte_of_Z n :: bs)
  else if decide (n <= 65535) then Ok (byte_of_Z 255 :: put_be 2 n ++ bs)
  else Err (ErrStringTooLong n).

(** [EncodeToIEDataType] is the reference encoder of the tests; the result is the
    slice of the encoded value. *)
Definition EncodeToIEDataType (dataType : IEDataType) (val : GoVal) : go slice :=
  match dataType with
  | Unsigned8 => match val with VUint8 v => Ok (Some (put_be 1 v)) | _ => Err ErrWrongGoType end
  | Unsigned16 => match val with VUint16 v => Ok (Some (put_be 2 v)) | _ => Err ErrWrongGoType end
  | Unsigned32 => match val with VUint32 v => Ok (Some (put_be 4 v)) | _ => Err ErrWrongGoType end
  | Unsigned64 => match val with VUint64 v => Ok (Some (put_be 8 v)) | _ => Err ErrWrongGoType end
  | Signed8 => match val with VInt8 v => Ok (Some (put_be 1 v)) | _ => Err ErrWrongGoType end
  | Signed16 =>
      match val with VInt16 v => Ok (Some (put_be 2 (u16 v))) | _ => Err ErrWrongGoType end
  | Signed32 =>
      match val with VInt32 v => Ok (Some (put_be 4 (u32 v))) | _ => Err ErrWrongGoType end
  | Signed64 =>
      match val with VInt64 v => Ok (Some (put_be 8 (u64 v))) | _ => Err ErrWrongGoType end
  | Float32 => match val with VFloat32 v => Ok (Some (put_be 4 v)) | _ => Err ErrWrongGoType end
  | Float64 => match val with VFloat64 v => Ok (Some (put_be 8 v)) | _ => Err ErrWrongGoType end
  | Boolean =>
      match val with
      | VBool v => Ok (Some [byte_of_Z (if v then 1 else 2)])
      | _ => Err ErrWrongGoType
      end
  | DateTimeSeconds =>
      match val with VUint32 v => Ok (Some (put_be 4 v)) | _ => Err ErrWrongGoType end
  | DateTimeMilliseconds =>
      match val with VUint64 v => Ok (Some (put_be 8 v)) | _ => Err ErrWrongGoType end
  | DateTimeMicroseconds | DateTimeNanoseconds => Err ErrTimeNotSupported
  | MacAddress => match val with VHardwareAddr v => Ok v | _ => Err ErrWrongGoType end
  | Ipv4Address =>
      match val with
      | VIP v => match To4 v with Some a => Ok (Some a) | None => Err ErrNotIPv4 end
      | _ => Err ErrWrongGoType
      end
  | Ipv6Address =>
      match val with
      | VIP v => match To16 v with Some a => Ok (Some a) | None => Err ErrNotIPv6 end
      | _ => Err ErrWrongGoType
      end
  | StringType =>
      match val with VString v => Some <$> encode_string v | _ => Err ErrWrongGoType end
  | _ => Err ErrInvalidDataType
  end.

(** The [String] branch of [encodeInfoElementValueToBuff]: the length prefix is
    stored first, then the bytes are copied behind it. *)
Definition encode_string_to_buff (v : string) (buffer : list byte) (index : nat) : go (list byte) :=
  let bs := string_bytes v in
  let n := Z.of_nat (length bs) in
  if decide (n < 255) then
    buffer ← set_byte buffer index (byte_of_Z n);
    copy_at buffer (index + 1) bs
  else if decide (n <= 65535) then
    buffer ← set_byte buffer index (byte_of_Z 255);
    buffer ← write_at buffer (index + 1) (put_be 2 n);
    copy_at buffer (index + 3) bs
  else Err (ErrStringTooLong n).

(** The result is the buffer after the call; on an error it is unchanged. *)
Definition encodeInfoElementValueToBuff (element : InfoElementWithValue) (buffer : list byte)
    (index : nat) : go (list byte) :=
  if decide (length buffer < index + GetLength element)%nat then Err ErrBufferSize else
  match GetDataType element with
  | Unsigned8 => v ← GetUnsigned8Value element; copy_range buffer index (index + 1) (put_be 1 v)
  | Unsigned16 => v ← GetUnsigned16Value element; write_at buffer index (put_be 2 v)
  | Unsigned32 => v ← GetUnsigned32Value element; write_at buffer index (put_be 4 v)
  | Unsigned64 => v ← GetUnsigned64Value element; write_at buffer index (put_be 8 v)
  | Signed8 => v ← GetSigned8Value element; copy_range buffer index (index + 1) (put_be 1 v)
  | Signed16 => v ← GetSigned16Value element; write_at buffer index (put_be 2 (u16 v))
  | Signed32 => v ← GetSigned32Value element; write_at buffer index (put_be 4 (u32 v))
  | Signed64 => v ← GetSigned64Value element; write_at buffer index (put_be 8 (u64 v))
  | Float32 => v ← GetFloat32Value element; write_at buffer index (put_be 4 v)
  | Float64 => v ← GetFloat64Value element; write_at buffer index (put_be 8 v)
  | Boolean =>
      v ← GetBooleanValue element;
      copy_range buffer index (index + 1) [byte_of_Z (if (v : bool) then 1 else 2)]
  | DateTimeSeconds => v ← GetUnsigned32Value element; write_at buffer index (put_be 4 v)
  | DateTimeMilliseconds => v ← GetUnsigned64Value element; write_at buffer index (put_be 8 v)
  | DateTimeMicroseconds | DateTimeNanoseconds => Err ErrTimeNotSupported
  | MacAddress => v ← GetMacAddressValue element; copy_at buffer index (slice_bytes v)
  | Ipv4Address =>
      v ← GetIPAddressValue element;
      match To4 v with
      | Some a => copy_at buffer index a
      | None => Err ErrNotIPv4
      end
  | Ipv6Address =>
      v ← GetIPAddressValue element;
      match To16 v with
      | Some a => copy_at buffer index a
      | None => Err ErrNotIPv6
      end
  | StringType => v ← GetStringValue element; encode_string_to_buff v buffer index
  | _ => Err ErrInvalidDataType
  end.

(** The value of an element as [interface{}], read through the accessor that its
    data type selects (the [switch] of [GetElementMap]). *)
Definition element_value (e : InfoElementWithValue) : go GoVal :=
  match GetDataType e with
  | Unsigned8 => VUint8 <$> GetUnsigned8Value e
  | Unsigned16 => VUint16 <$> GetUnsigned16Value e
  | Unsigned32 => VUint32 <$> GetUnsigned32Value e
  | Unsigned64 => VUint64 <$> GetUnsigned64Value e
  | Signed8 => VInt8 <$> GetSigned8Value e
  | Signed16 => VInt16 <$> GetSigned16Value e
  | Signed32 => VInt32 <$> GetSigned32Value e
  | Signed64 => VInt64 <$> GetSigned64Value e
  | Float32 => VFloat32 <$> GetFloat32Value e
  | Float64 => VFloat64 <$> GetFloat64Value e
  | Boolean => VBool <$> GetBooleanValue e
  | DateTimeSeconds => VUint32 <$> GetUnsigned32Value e
  | DateTimeMilliseconds => VUint64 <$> GetUnsigned64Value e
  | DateTimeMicroseconds | DateTimeNanoseconds => Err ErrTimeNotSupported
  | MacAddress => VHardwareAddr <$> GetMacAddressValue e
  | Ipv4Address | Ipv6Address => VIP <$> GetIPAddressValue e
  | StringType => VString <$> GetStringValue e
  | _ => Err ErrInvalidDataType
  end.

(** The struct type of an element is the one of its data type. *)
Definition typed (e : InfoElementWithValue) : bool :=
  match e, GetDataType e with
  | Unsigned8InfoElement _ _, Unsigned8
  | Unsigned16InfoElement _ _, Unsigned16
  | Unsigned32InfoElement _ _, Unsigned32
  | Unsigned64InfoElement _ _, Unsigned64
  | Signed8InfoElement _ _, Signed8
  | Signed16InfoElement _ _, Signed16
  | Signed32InfoElement _ _, Signed32
  | Signed64InfoElement _ _, Signed64
  | Float32InfoElement _ _, Float32
  | Float64InfoElement _ _, Float64
  | BooleanInfoElement _ _, Boolean
  | MacAddressInfoElement _ _, MacAddress
  | StringInfoElement _ _, StringType
  | DateTimeSecondsInfoElement _ _, DateTimeSeconds
  | DateTimeMillisecondsInfoElement _ _, DateTimeMilliseconds
  | IPAddressInfoElement _ _, (Ipv4Address | Ipv6Address) => true
  | _, _ => false
  end.

(** ** Specification

    An element is well formed when its concrete type fits its data type, its
    value is in the range of that type, and its length is the type's length. *)
Definition wf_fields (e : InfoElementWithValue) : Prop :=
  let t := GetDataType e in
  match e with
  | Unsigned8InfoElement _ v => t = Unsigned8 ∧ in_u 8 v
  | Unsigned16InfoElement _ v => t = Unsigned16 ∧ in_u 16 v
  | Unsigned32InfoElement _ v => (t = Unsigned32 ∨ t = DateTimeSeconds) ∧ in_u 32 v
  | Unsigned64InfoElement _ v => (t = Unsigned64 ∨ t = DateTimeMilliseconds) ∧ in_u 64 v
  | Signed8InfoElement _ v => t = Signed8 ∧ in_i 8 v
  | Signed16InfoElement _ v => t = Signed16 ∧ in_i 16 v
  | Signed32InfoElement _ v => t = Signed32 ∧ in_i 32 v
  | Signed64InfoElement _ v => t = Signed64 ∧ in_i 64 v
  | Float32InfoElement _ v => t = Float32 ∧ in_u 32 v
  | Float64InfoElement _ v => t = Float64 ∧ in_u 64 v
  | BooleanInfoElement _ _ => t = Boolean
  | MacAddressInfoElement _ v => t = MacAddress ∧ length (slice_bytes v) = 6%nat
  | StringInfoElement _ v => t = StringType ∧ Z.of_nat (String.length v) <= 65535
  | DateTimeSecondsInfoElement _ v => (t = Unsigned32 ∨ t = DateTimeSeconds) ∧ in_u 32 v
  | DateTimeMillisecondsInfoElement _ v =>
      (t = Unsigned64 ∨ t = DateTimeMilliseconds) ∧ in_u 64 v
  | IPAddressInfoElement _ v =>
      (t = Ipv4Address ∧ is_Some (To4 v)) ∨ (t = Ipv6Address ∧ is_Some (To16 v))
  end.

Definition wf_element (e : InfoElementWithValue) : Prop :=
  Len (GetInfoElement e) = InfoElementLength (GetDataType e) ∧ wf_fields e.

#[global] Instance wf_element_dec e : Decision (wf_element e).
Proof. unfold wf_element, wf_fields. destruct e; simpl; apply _. Defined.

(** What an element looks like after a trip over the wire: the struct type is the
    one of its data type, addresses have their family's length. *)
Definition canonical (e : InfoElementWithValue) : InfoElementWithValue :=
  let ie := GetInfoElement e in
  match e, GetDataType e with
  | (Unsigned32InfoElement _ v | DateTimeSecondsInfoElement _ v), Unsigned32 =>
      Unsigned32InfoElement ie v
  | (Unsigned32InfoElement _ v | DateTimeSecondsInfoElement _ v), DateTimeSeconds =>
      DateTimeSecondsInfoElement ie v
  | (Unsigned64InfoElement _ v | DateTimeMillisecondsInfoElement _ v), Unsigned64 =>
      Unsigned64InfoElement ie v
  | (Unsigned64InfoElement _ v | DateTimeMillisecondsInfoElement _ v), DateTimeMilliseconds =>
      DateTimeMillisecondsInfoElement ie v
  | IPAddressInfoElement _ v, Ipv4Address => IPAddressInfoElement ie (To4 v)
  | IPAddressInfoElement _ v, Ipv6Address => IPAddressInfoElement ie (To16 v)
  | _, _ => e
  end.

(** The value's bytes, without the length prefix of a string. *)
Definition payload (e : InfoElementWithValue) : list byte :=
  match e with
  | Unsigned8InfoElement _ v | Signed8InfoElement _ v => put_be 1 v
  | Unsigned16InfoElement _ v | Signed16InfoElement _ v => put_be 2 v
  | Unsigned32InfoElement _ v | Signed32InfoElement _ v | Float32InfoElement _ v
  | DateTimeSecondsInfoElement _ v => put_be 4 v
  | Unsigned64InfoElement _ v | Signed64InfoElement _ v | Float64InfoElement _ v
  | DateTimeMillisecondsInfoElement _ v => put_be 8 v
  | BooleanInfoElement _ v => [byte_of_Z (if v then 1 else 2)]
  | MacAddressInfoElement _ v => slice_bytes v
  | StringInfoElement _ v => string_bytes v
  | IPAddressInfoElement _ v =>
      match GetDataType e with
      | Ipv4Address => slice_bytes (To4 v)
      | _ => slice_bytes (To16 v)
      end
  end.

(** The variable-length prefix of RFC 7011, section 7. *)
Definition var_prefix (n : Z) : list byte :=
  if decide (n < 255) then [byte_of_Z n] else byte_of_Z 255 :: put_be 2 n.

(** The bytes an element has on the wire. *)
Definition wire (e : InfoElementWithValue) : list byte :=
  match e with
  | StringInfoElement _ v => var_prefix (Z.of_nat (length (string_bytes v))) ++ string_bytes v
  | _ => payload e
  end.

(** ** Lemmas: strings and addresses *)

Lemma length_string_bytes s : length (string_bytes s) = String.length s.
Proof. induction s; simpl; [done|]. by f_equal. Qed.
#[export] Hint Rewrite length_string_bytes : len.

Lemma bytes_string_bytes s : bytes_string (string_bytes s) = s.
Proof. apply String.string_of_list_byte_of_string. Qed.

Lemma To4_length ip a : To4 ip = Some a → length a = 4%nat.
Proof.
  unfold To4. repeat case_decide; intros; simplify_eq; [done|]. rewrite length_drop. lia.
Qed.

Lemma To16_length ip a : To16 ip = Some a → length a = 16%nat.
Proof.
  unfold To16. repeat case_decide; intros; simplify_eq; [|done].
  rewrite length_app. unfold v4InV6Prefix. simpl. lia.
Qed.

Lemma To4_To4 ip a : To4 ip = Some a → To4 (Some a) = Some a.
Proof. intros E. apply To4_length in E. unfold To4. simpl. by rewrite decide_True. Qed.

Lemma To16_To16 ip a : To16 ip = Some a → To16 (Some a) = Some a.
Proof.
  intros E. apply To16_length in E. unfold To16. simpl.
  rewrite decide_False by lia. by rewrite decide_True.
Qed.

(** An IPv4 address keeps its value through its 16-byte form. *)
Lemma To4_To16 ip a : To4 ip = Some a → To4 (To16 ip) = Some a.
Proof.
  unfold To4 at 1, To16. set (bs := slice_bytes ip).
  case_decide as H4; [|case_decide as H16; [|done]]; intros [= <-].
  - unfold To4. rewrite slice_bytes_Some, length_app, H4.
    rewrite decide_False by done. rewrite decide_True by done. done.
  - rewrite decide_True by tauto. unfold To4. rewrite slice_bytes_Some.
    rewrite decide_False by lia. by rewrite decide_True.
Qed.

(** ** Lemmas: the length of an element on the wire *)

Lemma length_var_prefix n : length (var_prefix n) = if decide (n < 255) then 1%nat else 3%nat.
Proof. unfold var_prefix. by case_decide. Qed.

(** Case analysis on a well-formed element: one goal per struct type and data
    type that fit each other. *)
Ltac wf_cases :=
  match goal with H : wf_element ?e |- _ =>
    let Hlen := fresh "Hlen" in let Hwf := fresh "Hwf" in
    destruct H as [Hlen Hwf]; unfold wf_fields in Hwf;
    destruct e as [ie v|ie v|ie v|ie v|ie v|ie v|ie v|ie v|ie v|ie v|ie v|ie v|ie v|ie v|ie v|ie v];
    unfold GetDataType in *; cbn [GetInfoElement] in *;
    repeat match goal with
    | H : _ ∧ _ |- _ => destruct H
    | H : _ ∨ _ |- _ => destruct H
    end;
    match goal with Ht : DataType _ = _ |- _ =>
      rewrite Ht in Hlen; try rewrite Ht; rename Ht into Htype
    end
  end.

Lemma length_wire e : wf_element e → length (wire e) = GetLength e.
Proof.
  intros Hwf. wf_cases; unfold GetLength; cbn [GetInfoElement wire payload];
    rewrite ?Hlen; try done.
  - rewrite length_app, length_var_prefix, length_string_bytes.
    unfold StringGetLength. repeat case_decide; lia.
  - unfold GetDataType. cbn [GetInfoElement]. rewrite Htype.
    destruct H0 as [a Ha]. rewrite Ha. by apply To4_length in Ha.
  - unfold GetDataType. cbn [GetInfoElement]. rewrite Htype.
    destruct H0 as [a Ha]. rewrite Ha. by apply To16_length in Ha.
Qed.

(** Only strings have a variable length. *)
Lemma wf_variable e :
  wf_element e → Len (GetInfoElement e) = VariableLength →
  ∃ ie v, e = StringInfoElement ie v ∧ Z.of_nat (String.length v) <= 65535.
Proof. intros Hwf. wf_cases; cbn [GetInfoElement]; rewrite Hlen; try discriminate; eauto. Qed.

Lemma wf_fixed e :
  wf_element e → Len (GetInfoElement e) ≠ VariableLength →
  wire e = payload e ∧ GetLength e = Z.to_nat (Len (GetInfoElement e)).
Proof.
  intros Hwf. unfold GetLength.
  wf_cases; cbn [GetInfoElement]; rewrite Hlen; intros HV; done.
Qed.

Lemma wire_nonempty e : wf_element e → (0 < GetLength e)%nat.
Proof.
  intros Hwf. unfold GetLength. wf_cases; cbn [GetInfoElement]; rewrite ?Hlen;
    try (apply Nat.ltb_lt; reflexivity).
  unfold StringGetLength. case_decide; lia.
Qed.

(** ** Lemmas: encoding *)

Lemma encode_string_to_buff_app v pre mid post :
  Z.of_nat (String.length v) <= 65535 →
  length mid = StringGetLength v →
  encode_string_to_buff v (pre ++ mid ++ post) (length pre) =
    Ok (pre ++ (var_prefix (Z.of_nat (length (string_bytes v))) ++ string_bytes v) ++ post).
Proof.
  intros Hv Hmid. unfold encode_string_to_buff, var_prefix, StringGetLength, set_byte in *.
  rewrite length_string_bytes. case_decide as Hs; case_decide as Hs'; try lia.
  - destruct mid as [|b mid]; [simpl in Hmid; lia|].
    change (pre ++ (b :: mid) ++ post) with (pre ++ [b] ++ (mid ++ post)).
    rewrite write_at_app by done. cbn [mbind go_bind].
    rewrite (app_assoc pre [_]).
    replace (length pre + 1)%nat with (length (pre ++ [byte_of_Z (Z.of_nat (String.length v))]))
      by len.
    rewrite copy_at_app by (simpl in *; len). by rewrite <- app_assoc.
  - rewrite decide_True by lia.
    destruct mid as [|b0 [|b1 [|b2 mid]]]; try (simpl in Hmid; lia).
    change (pre ++ (b0 :: b1 :: b2 :: mid) ++ post)
      with (pre ++ [b0] ++ ([b1; b2] ++ mid ++ post)).
    rewrite write_at_app by done. cbn [mbind go_bind].
    rewrite (app_assoc pre [_]).
    replace (length pre + 1)%nat with (length (pre ++ [byte_of_Z 255])) by len.
    rewrite write_at_app by done. cbn [mbind go_bind].
    rewrite (app_assoc (pre ++ _) (put_be _ _)).
    replace (length pre + 3)%nat
      with (length ((pre ++ [byte_of_Z 255]) ++ put_be 2 (Z.of_nat (String.length v)))) by len.
    rewrite copy_at_app by (simpl in *; len). f_equal.
    change (byte_of_Z 255 :: ?x) with ([byte_of_Z 255] ++ x). by rewrite <- !app_assoc.
Qed.

Lemma put_be_u16 v : put_be 2 (u16 v) = put_be 2 v.
Proof. exact (put_be_mod 2 v). Qed.
Lemma put_be_u32 v : put_be 4 (u32 v) = put_be 4 v.
Proof. exact (put_be_mod 4 v). Qed.
Lemma put_be_u64 v : put_be 8 (u64 v) = put_be 8 v.
Proof. exact (put_be_mod 8 v). Qed.
Create Rewrite HintDb put_be.
#[export] Hint Rewrite put_be_u16 put_be_u32 put_be_u64 : put_be.

(** The encoder writes exactly the element's wire bytes into its slot, and
    nothing else. *)
Lemma encode_element_app e pre mid post :
  wf_element e → length mid = GetLength e →
  encodeInfoElementValueToBuff e (pre ++ mid ++ post) (length pre) = Ok (pre ++ wire e ++ post).
Proof.
  intros Hwf Hmid. pose proof (length_wire e Hwf) as Hw.
  unfold encodeInfoElementValueToBuff. rewrite decide_False by len.
  rewrite <- Hw in Hmid. clear Hw.
  wf_cases; cbn [mbind go_bind GetUnsigned8Value GetUnsigned16Value GetUnsigned32Value
    GetUnsigned64Value GetSigned8Value GetSigned16Value GetSigned32Value GetSigned64Value
    GetFloat32Value GetFloat64Value GetBooleanValue GetMacAddressValue GetIPAddressValue
    GetStringValue wire payload] in *; autorewrite with put_be;
    try (by rewrite write_at_app); try (by rewrite copy_range_app by len); try (by rewrite copy_at_app).
  - rewrite encode_string_to_buff_app; [done|done|]. rewrite Hmid.
    rewrite length_app, length_var_prefix, length_string_bytes.
    unfold StringGetLength. repeat case_decide; lia.
  - unfold GetDataType in *. cbn [GetInfoElement] in *. rewrite Htype in *.
    destruct (To4 v); [by rewrite copy_at_app|by destruct H0].
  - unfold GetDataType in *. cbn [GetInfoElement] in *. rewrite Htype in *.
    destruct (To16 v); [by rewrite copy_at_app|by destruct H0].
Qed.

(** The two encoders agree: what the slot encoder writes is what the reference
    encoder returns for the element's value. *)
Lemma reference_encoder_wire e :
  wf_element e →
  ∃ val, element_value e = Ok val ∧ EncodeToIEDataType (GetDataType e) val = Ok (Some (wire e)).
Proof.
  intros Hwf. unfold element_value, EncodeToIEDataType.
  wf_cases; unfold GetDataType; cbn [GetInfoElement]; rewrite ?Htype;
    eexists; (split; [reflexivity|]); cbn [wire payload]; autorewrite with put_be; try done.
  - destruct v; [done|]. simpl in *. lia.
  - unfold encode_string, var_prefix. rewrite length_string_bytes.
    case_decide; [done|]. rewrite decide_True by done. done.
  - unfold GetDataType. cbn [GetInfoElement]. rewrite Htype. by destruct H0 as [a ->].
  - unfold GetDataType. cbn [GetInfoElement]. rewrite Htype. by destruct H0 as [a ->].
Qed.

(** ** Lemmas: decoding *)

Lemma num_or_zero_u n v :
  in_u (8 * Z.of_nat n) v → num_or_zero n id (Some (put_be n v)) = Ok v.
Proof.
  intros Hv. unfold num_or_zero. rewrite <- (app_nil_r (put_be n v)).
  by rewrite get_put_be.
Qed.

Lemma get_be_signed n v :
  (0 < n)%nat → in_i (8 * Z.of_nat n) v →
  to_signed (8 * Z.of_nat n) <$> get_be n (put_be n v) = Ok v.
Proof.
  intros Hn Hv. rewrite get_be_exact by len. rewrite be_val_put_be.
  cbn [fmap go_fmap]. rewrite to_signed_mod; [done|lia|done].
Qed.

Lemma num_or_zero_i8 v : in_i 8 v → num_or_zero 1 i8 (Some (put_be 1 v)) = Ok v.
Proof. intros. by apply (get_be_signed 1); [lia|]. Qed.
Lemma num_or_zero_i16 v : in_i 16 v → num_or_zero 2 i16 (Some (put_be 2 v)) = Ok v.
Proof. intros. by apply (get_be_signed 2); [lia|]. Qed.
Lemma num_or_zero_i32 v : in_i 32 v → num_or_zero 4 i32 (Some (put_be 4 v)) = Ok v.
Proof. intros. by apply (get_be_signed 4); [lia|]. Qed.
Lemma get_be_i64 {A} (f : Z → A) v : in_i 64 v → f ∘ i64 <$> get_be 8 (put_be 8 v) = Ok (f v).
Proof.
  intros H. pose proof (get_be_signed 8 v ltac:(lia) H) as E.
  change (8 * Z.of_nat 8) with 64 in E. fold i64 in E.
  destruct (get_be 8 (put_be 8 v)); cbn [fmap go_fmap] in *; simplify_eq. done.
Qed.

(** Decoding an element's payload gives the element back in canonical form. *)
Lemma decode_payload e :
  wf_element e →
  DecodeAndCreateInfoElementWithValue (GetInfoElement e) (Some (payload e)) = Ok (canonical e).
Proof.
  intros Hwf. unfold DecodeAndCreateInfoElementWithValue, canonical.
  wf_cases; unfold GetDataType; cbn [GetInfoElement payload slice_bytes from_option id];
    rewrite ?Htype;
    rewrite ?num_or_zero_u, ?num_or_zero_i8, ?num_or_zero_i16, ?num_or_zero_i32, ?get_be_i64 by done;
    try done.
  - by destruct v.
  - by destruct v; [|simpl in *; lia].
  - by rewrite bytes_string_bytes.
  - unfold GetDataType. cbn [GetInfoElement]. rewrite Htype. by destruct H0 as [a ->].
  - unfold GetDataType. cbn [GetInfoElement]. rewrite Htype. by destruct H0 as [a ->].
Qed.

Lemma canonical_element e : GetInfoElement (canonical e) = GetInfoElement e.
Proof. unfold canonical. destruct e; simpl; repeat case_match; done. Qed.

Lemma canonical_wf e : wf_element e → wf_element (canonical e) ∧ wire (canonical e) = wire e.
Proof.
  intros Hwf. unfold canonical, wf_element, wf_fields.
  wf_cases; unfold GetDataType; cbn [GetInfoElement wire payload]; rewrite ?Htype;
    cbn [GetInfoElement]; rewrite ?Htype; auto 7.
  - unfold GetDataType; cbn [GetInfoElement]; rewrite Htype.
    destruct H0 as [a Ha]. rewrite Ha, (To4_To4 v a) by done. split; [|done]. eauto 6.
  - unfold GetDataType; cbn [GetInfoElement]; rewrite Htype.
    destruct H0 as [a Ha]. rewrite Ha, (To16_To16 v a) by done. split; [|done]. eauto 6.
Qed.

Lemma canonical_idemp e : wf_element e → canonical (canonical e) = canonical e.
Proof.
  intros Hwf. unfold canonical at 2 3.
  wf_cases; unfold GetDataType; cbn [GetInfoElement]; rewrite ?Htype; unfold canonical, GetDataType;
    cbn [GetInfoElement]; rewrite ?Htype; try done.
  - destruct H0 as [a Ha]. by rewrite Ha, (To4_To4 v a).
  - destruct H0 as [a Ha]. by rewrite Ha, (To16_To16 v a).
Qed.

(** A template's elements carry no value; decoding a nil value creates them. The
    types the code cannot create one for, or panics on, are the exceptions. *)
Definition template_type (t : IEDataType) : bool :=
  match t with
  | OctetArray | Signed64 | DateTimeMicroseconds | DateTimeNanoseconds
  | BasicList | SubTemplateList | SubTemplateMultiList | InvalidDataType => false
  | _ => true
  end.

Lemma decode_nil ie :
  template_type (DataType ie) = true →
  ∃ e, DecodeAndCreateInfoElementWithValue ie None = Ok e ∧
       GetInfoElement e = ie ∧ IsValueEmpty e = true.
Proof.
  unfold DecodeAndCreateInfoElementWithValue.
  destruct (DataType ie); try discriminate; intros _; eexists; by split_and!.
Qed.

Lemma decode_nil_signed64 ie :
  DataType ie = Signed64 → DecodeAndCreateInfoElementWithValue ie None = Panic.
Proof. unfold DecodeAndCreateInfoElementWithValue. by intros ->. Qed.

Lemma decode_element ie value e :
  DecodeAndCreateInfoElementWithValue ie value = Ok e → GetInfoElement e = ie.
Proof.
  unfold DecodeAndCreateInfoElementWithValue, num_or_zero.
  destruct (DataType ie), value; try done;
    unfold fmap, go_fmap; repeat case_match; intros; by simplify_eq.
Qed.

(** ** Lemmas: nothing here blocks *)

Lemma decode_not_block ie v : DecodeAndCreateInfoElementWithValue ie v ≠ Block.
Proof.
  unfold DecodeAndCreateInfoElementWithValue, num_or_zero.
  destruct (DataType ie), v; auto with live.
Qed.

Lemma encode_string_to_buff_not_block v buf i : encode_string_to_buff v buf i ≠ Block.
Proof. unfold encode_string_to_buff. repeat case_decide; auto 6 with live. Qed.

Lemma encode_not_block e buf i : encodeInfoElementValueToBuff e buf i ≠ Block.
Proof.
  pose proof encode_string_to_buff_not_block. unfold encodeInfoElementValueToBuff.
  case_decide; [done|]. destruct (GetDataType e); auto with live;
    (apply go_bind_not_block; [by destruct e|intros a; auto with live]);
    [destruct (To4 a)|destruct (To16 a)]; auto with live.
Qed.

Lemma element_value_not_block e : element_value e ≠ Block.
Proof. unfold element_value. destruct (GetDataType e); try done; by destruct e. Qed.
#[export] Hint Resolve decode_not_block encode_not_block element_value_not_block : live.

(** ** Properties *)

(** Concrete elements the witnesses evaluate on. *)
Definition example_octets : InfoElementWithValue :=
  Unsigned64InfoElement (NewInfoElement "octetDeltaCount" 1 Unsigned64 0 8) 1000.
Definition example_pod : InfoElementWithValue :=
  StringInfoElement (NewInfoElement "sourcePodName" 101 StringType 56506 65535) "pod1".
Definition example_addr : InfoElementWithValue :=
  IPAddressInfoElement (NewInfoElement "sourceIPv4Address" 8 Ipv4Address 0 4)
    (Some [byte_of_Z 10; byte_of_Z 0; byte_of_Z 0; byte_of_Z 1]).

(** C30: the slot encoder [encodeInfoElementValueToBuff] and the reference encoder
    [EncodeToIEDataType] agree.  For a well-formed element whose slot starts at
    [length pre] in the buffer, the slot encoder succeeds, leaves every byte
    outside the slot alone, and the bytes it leaves in the slot are the ones the
    reference encoder returns for the element's value. *)
Theorem encoders_agree e pre mid post :
  wf_element e → length mid = GetLength e →
  ∃ val enc,
    element_value e = Ok val ∧
    EncodeToIEDataType (GetDataType e) val = Ok (Some enc) ∧
    length enc = GetLength e ∧
    encodeInfoElementValueToBuff e (pre ++ mid ++ post) (length pre) = Ok (pre ++ enc ++ post).
Proof.
  intros Hwf Hmid. destruct (reference_encoder_wire e Hwf) as (val & Hv & He).
  exists val, (wire e). split_and!; [done|done|by apply length_wire|by apply encode_element_app].
Qed.

Lemma encoders_agree_witness :
  ∃ val enc, element_value example_pod = Ok val ∧
    EncodeToIEDataType (GetDataType example_pod) val = Ok (Some enc) ∧
    length enc = GetLength example_pod ∧
    encodeInfoElementValueToBuff example_pod ([Byte.xff] ++ replicate 5 Byte.x00 ++ [Byte.xff]) 1 =
      Ok ([Byte.xff] ++ enc ++ [Byte.xff]).
Proof.
  apply (encoders_agree example_pod [Byte.xff] (replicate 5 Byte.x00) [Byte.xff]).
  - apply (bool_decide_unpack _). vm_compute. exact I.
  - reflexivity.
Defined.

(** The collector's decoder and the reference decoder agree on every value that
    is not nil: decoding to an element and reading its value through the accessor
    of its data type is [decodeToIEDataType], errors and panics included. *)
Theorem decoders_agree ie bs :
  decodeToIEDataType (DataType ie) (VBytes (Some bs)) =
  (e ← DecodeAndCreateInfoElementWithValue ie (Some bs); element_value e).
Proof.
  unfold decodeToIEDataType, DecodeAndCreateInfoElementWithValue, num_or_zero, element_value,
    slice_bytes, GetDataType. unfold_new.
  destruct (DataType ie) eqn:Ht; cbn [mbind go_bind fmap go_fmap default from_option id];
    try (destruct (get_be _ bs)); cbn [mbind go_bind fmap go_fmap compose GetInfoElement]; rewrite ?Ht; try done.
Qed.

(** What decoding a nil value, the way template elements are created, does for
    every data type: a supported type gives an element without a value, [Signed64]
    panics for want of a nil check, and the types the library does not support are
    errors. *)
Theorem template_element_created ie :
  match DecodeAndCreateInfoElementWithValue ie None with
  | Ok e => template_type (DataType ie) = true ∧ GetInfoElement e = ie ∧ IsValueEmpty e = true
  | Err _ => template_type (DataType ie) = false ∧ DataType ie ≠ Signed64
  | Panic => DataType ie = Signed64
  | Block => False
  end.
Proof.
  unfold DecodeAndCreateInfoElementWithValue. destruct (DataType ie) eqn:Ht; done.
Qed.

(** A pair of accessors of the interface [InfoElementWithValue]. *)
Record accessor (A : Type) : Type := mkAccessor {
  acc_get : InfoElementWithValue → go A;
  acc_set : A → InfoElementWithValue → go InfoElementWithValue;
}.
Arguments mkAccessor {A} acc_get acc_set.
Arguments acc_get {A} a e.
Arguments acc_set {A} a v e.

(** The accessors of numeric values. *)
Definition number_accessors : list (accessor Z) :=
  [mkAccessor GetUnsigned8Value SetUnsigned8Value; mkAccessor GetUnsigned16Value SetUnsigned16Value;
   mkAccessor GetUnsigned32Value SetUnsigned32Value;
   mkAccessor GetUnsigned64Value SetUnsigned64Value;
   mkAccessor GetSigned8Value SetSigned8Value; mkAccessor GetSigned16Value SetSigned16Value;
   mkAccessor GetSigned32Value SetSigned32Value; mkAccessor GetSigned64Value SetSigned64Value;
   mkAccessor GetFloat32Value SetFloat32Value; mkAccessor GetFloat64Value SetFloat64Value].

(** The accessors of addresses. *)
Definition address_accessors : list (accessor slice) :=
  [mkAccessor GetMacAddressValue SetMacAddressValue; mkAccessor GetIPAddressValue SetIPAddressValue].

(** A setter works on exactly the elements its getter works on, panics on the
    others, and is read back, on the same information element. *)
Definition accessor_law {A} (a : accessor A) : Prop :=
  ∀ e v,
    match acc_get a e with
    | Ok _ => ∃ e', acc_set a v e = Ok e' ∧ acc_get a e' = Ok v ∧ GetInfoElement e' = GetInfoElement e
    | _ => acc_get a e = Panic ∧ acc_set a v e = Panic
    end.

Ltac accessor_cases := let e := fresh "e" in intros e ?; destruct e; simpl; eauto.

(** Every typed accessor pair of [InfoElementWithValue] obeys the accessor law:
    the setter and the getter of a type accept the same elements, and panic on
    every other (the methods inherited from [baseInfoElement]); a value that was
    set is read back, and the information element is kept. *)
Theorem accessors_lawful :
  Forall accessor_law number_accessors ∧ Forall accessor_law address_accessors ∧
  accessor_law (mkAccessor GetBooleanValue SetBooleanValue) ∧
  accessor_law (mkAccessor GetStringValue SetStringValue).
Proof.
  split_and!; [repeat constructor; accessor_cases|repeat constructor; accessor_cases|accessor_cases|accessor_cases].
Qed.
