(* ===== verification/Records.v ===== *)
(** * Data and template records

    src/pkg/entities/record.go.  The Go interface [Record] is the sum type
    [IPFIXRecord]; [baseRecord] is the state both kinds share.  An entry [None]
    of [orderedElementList] is Go's nil interface value, which [make] fills the
    list with and which panics when a method is called on it. *)

From Stdlib Require Import ZArith Lia.
From Stdlib.Strings Require Import Byte.
From stdpp Require Import base gmap strings list numbers.
From S2P Require Import Prelude Bytes InfoElement.

#[local] Open Scope Z_scope.

Record baseRecord : Type := mkBaseRecord {
  buffer : list byte;
  fieldCount : Z;
  templateID : Z;
  orderedElementList : list (option InfoElementWithValue);
  isDecoding : bool;
  len : nat;
}.

Abbreviation dataRecord := baseRecord.

Record templateRecord : Type := mkTemplateRecord {
  t_base : baseRecord;
  minDataRecLength : Z;
  index : nat;
}.

Inductive IPFIXRecord : Type :=
| DataRecord (d : dataRecord)
| TemplateRecord (t : templateRecord).

#[global] Instance baseRecord_eq_dec : EqDecision baseRecord.
Proof. solve_decision. Defined.
#[global] Instance templateRecord_eq_dec : EqDecision templateRecord.
Proof. solve_decision. Defined.
#[global] Instance IPFIXRecord_eq_dec : EqDecision IPFIXRecord.
Proof. solve_decision. Defined.

(** [numExtraElements] is only spare capacity of the element slice. *)
Definition NewDataRecord (id : Z) (numElements numExtraElements : nat) (isDecoding : bool)
    : dataRecord :=
  {| buffer := []; fieldCount := 0; templateID := id;
     orderedElementList := replicate numElements None;
     isDecoding := isDecoding; len := 0 |}.

Definition NewTemplateRecord (id : Z) (numElements : nat) (isDecoding : bool) : templateRecord :=
  {| t_base :=
       {| buffer := replicate 4 Byte.x00; fieldCount := u16 (Z.of_nat numElements);
          templateID := id; orderedElementList := replicate numElements None;
          isDecoding := isDecoding; len := 0 |};
     minDataRecLength := 0; index := 0 |}.

Definition base_of (r : IPFIXRecord) : baseRecord :=
  match r with DataRecord d => d | TemplateRecord t => t_base t end.

Definition GetTemplateID (r : IPFIXRecord) : Z := templateID (base_of r).
Definition GetFieldCount (r : IPFIXRecord) : Z := fieldCount (base_of r).
Definition GetOrderedElementList (r : IPFIXRecord) : list (option InfoElementWithValue) :=
  orderedElementList (base_of r).

(** The first element of that name and its position. *)
Fixpoint find_element (name : string) (i : nat) (l : list (option InfoElementWithValue))
    : go (option (InfoElementWithValue * nat)) :=
  match l with
  | [] => Ok None
  | None :: _ => Panic
  | Some e :: l => if String.eqb (GetName e) name then Ok (Some (e, i)) else find_element name (S i) l
  end.

Definition GetInfoElementWithValue (name : string) (b : baseRecord)
    : go (option (InfoElementWithValue * nat)) :=
  find_element name 0 (orderedElementList b).

(** One iteration of [GetElementMap]: an unsupported type is stored as an error
    value under the element's name. *)
Definition put_element (elements : gmap string GoVal) (o : option InfoElementWithValue)
    : go (gmap string GoVal) :=
  match o with
  | None => Panic
  | Some e =>
      match element_value e with
      | Ok v => Ok (<[GetName e := v]> elements)
      | Err err => Ok (<[GetName e := VError err]> elements)
      | Panic => Panic
      | Block => Block
      end
  end.

Definition GetElementMap (b : baseRecord) : go (gmap string GoVal) :=
  go_foldM put_element ∅ (orderedElementList b).

(** ** Data records *)

(** The loop of [dataRecord.GetBuffer]: an element that cannot be encoded is
    logged and its slot stays as it is. *)
Fixpoint encode_elements (l : list (option InfoElementWithValue)) (buf : list byte) (index : nat)
    : go (list byte) :=
  match l with
  | [] => Ok buf
  | None :: _ => Panic
  | Some e :: l =>
      buf' ← match encodeInfoElementValueToBuff e buf index with
             | Err _ => Ok buf
             | r => r
             end;
      encode_elements l buf' (index + GetLength e)
  end.

Definition with_buffer (buf : list byte) (d : baseRecord) : baseRecord :=
  {| buffer := buf; fieldCount := fieldCount d; templateID := templateID d;
     orderedElementList := orderedElementList d; isDecoding := isDecoding d; len := len d |}.

(** [dataRecord.GetBuffer]: the bytes and the record, which keeps them. *)
Definition DataGetBuffer (d : dataRecord) : go (list byte * dataRecord) :=
  if bool_decide (length (buffer d) = len d) || isDecoding d then Ok (buffer d, d)
  else
    buf ← encode_elements (orderedElementList d) (replicate (len d) Byte.x00) 0;
    Ok (buf, with_buffer buf d).

Definition DataAddInfoElement (d : dataRecord) (element : InfoElementWithValue) : go dataRecord :=
  let len' := if isDecoding d then len d else (len d + GetLength element)%nat in
  let l := orderedElementList d in
  let l' := if decide (Z.of_nat (length l) <= fieldCount d) then l ++ [Some element]
            else <[Z.to_nat (fieldCount d) := Some element]> l in
  Ok {| buffer := buffer d; fieldCount := u16 (fieldCount d + 1); templateID := templateID d;
        orderedElementList := l'; isDecoding := isDecoding d; len := len' |}.

(** ** Template records *)

Definition TemplatePrepareRecord (t : templateRecord) : go templateRecord :=
  buf ← write_at (buffer (t_base t)) 0 (put_be 2 (templateID (t_base t)));
  buf ← write_at buf 2 (put_be 2 (fieldCount (t_base t)));
  Ok {| t_base := with_buffer buf (t_base t); minDataRecLength := minDataRecLength t;
        index := index t |}.

(** [t.buffer[i] = t.buffer[i] | 0x80]. *)
Definition set_enterprise_bit (buf : list byte) (i : nat) : go (list byte) :=
  match buf !! i with
  | Some b => set_byte buf i (byte_of_Z (Z.lor (byte_to_Z b) 128))
  | None => Panic
  end.

Definition TemplateAddInfoElement (t : templateRecord) (element : InfoElementWithValue)
    : go templateRecord :=
  let infoElement := GetInfoElement element in
  if negb (IsValueEmpty element) then Err (ErrNonEmptyTemplateValue (Name infoElement)) else
  let b := t_base t in
  let initialLength := length (buffer b) in
  let buf := buffer b ++ put_be 2 (ElementId infoElement) ++ put_be 2 (Len infoElement) in
  buf ← (if decide (EnterpriseId infoElement ≠ 0) then
           buf ← set_enterprise_bit buf initialLength;
           Ok (buf ++ put_be 4 (EnterpriseId infoElement))
         else Ok buf);
  if decide (index t < length (orderedElementList b))%nat then
    Ok {| t_base :=
            {| buffer := buf; fieldCount := fieldCount b; templateID := templateID b;
               orderedElementList := <[index t := Some element]> (orderedElementList b);
               isDecoding := isDecoding b; len := len b |};
          minDataRecLength :=
            if decide (Len infoElement = VariableLength) then u16 (minDataRecLength t + 1)
            else u16 (minDataRecLength t + Len infoElement);
          index := S (index t) |}
  else Panic.

(** ** The [Record] interface *)

Definition PrepareRecord (r : IPFIXRecord) : go IPFIXRecord :=
  match r with
  | DataRecord d => Ok (DataRecord d)
  | TemplateRecord t => TemplateRecord <$> TemplatePrepareRecord t
  end.

Definition AddInfoElement (r : IPFIXRecord) (element : InfoElementWithValue) : go IPFIXRecord :=
  match r with
  | DataRecord d => DataRecord <$> DataAddInfoElement d element
  | TemplateRecord t => TemplateRecord <$> TemplateAddInfoElement t element
  end.

Definition GetBuffer (r : IPFIXRecord) : go (list byte * IPFIXRecord) :=
  match r with
  | DataRecord d => '(bs, d) ← DataGetBuffer d; Ok (bs, DataRecord d)
  | TemplateRecord t => Ok (buffer (t_base t), TemplateRecord t)
  end.

Definition GetRecordLength (r : IPFIXRecord) : nat :=
  match r with
  | DataRecord d => len d
  | TemplateRecord t => length (buffer (t_base t))
  end.

(** A data record has no method of its own: the call goes to the embedded nil
    interface and panics. *)
Definition GetMinDataRecordLen (r : IPFIXRecord) : go Z :=
  match r with
  | DataRecord _ => Panic
  | TemplateRecord t => Ok (minDataRecLength t)
  end.

(** ** Specification *)

(** The bytes of a list of elements. *)
Definition wires (es : list InfoElementWithValue) : list byte := flat_map wire es.

Definition total_length (es : list InfoElementWithValue) : nat := sum_list_with GetLength es.

(** The field specifier of RFC 7011, section 3.2. *)
Definition field_specifier (ie : InfoElement) : list byte :=
  if decide (EnterpriseId ie ≠ 0)
  then put_be 2 (Z.lor (ElementId ie) 32768) ++ put_be 2 (Len ie) ++ put_be 4 (EnterpriseId ie)
  else put_be 2 (ElementId ie) ++ put_be 2 (Len ie).

Definition field_specifiers (ies : list InfoElement) : list byte := flat_map field_specifier ies.

(** The shortest encoding of an element in a data record. *)
Definition min_field_len (ie : InfoElement) : Z :=
  if decide (Len ie = VariableLength) then 1 else Len ie.

Definition min_record_len (ies : list InfoElement) : Z := foldr (λ ie n, min_field_len ie + n) 0 ies.

(** ** Lemmas: data records *)

Lemma length_wires es : Forall wf_element es → length (wires es) = total_length es.
Proof.
  unfold wires, total_length.
  induction 1 as [|e es He _ IH]; simpl; [done|]. by rewrite length_app, length_wire, IH.
Qed.

Lemma wires_app es1 es2 : wires (es1 ++ es2) = wires es1 ++ wires es2.
Proof. apply flat_map_app. Qed.

(** Encoding well-formed elements one after the other fills exactly their
    slots. *)
Lemma encode_elements_app es pre mid post :
  Forall wf_element es → length mid = total_length es →
  encode_elements (Some <$> es) (pre ++ mid ++ post) (length pre) = Ok (pre ++ wires es ++ post).
Proof.
  intros Hes. revert pre mid. induction Hes as [|e es He _ IH]; intros pre mid Hmid.
  { destruct mid; [done|discriminate]. }
  change (total_length (e :: es)) with (GetLength e + total_length es)%nat in Hmid.
  rewrite <- (take_drop (GetLength e) mid), <- app_assoc.
  simpl. rewrite encode_element_app by (done || len).
  cbn [mbind go_bind]. rewrite (app_assoc pre).
  replace (length pre + GetLength e)%nat with (length (pre ++ wire e))
    by (rewrite length_app, length_wire; done).
  rewrite IH by len. unfold wires. simpl. by rewrite <- !app_assoc.
Qed.

(** The data record that [AddRecord] builds from a list of elements. *)
Definition data_record_of (id : Z) (isDecoding : bool) (es : list InfoElementWithValue)
    : dataRecord :=
  {| buffer := []; fieldCount := Z.of_nat (length es); templateID := id;
     orderedElementList := Some <$> es; isDecoding := isDecoding;
     len := if isDecoding then 0%nat else total_length es |}.

Lemma insert_middle {A} (l1 l2 : list A) x y :
  <[length l1 := y]> (l1 ++ x :: l2) = l1 ++ y :: l2.
Proof. by rewrite insert_app_r_alt, Nat.sub_diag by lia. Qed.

(** The record while elements are being added: [k] slots are still nil. *)
Definition data_partial (id : Z) (dec : bool) (es : list InfoElementWithValue) (k : nat)
    : dataRecord :=
  {| buffer := []; fieldCount := Z.of_nat (length es); templateID := id;
     orderedElementList := (Some <$> es) ++ replicate k None; isDecoding := dec;
     len := if dec then 0%nat else total_length es |}.

Lemma total_length_app es1 es2 :
  total_length (es1 ++ es2) = (total_length es1 + total_length es2)%nat.
Proof. apply sum_list_with_app. Qed.

Lemma DataAddInfoElement_step id dec es k e :
  Z.of_nat (length es) < 65535 →
  DataAddInfoElement (data_partial id dec es (S k)) e = Ok (data_partial id dec (es ++ [e]) k).
Proof.
  intros Hn. unfold DataAddInfoElement, data_partial; simpl.
  rewrite decide_False by (rewrite length_app, length_fmap; simpl; lia).
  rewrite Nat2Z.id. unfold u16. rewrite Z.mod_small by lia. f_equal. f_equal.
  - len.
  - rewrite <- (length_fmap Some es) at 1. rewrite insert_middle, fmap_app, <- app_assoc. done.
  - destruct dec; [done|]. rewrite total_length_app. unfold total_length. simpl. lia.
Qed.

Lemma add_elements_data id dec es es' :
  Z.of_nat (length es' + length es) < 65536 →
  go_foldM DataAddInfoElement (data_partial id dec es' (length es)) es =
  Ok (data_record_of id dec (es' ++ es)).
Proof.
  revert es'. induction es as [|e es IH]; intros es' Hn.
  - unfold data_partial. simpl. by rewrite !app_nil_r.
  - cbn [go_foldM length]. rewrite DataAddInfoElement_step by (simpl in Hn; lia).
    cbn [mbind go_bind]. rewrite IH by (len). by rewrite <- app_assoc.
Qed.

Lemma new_data_record id n dec es :
  Z.of_nat (length es) < 65536 →
  go_foldM DataAddInfoElement (NewDataRecord id (length es) n dec) es =
  Ok (data_record_of id dec es).
Proof.
  intros Hn. rewrite <- (app_nil_l es) at 3. rewrite <- add_elements_data by done.
  f_equal. unfold NewDataRecord, data_partial. simpl. by destruct dec.
Qed.

(** The same record with its buffer filled in. *)
Definition data_record_enc (id : Z) (es : list InfoElementWithValue) : dataRecord :=
  with_buffer (wires es) (data_record_of id false es).

(** [GetBuffer] of an encoding record is the concatenation of its elements, and
    the next call returns the same bytes from the cache. *)
Lemma DataGetBuffer_wires id es :
  Forall wf_element es →
  DataGetBuffer (data_record_of id false es) = Ok (wires es, data_record_enc id es) ∧
  DataGetBuffer (data_record_enc id es) = Ok (wires es, data_record_enc id es).
Proof.
  intros Hes. pose proof (length_wires es Hes) as Hl. split.
  - unfold DataGetBuffer. cbn [data_record_of buffer isDecoding orderedElementList Records.len].
    destruct (decide (total_length es = 0)%nat) as [E|E].
    + rewrite bool_decide_true by done. rewrite E in Hl.
      unfold data_record_enc. by destruct (wires es).
    + rewrite bool_decide_false by done. cbn [orb].
      pose proof (encode_elements_app es [] (replicate (total_length es) Byte.x00) []) as Henc.
      simpl in Henc. rewrite !app_nil_r in Henc. rewrite Henc by (done || len). done.
  - unfold DataGetBuffer, data_record_enc. cbn [with_buffer data_record_of buffer Records.len].
    by rewrite bool_decide_true.
Qed.

(** An element never takes less room than its template reckons with. *)
Lemma min_field_len_le e :
  wf_element e → 0 <= min_field_len (GetInfoElement e) <= Z.of_nat (GetLength e).
Proof.
  intros Hwf. unfold min_field_len, GetLength.
  wf_cases; cbn [GetInfoElement]; rewrite ?Hlen; try (case_decide; simpl in *; lia).
  unfold StringGetLength. repeat case_decide; done || lia.
Qed.

Lemma min_record_len_le es :
  Forall wf_element es →
  0 <= min_record_len (GetInfoElement <$> es) <= Z.of_nat (total_length es).
Proof.
  unfold total_length. induction 1 as [|e es He _ IH]; [done|].
  pose proof (min_field_len_le e He).
  unfold min_record_len in *. cbn [fmap list_fmap foldr sum_list_with] in *.
  change (list_fmap _ _ GetInfoElement es) with (GetInfoElement <$> es). lia.
Qed.

(** ** Lemmas: template records *)

Lemma enterprise_bit_byte x :
  byte_of_Z (Z.lor (byte_to_Z (byte_of_Z x)) 128) = byte_of_Z (Z.lor x 128).
Proof.
  rewrite byte_to_of_Z. apply byte_of_Z_eq.
  change 256 with (2 ^ 8). rewrite <- !Z.land_ones by lia.
  rewrite !Z.land_lor_distr_l. by rewrite <- Z.land_assoc, Z.land_diag.
Qed.

(** Setting the top bit of the stored element id gives the bytes of the
    enterprise-specific field specifier. *)
Lemma set_enterprise_bit_spec buf id post :
  set_enterprise_bit (buf ++ put_be 2 id ++ post) (length buf) =
  Ok (buf ++ put_be 2 (Z.lor id 32768) ++ post).
Proof.
  unfold set_enterprise_bit. rewrite lookup_app_r, Nat.sub_diag by lia.
  cbn [put_be]. change (8 * Z.of_nat 1) with 8. change (8 * Z.of_nat 0) with 0.
  rewrite !Z.shiftr_0_r. cbn [lookup list_lookup app].
  change (?a :: ?b :: post) with ([a] ++ (b :: post)).
  unfold set_byte. rewrite write_at_app by done. do 2 f_equal.
  rewrite enterprise_bit_byte, Z.shiftr_lor. change (Z.shiftr 32768 8) with 128.
  simpl. do 2 f_equal. apply byte_of_Z_eq.
  change 256 with (2 ^ 8). rewrite <- !Z.land_ones by lia.
  rewrite Z.land_lor_distr_l. change (Z.land 32768 (Z.ones 8)) with 0. by rewrite Z.lor_0_r.
Qed.

(** The template record while fields are being added. *)
Definition template_partial (id n : Z) (dec : bool) (es : list InfoElementWithValue) (k : nat)
    : templateRecord :=
  {| t_base :=
       {| buffer := put_be 2 id ++ put_be 2 n ++ field_specifiers (GetInfoElement <$> es);
          fieldCount := n; templateID := id;
          orderedElementList := (Some <$> es) ++ replicate k None; isDecoding := dec; len := 0 |};
     minDataRecLength := u16 (min_record_len (GetInfoElement <$> es)); index := length es |}.

(** The template record that [AddRecord] builds from a list of elements. *)
Definition template_record_of (id : Z) (dec : bool) (es : list InfoElementWithValue)
    : templateRecord :=
  template_partial id (u16 (Z.of_nat (length es))) dec es 0.

Lemma min_record_len_snoc ies ie :
  min_record_len (ies ++ [ie]) = min_record_len ies + min_field_len ie.
Proof.
  unfold min_record_len. rewrite foldr_app. simpl.
  induction ies as [|x ies IH]; simpl; [lia|]. rewrite IH. lia.
Qed.

Lemma field_specifiers_snoc ies ie :
  field_specifiers (ies ++ [ie]) = field_specifiers ies ++ field_specifier ie.
Proof. unfold field_specifiers. rewrite flat_map_app. simpl. by rewrite app_nil_r. Qed.

Lemma TemplateAddInfoElement_step id n dec es k e :
  IsValueEmpty e = true →
  TemplateAddInfoElement (template_partial id n dec es (S k)) e =
  Ok (template_partial id n dec (es ++ [e]) k).
Proof.
  intros He. unfold TemplateAddInfoElement. rewrite He.
  cbn [negb template_partial t_base buffer fieldCount templateID orderedElementList index
       minDataRecLength isDecoding Records.len].
  set (ie := GetInfoElement e). set (buf := put_be 2 id ++ _).
  assert (Hb : (if decide (EnterpriseId ie ≠ 0) then
      buf0 ← set_enterprise_bit (buf ++ put_be 2 (ElementId ie) ++ put_be 2 (Len ie)) (length buf);
      Ok (buf0 ++ put_be 4 (EnterpriseId ie))
    else Ok (buf ++ put_be 2 (ElementId ie) ++ put_be 2 (Len ie))) = Ok (buf ++ field_specifier ie)).
  { unfold field_specifier. case_decide; [|done].
    rewrite set_enterprise_bit_spec. cbn [mbind go_bind]. by rewrite <- !app_assoc. }
  rewrite Hb. cbn [mbind go_bind]. clear Hb.
  rewrite decide_True by (rewrite length_app, length_fmap; simpl; lia).
  unfold template_partial. do 2 f_equal.
  - f_equal.
    + unfold buf. rewrite fmap_app. cbn [fmap list_fmap]. rewrite field_specifiers_snoc.
      by rewrite <- !app_assoc.
    + cbn [replicate]. rewrite <- (length_fmap Some es) at 1. rewrite insert_middle, fmap_app, <- app_assoc. done.
  - rewrite fmap_app. cbn [fmap list_fmap]. rewrite min_record_len_snoc. fold ie.
    unfold min_field_len, u16. case_decide; by rewrite Z.add_mod_idemp_l by done.
  - len.
Qed.

Lemma TemplateAddInfoElement_refused t e :
  IsValueEmpty e = false →
  TemplateAddInfoElement t e = Err (ErrNonEmptyTemplateValue (GetName e)).
Proof. unfold TemplateAddInfoElement. by intros ->. Qed.

Lemma TemplatePrepareRecord_new id n dec :
  TemplatePrepareRecord (NewTemplateRecord id n dec) =
  Ok (template_partial id (u16 (Z.of_nat n)) dec [] n).
Proof. done. Qed.

(** Adding elements fills the free slots in order. *)
Lemma template_elements_added id n dec es' es k :
  Forall (λ e, IsValueEmpty e = true) es →
  go_foldM TemplateAddInfoElement (template_partial id n dec es' (length es + k)) es =
  Ok (template_partial id n dec (es' ++ es) k).
Proof.
  intros Hes. revert es'. induction Hes as [|e es He _ IH]; intros es'.
  - simpl. by rewrite app_nil_r.
  - cbn [go_foldM length Nat.add]. rewrite TemplateAddInfoElement_step by done.
    cbn [mbind go_bind]. by rewrite IH, <- app_assoc.
Qed.

Lemma new_template_record id dec es :
  Forall (λ e, IsValueEmpty e = true) es →
  (t ← TemplatePrepareRecord (NewTemplateRecord id (length es) dec);
   go_foldM TemplateAddInfoElement t es) = Ok (template_record_of id dec es).
Proof.
  intros Hes. rewrite TemplatePrepareRecord_new. cbn [mbind go_bind].
  rewrite <- (Nat.add_0_r (length es)) at 2. by rewrite template_elements_added by done.
Qed.

(** ** Lemmas: looking elements up *)

Lemma find_element_inv name i l e j :
  find_element name i l = Ok (Some (e, j)) →
  (i <= j)%nat ∧ l !! (j - i)%nat = Some (Some e) ∧ GetName e = name ∧
  ∀ k, (k < j - i)%nat → ∃ e', l !! k = Some (Some e') ∧ GetName e' ≠ name.
Proof.
  revert i. induction l as [|[a|] l IH]; intros i; [done| |done]. cbn [find_element].
  destruct (String.eqb_spec (GetName a) name) as [Ha|Ha].
  - intros [= <- <-]. rewrite Nat.sub_diag. split_and!; [lia|done|done|lia].
  - intros (Hij & Hl & Hn & Hk)%IH. replace (j - i)%nat with (S (j - S i)) by lia.
    split_and!; [lia|done|done|]. intros [|k] Hlt; [by exists a|]. apply Hk. lia.
Qed.

Lemma find_element_None name i l :
  find_element name i l = Ok None →
  ∀ k x, l !! k = Some x → ∃ e, x = Some e ∧ GetName e ≠ name.
Proof.
  revert i. induction l as [|[a|] l IH]; intros i; [done| |done]. cbn [find_element].
  destruct (String.eqb_spec (GetName a) name) as [Ha|Ha]; [done|].
  intros H [|k] x; [|by eapply IH]. intros [= <-]. eauto.
Qed.

Lemma find_element_full name i es : ∃ o, find_element name i (Some <$> es) = Ok o.
Proof.
  revert i. induction es as [|e es IH]; intros i; simpl; [eauto|].
  destruct (String.eqb _ _); eauto.
Qed.

(** ** Lemmas: nothing here blocks *)

Lemma encode_elements_not_block l buf i : encode_elements l buf i ≠ Block.
Proof.
  revert buf i. induction l as [|[e|] l IH]; intros buf i; simpl; [done| |done].
  apply go_bind_not_block; [|done]. pose proof (encode_not_block e buf i).
  by destruct (encodeInfoElementValueToBuff e buf i).
Qed.

Lemma GetBuffer_not_block r : GetBuffer r ≠ Block.
Proof.
  destruct r as [d|t]; [|done]. cbn [GetBuffer]. apply go_bind_not_block; [|by intros []].
  unfold DataGetBuffer. destruct (_ || _); [done|].
  auto using encode_elements_not_block with live.
Qed.

Lemma set_enterprise_bit_not_block buf i : set_enterprise_bit buf i ≠ Block.
Proof. unfold set_enterprise_bit. destruct (_ !! _); auto with live. Qed.

Lemma AddInfoElement_not_block r e : AddInfoElement r e ≠ Block.
Proof.
  destruct r as [d|t]; [done|]. apply go_fmap_not_block. unfold TemplateAddInfoElement.
  destruct (negb _); [done|]. apply go_bind_not_block.
  - case_decide; auto using set_enterprise_bit_not_block with live.
  - intros buf. by case_decide.
Qed.

Lemma PrepareRecord_not_block r : PrepareRecord r ≠ Block.
Proof. destruct r; simpl; [done|]. unfold TemplatePrepareRecord. auto 6 with live. Qed.
#[export] Hint Resolve GetBuffer_not_block AddInfoElement_not_block PrepareRecord_not_block : live.

(** ** Properties *)

(** Adding well-formed elements one by one to a new data record and asking for
    its buffer gives exactly the concatenation of the elements' encodings, whose
    length is the record length the set has counted; the record keeps the bytes, so
    asking again returns the same bytes and the same record. *)
Theorem data_record_buffer id n es :
  Forall wf_element es → Z.of_nat (length es) < 65536 →
  ∃ d d',
    go_foldM DataAddInfoElement (NewDataRecord id (length es) n false) es = Ok d ∧
    DataGetBuffer d = Ok (wires es, d') ∧ DataGetBuffer d' = Ok (wires es, d') ∧
    length (wires es) = GetRecordLength (DataRecord d) ∧
    GetFieldCount (DataRecord d) = Z.of_nat (length es) ∧
    GetOrderedElementList (DataRecord d') = Some <$> es.
Proof.
  intros Hes Hn. exists (data_record_of id false es), (data_record_enc id es).
  destruct (DataGetBuffer_wires id es Hes) as [H1 H2].
  split_and!; [by apply new_data_record|done|done|by apply length_wires|done|done].
Qed.

Lemma data_record_buffer_witness :
  ∃ d d',
    go_foldM DataAddInfoElement (NewDataRecord 256 2 0 false) [example_octets; example_pod] = Ok d ∧
    DataGetBuffer d = Ok (wires [example_octets; example_pod], d') ∧
    DataGetBuffer d' = Ok (wires [example_octets; example_pod], d') ∧
    length (wires [example_octets; example_pod]) = GetRecordLength (DataRecord d) ∧
    GetFieldCount (DataRecord d) = 2 ∧
    GetOrderedElementList (DataRecord d') = Some <$> [example_octets; example_pod].
Proof.
  apply (data_record_buffer 256 0 [example_octets; example_pod]).
  - apply (bool_decide_unpack _). vm_compute. exact I.
  - reflexivity.
Defined.

(** A template record built from elements without values holds the template
    record of RFC 7011: template id, field count, then one field specifier per
    element in order, eight bytes long with the enterprise bit set when the
    enterprise number is not zero and four bytes long otherwise; its minimum data
    record length is the sum of the elements' shortest encodings, in sixteen bits. *)
Theorem template_record_bytes id dec es :
  Forall (λ e, IsValueEmpty e = true) es →
  ∃ t,
    (t ← TemplatePrepareRecord (NewTemplateRecord id (length es) dec);
     go_foldM TemplateAddInfoElement t es) = Ok t ∧
    buffer (t_base t) = put_be 2 id ++ put_be 2 (Z.of_nat (length es)) ++
      field_specifiers (GetInfoElement <$> es) ∧
    GetMinDataRecordLen (TemplateRecord t) = Ok (u16 (min_record_len (GetInfoElement <$> es))) ∧
    GetOrderedElementList (TemplateRecord t) = Some <$> es.
Proof.
  intros Hes. exists (template_record_of id dec es).
  split_and!; [by apply new_template_record| |done|cbn; apply app_nil_r].
  cbn [template_record_of template_partial t_base buffer]. by rewrite put_be_u16.
Qed.

Lemma template_record_bytes_witness :
  ∃ t,
    (t ← TemplatePrepareRecord (NewTemplateRecord 256 2 false);
     go_foldM TemplateAddInfoElement t [ResetValue example_octets; ResetValue example_pod]) = Ok t ∧
    buffer (t_base t) = put_be 2 256 ++ put_be 2 2 ++
      field_specifiers [GetInfoElement example_octets; GetInfoElement example_pod] ∧
    GetMinDataRecordLen (TemplateRecord t) = Ok 9 ∧
    GetOrderedElementList (TemplateRecord t) =
      Some <$> [ResetValue example_octets; ResetValue example_pod].
Proof.
  apply (template_record_bytes 256 false [ResetValue example_octets; ResetValue example_pod]).
  repeat constructor.
Defined.

(** A template record takes an element exactly when the element carries no
    value, an element that was reset always qualifies, and resetting keeps the
    information element. *)
Theorem template_refuses_values t e :
  (IsValueEmpty e = false →
   TemplateAddInfoElement t e = Err (ErrNonEmptyTemplateValue (GetName e))) ∧
  IsValueEmpty (ResetValue e) = true ∧ GetInfoElement (ResetValue e) = GetInfoElement e ∧
  ((index t < length (orderedElementList (t_base t)))%nat →
   is_ok (TemplateAddInfoElement t (ResetValue e))).
Proof.
  split_and!; [|by destruct e|by destruct e|].
  - apply TemplateAddInfoElement_refused.
  - intros Hi. unfold TemplateAddInfoElement.
    replace (IsValueEmpty (ResetValue e)) with true by (by destruct e). cbn [negb].
    destruct (decide (EnterpriseId _ ≠ 0)); [rewrite set_enterprise_bit_spec|];
      cbn [mbind go_bind]; rewrite (decide_True (P := (index t < _)%nat)) by done; by eexists.
Qed.

(** [GetInfoElementWithValue] on a record without nil entries never panics; it
    returns the element of that name with the smallest index, and reports none
    only when no element has the name. *)
Theorem element_found_by_name name b es :
  orderedElementList b = Some <$> es →
  match GetInfoElementWithValue name b with
  | Ok (Some (e, i)) =>
      es !! i = Some e ∧ GetName e = name ∧
      ∀ j e', (j < i)%nat → es !! j = Some e' → GetName e' ≠ name
  | Ok None => Forall (λ e, GetName e ≠ name) es
  | _ => False
  end.
Proof.
  intros Hb. unfold GetInfoElementWithValue. rewrite Hb.
  destruct (find_element_full name 0 es) as [[[e i]|] E]; rewrite E.
  - apply find_element_inv in E as (_ & Hl & Hn & Hk). rewrite Nat.sub_0_r in *.
    rewrite list_lookup_fmap in Hl. destruct (es !! i); simplify_eq/=.
    split_and!; [done|done|]. intros j e' Hj He'. destruct (Hk j Hj) as (e'' & H1 & H2).
    rewrite list_lookup_fmap, He' in H1. by simplify_eq/=.
  - apply Forall_lookup. intros i e He.
    destruct (find_element_None _ _ _ E i (Some e)) as (e' & [= <-] & ?); [|done].
    by rewrite list_lookup_fmap, He.
Qed.

Lemma element_found_by_name_witness :
  match GetInfoElementWithValue "sourcePodName" (data_record_of 256 true [example_octets; example_pod]) with
  | Ok (Some (e, i)) =>
      [example_octets; example_pod] !! i = Some e ∧ GetName e = "sourcePodName" ∧
      ∀ j e', (j < i)%nat → [example_octets; example_pod] !! j = Some e' →
        GetName e' ≠ "sourcePodName"
  | Ok None => Forall (λ e, GetName e ≠ "sourcePodName") [example_octets; example_pod]
  | _ => False
  end.
Proof.
  apply (element_found_by_name "sourcePodName" (data_record_of 256 true [example_octets; example_pod])
    [example_octets; example_pod]).
  reflexivity.
Defined.

Lemma template_refuses_values_witness :
  TemplateAddInfoElement (NewTemplateRecord 256 1 false) example_octets =
    Err (ErrNonEmptyTemplateValue "octetDeltaCount") ∧
  is_ok (TemplateAddInfoElement (NewTemplateRecord 256 1 false) (ResetValue example_octets)).
Proof.
  destruct (template_refuses_values (NewTemplateRecord 256 1 false) example_octets)
    as (H1 & _ & _ & H2).
  split; [apply H1; reflexivity|apply H2; apply Nat.ltb_lt; reflexivity].
Defined.
