(* ===== verification/Sets.v ===== *)
(** * Sets and messages

    src/pkg/entities/set.go and src/pkg/entities/message.go. *)

From Stdlib Require Import ZArith Lia.
From Stdlib.Strings Require Import Byte.
From stdpp Require Import base gmap strings list numbers.
From S2P Require Import Prelude Bytes InfoElement Records.

#[local] Open Scope Z_scope.

(** ** set.go *)

Definition TemplateRefreshTimeOut : Z := 1800.
Definition TemplateTTL : Z := u32 (TemplateRefreshTimeOut * 3).
Definition TemplateSetID : Z := 2.
Definition SetHeaderLen : nat := 4.

Inductive ContentType : Type := Template | Data | Undefined.

#[global] Instance ContentType_eq_dec : EqDecision ContentType.
Proof. solve_decision. Defined.

(** The struct [set]. *)
Record ipfix_set : Type := mkSet {
  headerBuffer : list byte;
  setType : ContentType;
  records : list IPFIXRecord;
  set_isDecoding : bool;
  set_length : nat;
}.

#[global] Instance ipfix_set_eq_dec : EqDecision ipfix_set.
Proof. solve_decision. Defined.

(** [setType] starts as the zero value of [ContentType], which is [Template]. *)
Definition NewSet (isDecoding : bool) : ipfix_set :=
  if isDecoding
  then {| headerBuffer := []; setType := Template; records := []; set_isDecoding := true;
          set_length := 0 |}
  else {| headerBuffer := replicate SetHeaderLen Byte.x00; setType := Template; records := [];
          set_isDecoding := false; set_length := SetHeaderLen |}.

Definition with_header (h : list byte) (s : ipfix_set) : ipfix_set :=
  {| headerBuffer := h; setType := setType s; records := records s;
     set_isDecoding := set_isDecoding s; set_length := set_length s |}.

Definition with_records (rs : list IPFIXRecord) (s : ipfix_set) : ipfix_set :=
  {| headerBuffer := headerBuffer s; setType := setType s; records := rs;
     set_isDecoding := set_isDecoding s; set_length := set_length s |}.

Definition createHeader (ty : ContentType) (templateID : Z) (s : ipfix_set) : go ipfix_set :=
  match ty with
  | Template => (λ h, with_header h s) <$> write_at (headerBuffer s) 0 (put_be 2 TemplateSetID)
  | Data => (λ h, with_header h s) <$> write_at (headerBuffer s) 0 (put_be 2 templateID)
  | Undefined => Ok s
  end.

Definition PrepareSet (ty : ContentType) (templateID : Z) (s : ipfix_set) : go ipfix_set :=
  if decide (ty = Undefined) then Err ErrUndefinedSetType
  else
    let s := {| headerBuffer := headerBuffer s; setType := ty; records := records s;
                set_isDecoding := set_isDecoding s; set_length := set_length s |} in
    if set_isDecoding s then Ok s else createHeader ty templateID s.

Definition ResetSet (s : ipfix_set) : ipfix_set :=
  {| headerBuffer := if set_isDecoding s then headerBuffer s else replicate SetHeaderLen Byte.x00;
     setType := Undefined; records := []; set_isDecoding := set_isDecoding s;
     set_length := if set_isDecoding s then set_length s else SetHeaderLen |}.

(** [binary.BigEndian.PutUint16(s.headerBuffer[2:4], uint16(s.length))]. *)
Definition UpdateLenInHeader (s : ipfix_set) : go ipfix_set :=
  if set_isDecoding s then Ok s
  else (λ h, with_header h s)
         <$> write_at (headerBuffer s) 2 (put_be 2 (u16 (Z.of_nat (set_length s)))).

(** The record a set starts for [n] elements, by set type. *)
Definition new_record (s : ipfix_set) (n numExtraElements : nat) (templateID : Z) : go IPFIXRecord :=
  match setType s with
  | Data => Ok (DataRecord (NewDataRecord templateID n numExtraElements (set_isDecoding s)))
  | Template => PrepareRecord (TemplateRecord (NewTemplateRecord templateID n (set_isDecoding s)))
  | Undefined => Err ErrUnsupportedSetType
  end.

Definition append_record (record : IPFIXRecord) (s : ipfix_set) : ipfix_set :=
  {| headerBuffer := headerBuffer s; setType := setType s; records := records s ++ [record];
     set_isDecoding := set_isDecoding s;
     set_length := (set_length s + GetRecordLength record)%nat |}.

(** When an element is refused the set is as it was: the record is only appended
    at the end. *)
Definition AddRecordWithExtraElements (elements : list InfoElementWithValue)
    (numExtraElements : nat) (templateID : Z) (s : ipfix_set) : go ipfix_set :=
  record ← new_record s (length elements) numExtraElements templateID;
  record ← go_foldM AddInfoElement record elements;
  Ok (append_record record s).

Definition AddRecord (elements : list InfoElementWithValue) (templateID : Z) (s : ipfix_set)
    : go ipfix_set :=
  record ← new_record s (length elements) 0 templateID;
  record ← go_foldM AddInfoElement record elements;
  Ok (append_record record s).

Definition GetNumberOfRecords (s : ipfix_set) : Z := u32 (Z.of_nat (length (records s))).

(** ** message.go *)

Definition MaxSocketMsgSize : Z := 65535.
Definition MsgHeaderLength : nat := 16.

Record Message : Type := mkMessage {
  msgHeader : list byte;
  version : Z;
  msg_length : Z;
  seqNumber : Z;
  obsDomainID : Z;
  exportTime : Z;
  exportAddress : string;
  msg_isDecoding : bool;
  msg_set : option ipfix_set;
}.

#[global] Instance Message_eq_dec : EqDecision Message.
Proof. solve_decision. Defined.

Definition NewMessage (isDecoding : bool) : Message :=
  {| msgHeader := replicate MsgHeaderLength Byte.x00; version := 0; msg_length := 0;
     seqNumber := 0; obsDomainID := 0; exportTime := 0; exportAddress := "";
     msg_isDecoding := isDecoding; msg_set := None |}.

Definition with_msgHeader (h : list byte) (m : Message) : Message :=
  {| msgHeader := h; version := version m; msg_length := msg_length m; seqNumber := seqNumber m;
     obsDomainID := obsDomainID m; exportTime := exportTime m; exportAddress := exportAddress m;
     msg_isDecoding := msg_isDecoding m; msg_set := msg_set m |}.

(** [if !m.isDecoding { PutUintN(m.msgHeader[off:], v) }]. *)
Definition put_header (off n : nat) (v : Z) (m : Message) : go Message :=
  if msg_isDecoding m then Ok m
  else (λ h, with_msgHeader h m) <$> write_at (msgHeader m) off (put_be n v).

Definition SetVersion (v : Z) (m : Message) : go Message :=
  put_header 0 2 v
    {| msgHeader := msgHeader m; version := v; msg_length := msg_length m;
       seqNumber := seqNumber m; obsDomainID := obsDomainID m; exportTime := exportTime m;
       exportAddress := exportAddress m; msg_isDecoding := msg_isDecoding m;
       msg_set := msg_set m |}.

Definition SetMessageLen (v : Z) (m : Message) : go Message :=
  put_header 2 2 v
    {| msgHeader := msgHeader m; version := version m; msg_length := v;
       seqNumber := seqNumber m; obsDomainID := obsDomainID m; exportTime := exportTime m;
       exportAddress := exportAddress m; msg_isDecoding := msg_isDecoding m;
       msg_set := msg_set m |}.

Definition SetSequenceNum (v : Z) (m : Message) : go Message :=
  put_header 8 4 v
    {| msgHeader := msgHeader m; version := version m; msg_length := msg_length m;
       seqNumber := v; obsDomainID := obsDomainID m; exportTime := exportTime m;
       exportAddress := exportAddress m; msg_isDecoding := msg_isDecoding m;
       msg_set := msg_set m |}.

Definition SetObsDomainID (v : Z) (m : Message) : go Message :=
  put_header 12 4 v
    {| msgHeader := msgHeader m; version := version m; msg_length := msg_length m;
       seqNumber := seqNumber m; obsDomainID := v; exportTime := exportTime m;
       exportAddress := exportAddress m; msg_isDecoding := msg_isDecoding m;
       msg_set := msg_set m |}.

Definition SetExportTime (v : Z) (m : Message) : go Message :=
  put_header 4 4 v
    {| msgHeader := msgHeader m; version := version m; msg_length := msg_length m;
       seqNumber := seqNumber m; obsDomainID := obsDomainID m; exportTime := v;
       exportAddress := exportAddress m; msg_isDecoding := msg_isDecoding m;
       msg_set := msg_set m |}.

Definition SetExportAddress (ipAddr : string) (m : Message) : Message :=
  {| msgHeader := msgHeader m; version := version m; msg_length := msg_length m;
     seqNumber := seqNumber m; obsDomainID := obsDomainID m; exportTime := exportTime m;
     exportAddress := ipAddr; msg_isDecoding := msg_isDecoding m; msg_set := msg_set m |}.

Definition AddSet (s : ipfix_set) (m : Message) : Message :=
  {| msgHeader := msgHeader m; version := version m; msg_length := msg_length m;
     seqNumber := seqNumber m; obsDomainID := obsDomainID m; exportTime := exportTime m;
     exportAddress := exportAddress m; msg_isDecoding := msg_isDecoding m;
     msg_set := Some s |}.

Definition ResetMsgHeader (m : Message) : Message :=
  with_msgHeader (replicate MsgHeaderLength Byte.x00) m.

(** ** Specification *)

(** The message header of RFC 7011, section 3.1. *)
Definition header_bytes (version len exportTime seqNum obsDomainID : Z) : list byte :=
  put_be 2 version ++ put_be 2 len ++ put_be 4 exportTime ++ put_be 4 seqNum
    ++ put_be 4 obsDomainID.

(** The set header of RFC 7011, section 3.3.2. *)
Definition set_header_bytes (setID len : Z) : list byte := put_be 2 setID ++ put_be 2 len.

(** The sum of the lengths of a list of records. *)
Definition records_length (rs : list IPFIXRecord) : nat := sum_list_with GetRecordLength rs.

(** The state invariant of a set that is being encoded: its header has four bytes
    and its length counts the header and every record. *)
Definition set_inv (s : ipfix_set) : Prop :=
  set_isDecoding s = false →
  length (headerBuffer s) = SetHeaderLen ∧
  set_length s = (SetHeaderLen + records_length (records s))%nat.

(** ** Lemmas: building sets *)

Lemma fold_AddInfoElement_data d es :
  go_foldM AddInfoElement (DataRecord d) es = DataRecord <$> go_foldM DataAddInfoElement d es.
Proof. revert d. induction es as [|e es IH]; intros d; simpl; [done|]. apply IH. Qed.

Lemma fold_AddInfoElement_template t es :
  go_foldM AddInfoElement (TemplateRecord t) es =
  TemplateRecord <$> go_foldM TemplateAddInfoElement t es.
Proof.
  revert t. induction es as [|e es IH]; intros t; simpl; [done|].
  destruct (TemplateAddInfoElement t e); simpl; [apply IH|done..].
Qed.

Lemma AddRecordWithExtraElements_data es n tid s :
  setType s = Data → Z.of_nat (length es) < 65536 →
  AddRecordWithExtraElements es n tid s =
  Ok (append_record (DataRecord (data_record_of tid (set_isDecoding s) es)) s).
Proof.
  intros Ht Hn. unfold AddRecordWithExtraElements, new_record. rewrite Ht.
  cbn [mbind go_bind]. rewrite fold_AddInfoElement_data, new_data_record by done. done.
Qed.

Lemma AddRecord_data es tid s :
  setType s = Data → Z.of_nat (length es) < 65536 →
  AddRecord es tid s =
  Ok (append_record (DataRecord (data_record_of tid (set_isDecoding s) es)) s).
Proof. apply AddRecordWithExtraElements_data. Qed.

Lemma AddRecord_template es tid s :
  setType s = Template → Forall (λ e, IsValueEmpty e = true) es →
  AddRecord es tid s =
  Ok (append_record (TemplateRecord (template_record_of tid (set_isDecoding s) es)) s).
Proof.
  intros Ht Hes. unfold AddRecord, new_record. rewrite Ht. unfold PrepareRecord.
  pose proof (new_template_record tid (set_isDecoding s) es Hes) as H.
  destruct (TemplatePrepareRecord _) as [t| | |]; try discriminate.
  cbn [fmap go_fmap mbind go_bind] in *.
  rewrite fold_AddInfoElement_template, H. done.
Qed.

Lemma DataAddInfoElement_fold d es :
  ∃ d', go_foldM DataAddInfoElement d es = Ok d' ∧ templateID d' = templateID d.
Proof.
  revert d. induction es as [|e es IH]; intros d; simpl; [eauto|].
  edestruct IH as (d' & -> & E). eexists. split; [done|]. by rewrite E.
Qed.

(** Any number of elements makes a data record. *)
Lemma add_data_record es n tid s :
  setType s = Data →
  ∃ d, AddRecordWithExtraElements es n tid s = Ok (append_record (DataRecord d) s) ∧
       templateID d = tid.
Proof.
  intros Ht. unfold AddRecordWithExtraElements, new_record. rewrite Ht. cbn [mbind go_bind].
  rewrite fold_AddInfoElement_data.
  destruct (DataAddInfoElement_fold (NewDataRecord tid (length es) n (set_isDecoding s)) es)
    as (d & -> & Hd). eauto.
Qed.

Lemma template_elements_cases es :
  Forall (λ e, IsValueEmpty e = true) es ∨
  ∃ l1 e l2, es = l1 ++ e :: l2 ∧ Forall (λ e, IsValueEmpty e = true) l1 ∧ IsValueEmpty e = false.
Proof.
  induction es as [|e es [IH|(l1 & e' & l2 & -> & H1 & H2)]]; [by left|..];
    destruct (IsValueEmpty e) eqn:E.
  - left. by constructor.
  - right. exists [], e, es. by split_and!.
  - right. exists (e :: l1), e', l2. split_and!; [done|by constructor|done].
  - right. exists [], e, (l1 ++ e' :: l2). by split_and!.
Qed.

Lemma AddRecord_template_refused tid s l1 e l2 :
  setType s = Template → Forall (λ e, IsValueEmpty e = true) l1 → IsValueEmpty e = false →
  AddRecord (l1 ++ e :: l2) tid s = Err (ErrNonEmptyTemplateValue (GetName e)).
Proof.
  intros Ht H1 He. unfold AddRecord, new_record. rewrite Ht. unfold PrepareRecord.
  rewrite length_app. cbn [length].
  rewrite (TemplatePrepareRecord_new tid (length l1 + S (length l2))).
  cbn [fmap go_fmap mbind go_bind]. rewrite fold_AddInfoElement_template, go_foldM_app.
  rewrite template_elements_added by done.
  cbn [fmap go_fmap mbind go_bind go_foldM app]. by rewrite TemplateAddInfoElement_refused.
Qed.

(** ** Lemmas: the invariant of a set *)

Lemma records_length_snoc rs r :
  records_length (rs ++ [r]) = (records_length rs + GetRecordLength r)%nat.
Proof. unfold records_length. rewrite sum_list_with_app. simpl. lia. Qed.

Lemma set_inv_NewSet d : set_inv (NewSet d).
Proof. destruct d; unfold set_inv; simpl; [discriminate|done]. Qed.

Lemma set_inv_append r s : set_inv s → set_inv (append_record r s).
Proof.
  unfold set_inv; simpl. intros H Hd. destruct (H Hd) as [? ->].
  rewrite records_length_snoc. split; [done|lia].
Qed.

Lemma set_inv_with_header h s :
  length h = length (headerBuffer s) → set_inv s → set_inv (with_header h s).
Proof. unfold set_inv; simpl. intros ->. done. Qed.

Lemma fmap_write_inv off bs s s' :
  set_inv s → (λ h, with_header h s) <$> write_at (headerBuffer s) off bs = Ok s' → set_inv s'.
Proof.
  intros Hi. destruct (write_at _ _ _) as [h| | |] eqn:E; simpl; intros [= <-].
  apply set_inv_with_header; [|done]. by apply write_at_length in E.
Qed.

Lemma set_inv_PrepareSet ty tid s s' : set_inv s → PrepareSet ty tid s = Ok s' → set_inv s'.
Proof.
  intros Hi. unfold PrepareSet. case_decide; [discriminate|].
  assert (set_inv {| headerBuffer := headerBuffer s; setType := ty; records := records s;
                     set_isDecoding := set_isDecoding s; set_length := set_length s |}) by done.
  cbn [set_isDecoding]. destruct (set_isDecoding s) eqn:Hd; [by intros [= <-]|].
  unfold createHeader. destruct ty; [..|by intros [= <-]]; by apply fmap_write_inv.
Qed.

Lemma set_inv_UpdateLen s s' : set_inv s → UpdateLenInHeader s = Ok s' → set_inv s'.
Proof.
  intros Hi. unfold UpdateLenInHeader. destruct (set_isDecoding s); [by intros [= <-]|].
  by apply fmap_write_inv.
Qed.

Lemma set_inv_ResetSet s : set_inv (ResetSet s).
Proof. unfold set_inv, ResetSet; simpl. intros ->. done. Qed.

Lemma set_inv_AddRecordWithExtra es n tid s s' :
  set_inv s → AddRecordWithExtraElements es n tid s = Ok s' → set_inv s'.
Proof. intros Hi H. unfold AddRecordWithExtraElements in H. go_inv. by apply set_inv_append. Qed.

Lemma set_inv_AddRecord es tid s s' : set_inv s → AddRecord es tid s = Ok s' → set_inv s'.
Proof. exact (set_inv_AddRecordWithExtra es 0 tid s s'). Qed.
#[export] Hint Resolve set_inv_NewSet set_inv_PrepareSet set_inv_UpdateLen set_inv_ResetSet
  set_inv_AddRecordWithExtra set_inv_AddRecord : ipfix.

(** An operation never fails on a set's header when the invariant holds. *)
Lemma UpdateLenInHeader_ok s id rest :
  set_isDecoding s = false → headerBuffer s = put_be 2 id ++ rest → length rest = 2%nat →
  UpdateLenInHeader s =
  Ok (with_header (set_header_bytes id (u16 (Z.of_nat (set_length s)))) s).
Proof.
  intros Hd Hh Hr. unfold UpdateLenInHeader. rewrite Hd, Hh.
  rewrite <- (app_nil_r rest). 
  change 2%nat with (length (put_be 2 id)) at 2.
  rewrite write_at_app by len. cbn [fmap go_fmap]. by rewrite app_nil_r.
Qed.

(** ** Lemmas: the message header *)

Lemma put_header_app off n v m pre mid post :
  msg_isDecoding m = false → msgHeader m = pre ++ mid ++ post →
  length pre = off → length mid = n →
  put_header off n v m = Ok (with_msgHeader (pre ++ put_be n v ++ post) m).
Proof.
  intros Hd Hh <- <-. unfold put_header. rewrite Hd, Hh.
  rewrite write_at_app by len. done.
Qed.

(** The five setters, in the order [CreateIPFIXMsg] calls them, build the header
    of the RFC. *)
Lemma set_header_fields v obs l t seq :
  ∃ m,
    (m ← SetVersion v (NewMessage false); m ← SetObsDomainID obs m; m ← SetMessageLen l m;
     m ← SetExportTime t m; SetSequenceNum seq m) = Ok m ∧
    msgHeader m = header_bytes v l t seq obs.
Proof.
  unfold SetVersion, SetObsDomainID, SetMessageLen, SetExportTime, SetSequenceNum.
  set (z := λ n, replicate n Byte.x00).
  rewrite (put_header_app 0 2 _ _ [] (z 2%nat) (z 14%nat)) by done. cbn [mbind go_bind].
  rewrite (put_header_app 12 4 _ _ (put_be 2 v ++ z 10%nat) (z 4%nat) []) by done.
  cbn [mbind go_bind].
  rewrite (put_header_app 2 2 _ _ (put_be 2 v) (z 2%nat) (z 8%nat ++ put_be 4 obs)) by done.
  cbn [mbind go_bind].
  rewrite (put_header_app 4 4 _ _ (put_be 2 v ++ put_be 2 l) (z 4%nat) (z 4%nat ++ put_be 4 obs))
    by done.
  cbn [mbind go_bind].
  rewrite (put_header_app 8 4 _ _ (put_be 2 v ++ put_be 2 l ++ put_be 4 t) (z 4%nat) (put_be 4 obs))
    by done.
  eexists. split; [done|]. unfold header_bytes. cbn [with_msgHeader msgHeader].
  by rewrite <- !app_assoc.
Qed.

(** ** The life of a set

    The calls a user of the library makes on a set, each returning normally. *)
Inductive set_step : ipfix_set → ipfix_set → Prop :=
| step_PrepareSet ty tid s s' : PrepareSet ty tid s = Ok s' → set_step s s'
| step_ResetSet s : set_step s (ResetSet s)
| step_UpdateLen s s' : UpdateLenInHeader s = Ok s' → set_step s s'
| step_AddRecord es tid s s' : AddRecord es tid s = Ok s' → set_step s s'
| step_AddRecordWithExtra es n tid s s' :
    AddRecordWithExtraElements es n tid s = Ok s' → set_step s s'.

Lemma set_inv_step s s' : set_step s s' → set_inv s → set_inv s'.
Proof. destruct 1; eauto with ipfix. Qed.

Lemma set_inv_reachable d s : rtc set_step (NewSet d) s → set_inv s.
Proof.
  intros H. pose proof (set_inv_NewSet d) as Hi. induction H; eauto using set_inv_step.
Qed.

Lemma isDecoding_step s s' : set_step s s' → set_isDecoding s' = set_isDecoding s.
Proof.
  destruct 1 as [ty tid s s' H|s|s s' H|es tid s s' H|es n tid s s' H]; [| done | | |].
  - unfold PrepareSet, createHeader, fmap, go_fmap in H. repeat case_match; by simplify_eq/=.
  - unfold UpdateLenInHeader, fmap, go_fmap in H. repeat case_match; by simplify_eq/=.
  - unfold AddRecord in H. by go_inv.
  - unfold AddRecordWithExtraElements in H. by go_inv.
Qed.

Lemma isDecoding_reachable d s : rtc set_step (NewSet d) s → set_isDecoding s = d.
Proof.
  intros H. replace d with (set_isDecoding (NewSet d)) by (by destruct d).
  induction H as [|x y z Hxy _ IH]; [done|]. by rewrite IH, (isDecoding_step _ _ Hxy).
Qed.

(** ** Lemmas: nothing here blocks *)

Lemma AddRecord_not_block es tid s : AddRecord es tid s ≠ Block.
Proof.
  unfold AddRecord, new_record. apply go_bind_not_block; [destruct (setType s); auto with live|].
  auto with live.
Qed.

Lemma PrepareSet_not_block ty tid s : PrepareSet ty tid s ≠ Block.
Proof.
  unfold PrepareSet, createHeader. case_decide; [done|]. destruct (set_isDecoding _); [done|].
  destruct ty; auto with live.
Qed.

Lemma put_header_not_block off n v m : put_header off n v m ≠ Block.
Proof. unfold put_header. destruct (msg_isDecoding m); auto with live. Qed.
#[export] Hint Resolve AddRecord_not_block PrepareSet_not_block put_header_not_block : live.

(** ** Properties *)

(** C28: a set under construction always knows its own size.  In every state a set
    made by [NewSet(false)] can reach through [PrepareSet], [ResetSet],
    [AddRecord], [AddRecordWithExtraElements] and [UpdateLenInHeader], its length is
    the four bytes of the header plus the lengths of its records; and
    [UpdateLenInHeader] never panics: it keeps the set id and writes that length,
    in sixteen bits, behind it. *)
Theorem reachable_set_length s :
  rtc set_step (NewSet false) s →
  set_length s = (SetHeaderLen + records_length (records s))%nat ∧
  ∃ s', UpdateLenInHeader s = Ok s' ∧
        headerBuffer s' = take 2 (headerBuffer s) ++
          put_be 2 (Z.of_nat (SetHeaderLen + records_length (records s))).
Proof.
  intros H. pose proof (isDecoding_reachable _ _ H) as Hd.
  destruct (set_inv_reachable _ _ H Hd) as [Hh Hl]. split; [done|].
  unfold UpdateLenInHeader, write_at. rewrite Hd, Hh, length_put_be.
  rewrite decide_True by (unfold SetHeaderLen; lia).
  eexists. split; [done|]. cbn [with_header headerBuffer].
  rewrite put_be_u16, Hl, drop_ge by (rewrite Hh; unfold SetHeaderLen; lia). by rewrite app_nil_r.
Qed.

Lemma reachable_set_length_witness :
  ∃ s, records s ≠ [] ∧
    set_length s = (SetHeaderLen + records_length (records s))%nat ∧
    ∃ s', UpdateLenInHeader s = Ok s' ∧
          headerBuffer s' = take 2 (headerBuffer s) ++
            put_be 2 (Z.of_nat (SetHeaderLen + records_length (records s))).
Proof.
  eexists. split; [|apply reachable_set_length].
  2:{ eapply rtc_l; [eapply (step_PrepareSet Data 256); vm_compute; reflexivity|].
      eapply rtc_l; [eapply (step_AddRecord [example_octets] 256); vm_compute; reflexivity|].
      apply rtc_refl. }
  done.
Defined.

(** [AddRecord] is all or nothing.  On success exactly one record, of the given
    template id, is added behind the others, the length grows by that record's
    length, and header and type stay; the only failures are a set without a type
    and, in a template set, an element that carries a value, which is named; it
    never panics. *)
Theorem AddRecord_all_or_nothing es tid s :
  match AddRecord es tid s with
  | Ok s' =>
      ∃ r, records s' = records s ++ [r] ∧
           set_length s' = (set_length s + GetRecordLength r)%nat ∧
           headerBuffer s' = headerBuffer s ∧ setType s' = setType s ∧
           GetTemplateID r = tid ∧ setType s ≠ Undefined
  | Err ErrUnsupportedSetType => setType s = Undefined
  | Err (ErrNonEmptyTemplateValue name) =>
      setType s = Template ∧ ∃ e, e ∈ es ∧ IsValueEmpty e = false ∧ GetName e = name
  | _ => False
  end.
Proof.
  destruct (setType s) eqn:Ht.
  - destruct (template_elements_cases es) as [He|(l1 & e & l2 & -> & H1 & He)].
    + rewrite AddRecord_template by done. eexists. by split_and!.
    + rewrite (AddRecord_template_refused tid s l1 e l2) by done. split; [done|].
      exists e. split_and!; [|done|done]. apply list_elem_of_In, in_elt.
  - destruct (add_data_record es 0 tid s Ht) as (d & E & Hd).
    unfold AddRecordWithExtraElements in E. unfold AddRecord. rewrite E.
    eexists. by split_and!.
  - unfold AddRecord, new_record. by rewrite Ht.
Qed.
