(* ===== verification/Wire.v ===== *)
(** * The wire format of messages

    The bytes of an IPFIX message as RFC 7011 lays them out, independently of the
    code that writes and reads them: the exporter is proved to write them and the
    collector to read them. *)

From Stdlib Require Import ZArith Lia.
From stdpp Require Import base strings list numbers.
From S2P Require Import Prelude Bytes InfoElement Records Sets.

#[local] Open Scope Z_scope.

(** ** Specification: the messages on the wire *)

(** A data record's elements fit a template. *)
Definition fits (tmpl : list InfoElement) (es : list InfoElementWithValue) : Prop :=
  GetInfoElement <$> es = tmpl ∧ Forall wf_element es.

#[global] Instance fits_dec tmpl es : Decision (fits tmpl es).
Proof. unfold fits. apply _. Defined.

Definition message (obs seq t setID : Z) (body : list byte) : list byte :=
  let n := Z.of_nat (length body) in
  header_bytes 10 (20 + n) (u32 t) seq obs ++ set_header_bytes setID (4 + n) ++ body.

Definition data_body (recs : list (list InfoElementWithValue)) : list byte := flat_map wires recs.

Definition data_message (obs seq t tid : Z) (recs : list (list InfoElementWithValue)) : list byte :=
  message obs seq t tid (data_body recs).

Definition template_body (tid : Z) (ies : list InfoElement) : list byte :=
  put_be 2 tid ++ put_be 2 (Z.of_nat (length ies)) ++ field_specifiers ies.

Definition template_message (obs seq t tid : Z) (ies : list InfoElement) : list byte :=
  message obs seq t TemplateSetID (template_body tid ies).

(** Every field specifier takes at least four bytes. *)
Lemma field_specifiers_length ies : (4 * length ies <= length (field_specifiers ies))%nat.
Proof.
  unfold field_specifiers. induction ies as [|ie ies IH]; cbn [flat_map length]; [lia|].
  assert (4 <= length (field_specifier ie))%nat.
  { unfold field_specifier. case_decide; rewrite !length_app, !length_put_be; lia. }
  rewrite length_app. lia.
Qed.

Lemma template_body_length tid ies : (4 + 4 * length ies <= length (template_body tid ies))%nat.
Proof.
  unfold template_body. pose proof (field_specifiers_length ies). rewrite !length_app, !length_put_be. lia.
Qed.

(** ** Framing on a stream *)

(** The length field of a packet is its length. *)
Definition framed (pkt : list byte) : Prop :=
  (4 <= length pkt)%nat ∧ be_val (take 2 (drop 2 pkt)) = Z.of_nat (length pkt).

#[global] Instance framed_dec pkt : Decision (framed pkt).
Proof. unfold framed. apply _. Defined.

Lemma message_length obs seq t setID body :
  length (message obs seq t setID body) = (20 + length body)%nat.
Proof. done. Qed.

Lemma message_framed obs seq t setID body :
  20 + Z.of_nat (length body) < 65536 → framed (message obs seq t setID body).
Proof.
  intros Hn. split; rewrite message_length; [lia|]. unfold message, header_bytes.
  change (take 2 (drop 2 _)) with (put_be 2 (20 + Z.of_nat (length body))).
  rewrite be_val_put_be, Z.mod_small by (simpl; lia). lia.
Qed.
