(* ===== verification/RegistryData.v ===== *)
(** * The information elements that LoadRegistry registers

    The calls of [loadIANARegistry] (src/pkg/registry/registry_IANA.go) and of
    [loadAntreaRegistry] (src/pkg/registry/registry_antrea.go), in order: each row
    is the element and the enterprise id [registerInfoElement] is called with. *)

From Stdlib Require Import ZArith.
From stdpp Require Import base strings list.
From S2P Require Import Prelude InfoElement.

#[local] Open Scope Z_scope.
#[local] Open Scope string_scope.

(** One row: name, element id, data type number, enterprise id, length, and the
    registry's enterprise id. *)
Definition row (name : string) (ieID ieType entID len registryID : Z) : InfoElement * Z :=
  (NewInfoElement name ieID (IEDataType_of_Z ieType) entID len, registryID).

Definition loadIANARegistry_1 : list (InfoElement * Z) :=
  [row "octetDeltaCount" 1 4 0 8 0;
   row "packetDeltaCount" 2 4 0 8 0;
   row "deltaFlowCount" 3 4 0 8 0;
   row "protocolIdentifier" 4 1 0 1 0;
   row "ipClassOfService" 5 1 0 1 0;
   row "tcpControlBits" 6 2 0 2 0;
   row "sourceTransportPort" 7 2 0 2 0;
   row "sourceIPv4Address" 8 18 0 4 0;
   row "sourceIPv4PrefixLength" 9 1 0 1 0;
   row "ingressInterface" 10 3 0 4 0;
   row "destinationTransportPort" 11 2 0 2 0;
   row "destinationIPv4Address" 12 18 0 4 0;
   row "destinationIPv4PrefixLength" 13 1 0 1 0;
   row "egressInterface" 14 3 0 4 0;
   row "ipNextHopIPv4Address" 15 18 0 4 0;
   row "bgpSourceAsNumber" 16 3 0 4 0;
   row "bgpDestinationAsNumber" 17 3 0 4 0;
   row "bgpNextHopIPv4Address" 18 18 0 4 0;
   row "postMCastPacketDeltaCount" 19 4 0 8 0;
   row "postMCastOctetDeltaCount" 20 4 0 8 0;
   row "flowEndSysUpTime" 21 3 0 4 0;
   row "flowStartSysUpTime" 22 3 0 4 0;
   row "postOctetDeltaCount" 23 4 0 8 0;
   row "postPacketDeltaCount" 24 4 0 8 0;
   row "minimumIpTotalLength" 25 4 0 8 0;
   row "maximumIpTotalLength" 26 4 0 8 0;
   row "sourceIPv6Address" 27 19 0 16 0;
   row "destinationIPv6Address" 28 19 0 16 0;
   row "sourceIPv6PrefixLength" 29 1 0 1 0;
   row "destinationIPv6PrefixLength" 30 1 0 1 0;
   row "flowLabelIPv6" 31 3 0 4 0;
   row "icmpTypeCodeIPv4" 32 2 0 2 0;
   row "igmpType" 33 1 0 1 0;
   row "samplingInterval" 34 3 0 4 0;
   row "samplingAlgorithm" 35 1 0 1 0;
   row "flowActiveTimeout" 36 2 0 2 0;
   row "flowIdleTimeout" 37 2 0 2 0;
   row "engineType" 38 1 0 1 0;
   row "engineId" 39 1 0 1 0;
   row "exportedOctetTotalCount" 40 4 0 8 0;
   row "exportedMessageTotalCount" 41 4 0 8 0;
   row "exportedFlowRecordTotalCount" 42 4 0 8 0;
   row "ipv4RouterSc" 43 18 0 4 0;
   row "sourceIPv4Prefix" 44 18 0 4 0;
   row "destinationIPv4Prefix" 45 18 0 4 0;
   row "mplsTopLabelType" 46 1 0 1 0;
   row "mplsTopLabelIPv4Address" 47 18 0 4 0;
   row "samplerId" 48 1 0 1 0;
   row "samplerMode" 49 1 0 1 0;
   row "samplerRandomInterval" 50 3 0 4 0;
   row "classId" 51 1 0 1 0;
   row "minimumTTL" 52 1 0 1 0;
   row "maximumTTL" 53 1 0 1 0;
   row "fragmentIdentification" 54 3 0 4 0;
   row "postIpClassOfService" 55 1 0 1 0;
   row "sourceMacAddress" 56 12 0 6 0;
   row "postDestinationMacAddress" 57 12 0 6 0;
   row "vlanId" 58 2 0 2 0;
   row "postVlanId" 59 2 0 2 0;
   row "ipVersion" 60 1 0 1 0;
   row "flowDirection" 61 1 0 1 0;
   row "ipNextHopIPv6Address" 62 19 0 16 0;
   row "bgpNextHopIPv6Address" 63 19 0 16 0;
   row "ipv6ExtensionHeaders" 64 3 0 4 0;
   row "Assigned for NetFlow v9 compatibility" 0 255 0 0 0;
   row "mplsTopLabelStackSection" 70 0 0 65535 0;
   row "mplsLabelStackSection2" 71 0 0 65535 0;
   row "mplsLabelStackSection3" 72 0 0 65535 0;
   row "mplsLabelStackSection4" 73 0 0 65535 0;
   row "mplsLabelStackSection5" 74 0 0 65535 0;
   row "mplsLabelStackSection6" 75 0 0 65535 0;
   row "mplsLabelStackSection7" 76 0 0 65535 0;
   row "mplsLabelStackSection8" 77 0 0 65535 0;
   row "mplsLabelStackSection9" 78 0 0 65535 0;
   row "mplsLabelStackSection10" 79 0 0 65535 0;
   row "destinationMacAddress" 80 12 0 6 0;
   row "postSourceMacAddress" 81 12 0 6 0;
   row "interfaceName" 82 13 0 65535 0;
   row "interfaceDescription" 83 13 0 65535 0;
   row "samplerName" 84 13 0 65535 0;
   row "octetTotalCount" 85 4 0 8 0;
   row "packetTotalCount" 86 4 0 8 0;
   row "flagsAndSamplerId" 87 3 0 4 0;
   row "fragmentOffset" 88 2 0 2 0;
   row "forwardingStatus" 89 1 0 1 0;
   row "mplsVpnRouteDistinguisher" 90 0 0 65535 0;
   row "mplsTopLabelPrefixLength" 91 1 0 1 0;
   row "srcTrafficIndex" 92 3 0 4 0;
   row "dstTrafficIndex" 93 3 0 4 0;
   row "applicationDescription" 94 13 0 65535 0;
   row "applicationId" 95 0 0 65535 0;
   row "applicationName" 96 13 0 65535 0;
   row "Assigned for NetFlow v9 compatibility" 97 255 0 0 0;
   row "postIpDiffServCodePoint" 98 1 0 1 0;
   row "multicastReplicationFactor" 99 3 0 4 0;
   row "className" 100 13 0 65535 0;
   row "classificationEngineId" 101 1 0 1 0;
   row "layer2packetSectionOffset" 102 2 0 2 0;
   row "layer2packetSectionSize" 103 2 0 2 0;
   row "layer2packetSectionData" 104 0 0 65535 0;
   row "Assigned for NetFlow v9 compatibility" 0 255 0 0 0;
   row "bgpNextAdjacentAsNumber" 128 3 0 4 0;
   row "bgpPrevAdjacentAsNumber" 129 3 0 4 0;
   row "exporterIPv4Address" 130 18 0 4 0;
   row "exporterIPv6Address" 131 19 0 16 0;
   row "droppedOctetDeltaCount" 132 4 0 8 0;
   row "droppedPacketDeltaCount" 133 4 0 8 0;
   row "droppedOctetTotalCount" 134 4 0 8 0;
   row "droppedPacketTotalCount" 135 4 0 8 0;
   row "flowEndReason" 136 1 0 1 0;
   row "commonPropertiesId" 137 4 0 8 0;
   row "observationPointId" 138 4 0 8 0;
   row "icmpTypeCodeIPv6" 139 2 0 2 0;
   row "mplsTopLabelIPv6Address" 140 19 0 16 0;
   row "lineCardId" 141 3 0 4 0;
   row "portId" 142 3 0 4 0;
   row "meteringProcessId" 143 3 0 4 0].

Definition loadIANARegistry_2 : list (InfoElement * Z) :=
  [row "exportingProcessId" 144 3 0 4 0;
   row "templateId" 145 2 0 2 0;
   row "wlanChannelId" 146 1 0 1 0;
   row "wlanSSID" 147 13 0 65535 0;
   row "flowId" 148 4 0 8 0;
   row "observationDomainId" 149 3 0 4 0;
   row "flowStartSeconds" 150 14 0 4 0;
   row "flowEndSeconds" 151 14 0 4 0;
   row "flowStartMilliseconds" 152 15 0 8 0;
   row "flowEndMilliseconds" 153 15 0 8 0;
   row "flowStartMicroseconds" 154 16 0 8 0;
   row "flowEndMicroseconds" 155 16 0 8 0;
   row "flowStartNanoseconds" 156 17 0 8 0;
   row "flowEndNanoseconds" 157 17 0 8 0;
   row "flowStartDeltaMicroseconds" 158 3 0 4 0;
   row "flowEndDeltaMicroseconds" 159 3 0 4 0;
   row "systemInitTimeMilliseconds" 160 15 0 8 0;
   row "flowDurationMilliseconds" 161 3 0 4 0;
   row "flowDurationMicroseconds" 162 3 0 4 0;
   row "observedFlowTotalCount" 163 4 0 8 0;
   row "ignoredPacketTotalCount" 164 4 0 8 0;
   row "ignoredOctetTotalCount" 165 4 0 8 0;
   row "notSentFlowTotalCount" 166 4 0 8 0;
   row "notSentPacketTotalCount" 167 4 0 8 0;
   row "notSentOctetTotalCount" 168 4 0 8 0;
   row "destinationIPv6Prefix" 169 19 0 16 0;
   row "sourceIPv6Prefix" 170 19 0 16 0;
   row "postOctetTotalCount" 171 4 0 8 0;
   row "postPacketTotalCount" 172 4 0 8 0;
   row "flowKeyIndicator" 173 4 0 8 0;
   row "postMCastPacketTotalCount" 174 4 0 8 0;
   row "postMCastOctetTotalCount" 175 4 0 8 0;
   row "icmpTypeIPv4" 176 1 0 1 0;
   row "icmpCodeIPv4" 177 1 0 1 0;
   row "icmpTypeIPv6" 178 1 0 1 0;
   row "icmpCodeIPv6" 179 1 0 1 0;
   row "udpSourcePort" 180 2 0 2 0;
   row "udpDestinationPort" 181 2 0 2 0;
   row "tcpSourcePort" 182 2 0 2 0;
   row "tcpDestinationPort" 183 2 0 2 0;
   row "tcpSequenceNumber" 184 3 0 4 0;
   row "tcpAcknowledgementNumber" 185 3 0 4 0;
   row "tcpWindowSize" 186 2 0 2 0;
   row "tcpUrgentPointer" 187 2 0 2 0;
   row "tcpHeaderLength" 188 1 0 1 0;
   row "ipHeaderLength" 189 1 0 1 0;
   row "totalLengthIPv4" 190 2 0 2 0;
   row "payloadLengthIPv6" 191 2 0 2 0;
   row "ipTTL" 192 1 0 1 0;
   row "nextHeaderIPv6" 193 1 0 1 0;
   row "mplsPayloadLength" 194 3 0 4 0;
   row "ipDiffServCodePoint" 195 1 0 1 0;
   row "ipPrecedence" 196 1 0 1 0;
   row "fragmentFlags" 197 1 0 1 0;
   row "octetDeltaSumOfSquares" 198 4 0 8 0;
   row "octetTotalSumOfSquares" 199 4 0 8 0;
   row "mplsTopLabelTTL" 200 1 0 1 0;
   row "mplsLabelStackLength" 201 3 0 4 0;
   row "mplsLabelStackDepth" 202 3 0 4 0;
   row "mplsTopLabelExp" 203 1 0 1 0;
   row "ipPayloadLength" 204 3 0 4 0;
   row "udpMessageLength" 205 2 0 2 0;
   row "isMulticast" 206 1 0 1 0;
   row "ipv4IHL" 207 1 0 1 0;
   row "ipv4Options" 208 3 0 4 0;
   row "tcpOptions" 209 4 0 8 0;
   row "paddingOctets" 210 0 0 65535 0;
   row "collectorIPv4Address" 211 18 0 4 0;
   row "collectorIPv6Address" 212 19 0 16 0;
   row "exportInterface" 213 3 0 4 0;
   row "exportProtocolVersion" 214 1 0 1 0;
   row "exportTransportProtocol" 215 1 0 1 0;
   row "collectorTransportPort" 216 2 0 2 0;
   row "exporterTransportPort" 217 2 0 2 0;
   row "tcpSynTotalCount" 218 4 0 8 0;
   row "tcpFinTotalCount" 219 4 0 8 0;
   row "tcpRstTotalCount" 220 4 0 8 0;
   row "tcpPshTotalCount" 221 4 0 8 0;
   row "tcpAckTotalCount" 222 4 0 8 0;
   row "tcpUrgTotalCount" 223 4 0 8 0;
   row "ipTotalLength" 224 4 0 8 0;
   row "postNATSourceIPv4Address" 225 18 0 4 0;
   row "postNATDestinationIPv4Address" 226 18 0 4 0;
   row "postNAPTSourceTransportPort" 227 2 0 2 0;
   row "postNAPTDestinationTransportPort" 228 2 0 2 0;
   row "natOriginatingAddressRealm" 229 1 0 1 0;
   row "natEvent" 230 1 0 1 0;
   row "initiatorOctets" 231 4 0 8 0;
   row "responderOctets" 232 4 0 8 0;
   row "firewallEvent" 233 1 0 1 0;
   row "ingressVRFID" 234 3 0 4 0;
   row "egressVRFID" 235 3 0 4 0;
   row "VRFname" 236 13 0 65535 0;
   row "postMplsTopLabelExp" 237 1 0 1 0;
   row "tcpWindowScale" 238 2 0 2 0;
   row "biflowDirection" 239 1 0 1 0;
   row "ethernetHeaderLength" 240 1 0 1 0;
   row "ethernetPayloadLength" 241 2 0 2 0;
   row "ethernetTotalLength" 242 2 0 2 0;
   row "dot1qVlanId" 243 2 0 2 0;
   row "dot1qPriority" 244 1 0 1 0;
   row "dot1qCustomerVlanId" 245 2 0 2 0;
   row "dot1qCustomerPriority" 246 1 0 1 0;
   row "metroEvcId" 247 13 0 65535 0;
   row "metroEvcType" 248 1 0 1 0;
   row "pseudoWireId" 249 3 0 4 0;
   row "pseudoWireType" 250 2 0 2 0;
   row "pseudoWireControlWord" 251 3 0 4 0;
   row "ingressPhysicalInterface" 252 3 0 4 0;
   row "egressPhysicalInterface" 253 3 0 4 0;
   row "postDot1qVlanId" 254 2 0 2 0;
   row "postDot1qCustomerVlanId" 255 2 0 2 0;
   row "ethernetType" 256 2 0 2 0;
   row "postIpPrecedence" 257 1 0 1 0;
   row "collectionTimeMilliseconds" 258 15 0 8 0;
   row "exportSctpStreamId" 259 2 0 2 0;
   row "maxExportSeconds" 260 14 0 4 0].

Definition loadIANARegistry_3 : list (InfoElement * Z) :=
  [row "maxFlowEndSeconds" 261 14 0 4 0;
   row "messageMD5Checksum" 262 0 0 65535 0;
   row "messageScope" 263 1 0 1 0;
   row "minExportSeconds" 264 14 0 4 0;
   row "minFlowStartSeconds" 265 14 0 4 0;
   row "opaqueOctets" 266 0 0 65535 0;
   row "sessionScope" 267 1 0 1 0;
   row "maxFlowEndMicroseconds" 268 16 0 8 0;
   row "maxFlowEndMilliseconds" 269 15 0 8 0;
   row "maxFlowEndNanoseconds" 270 17 0 8 0;
   row "minFlowStartMicroseconds" 271 16 0 8 0;
   row "minFlowStartMilliseconds" 272 15 0 8 0;
   row "minFlowStartNanoseconds" 273 17 0 8 0;
   row "collectorCertificate" 274 0 0 65535 0;
   row "exporterCertificate" 275 0 0 65535 0;
   row "dataRecordsReliability" 276 11 0 1 0;
   row "observationPointType" 277 1 0 1 0;
   row "newConnectionDeltaCount" 278 3 0 4 0;
   row "connectionSumDurationSeconds" 279 4 0 8 0;
   row "connectionTransactionId" 280 4 0 8 0;
   row "postNATSourceIPv6Address" 281 19 0 16 0;
   row "postNATDestinationIPv6Address" 282 19 0 16 0;
   row "natPoolId" 283 3 0 4 0;
   row "natPoolName" 284 13 0 65535 0;
   row "anonymizationFlags" 285 2 0 2 0;
   row "anonymizationTechnique" 286 2 0 2 0;
   row "informationElementIndex" 287 2 0 2 0;
   row "p2pTechnology" 288 13 0 65535 0;
   row "tunnelTechnology" 289 13 0 65535 0;
   row "encryptedTechnology" 290 13 0 65535 0;
   row "basicList" 291 20 0 65535 0;
   row "subTemplateList" 292 21 0 65535 0;
   row "subTemplateMultiList" 293 22 0 65535 0;
   row "bgpValidityState" 294 1 0 1 0;
   row "IPSecSPI" 295 3 0 4 0;
   row "greKey" 296 3 0 4 0;
   row "natType" 297 1 0 1 0;
   row "initiatorPackets" 298 4 0 8 0;
   row "responderPackets" 299 4 0 8 0;
   row "observationDomainName" 300 13 0 65535 0;
   row "selectionSequenceId" 301 4 0 8 0;
   row "selectorId" 302 4 0 8 0;
   row "informationElementId" 303 2 0 2 0;
   row "selectorAlgorithm" 304 2 0 2 0;
   row "samplingPacketInterval" 305 3 0 4 0;
   row "samplingPacketSpace" 306 3 0 4 0;
   row "samplingTimeInterval" 307 3 0 4 0;
   row "samplingTimeSpace" 308 3 0 4 0;
   row "samplingSize" 309 3 0 4 0;
   row "samplingPopulation" 310 3 0 4 0;
   row "samplingProbability" 311 10 0 8 0;
   row "dataLinkFrameSize" 312 2 0 2 0;
   row "ipHeaderPacketSection" 313 0 0 65535 0;
   row "ipPayloadPacketSection" 314 0 0 65535 0;
   row "dataLinkFrameSection" 315 0 0 65535 0;
   row "mplsLabelStackSection" 316 0 0 65535 0;
   row "mplsPayloadPacketSection" 317 0 0 65535 0;
   row "selectorIdTotalPktsObserved" 318 4 0 8 0;
   row "selectorIdTotalPktsSelected" 319 4 0 8 0;
   row "absoluteError" 320 10 0 8 0;
   row "relativeError" 321 10 0 8 0;
   row "observationTimeSeconds" 322 14 0 4 0;
   row "observationTimeMilliseconds" 323 15 0 8 0;
   row "observationTimeMicroseconds" 324 16 0 8 0;
   row "observationTimeNanoseconds" 325 17 0 8 0;
   row "digestHashValue" 326 4 0 8 0;
   row "hashIPPayloadOffset" 327 4 0 8 0;
   row "hashIPPayloadSize" 328 4 0 8 0;
   row "hashOutputRangeMin" 329 4 0 8 0;
   row "hashOutputRangeMax" 330 4 0 8 0;
   row "hashSelectedRangeMin" 331 4 0 8 0;
   row "hashSelectedRangeMax" 332 4 0 8 0;
   row "hashDigestOutput" 333 11 0 1 0;
   row "hashInitialiserValue" 334 4 0 8 0;
   row "selectorName" 335 13 0 65535 0;
   row "upperCILimit" 336 10 0 8 0;
   row "lowerCILimit" 337 10 0 8 0;
   row "confidenceLevel" 338 10 0 8 0;
   row "informationElementDataType" 339 1 0 1 0;
   row "informationElementDescription" 340 13 0 65535 0;
   row "informationElementName" 341 13 0 65535 0;
   row "informationElementRangeBegin" 342 4 0 8 0;
   row "informationElementRangeEnd" 343 4 0 8 0;
   row "informationElementSemantics" 344 1 0 1 0;
   row "informationElementUnits" 345 2 0 2 0;
   row "privateEnterpriseNumber" 346 3 0 4 0;
   row "virtualStationInterfaceId" 347 0 0 65535 0;
   row "virtualStationInterfaceName" 348 13 0 65535 0;
   row "virtualStationUUID" 349 0 0 65535 0;
   row "virtualStationName" 350 13 0 65535 0;
   row "layer2SegmentId" 351 4 0 8 0;
   row "layer2OctetDeltaCount" 352 4 0 8 0;
   row "layer2OctetTotalCount" 353 4 0 8 0;
   row "ingressUnicastPacketTotalCount" 354 4 0 8 0;
   row "ingressMulticastPacketTotalCount" 355 4 0 8 0;
   row "ingressBroadcastPacketTotalCount" 356 4 0 8 0;
   row "egressUnicastPacketTotalCount" 357 4 0 8 0;
   row "egressBroadcastPacketTotalCount" 358 4 0 8 0;
   row "monitoringIntervalStartMilliSeconds" 359 15 0 8 0;
   row "monitoringIntervalEndMilliSeconds" 360 15 0 8 0;
   row "portRangeStart" 361 2 0 2 0;
   row "portRangeEnd" 362 2 0 2 0;
   row "portRangeStepSize" 363 2 0 2 0;
   row "portRangeNumPorts" 364 2 0 2 0;
   row "staMacAddress" 365 12 0 6 0;
   row "staIPv4Address" 366 18 0 4 0;
   row "wtpMacAddress" 367 12 0 6 0;
   row "ingressInterfaceType" 368 3 0 4 0;
   row "egressInterfaceType" 369 3 0 4 0;
   row "rtpSequenceNumber" 370 2 0 2 0;
   row "userName" 371 13 0 65535 0;
   row "applicationCategoryName" 372 13 0 65535 0;
   row "applicationSubCategoryName" 373 13 0 65535 0;
   row "applicationGroupName" 374 13 0 65535 0;
   row "originalFlowsPresent" 375 4 0 8 0;
   row "originalFlowsInitiated" 376 4 0 8 0;
   row "originalFlowsCompleted" 377 4 0 8 0].

Definition loadIANARegistry_4 : list (InfoElement * Z) :=
  [row "distinctCountOfSourceIPAddress" 378 4 0 8 0;
   row "distinctCountOfDestinationIPAddress" 379 4 0 8 0;
   row "distinctCountOfSourceIPv4Address" 380 3 0 4 0;
   row "distinctCountOfDestinationIPv4Address" 381 3 0 4 0;
   row "distinctCountOfSourceIPv6Address" 382 4 0 8 0;
   row "distinctCountOfDestinationIPv6Address" 383 4 0 8 0;
   row "valueDistributionMethod" 384 1 0 1 0;
   row "rfc3550JitterMilliseconds" 385 3 0 4 0;
   row "rfc3550JitterMicroseconds" 386 3 0 4 0;
   row "rfc3550JitterNanoseconds" 387 3 0 4 0;
   row "dot1qDEI" 388 11 0 1 0;
   row "dot1qCustomerDEI" 389 11 0 1 0;
   row "flowSelectorAlgorithm" 390 2 0 2 0;
   row "flowSelectedOctetDeltaCount" 391 4 0 8 0;
   row "flowSelectedPacketDeltaCount" 392 4 0 8 0;
   row "flowSelectedFlowDeltaCount" 393 4 0 8 0;
   row "selectorIDTotalFlowsObserved" 394 4 0 8 0;
   row "selectorIDTotalFlowsSelected" 395 4 0 8 0;
   row "samplingFlowInterval" 396 4 0 8 0;
   row "samplingFlowSpacing" 397 4 0 8 0;
   row "flowSamplingTimeInterval" 398 4 0 8 0;
   row "flowSamplingTimeSpacing" 399 4 0 8 0;
   row "hashFlowDomain" 400 2 0 2 0;
   row "transportOctetDeltaCount" 401 4 0 8 0;
   row "transportPacketDeltaCount" 402 4 0 8 0;
   row "originalExporterIPv4Address" 403 18 0 4 0;
   row "originalExporterIPv6Address" 404 19 0 16 0;
   row "originalObservationDomainId" 405 3 0 4 0;
   row "intermediateProcessId" 406 3 0 4 0;
   row "ignoredDataRecordTotalCount" 407 4 0 8 0;
   row "dataLinkFrameType" 408 2 0 2 0;
   row "sectionOffset" 409 2 0 2 0;
   row "sectionExportedOctets" 410 2 0 2 0;
   row "dot1qServiceInstanceTag" 411 0 0 65535 0;
   row "dot1qServiceInstanceId" 412 3 0 4 0;
   row "dot1qServiceInstancePriority" 413 1 0 1 0;
   row "dot1qCustomerSourceMacAddress" 414 12 0 6 0;
   row "dot1qCustomerDestinationMacAddress" 415 12 0 6 0;
   row "" 416 255 0 0 0;
   row "postLayer2OctetDeltaCount" 417 4 0 8 0;
   row "postMCastLayer2OctetDeltaCount" 418 4 0 8 0;
   row "" 419 255 0 0 0;
   row "postLayer2OctetTotalCount" 420 4 0 8 0;
   row "postMCastLayer2OctetTotalCount" 421 4 0 8 0;
   row "minimumLayer2TotalLength" 422 4 0 8 0;
   row "maximumLayer2TotalLength" 423 4 0 8 0;
   row "droppedLayer2OctetDeltaCount" 424 4 0 8 0;
   row "droppedLayer2OctetTotalCount" 425 4 0 8 0;
   row "ignoredLayer2OctetTotalCount" 426 4 0 8 0;
   row "notSentLayer2OctetTotalCount" 427 4 0 8 0;
   row "layer2OctetDeltaSumOfSquares" 428 4 0 8 0;
   row "layer2OctetTotalSumOfSquares" 429 4 0 8 0;
   row "layer2FrameDeltaCount" 430 4 0 8 0;
   row "layer2FrameTotalCount" 431 4 0 8 0;
   row "pseudoWireDestinationIPv4Address" 432 18 0 4 0;
   row "ignoredLayer2FrameTotalCount" 433 4 0 8 0;
   row "mibObjectValueInteger" 434 7 0 4 0;
   row "mibObjectValueOctetString" 435 0 0 65535 0;
   row "mibObjectValueOID" 436 0 0 65535 0;
   row "mibObjectValueBits" 437 0 0 65535 0;
   row "mibObjectValueIPAddress" 438 18 0 4 0;
   row "mibObjectValueCounter" 439 4 0 8 0;
   row "mibObjectValueGauge" 440 3 0 4 0;
   row "mibObjectValueTimeTicks" 441 3 0 4 0;
   row "mibObjectValueUnsigned" 442 3 0 4 0;
   row "mibObjectValueTable" 443 21 0 65535 0;
   row "mibObjectValueRow" 444 21 0 65535 0;
   row "mibObjectIdentifier" 445 0 0 65535 0;
   row "mibSubIdentifier" 446 3 0 4 0;
   row "mibIndexIndicator" 447 4 0 8 0;
   row "mibCaptureTimeSemantics" 448 1 0 1 0;
   row "mibContextEngineID" 449 0 0 65535 0;
   row "mibContextName" 450 13 0 65535 0;
   row "mibObjectName" 451 13 0 65535 0;
   row "mibObjectDescription" 452 13 0 65535 0;
   row "mibObjectSyntax" 453 13 0 65535 0;
   row "mibModuleName" 454 13 0 65535 0;
   row "mobileIMSI" 455 13 0 65535 0;
   row "mobileMSISDN" 456 13 0 65535 0;
   row "httpStatusCode" 457 2 0 2 0;
   row "sourceTransportPortsLimit" 458 2 0 2 0;
   row "httpRequestMethod" 459 13 0 65535 0;
   row "httpRequestHost" 460 13 0 65535 0;
   row "httpRequestTarget" 461 13 0 65535 0;
   row "httpMessageVersion" 462 13 0 65535 0;
   row "natInstanceID" 463 3 0 4 0;
   row "internalAddressRealm" 464 0 0 65535 0;
   row "externalAddressRealm" 465 0 0 65535 0;
   row "natQuotaExceededEvent" 466 3 0 4 0;
   row "natThresholdEvent" 467 3 0 4 0;
   row "httpUserAgent" 468 13 0 65535 0;
   row "httpContentType" 469 13 0 65535 0;
   row "httpReasonPhrase" 470 13 0 65535 0;
   row "maxSessionEntries" 471 3 0 4 0;
   row "maxBIBEntries" 472 3 0 4 0;
   row "maxEntriesPerUser" 473 3 0 4 0;
   row "maxSubscribers" 474 3 0 4 0;
   row "maxFragmentsPendingReassembly" 475 3 0 4 0;
   row "addressPoolHighThreshold" 476 3 0 4 0;
   row "addressPoolLowThreshold" 477 3 0 4 0;
   row "addressPortMappingHighThreshold" 478 3 0 4 0;
   row "addressPortMappingLowThreshold" 479 3 0 4 0;
   row "addressPortMappingPerUserHighThreshold" 480 3 0 4 0;
   row "globalAddressMappingHighThreshold" 481 3 0 4 0;
   row "vpnIdentifier" 482 0 0 65535 0;
   row "bgpCommunity" 483 3 0 4 0;
   row "bgpSourceCommunityList" 484 20 0 65535 0;
   row "bgpDestinationCommunityList" 485 20 0 65535 0;
   row "bgpExtendedCommunity" 486 0 0 65535 0;
   row "bgpSourceExtendedCommunityList" 487 20 0 65535 0;
   row "bgpDestinationExtendedCommunityList" 488 20 0 65535 0;
   row "bgpLargeCommunity" 489 0 0 65535 0;
   row "bgpSourceLargeCommunityList" 490 20 0 65535 0;
   row "bgpDestinationLargeCommunityList" 491 20 0 65535 0;
   row "Unassigned" 0 255 0 0 0].

Definition loadIANARegistry : list (InfoElement * Z) :=
  loadIANARegistry_1 ++ loadIANARegistry_2 ++ loadIANARegistry_3 ++ loadIANARegistry_4.

Definition loadAntreaRegistry : list (InfoElement * Z) :=
  [row "sourcePodNamespace" 100 13 56506 65535 56506;
   row "sourcePodName" 101 13 56506 65535 56506;
   row "destinationPodNamespace" 102 13 56506 65535 56506;
   row "destinationPodName" 103 13 56506 65535 56506;
   row "sourceNodeName" 104 13 56506 65535 56506;
   row "destinationNodeName" 105 13 56506 65535 56506;
   row "destinationClusterIPv4" 106 18 56506 4 56506;
   row "destinationClusterIPv6" 107 19 56506 16 56506;
   row "destinationServicePort" 108 2 56506 2 56506;
   row "destinationServicePortName" 109 13 56506 65535 56506;
   row "ingressNetworkPolicyName" 110 13 56506 65535 56506;
   row "ingressNetworkPolicyNamespace" 111 13 56506 65535 56506;
   row "egressNetworkPolicyName" 112 13 56506 65535 56506;
   row "egressNetworkPolicyNamespace" 113 13 56506 65535 56506;
   row "ingressNetworkPolicyUID" 114 13 56506 65535 56506;
   row "ingressNetworkPolicyType" 115 1 56506 1 56506;
   row "ingressNetworkPolicyRulePriority" 116 7 56506 4 56506;
   row "egressNetworkPolicyUID" 117 13 56506 65535 56506;
   row "egressNetworkPolicyType" 118 1 56506 1 56506;
   row "egressNetworkPolicyRulePriority" 119 7 56506 4 56506;
   row "packetTotalCountFromSourceNode" 120 4 56506 8 56506;
   row "octetTotalCountFromSourceNode" 121 4 56506 8 56506;
   row "packetDeltaCountFromSourceNode" 122 4 56506 8 56506;
   row "octetDeltaCountFromSourceNode" 123 4 56506 8 56506;
   row "reversePacketTotalCountFromSourceNode" 124 4 56506 8 56506;
   row "reverseOctetTotalCountFromSourceNode" 125 4 56506 8 56506;
   row "reversePacketDeltaCountFromSourceNode" 126 4 56506 8 56506;
   row "reverseOctetDeltaCountFromSourceNode" 127 4 56506 8 56506;
   row "packetTotalCountFromDestinationNode" 128 4 56506 8 56506;
   row "octetTotalCountFromDestinationNode" 129 4 56506 8 56506;
   row "packetDeltaCountFromDestinationNode" 130 4 56506 8 56506;
   row "octetDeltaCountFromDestinationNode" 131 4 56506 8 56506;
   row "reversePacketTotalCountFromDestinationNode" 132 4 56506 8 56506;
   row "reverseOctetTotalCountFromDestinationNode" 133 4 56506 8 56506;
   row "reversePacketDeltaCountFromDestinationNode" 134 4 56506 8 56506;
   row "reverseOctetDeltaCountFromDestinationNode" 135 4 56506 8 56506;
   row "tcpState" 136 13 56506 65535 56506;
   row "flowType" 137 1 56506 1 56506;
   row "tcpStatePrevList" 138 13 56506 65535 56506;
   row "ingressNetworkPolicyRuleAction" 139 1 56506 1 56506;
   row "egressNetworkPolicyRuleAction" 140 1 56506 1 56506;
   row "ingressNetworkPolicyRuleName" 141 13 56506 65535 56506;
   row "egressNetworkPolicyRuleName" 142 13 56506 65535 56506;
   row "sourcePodLabels" 143 13 56506 65535 56506;
   row "destinationPodLabels" 144 13 56506 65535 56506;
   row "throughput" 145 4 56506 8 56506;
   row "reverseThroughput" 146 4 56506 8 56506;
   row "throughputFromSourceNode" 147 4 56506 8 56506;
   row "throughputFromDestinationNode" 148 4 56506 8 56506;
   row "reverseThroughputFromSourceNode" 149 4 56506 8 56506;
   row "reverseThroughputFromDestinationNode" 150 4 56506 8 56506;
   row "flowEndSecondsFromSourceNode" 151 14 56506 4 56506;
   row "flowEndSecondsFromDestinationNode" 152 14 56506 4 56506;
   row "egressName" 153 13 56506 65535 56506;
   row "egressIP" 154 13 56506 65535 56506;
   row "l7ProtocolName" 155 13 56506 65535 56506;
   row "httpVals" 156 13 56506 65535 56506].
