(* ===== verification/Registry.v ===== *)
(** * The registry of information elements

    src/pkg/registry/registry.go.  The two global maps are the state of a
    [Registry]; [None] is a map that [LoadRegistry] has not created yet. *)

From Stdlib Require Import ZArith Lia Ascii.
From stdpp Require Import base gmap strings list numbers.
From S2P Require Import Prelude InfoElement RegistryData.

#[local] Open Scope Z_scope.

Definition AntreaEnterpriseID : Z := 56506.
Definition IANAEnterpriseID : Z := 0.
Definition IANAReversedEnterpriseID : Z := 29305.

Definition FlowTypeIntraNode : Z := 1.
Definition FlowTypeInterNode : Z := 2.
Definition FlowTypeToExternal : Z := 3.
Definition FlowTypeFromExternal : Z := 4.

Definition NetworkPolicyRuleActionNoAction : Z := 0.
Definition NetworkPolicyRuleActionAllow : Z := 1.
Definition NetworkPolicyRuleActionDrop : Z := 2.
Definition NetworkPolicyRuleActionReject : Z := 3.

Definition IdleTimeoutReason : Z := 1.
Definition ActiveTimeoutReason : Z := 2.
Definition EndOfFlowReason : Z := 3.

(** [globalRegistryByID] and [globalRegistryByName]. *)
Record Registry : Type := mkRegistry {
  globalRegistryByID : option (gmap Z (gmap Z InfoElement));
  globalRegistryByName : option (gmap Z (gmap string InfoElement));
}.

Definition empty_registry : Registry := mkRegistry None None.

(** Reading a key of a nil map finds nothing. *)
Definition lookup2 {K} `{Countable K} (m : option (gmap Z (gmap K InfoElement))) (ent : Z)
    : option (gmap K InfoElement) :=
  default ∅ m !! ent.

(** [m[ent][k] = ie], which panics when [m[ent]] is a nil map. *)
Definition put2 {K} `{Countable K} (m : option (gmap Z (gmap K InfoElement))) (ent : Z) (k : K)
    (ie : InfoElement) : go (option (gmap Z (gmap K InfoElement))) :=
  match lookup2 m ent with
  | Some inner => Ok (Some (<[ent := <[k := ie]> inner]> (default ∅ m)))
  | None => Panic
  end.

(** The two assignments that store an element. *)
Definition store_element (ie : InfoElement) (r : Registry) : go Registry :=
  byID ← put2 (globalRegistryByID r) (EnterpriseId ie) (ElementId ie) ie;
  byName ← put2 (globalRegistryByName r) (EnterpriseId ie) (Name ie) ie;
  Ok (mkRegistry byID byName).

Definition InitNewRegistry (customEnterpriseID : Z) (r : Registry) : go Registry :=
  match globalRegistryByID r with
  | None => Err ErrNoRegistry
  | Some byID =>
      match globalRegistryByName r with
      | None => Panic
      | Some byName =>
          Ok (mkRegistry (Some (<[customEnterpriseID := ∅]> byID))
                         (Some (<[customEnterpriseID := ∅]> byName)))
      end
  end.

(** The guards look at [enterpriseID], the writes at the element's own
    enterprise id. *)
Definition PutInfoElement (ie : InfoElement) (enterpriseID : Z) (r : Registry) : go Registry :=
  match lookup2 (globalRegistryByName r) enterpriseID with
  | None => Err (ErrRegistryNotInitialized (EnterpriseId ie))
  | Some m =>
      match m !! Name ie with
      | Some _ => Err (ErrElementRegistered (Name ie) (EnterpriseId ie))
      | None => store_element ie r
      end
  end.

Definition GetInfoElementFromID (elementID enterpriseID : Z) (r : Registry) : go InfoElement :=
  match lookup2 (globalRegistryByID r) enterpriseID with
  | None => Err (ErrRegistryNotSupported enterpriseID)
  | Some m => of_option (Err (ErrElementIDNotFound elementID enterpriseID)) (m !! elementID)
  end.

Definition RegistryGetInfoElement (name : string) (enterpriseID : Z) (r : Registry)
    : go InfoElement :=
  match lookup2 (globalRegistryByName r) enterpriseID with
  | None => Err (ErrRegistryNotSupported enterpriseID)
  | Some m => of_option (Err (ErrElementNameNotFound name enterpriseID)) (m !! name)
  end.

(** ** Reverse information elements *)

Definition nonReversibleIEs : list string :=
  ["biflowDirection"; "collectorIPv4Address"; "collectorIPv6Address"; "collectorTransportPort";
   "commonPropertiesId"; "exportedMessageTotalCount"; "exportedOctetTotalCount";
   "exportedFlowRecordTotalCount"; "exporterIPv4Address"; "exporterIPv6Address";
   "exporterTransportPort"; "exportInterface"; "exportProtocolVersion";
   "exportTransportProtocol"; "flowId"; "flowKeyIndicator"; "ignoredPacketTotalCount";
   "ignoredOctetTotalCount"; "notSentFlowTotalCount"; "notSentPacketTotalCount";
   "notSentOctetTotalCount"; "observationDomainId"; "observedFlowTotalCount"; "paddingOctets";
   "templateId"]%string.

Definition isReversible (name : string) : bool :=
  negb (existsb (String.eqb name) nonReversibleIEs).

(** [strings.ToUpper] of a string of one byte: ASCII letters are mapped, and a
    byte that is not valid UTF-8 becomes the replacement character U+FFFD. *)
Definition upper1 (c : ascii) : string :=
  let n := N_of_ascii c in
  if decide (128 <= n)%N then
    String (ascii_of_N 239) (String (ascii_of_N 191) (String (ascii_of_N 189) ""))
  else if decide (97 <= n ∧ n <= 122)%N then String (ascii_of_N (n - 32)) ""
  else String c "".

Definition reverse_name (name : string) : string :=
  match name with
  | EmptyString => "reverse"
  | String c s => "reverse" +:+ upper1 c +:+ s
  end.

Definition getIANAReverseInfoElement (name : string) (r : Registry) : go InfoElement :=
  match (default ∅ (lookup2 (globalRegistryByName r) IANAEnterpriseID) : gmap string InfoElement)
        !! name with
  | None => Err (ErrElementNameNotFound name IANAEnterpriseID)
  | Some ie =>
      if isReversible (Name ie)
      then Ok (NewInfoElement (reverse_name (Name ie)) (ElementId ie) (DataType ie)
                 IANAReversedEnterpriseID (Len ie))
      else Err (ErrNotReversible name)
  end.

Definition registerInfoElement (ie : InfoElement) (enterpriseID : Z) (r : Registry) : go Registry :=
  match lookup2 (globalRegistryByName r) enterpriseID with
  | None => Err (ErrRegistryNotSupported (EnterpriseId ie))
  | Some m =>
      match m !! Name ie with
      | Some _ => Err (ErrElementRegistered (Name ie) (EnterpriseId ie))
      | None =>
          r ← store_element ie r;
          if decide (EnterpriseId ie = IANAEnterpriseID) then
            match getIANAReverseInfoElement (Name ie) r with
            | Ok reverseIE =>
                byID ← put2 (globalRegistryByID r) IANAReversedEnterpriseID (ElementId reverseIE)
                         reverseIE;
                byName ← put2 (globalRegistryByName r) IANAReversedEnterpriseID (Name reverseIE)
                           reverseIE;
                Ok (mkRegistry byID byName)
            | Err _ => Ok r
            | Panic => Panic
            | Block => Block
            end
          else Ok r
      end
  end.

(** The generated loaders call [registerInfoElement] and ignore its error. *)
Definition register_row (r : Registry) (p : InfoElement * Z) : go Registry :=
  match registerInfoElement p.1 p.2 r with
  | Err _ => Ok r
  | res => res
  end.

Definition fresh_maps {K} `{Countable K} : gmap Z (gmap K InfoElement) :=
  <[IANAReversedEnterpriseID := ∅]> (<[IANAEnterpriseID := ∅]> {[AntreaEnterpriseID := ∅]}).

(** [LoadRegistry] replaces the maps and loads both tables. *)
Definition LoadRegistry : go Registry :=
  r ← go_foldM register_row (mkRegistry (Some fresh_maps) (Some fresh_maps)) loadIANARegistry;
  go_foldM register_row r loadAntreaRegistry.

(** ** The registry's invariant

    Every element is stored under its own id, name and enterprise, fits in a field
    specifier, and has the length of its data type. *)
Definition wf_ie (ie : InfoElement) : Prop :=
  0 <= ElementId ie < 32768 ∧ in_u 32 (EnterpriseId ie) ∧ Len ie = InfoElementLength (DataType ie).

#[global] Instance wf_ie_dec ie : Decision (wf_ie ie).
Proof. unfold wf_ie. apply _. Defined.

Definition coherent {K} `{Countable K} (key : InfoElement → K)
    (m : option (gmap Z (gmap K InfoElement))) : Prop :=
  ∀ ent inner k ie, lookup2 m ent = Some inner → inner !! k = Some ie →
    key ie = k ∧ EnterpriseId ie = ent ∧ wf_ie ie.

Definition registry_ok (r : Registry) : Prop :=
  coherent ElementId (globalRegistryByID r) ∧ coherent Name (globalRegistryByName r).

(** The element can be found under its own id, as a collector looks it up. *)
Definition registered (r : Registry) (ie : InfoElement) : Prop :=
  GetInfoElementFromID (ElementId ie) (EnterpriseId ie) r = Ok ie.

#[global] Instance registered_dec r ie : Decision (registered r ie).
Proof. unfold registered. apply _. Defined.

(** ** Lemmas *)

Section put2_lemmas.
Context {K : Type} `{Countable K}.
Implicit Types m : option (gmap Z (gmap K InfoElement)).

Lemma lookup2_put2 m ent k ie m' ent' :
  put2 m ent k ie = Ok m' →
  lookup2 m' ent' =
    if decide (ent' = ent) then (λ i, <[k := ie]> i) <$> lookup2 m ent else lookup2 m ent'.
Proof.
  unfold put2. destruct (lookup2 m ent) as [inner|] eqn:E; [|done]. intros [= <-].
  unfold lookup2 in *. cbn [default from_option id]. case_decide; simplify_map_eq; done.
Qed.

Lemma coherent_put2 (key : InfoElement → K) m ie m' :
  coherent key m → wf_ie ie → put2 m (EnterpriseId ie) (key ie) ie = Ok m' → coherent key m'.
Proof.
  intros Hm Hie Hp ent inner k ie' Hl Hk. rewrite (lookup2_put2 _ _ _ _ _ _ Hp) in Hl.
  case_decide as He; [|by eapply Hm]. subst ent.
  destruct (lookup2 m (EnterpriseId ie)) as [i0|] eqn:E; simplify_eq/=.
  destruct (decide (k = key ie)) as [->|]; simplify_map_eq; [done|]. by eapply Hm.
Qed.

Lemma put2_is_ok m ent k ie : is_Some (lookup2 m ent) → is_ok (put2 m ent k ie).
Proof. unfold put2, is_ok. intros [inner ->]. eauto. Qed.

Lemma put2_panic m ent k ie : lookup2 m ent = None → put2 m ent k ie = Panic.
Proof. unfold put2. by intros ->. Qed.
End put2_lemmas.

Lemma store_element_ok ie r r' :
  registry_ok r → wf_ie ie → store_element ie r = Ok r' → registry_ok r'.
Proof.
  intros [H1 H2] Hie. unfold store_element.
  intros (byID & E1 & (byName & E2 & [= <-])%go_bind_Ok)%go_bind_Ok.
  split; simpl; eapply coherent_put2; eauto.
Qed.

(** A stored element is found under its id and under its name. *)
Lemma store_element_found ie r r' :
  store_element ie r = Ok r' →
  registered r' ie ∧ RegistryGetInfoElement (Name ie) (EnterpriseId ie) r' = Ok ie.
Proof.
  unfold store_element.
  intros (byID & E1 & (byName & E2 & [= <-])%go_bind_Ok)%go_bind_Ok.
  unfold registered, GetInfoElementFromID, RegistryGetInfoElement. simpl.
  rewrite (lookup2_put2 _ _ _ _ _ _ E1), (lookup2_put2 _ _ _ _ _ _ E2).
  rewrite !decide_True by done.
  unfold put2 in E1, E2. repeat case_match; simplify_eq/=. by rewrite !lookup_insert_eq.
Qed.

Lemma reverse_element_wf name r ie :
  registry_ok r → getIANAReverseInfoElement name r = Ok ie →
  wf_ie ie ∧ EnterpriseId ie = IANAReversedEnterpriseID.
Proof.
  intros [_ Hn]. unfold getIANAReverseInfoElement.
  destruct (lookup2 (globalRegistryByName r) IANAEnterpriseID) as [m|] eqn:E; simpl;
    [|by rewrite lookup_empty].
  destruct (m !! name) as [ie0|] eqn:E2; [|done].
  destruct (isReversible _); [|done]. intros [= <-].
  destruct (Hn _ _ _ _ E E2) as (_ & _ & ? & ? & ?). split; [|done].
  split_and!; simpl; try done; lia.
Qed.

Lemma registerInfoElement_ok ie ent r r' :
  registry_ok r → wf_ie ie → registerInfoElement ie ent r = Ok r' → registry_ok r'.
Proof.
  intros Hr Hie. unfold registerInfoElement. destruct (lookup2 _ ent) as [m|]; [|done].
  destruct (m !! Name ie); [done|]. intros (r1 & H1 & H2)%go_bind_Ok.
  pose proof (store_element_ok _ _ _ Hr Hie H1) as Hr1.
  case_decide; [|by simplify_eq].
  destruct (getIANAReverseInfoElement _ r1) as [rev| | |] eqn:E; try by simplify_eq.
  destruct (reverse_element_wf _ _ _ Hr1 E) as [Hwf He]. destruct Hr1 as [Ha Hb].
  apply go_bind_Ok in H2 as (byID & E1 & (byName & E2 & [= <-])%go_bind_Ok).
  rewrite <- He in E1, E2. split; simpl; eapply coherent_put2; eauto.
Qed.

Lemma register_row_ok r p r' :
  wf_ie p.1 → registry_ok r → register_row r p = Ok r' → registry_ok r'.
Proof.
  intros Hp Hr. unfold register_row. destruct (registerInfoElement _ _ _) eqn:E; [|by intros [= <-]|done..].
  intros [= <-]. by eapply registerInfoElement_ok.
Qed.

Lemma register_rows_ok rows r r' :
  Forall (λ p, wf_ie p.1) rows → registry_ok r → go_foldM register_row r rows = Ok r' →
  registry_ok r'.
Proof.
  intros Hrows. revert r. induction Hrows as [|p rows Hp _ IH]; intros r Hr; simpl.
  - by intros [= <-].
  - intros (r1 & H1 & H2)%go_bind_Ok. eauto using register_row_ok.
Qed.

Lemma fresh_maps_coherent {K} `{Countable K} (key : InfoElement → K) :
  coherent key (Some fresh_maps).
Proof.
  intros ent inner k ie. unfold lookup2, fresh_maps. simpl.
  rewrite !lookup_insert. repeat case_decide; [by intros [= <-]..|].
  rewrite lookup_singleton. case_decide; [by intros [= <-]|done].
Qed.

Lemma tables_wf : Forall (λ p, wf_ie p.1) (loadIANARegistry ++ loadAntreaRegistry).
Proof. apply (bool_decide_unpack _). vm_compute. exact I. Qed.

Lemma LoadRegistry_registry_ok r : LoadRegistry = Ok r → registry_ok r.
Proof.
  unfold LoadRegistry. intros (r1 & H1' & H2')%go_bind_Ok.
  pose proof tables_wf as Ht. apply Forall_app in Ht as [H1 H2].
  eapply (register_rows_ok loadAntreaRegistry); [done| |done].
  eapply (register_rows_ok loadIANARegistry); [done| |done].
  split; apply fresh_maps_coherent.
Qed.

Lemma GetInfoElementFromID_inv r id ent ie :
  registry_ok r → GetInfoElementFromID id ent r = Ok ie →
  ElementId ie = id ∧ EnterpriseId ie = ent ∧ wf_ie ie.
Proof.
  intros [Hid _]. unfold GetInfoElementFromID.
  destruct (lookup2 _ ent) as [m|] eqn:E; [|done].
  destruct (m !! id) eqn:E2; [|done]. intros [= <-]. by eapply Hid.
Qed.

(** An element that was not stored is looked up as before. *)
Lemma store_element_frame ie r r' :
  store_element ie r = Ok r' →
  (∀ id ent, (id, ent) ≠ (ElementId ie, EnterpriseId ie) →
     GetInfoElementFromID id ent r' = GetInfoElementFromID id ent r) ∧
  (∀ name ent, (name, ent) ≠ (Name ie, EnterpriseId ie) →
     RegistryGetInfoElement name ent r' = RegistryGetInfoElement name ent r).
Proof.
  unfold store_element.
  intros (byID & E1 & (byName & E2 & [= <-])%go_bind_Ok)%go_bind_Ok.
  unfold GetInfoElementFromID, RegistryGetInfoElement. simpl.
  split; intros k ent Hne;
    [rewrite (lookup2_put2 _ _ _ _ _ _ E1)|rewrite (lookup2_put2 _ _ _ _ _ _ E2)];
    (case_decide; [subst ent|done]); unfold put2 in E1, E2; repeat case_match; simplify_eq/=;
    rewrite ?lookup_insert_ne by congruence; done.
Qed.

Lemma store_element_outcome ie r :
  store_element ie r = Panic ∨ ∃ r', store_element ie r = Ok r'.
Proof. unfold store_element, put2. repeat case_match; simpl; eauto. Qed.

Lemma store_element_panics ie r :
  store_element ie r = Panic ↔
  lookup2 (globalRegistryByID r) (EnterpriseId ie) = None ∨
  lookup2 (globalRegistryByName r) (EnterpriseId ie) = None.
Proof.
  unfold store_element, put2.
  destruct (lookup2 (globalRegistryByID r) (EnterpriseId ie)),
    (lookup2 (globalRegistryByName r) (EnterpriseId ie)); simpl; split; intros H; try done; tauto || (by destruct H).
Qed.

(** The calls a program makes on the registry after it is loaded. *)
Inductive registry_step : Registry → Registry → Prop :=
| step_InitNewRegistry ent r r' : InitNewRegistry ent r = Ok r' → registry_step r r'
| step_PutInfoElement ie ent r r' :
    wf_ie ie → PutInfoElement ie ent r = Ok r' → registry_step r r'
| step_LoadRegistry r r' : LoadRegistry = Ok r' → registry_step r r'.

Lemma coherent_insert_empty {K} `{Countable K} (key : InfoElement → K) m ent :
  coherent key (Some m) → coherent key (Some (<[ent := ∅]> m)).
Proof.
  intros Hm ent' inner k ie. unfold lookup2. simpl. rewrite lookup_insert.
  case_decide; [by intros [= <-]|]. apply Hm.
Qed.

Lemma registry_step_ok r r' : registry_step r r' → registry_ok r → registry_ok r'.
Proof.
  destruct 1 as [ent r r' H|ie ent r r' Hie H|r r' H].
  3:{ intros _. by apply LoadRegistry_registry_ok. }
  - intros [H1 H2]. unfold InitNewRegistry in H. repeat case_match; simplify_eq.
    destruct r as [byID byName]. simpl in *. subst.
    split; simpl; by apply coherent_insert_empty.
  - intros Hr. unfold PutInfoElement in H. repeat case_match; simplify_eq.
    by eapply store_element_ok.
Qed.

(** ** Properties *)

(** Names that the tables use for several reserved element ids. *)
Definition reserved_names : list string := ["Assigned for NetFlow v9 compatibility"; ""]%string.

(** The registry of a program that has called [LoadRegistry]. *)
Definition loaded_registry : Registry := from_ok empty_registry LoadRegistry.

Lemma LoadRegistry_loaded : LoadRegistry = Ok loaded_registry.
Proof. apply from_ok_eq. vm_compute. reflexivity. Qed.

(** A row of a table is found by its id and by its name. *)
Definition row_found (r : Registry) (p : InfoElement * Z) : Prop :=
  GetInfoElementFromID (ElementId p.1) p.2 r = Ok p.1 ∧
  RegistryGetInfoElement (Name p.1) p.2 r = Ok p.1.

(** The reverse element of a row is found exactly when the row is reversible. *)
Definition reverse_found (r : Registry) (p : InfoElement * Z) : Prop :=
  let rev := NewInfoElement (reverse_name (Name p.1)) (ElementId p.1) (DataType p.1)
               IANAReversedEnterpriseID (Len p.1) in
  if isReversible (Name p.1)
  then GetInfoElementFromID (ElementId p.1) IANAReversedEnterpriseID r = Ok rev ∧
       RegistryGetInfoElement (reverse_name (Name p.1)) IANAReversedEnterpriseID r = Ok rev
  else RegistryGetInfoElement (reverse_name (Name p.1)) IANAReversedEnterpriseID r =
       Err (ErrElementNameNotFound (reverse_name (Name p.1)) IANAReversedEnterpriseID).

#[global] Instance row_found_dec r p : Decision (row_found r p).
Proof. unfold row_found. apply _. Defined.
#[global] Instance reverse_found_dec r p : Decision (reverse_found r p).
Proof. unfold reverse_found. destruct (isReversible _); apply _. Defined.

(** A check of all rows but the reserved ones, by evaluation. *)
Lemma check_rows (P : InfoElement * Z → Prop) `{∀ p, Decision (P p)} rows :
  forallb (λ p, bool_decide (Name p.1 ∈ reserved_names) || bool_decide (P p)) rows = true →
  Forall (λ p, Name p.1 ∉ reserved_names → P p) rows.
Proof.
  induction rows as [|p rows IH]; simpl; [constructor|].
  intros [Hp Hr]%andb_prop. constructor; [|by apply IH]. intros Hn.
  apply orb_prop in Hp as [Hp|Hp]; by apply bool_decide_eq_true in Hp.
Qed.

(** [LoadRegistry] returns, whatever was loaded before: every element it
    stores is filed under its own id, name and enterprise, has an id below 2^15 and
    the length of its data type; and every element of the IANA and the Antrea
    tables, apart from the reserved ids that share a name, is then found by its id
    and by its name. *)
Theorem registry_loaded :
  ∃ r, LoadRegistry = Ok r ∧ registry_ok r ∧
    Forall (λ p, Name p.1 ∉ reserved_names → row_found r p)
      (loadIANARegistry ++ loadAntreaRegistry).
Proof.
  exists loaded_registry. split_and!; [apply LoadRegistry_loaded| |].
  - apply LoadRegistry_registry_ok, LoadRegistry_loaded.
  - apply (check_rows (row_found loaded_registry)). vm_compute. reflexivity.
Qed.

(** The reverse elements of RFC 5103.  After [LoadRegistry] every reversible
    IANA element has a reverse element under the enterprise number 29305, with the
    same id, type and length and the name [reverse] followed by the capitalised
    name; an element that is not reversible has none. *)
Theorem reverse_elements_loaded :
  ∃ r, LoadRegistry = Ok r ∧
    Forall (λ p, Name p.1 ∉ reserved_names → reverse_found r p)
      loadIANARegistry.
Proof.
  exists loaded_registry. split; [apply LoadRegistry_loaded|].
  apply (check_rows (reverse_found loaded_registry)). vm_compute. reflexivity.
Qed.

(** What [PutInfoElement] does, case by case.  When it succeeds the element is
    found under its own id, name and enterprise and every other lookup answers as
    before; it refuses an enterprise without a registry and a name that is taken;
    and it panics exactly when the registry it was asked for exists while the
    element itself carries another enterprise number that has none. *)
Theorem PutInfoElement_cases ie enterpriseID r :
  match PutInfoElement ie enterpriseID r with
  | Ok r' =>
      GetInfoElementFromID (ElementId ie) (EnterpriseId ie) r' = Ok ie ∧
      RegistryGetInfoElement (Name ie) (EnterpriseId ie) r' = Ok ie ∧
      (∀ id ent, (id, ent) ≠ (ElementId ie, EnterpriseId ie) →
         GetInfoElementFromID id ent r' = GetInfoElementFromID id ent r) ∧
      (∀ name ent, (name, ent) ≠ (Name ie, EnterpriseId ie) →
         RegistryGetInfoElement name ent r' = RegistryGetInfoElement name ent r)
  | Err (ErrRegistryNotInitialized ent) =>
      ent = EnterpriseId ie ∧
      RegistryGetInfoElement (Name ie) enterpriseID r = Err (ErrRegistryNotSupported enterpriseID)
  | Err (ErrElementRegistered name ent) =>
      name = Name ie ∧ ent = EnterpriseId ie ∧ is_ok (RegistryGetInfoElement name enterpriseID r)
  | Panic =>
      RegistryGetInfoElement (Name ie) enterpriseID r =
        Err (ErrElementNameNotFound (Name ie) enterpriseID) ∧
      (lookup2 (globalRegistryByID r) (EnterpriseId ie) = None ∨
       lookup2 (globalRegistryByName r) (EnterpriseId ie) = None)
  | _ => False
  end.
Proof.
  unfold PutInfoElement, RegistryGetInfoElement at 4 5 6.
  destruct (lookup2 (globalRegistryByName r) enterpriseID) as [m|]; [|done].
  destruct (m !! Name ie) as [old|] eqn:E; [split_and!; [done|done|rewrite E; by eexists]|].
  destruct (store_element_outcome ie r) as [Hp|[r' Hs]].
  - rewrite Hp. split; [done|]. by apply store_element_panics.
  - rewrite Hs. destruct (store_element_found _ _ _ Hs). destruct (store_element_frame _ _ _ Hs).
    by split_and!.
Qed.

(** The registry stays coherent whatever a program does with it: after any
    sequence of [LoadRegistry], [InitNewRegistry] and [PutInfoElement] calls that
    return normally, starting from the empty maps, a lookup by id or by name only
    ever returns an element filed under that id or name and that enterprise, whose
    length is the one of its data type. *)
Theorem registry_coherent r :
  rtc registry_step empty_registry r →
  (∀ id ent ie, GetInfoElementFromID id ent r = Ok ie →
     ElementId ie = id ∧ EnterpriseId ie = ent ∧ Len ie = InfoElementLength (DataType ie)) ∧
  (∀ name ent ie, RegistryGetInfoElement name ent r = Ok ie →
     Name ie = name ∧ EnterpriseId ie = ent ∧ Len ie = InfoElementLength (DataType ie)).
Proof.
  intros H. assert (Hr : registry_ok r).
  { assert (H0 : registry_ok empty_registry).
    { split; intros ent inner k ie; unfold lookup2; simpl; by rewrite lookup_empty. }
    induction H as [|x y z Hxy _ IH]; eauto using registry_step_ok. }
  destruct Hr as [H1 H2]. split; intros k ent ie.
  - unfold GetInfoElementFromID. destruct (lookup2 _ ent) as [m|] eqn:E; [|done].
    destruct (m !! k) eqn:Ek; [|done]. intros [= <-].
    by destruct (H1 _ _ _ _ E Ek) as (? & ? & ? & ? & ?).
  - unfold RegistryGetInfoElement. destruct (lookup2 _ ent) as [m|] eqn:E; [|done].
    destruct (m !! k) eqn:Ek; [|done]. intros [= <-].
    by destruct (H2 _ _ _ _ E Ek) as (? & ? & ? & ? & ?).
Qed.

(** An element of a private enterprise. *)
Definition example_custom : InfoElement := NewInfoElement "rtt" 7 Unsigned32 4242 4.

Definition example_registry1 : Registry := from_ok empty_registry (InitNewRegistry 4242 loaded_registry).
Definition example_registry2 : Registry :=
  from_ok empty_registry (PutInfoElement example_custom 4242 example_registry1).

Lemma registry_coherent_witness :
  GetInfoElementFromID 7 4242 example_registry2 = Ok example_custom ∧
  (∀ id ent ie, GetInfoElementFromID id ent example_registry2 = Ok ie →
     ElementId ie = id ∧ EnterpriseId ie = ent ∧ Len ie = InfoElementLength (DataType ie)) ∧
  (∀ name ent ie, RegistryGetInfoElement name ent example_registry2 = Ok ie →
     Name ie = name ∧ EnterpriseId ie = ent ∧ Len ie = InfoElementLength (DataType ie)).
Proof.
  split; [vm_compute; reflexivity|]. apply registry_coherent.
  eapply rtc_l; [apply (step_LoadRegistry _ _ LoadRegistry_loaded)|].
  eapply rtc_l; [apply (step_InitNewRegistry 4242 _ example_registry1)|].
  - apply from_ok_eq. vm_compute. reflexivity.
  - eapply rtc_l; [apply (step_PutInfoElement example_custom 4242 _ example_registry2)|apply rtc_refl].
    + apply (bool_decide_unpack _). vm_compute. exact I.
    + apply from_ok_eq. vm_compute. reflexivity.
Defined.
