(* ===== verification/Exporter.v ===== *)
(** * The exporting process

    src/pkg/exporter/process.go and src/pkg/exporter/msg.go.  The network, the
    clock, the TLS set-up and the JSON encoder are outside the repository: they
    are the [Context] of the section. *)

From Stdlib Require Import ZArith Lia.
From Stdlib.Strings Require Import Byte.
From stdpp Require Import base gmap strings list numbers.
From S2P Require Import Prelude Bytes InfoElement Records Sets Wire.

#[local] Open Scope Z_scope.

(** ** State *)

Definition startTemplateID : Z := 255.
(** Ten seconds, in nanoseconds. *)
Definition defaultCheckConnInterval : Z := 10000000000.
Definition defaultJSONBufferLen : Z := 5000.

Record templateValue : Type := mkTemplateValue {
  tv_elements : list InfoElement;
  tv_minDataRecLen : Z;
}.

#[global] Instance templateValue_eq_dec : EqDecision templateValue.
Proof. solve_decision. Defined.

(** A connection: what was sent on it, oldest first, and whether it was closed. *)
Record Conn : Type := mkConn {
  conn_sent : list (list byte);
  conn_closed : bool;
}.

#[global] Instance Conn_eq_dec : EqDecision Conn.
Proof. solve_decision. Defined.

(** [templateRefCh] is only ever closed and [templateMutex] is held or free. *)
Record ExportingProcess : Type := mkExportingProcess {
  connToCollector : option Conn;
  ep_obsDomainID : Z;
  ep_seqNumber : Z;
  ep_templateID : Z;
  templatesMap : gmap Z templateValue;
  templateRefCh_closed : bool;
  templateMutex : bool;
  sendJSONRecord : bool;
  jsonBufferLen : Z;
}.

Definition with_conn (c : option Conn) (ep : ExportingProcess) : ExportingProcess :=
  mkExportingProcess c (ep_obsDomainID ep) (ep_seqNumber ep) (ep_templateID ep) (templatesMap ep)
    (templateRefCh_closed ep) (templateMutex ep) (sendJSONRecord ep) (jsonBufferLen ep).
Definition with_seq (n : Z) (ep : ExportingProcess) : ExportingProcess :=
  mkExportingProcess (connToCollector ep) (ep_obsDomainID ep) n (ep_templateID ep)
    (templatesMap ep) (templateRefCh_closed ep) (templateMutex ep) (sendJSONRecord ep)
    (jsonBufferLen ep).
Definition with_templateID (n : Z) (ep : ExportingProcess) : ExportingProcess :=
  mkExportingProcess (connToCollector ep) (ep_obsDomainID ep) (ep_seqNumber ep) n
    (templatesMap ep) (templateRefCh_closed ep) (templateMutex ep) (sendJSONRecord ep)
    (jsonBufferLen ep).
Definition with_templates (m : gmap Z templateValue) (ep : ExportingProcess) : ExportingProcess :=
  mkExportingProcess (connToCollector ep) (ep_obsDomainID ep) (ep_seqNumber ep)
    (ep_templateID ep) m (templateRefCh_closed ep) (templateMutex ep) (sendJSONRecord ep)
    (jsonBufferLen ep).
Definition with_refCh (b : bool) (ep : ExportingProcess) : ExportingProcess :=
  mkExportingProcess (connToCollector ep) (ep_obsDomainID ep) (ep_seqNumber ep)
    (ep_templateID ep) (templatesMap ep) b (templateMutex ep) (sendJSONRecord ep)
    (jsonBufferLen ep).
Definition with_mutex (b : bool) (ep : ExportingProcess) : ExportingProcess :=
  mkExportingProcess (connToCollector ep) (ep_obsDomainID ep) (ep_seqNumber ep)
    (ep_templateID ep) (templatesMap ep) (templateRefCh_closed ep) b (sendJSONRecord ep)
    (jsonBufferLen ep).

Record ExporterTLSClientConfig : Type := mkTLSClientConfig {
  ServerName : string;
  CAData : slice;
  CertData : slice;
  KeyData : slice;
}.

Record ExporterInput : Type := mkExporterInput {
  CollectorAddress : string;
  CollectorProtocol : string;
  ObservationDomainID : Z;
  TempRefTimeout : Z;
  TLSClientConfig : option ExporterTLSClientConfig;
  IsIPv6 : bool;
  SendJSONRecord : bool;
  JSONBufferLen : Z;
  CheckConnInterval : Z;
}.

(** The fields of [tls.Config] and [dtls.Config] the code sets; a certificate pool
    is the PEM data it was filled from. *)
Record TLSConfig (Certificate : Type) : Type := mkTLSConfig {
  cfg_Certificates : list Certificate;
  cfg_RootCAs : slice;
  cfg_MinVersion : Z;
  cfg_ServerName : string;
}.
Arguments mkTLSConfig {Certificate}.

(** [tls.VersionTLS12]. *)
Definition VersionTLS12 : Z := 771.

Record DTLSConfig : Type := mkDTLSConfig {
  dtls_RootCAs : slice;
  dtls_ServerName : string;
}.

(** The goroutines [InitExportingProcess] starts. *)
Inductive background : Type :=
| CheckConnLoop (interval : Z)
| TemplateRefreshLoop (timeoutSeconds : Z).

(** A method of the exporting process that returns [(int, error)]. *)
Abbreviation EP := (M ExportingProcess).
Abbreviation sent := (Z * option error)%type.

(** ** msg.go *)

(** The loop that copies the records into the message. *)
Fixpoint copy_records (rs : list IPFIXRecord) (buf : list byte) (index : nat)
    : go (list byte * list IPFIXRecord) :=
  match rs with
  | [] => Ok (buf, [])
  | r :: rs =>
      let len := GetRecordLength r in
      '(bs, r) ← GetBuffer r;
      buf ← copy_range buf index (index + len) bs;
      '(buf, rs) ← copy_records rs buf (index + len);
      Ok (buf, r :: rs)
  end.

(** The message's bytes, and the set, whose records keep their buffers. *)
Definition CreateIPFIXMsg (set : ipfix_set) (obsDomainID seqNumber exportTime : Z)
    : go (list byte * ipfix_set) :=
  let msgLen := (MsgHeaderLength + set_length set)%nat in
  if decide (MaxSocketMsgSize < Z.of_nat msgLen) then Err ErrMsgTooLarge else
  msg ← SetVersion 10 (NewMessage false);
  msg ← SetObsDomainID obsDomainID msg;
  msg ← SetMessageLen (u16 (Z.of_nat msgLen)) msg;
  msg ← SetExportTime (u32 exportTime) msg;
  msg ← SetSequenceNum seqNumber msg;
  buf ← copy_range (replicate msgLen Byte.x00) 0 MsgHeaderLength (msgHeader msg);
  buf ← copy_range buf MsgHeaderLength (MsgHeaderLength + SetHeaderLen) (headerBuffer set);
  '(buf, rs) ← copy_records (records set) buf (MsgHeaderLength + SetHeaderLen);
  Ok (buf, with_records rs set).

(** ** The template mutex *)

(** [templateMutex.Lock()]: the call never returns when the mutex is never
    released. *)
Definition lock : EP unit := fun ep =>
  if templateMutex ep then (Block, ep) else (Ok tt, with_mutex true ep).
Definition unlock : EP unit := M_modify (with_mutex false).

(** [Lock(); defer Unlock()]: the mutex is released on every return. *)
Definition locked {A} (body : EP A) : EP A := fun ep =>
  match lock ep with
  | (Ok _, ep) => let '(res, ep) := body ep in (res, with_mutex false ep)
  | (_, ep) => (Block, ep)
  end.

(** [GetInfoElement()] of an entry of an element list; a nil entry panics. *)
Definition list_infos (elements : list (option InfoElementWithValue)) : go (list InfoElement) :=
  go_mapM (λ o, match o with Some e => Ok (GetInfoElement e) | None => Panic end) elements.

Definition updateTemplate (id : Z) (elements : list (option InfoElementWithValue))
    (minDataRecLen : Z) : EP unit :=
  locked (fun ep =>
    match templatesMap ep !! id with
    | Some _ => (Ok tt, ep)
    | None =>
        match list_infos elements with
        | Ok infos =>
            (Ok tt, with_templates (<[id := mkTemplateValue infos minDataRecLen]>
                                      (templatesMap ep)) ep)
        | _ => (Panic, ep)
        end
    end).

Definition deleteTemplate (id : Z) : EP unit :=
  locked (fun ep =>
    match templatesMap ep !! id with
    | None => (Err (ErrTemplateUnknown id), ep)
    | Some _ => (Ok tt, with_templates (delete id (templatesMap ep)) ep)
    end).

(** The returned error, and the record, because [GetBuffer] fills its cache. *)
Definition dataRecSanityCheck (rec : IPFIXRecord) : EP (option error * IPFIXRecord) :=
  let id := GetTemplateID rec in
  locked (fun ep =>
    match templatesMap ep !! id with
    | None => (Ok (Some (ErrTemplateUnknown id), rec), ep)
    | Some tv =>
        if decide (GetFieldCount rec ≠ u16 (Z.of_nat (length (tv_elements tv))))
        then (Ok (Some (ErrFieldCountMismatch id), rec), ep)
        else match GetBuffer rec with
             | Ok (bs, rec) =>
                 if decide (Z.of_nat (length bs) < tv_minDataRecLen tv)
                 then (Ok (Some (ErrMinRecordLength (tv_minDataRecLen tv) id), rec), ep)
                 else (Ok (None, rec), ep)
             | Err e => (Err e, ep)
             | Panic => (Panic, ep)
             | Block => (Block, ep)
             end
    end).

(** [NewTemplateID] increments a [uint16]. *)
Definition NewTemplateID : EP Z := fun ep =>
  let id := u16 (ep_templateID ep + 1) in (Ok id, with_templateID id ep).

Definition GetMsgSizeLimit (ep : ExportingProcess) : Z := MaxSocketMsgSize.

(** [isChanClosed] reads the closed state: nothing is ever sent on the channel. *)
Definition isChanClosed (closed : bool) : bool := closed.

Definition CloseConnToCollector : EP unit := fun ep =>
  let ep := if isChanClosed (templateRefCh_closed ep) then ep else with_refCh true ep in
  match connToCollector ep with
  | None => (Panic, ep)
  | Some c => (Ok tt, with_conn (Some (mkConn (conn_sent c) true)) ep)
  end.

Section Exporter.

(** What [net.Conn.Write] answers to a write on a connection. *)
Context (Write : Conn → list byte → Z * option error).
(** [json.Encoder.Encode] of a message with these elements and this timestamp. *)
Context (json_encode : gmap string GoVal → Z → go (list byte)).

(** The first [n] bytes are on the wire after a write that answered [n]. *)
Definition conn_write (bs : list byte) : EP sent := fun ep =>
  match connToCollector ep with
  | None => (Panic, ep)
  | Some c =>
      let '(n, err) := Write c bs in
      (Ok (n, err), with_conn (Some (mkConn (conn_sent c ++ [take (Z.to_nat n) bs])
                                            (conn_closed c))) ep)
  end.

Definition createAndSendIPFIXMsg (now : Z) (set : ipfix_set) : EP (sent * ipfix_set) := fun ep =>
  let ep := if decide (setType set = Data)
            then with_seq (u32 (ep_seqNumber ep + GetNumberOfRecords set)) ep else ep in
  match CreateIPFIXMsg set (ep_obsDomainID ep) (ep_seqNumber ep) now with
  | Err e => (Ok ((0, Some e), set), ep)
  | Panic => (Panic, ep)
  | Block => (Block, ep)
  | Ok (bytesSlice, set) =>
      (res ← conn_write bytesSlice;
       let '(bytesSent, err) := (res : sent) in
       match err with
       | Some e => mret ((bytesSent, Some (ErrSend e)), set)
       | None =>
           if decide (bytesSent ≠ Z.of_nat (length bytesSlice))
           then mret ((bytesSent, Some ErrPartialSend), set)
           else mret ((bytesSent, None), set)
       end) ep
  end.

(** The elements of one record for the JSON encoder: an unsupported type is an
    error here. *)
Definition json_element (m : gmap string GoVal) (o : option InfoElementWithValue)
    : go (gmap string GoVal) :=
  match o with
  | None => Panic
  | Some e => v ← element_value e; Ok (<[GetName e := v]> m)
  end.

Fixpoint send_json_records (now : Z) (rs : list IPFIXRecord) (bytesSent : Z) : EP sent :=
  match rs with
  | [] => mret (bytesSent, None)
  | r :: rs =>
      match go_foldM json_element ∅ (GetOrderedElementList r) with
      | Err e => mret (bytesSent, Some e)
      | Panic => M_lift Panic
      | Block => M_lift Block
      | Ok elements =>
          match json_encode elements now with
          | Err e => mret (bytesSent, Some (ErrJSON e))
          | Panic => M_lift Panic
          | Block => M_lift Block
          | Ok bs =>
              res ← conn_write bs;
              let '(n, err) := (res : sent) in
              match err with
              | Some e => mret (n, Some (ErrSend e))
              | None => send_json_records now rs (bytesSent + n)
              end
          end
      end
  end.

Definition createAndSendJSONMsg (now : Z) (set : ipfix_set) : EP sent :=
  send_json_records now (records set) 0.

(** The body of the loop of [SendSet]: a template is remembered, a data record is
    checked. *)
Definition check_record (ty : ContentType) (r : IPFIXRecord) : EP (option error * IPFIXRecord) :=
  match ty with
  | Template =>
      minLen ← M_lift (GetMinDataRecordLen r);
      updateTemplate (GetTemplateID r) (GetOrderedElementList r) minLen;;
      mret (None, r)
  | Data => dataRecSanityCheck r
  | Undefined => mret (None, r)
  end.

(** The loop stops at the first error; the records keep what was done to them. *)
Fixpoint check_records (ty : ContentType) (rs : list IPFIXRecord)
    : EP (option error * list IPFIXRecord) :=
  match rs with
  | [] => mret (None, [])
  | r :: rs =>
      res ← check_record ty r;
      let '(err, r) := (res : option error * IPFIXRecord) in
      match err with
      | Some e => mret (Some e, r :: rs)
      | None =>
          res ← check_records ty rs;
          let '(err, rs) := (res : option error * list IPFIXRecord) in
          mret (err, r :: rs)
      end
  end.

(** What [SendSet] does after the loop. *)
Definition send_checked_set (now : Z) (set : ipfix_set) : EP (sent * ipfix_set) := fun ep =>
  match UpdateLenInHeader set with
  | Ok set =>
      if sendJSONRecord ep then
        if decide (setType set = Data)
        then (res ← createAndSendJSONMsg now set; mret (res, set)) ep
        else (Ok ((0, None), set), ep)
      else createAndSendIPFIXMsg now set ep
  | _ => (Panic, ep)
  end.

(** The result carries the set, whose header and record buffers are updated. *)
Definition SendSet (now : Z) (set : ipfix_set) : EP (sent * ipfix_set) :=
  if decide (setType set = Undefined) then mret ((0, Some ErrUndefinedSetType), set) else
  res ← check_records (setType set) (records set);
  let '(err, rs) := (res : option error * list IPFIXRecord) in
  match err with
  | Some e => mret ((0, Some (ErrSanityCheck e)), with_records rs set)
  | None => send_checked_set now (with_records rs set)
  end.

(** ** Template refresh *)

(** The set that re-sends one template. *)
Definition refreshed_set (templateID : Z) (tempValue : templateValue) : go ipfix_set :=
  tempSet ← PrepareSet Template templateID (NewSet false);
  elements ← go_mapM (λ ie, DecodeAndCreateInfoElementWithValue ie None) (tv_elements tempValue);
  AddRecord elements templateID tempSet.

Fixpoint send_sets (now : Z) (sets : list ipfix_set) : EP unit :=
  match sets with
  | [] => mret tt
  | s :: sets =>
      res ← SendSet now s;
      match (res : sent * ipfix_set).1.2 with
      | Some e => M_lift (Err e)
      | None => send_sets now sets
      end
  end.

(** [order] is the order in which [range] visits the template map.  An error while
    the sets are built returns with the mutex held. *)
Definition sendRefreshedTemplates (order : list (Z * templateValue)) (now : Z) : EP unit :=
  lock;;
  sets ← M_lift (go_mapM (λ p, refreshed_set p.1 p.2) order);
  unlock;;
  send_sets now sets.

(** One tick of the template refresh goroutine. *)
Definition refresh_tick (order : list (Z * templateValue)) (now : Z) : EP unit := fun ep =>
  match sendRefreshedTemplates order now ep with
  | (Err _, ep) => CloseConnToCollector ep
  | res => res
  end.

(** ** Connection check *)

(** What [Read] reports when it is asked for one byte with a short deadline. *)
Context (read_is_EOF : Conn → bool).

Definition checkConnToCollector (ep : ExportingProcess) : go bool :=
  match connToCollector ep with
  | None => Panic
  | Some c => Ok (negb (read_is_EOF c))
  end.

(** One tick of the connection check goroutine; [true] means that it goes on. *)
Definition check_tick : EP bool := fun ep =>
  match checkConnToCollector ep with
  | Ok true => (Ok true, ep)
  | Ok false => (CloseConnToCollector;; mret false) ep
  | Err e => (Err e, ep)
  | Panic => (Panic, ep)
  | Block => (Block, ep)
  end.

(** ** Initialisation *)

(** [x509.CertPool.AppendCertsFromPEM] on a new pool, [tls.X509KeyPair], [net.Dial],
    [tls.Dial], and [dtls.Dial] with the resolution of the address before it. *)
Context {Certificate : Type}.
Context (AppendCertsFromPEM : slice → bool).
Context (X509KeyPair : slice → slice → go Certificate).
Context (dial_plain : string → string → go Conn).
Context (dial_tls : string → string → TLSConfig Certificate → go Conn).
Context (dial_dtls : string → string → DTLSConfig → go Conn).

Definition createClientConfig (config : ExporterTLSClientConfig) : go (TLSConfig Certificate) :=
  if AppendCertsFromPEM (CAData config) then
    match CertData config with
    | None => Ok (mkTLSConfig [] (CAData config) VersionTLS12 (ServerName config))
    | Some _ =>
        cert ← X509KeyPair (CertData config) (KeyData config);
        Ok (mkTLSConfig [cert] (CAData config) VersionTLS12 (ServerName config))
    end
  else Err ErrRootCertificate.

(** With a TLS configuration and a protocol other than tcp and udp no connection
    is made, and no error is reported. *)
Definition connect (input : ExporterInput) : go (option Conn) :=
  let p := CollectorProtocol input in
  let a := CollectorAddress input in
  match TLSClientConfig input with
  | Some tlsConfig =>
      if String.eqb p "tcp" then
        config ← createClientConfig tlsConfig;
        Some <$> dial_tls p a config
      else if String.eqb p "udp" then
        if AppendCertsFromPEM (CAData tlsConfig)
        then Some <$> dial_dtls p a (mkDTLSConfig (CAData tlsConfig) (ServerName tlsConfig))
        else Err ErrRootCertificate
      else Ok None
  | None => Some <$> dial_plain p a
  end.

Definition InitExportingProcess (input : ExporterInput)
    : go (ExportingProcess * list background) :=
  conn ← connect input;
  let bufferLen :=
    if SendJSONRecord input
    then if decide (JSONBufferLen input <= 0) then defaultJSONBufferLen else JSONBufferLen input
    else 0 in
  let check :=
    if String.eqb (CollectorProtocol input) "tcp"
    then [CheckConnLoop (if decide (CheckConnInterval input = 0) then defaultCheckConnInterval
                         else CheckConnInterval input)]
    else [] in
  let refresh :=
    if String.eqb (CollectorProtocol input) "udp"
    then [TemplateRefreshLoop (if decide (TempRefTimeout input = 0) then TemplateRefreshTimeOut
                               else TempRefTimeout input)]
    else [] in
  Ok (mkExportingProcess conn (ObservationDomainID input) 0 startTemplateID ∅ false false
        (SendJSONRecord input) bufferLen, check ++ refresh).

End Exporter.

(** How a user of the library builds a set of records of one template. *)
Definition build_set (ty : ContentType) (tid : Z) (recs : list (list InfoElementWithValue))
    : go ipfix_set :=
  s ← PrepareSet ty tid (NewSet false);
  go_foldM (λ s es, AddRecord es tid s) s recs.

(** ** Lemmas: creating a message *)

Lemma copy_records_app rs out pre mid :
  go_mapM GetBuffer rs = Ok out →
  Forall2 (λ r o, length o.1 = GetRecordLength r) rs out →
  length mid = records_length rs →
  copy_records rs (pre ++ mid) (length pre) = Ok (pre ++ concat out.*1, out.*2).
Proof.
  intros Hm Hl. revert pre mid Hm.
  induction Hl as [|r [bs r'] rs out Hr _ IH]; intros pre mid Hm Hmid.
  - destruct mid; [|discriminate]. simpl in *. by rewrite !app_nil_r.
  - simpl in Hm. apply go_bind_Ok in Hm as (o & Hb & (out' & Ho & [= -> ->])%go_bind_Ok).
    cbn [copy_records]. rewrite Hb. cbn [mbind go_bind].
    change (records_length (r :: rs)) with (GetRecordLength r + records_length rs)%nat in Hmid.
    simpl in Hr.
    rewrite <- (take_drop (GetRecordLength r) mid).
    rewrite copy_range_app by len. cbn [mbind go_bind].
    rewrite app_assoc.
    replace (length pre + GetRecordLength r)%nat with (length (pre ++ bs)) by len.
    rewrite IH by (done || len). simpl. by rewrite <- app_assoc.
Qed.

Lemma CreateIPFIXMsg_layout set obs seq t out :
  set_inv set → set_isDecoding set = false →
  go_mapM GetBuffer (records set) = Ok out →
  Forall2 (λ r o, length o.1 = GetRecordLength r) (records set) out →
  16 + Z.of_nat (set_length set) <= 65535 →
  CreateIPFIXMsg set obs seq t =
    Ok (header_bytes 10 (16 + Z.of_nat (set_length set)) (u32 t) seq obs
          ++ headerBuffer set ++ concat out.*1, with_records out.*2 set).
Proof.
  intros Hinv Hd Hm Hl Hsz. destruct (Hinv Hd) as [Hh Hlen].
  unfold CreateIPFIXMsg. unfold MsgHeaderLength, MaxSocketMsgSize, SetHeaderLen in *.
  rewrite decide_False by lia.
  replace (u16 (Z.of_nat (16 + set_length set))) with (16 + Z.of_nat (set_length set))
    by (unfold u16; rewrite Z.mod_small; lia).
  destruct (set_header_fields 10 obs (16 + Z.of_nat (set_length set)) (u32 t) seq)
    as (m & Hm1 & Hmh).
  repeat (apply go_bind_Ok in Hm1 as (? & ?E & Hm1); rewrite E; clear E; cbn [mbind go_bind]).
  rewrite Hm1. cbn [mbind go_bind]. rewrite Hmh.
  set (hdr := header_bytes _ _ _ _ _). assert (Hhdr : length hdr = 16%nat) by done.
  replace (16 + set_length set)%nat with (16 + (4 + records_length (records set)))%nat by lia.
  rewrite !replicate_add.
  set (zs := replicate (records_length (records set)) Byte.x00).
  assert (E1 : copy_range (replicate 16 Byte.x00 ++ replicate 4 Byte.x00 ++ zs) 0 16 hdr =
               Ok (hdr ++ replicate 4 Byte.x00 ++ zs)).
  { apply (copy_range_app []); len. }
  rewrite E1. cbn [mbind go_bind]. clear E1.
  assert (E2 : copy_range (hdr ++ replicate 4 Byte.x00 ++ zs) 16 (16 + 4) (headerBuffer set) =
               Ok (hdr ++ headerBuffer set ++ zs)).
  { rewrite <- Hhdr. apply copy_range_app; len. }
  rewrite E2. cbn [mbind go_bind]. clear E2.
  rewrite app_assoc.
  replace (16 + 4)%nat with (length (hdr ++ headerBuffer set)) by len.
  rewrite (copy_records_app _ out) by (done || (unfold zs; len)).
  cbn [mbind go_bind]. by rewrite <- app_assoc.
Qed.

(** ** Lemmas: building a set *)

Definition built_set (ty : ContentType) (setID : Z) (rs : list IPFIXRecord) : ipfix_set :=
  {| headerBuffer := put_be 2 setID ++ [Byte.x00; Byte.x00]; setType := ty; records := rs;
     set_isDecoding := false; set_length := (4 + records_length rs)%nat |}.

Definition data_rec (tid : Z) (es : list InfoElementWithValue) : IPFIXRecord :=
  DataRecord (data_record_of tid false es).
Definition data_rec_enc (tid : Z) (es : list InfoElementWithValue) : IPFIXRecord :=
  DataRecord (data_record_enc tid es).
Definition template_rec (tid : Z) (es : list InfoElementWithValue) : IPFIXRecord :=
  TemplateRecord (template_record_of tid false es).

Lemma append_built ty setID rs r : append_record r (built_set ty setID rs) =
  built_set ty setID (rs ++ [r]).
Proof. unfold append_record, built_set. simpl. f_equal. rewrite records_length_snoc. lia. Qed.

Lemma build_data_set tid recs :
  Forall (λ es, Z.of_nat (length es) < 65536) recs →
  build_set Data tid recs = Ok (built_set Data tid (data_rec tid <$> recs)).
Proof.
  intros Hr. unfold build_set.
  change (PrepareSet Data tid (NewSet false)) with (Ok (built_set Data tid [])).
  cbn [mbind go_bind].
  enough (G : ∀ rs, go_foldM (λ s es, AddRecord es tid s) (built_set Data tid rs) recs =
             Ok (built_set Data tid (rs ++ (data_rec tid <$> recs)))) by apply (G []).
  induction Hr as [|es recs Hes _ IH]; intros rs; simpl.
  - by rewrite app_nil_r.
  - rewrite AddRecord_data by done. cbn [mbind go_bind].
    rewrite append_built, IH. by rewrite <- app_assoc.
Qed.

Lemma build_template_set tid es :
  Forall (λ e, IsValueEmpty e = true) es →
  build_set Template tid [es] = Ok (built_set Template TemplateSetID [template_rec tid es]).
Proof.
  intros He. unfold build_set.
  change (PrepareSet Template tid (NewSet false)) with (Ok (built_set Template TemplateSetID [])).
  cbn [mbind go_bind go_foldM]. rewrite AddRecord_template by done. cbn [mbind go_bind].
  by rewrite append_built.
Qed.

Lemma UpdateLen_built ty setID rs :
  Z.of_nat (4 + records_length rs) < 65536 →
  UpdateLenInHeader (built_set ty setID rs) =
  Ok (with_header (set_header_bytes setID (4 + Z.of_nat (records_length rs))) (built_set ty setID rs)).
Proof.
  intros H. rewrite (UpdateLenInHeader_ok _ setID [Byte.x00; Byte.x00]) by done.
  do 3 f_equal. unfold u16. simpl. rewrite Z.mod_small; lia.
Qed.

(** ** Lemmas: the mutex *)

Lemma locked_Ok {A} (body : EP A) ep a ep' :
  templateMutex ep = false → body (with_mutex true ep) = (Ok a, ep') →
  locked body ep = (Ok a, with_mutex false ep').
Proof. unfold locked, lock. by intros -> ->. Qed.

Lemma locked_held {A} (body : EP A) ep : templateMutex ep = true → locked body ep = (Block, ep).
Proof. unfold locked, lock. by intros ->. Qed.

Lemma mutex_back ep : templateMutex ep = false → with_mutex false (with_mutex true ep) = ep.
Proof. destruct ep; simpl. by intros ->. Qed.

(** ** Lemmas: checking the records of a data set *)

Lemma check_record_data tid tv es ep :
  templateMutex ep = false → templatesMap ep !! tid = Some tv →
  length (tv_elements tv) = length es → Z.of_nat (length es) < 65536 →
  tv_minDataRecLen tv <= Z.of_nat (total_length es) → Forall wf_element es →
  check_record Data (data_rec tid es) ep = (Ok (None, data_rec_enc tid es), ep).
Proof.
  intros Hm Ht Hn Hn' Hmin Hwf. unfold check_record, dataRecSanityCheck.
  rewrite <- (mutex_back ep Hm) at 2. apply locked_Ok; [done|].
  cbn [with_mutex templatesMap]. change (GetTemplateID (data_rec tid es)) with tid. rewrite Ht.
  change (GetFieldCount (data_rec tid es)) with (Z.of_nat (length es)).
  rewrite Hn. unfold u16. rewrite Z.mod_small by lia.
  rewrite decide_False by tauto. unfold GetBuffer, data_rec.
  destruct (DataGetBuffer_wires tid es Hwf) as [-> _]. cbn [mbind go_bind].
  rewrite decide_False; [done|]. rewrite length_wires by done. lia.
Qed.

Lemma check_records_data tid tv recs ep :
  templateMutex ep = false → templatesMap ep !! tid = Some tv →
  Forall (λ es, length (tv_elements tv) = length es ∧ Z.of_nat (length es) < 65536 ∧
                tv_minDataRecLen tv <= Z.of_nat (total_length es) ∧ Forall wf_element es) recs →
  check_records Data (data_rec tid <$> recs) ep = (Ok (None, data_rec_enc tid <$> recs), ep).
Proof.
  intros Hm Ht. induction 1 as [|es recs (? & ? & ? & ?) _ IH]; [done|].
  cbn [fmap list_fmap check_records].
  erewrite M_bind_Ok by (by eapply check_record_data). cbn beta iota.
  by erewrite M_bind_Ok by apply IH.
Qed.

(** An unknown template, or a record that does not fit it, stops [SendSet] before
    anything is sent. *)
Lemma check_records_unknown tid es recs ep :
  templateMutex ep = false → templatesMap ep !! tid = None →
  check_records Data (data_rec tid <$> es :: recs) ep =
  (Ok (Some (ErrTemplateUnknown tid), data_rec tid <$> es :: recs), ep).
Proof.
  intros Hm Ht. cbn [fmap list_fmap check_records].
  rewrite (M_bind_Ok _ _ _ (Some (ErrTemplateUnknown tid), data_rec tid es) ep); [done|].
  unfold check_record, dataRecSanityCheck.
  rewrite <- (mutex_back ep Hm) at 2. apply locked_Ok; [done|].
  cbn [with_mutex templatesMap]. change (GetTemplateID (data_rec tid es)) with tid.
  by rewrite Ht.
Qed.

(** ** Lemmas: sending *)

Lemma records_length_enc tid recs :
  Forall (Forall wf_element) recs →
  records_length (data_rec_enc tid <$> recs) = length (data_body recs).
Proof.
  unfold records_length, data_body. induction 1 as [|es recs Hes _ IH]; [done|].
  cbn [fmap list_fmap sum_list_with flat_map]. rewrite length_app, length_wires by done.
  change (list_fmap _ _ (data_rec_enc tid) recs) with (data_rec_enc tid <$> recs).
  by rewrite IH.
Qed.

Lemma GetBuffer_data_rec_enc tid es :
  Forall wf_element es → GetBuffer (data_rec_enc tid es) = Ok (wires es, data_rec_enc tid es).
Proof. intros Hes. simpl. by destruct (DataGetBuffer_wires tid es Hes) as [_ ->]. Qed.

Lemma GetBuffer_enc tid recs :
  Forall (Forall wf_element) recs →
  go_mapM GetBuffer (data_rec_enc tid <$> recs) =
    Ok ((λ es, (wires es, data_rec_enc tid es)) <$> recs) ∧
  Forall2 (λ r o, length o.1 = GetRecordLength r) (data_rec_enc tid <$> recs)
    ((λ es, (wires es, data_rec_enc tid es)) <$> recs).
Proof.
  induction 1 as [|es recs Hes _ [IH1 IH2]]; [by split; [|constructor]|].
  cbn [fmap list_fmap go_mapM]. split.
  - rewrite GetBuffer_data_rec_enc by done. cbn [mbind go_bind].
    change (list_fmap _ _ (data_rec_enc tid) recs) with (data_rec_enc tid <$> recs).
    rewrite IH1. done.
  - constructor; [|done]. simpl. by rewrite length_wires.
Qed.

Lemma CreateIPFIXMsg_data tid recs obs seq t :
  Forall (Forall wf_element) recs →
  20 + Z.of_nat (length (data_body recs)) <= 65535 →
  CreateIPFIXMsg
    (with_header (set_header_bytes tid (4 + Z.of_nat (length (data_body recs))))
       (built_set Data tid (data_rec_enc tid <$> recs))) obs seq t =
  Ok (data_message obs seq t tid recs,
      with_header (set_header_bytes tid (4 + Z.of_nat (length (data_body recs))))
        (built_set Data tid (data_rec_enc tid <$> recs))).
Proof.
  intros Hwf Hsz. destruct (GetBuffer_enc tid recs Hwf) as [H1 H2].
  erewrite CreateIPFIXMsg_layout; [| |done|exact H1|exact H2|].
  - f_equal. f_equal.
    + unfold data_message, message. cbn [with_header built_set headerBuffer set_length].
      rewrite records_length_enc by done. f_equal; [f_equal; lia|]. f_equal.
      unfold data_body. rewrite flat_map_concat_map. f_equal.
      rewrite <- list_fmap_compose. by induction recs; simpl; f_equal.
    + unfold with_records, with_header, built_set. simpl. f_equal.
      rewrite <- list_fmap_compose. by induction recs; simpl; f_equal.
  - apply set_inv_with_header; [done|]. by unfold set_inv, built_set.
  - cbn [with_header built_set set_length]. rewrite records_length_enc by done. lia.
Qed.

Lemma records_length_cached tid recs :
  records_length (data_rec_enc tid <$> recs) = records_length (data_rec tid <$> recs).
Proof.
  unfold records_length. induction recs as [|es recs IH]; [done|].
  cbn [fmap list_fmap sum_list_with]. by f_equal.
Qed.

Lemma with_records_built ty setID rs rs' :
  records_length rs' = records_length rs →
  with_records rs' (built_set ty setID rs) = built_set ty setID rs'.
Proof. unfold with_records, built_set. simpl. by intros ->. Qed.

(** The template entry [SendSet] stores for these elements. *)
Definition template_entry (ies : list InfoElement) : templateValue :=
  mkTemplateValue ies (u16 (min_record_len ies)).

Definition sent_on (c : Conn) (msg : list byte) : Conn :=
  mkConn (conn_sent c ++ [msg]) (conn_closed c).

Lemma u16_le x : 0 <= x → u16 x <= x.
Proof. intros. unfold u16. apply Z.mod_le; lia. Qed.

Lemma fits_checked tmpl es :
  fits tmpl es → Z.of_nat (length tmpl) < 65536 →
  length (tv_elements (template_entry tmpl)) = length es ∧ Z.of_nat (length es) < 65536 ∧
  tv_minDataRecLen (template_entry tmpl) <= Z.of_nat (total_length es) ∧ Forall wf_element es.
Proof.
  intros [<- Hwf] Hn. rewrite length_fmap in Hn. cbn [template_entry tv_elements tv_minDataRecLen].
  pose proof (min_record_len_le es Hwf). pose proof (u16_le (min_record_len (GetInfoElement <$> es))).
  rewrite length_fmap. split_and!; [done|done|lia|done].
Qed.

Section sending.
Context (Write : Conn → list byte → Z * option error).
Context (json_encode : gmap string GoVal → Z → go (list byte)).

Lemma conn_write_ok c msg ep :
  connToCollector ep = Some c → Write c msg = (Z.of_nat (length msg), None) →
  conn_write Write msg ep =
    (Ok (Z.of_nat (length msg), None), with_conn (Some (sent_on c msg)) ep).
Proof.
  intros Hc Hw. unfold conn_write, sent_on. rewrite Hc, Hw.
  by rewrite Nat2Z.id, firstn_all.
Qed.

Lemma createAndSend_ok now set set' ep ep1 c msg :
  ep1 = (if decide (setType set = Data)
         then with_seq (u32 (ep_seqNumber ep + GetNumberOfRecords set)) ep else ep) →
  CreateIPFIXMsg set (ep_obsDomainID ep1) (ep_seqNumber ep1) now = Ok (msg, set') →
  connToCollector ep1 = Some c → Write c msg = (Z.of_nat (length msg), None) →
  createAndSendIPFIXMsg Write now set ep =
    (Ok ((Z.of_nat (length msg), None), set'), with_conn (Some (sent_on c msg)) ep1).
Proof.
  intros -> Hm Hc Hw. unfold createAndSendIPFIXMsg. rewrite Hm.
  erewrite M_bind_Ok by (by apply conn_write_ok). cbn beta iota.
  by rewrite decide_False by tauto.
Qed.

Lemma SendSet_data_ok now tid tmpl recs ep c :
  templateMutex ep = false → sendJSONRecord ep = false → connToCollector ep = Some c →
  templatesMap ep !! tid = Some (template_entry tmpl) → Z.of_nat (length tmpl) < 65536 →
  Forall (fits tmpl) recs → 20 + Z.of_nat (length (data_body recs)) <= 65535 →
  let seq := u32 (ep_seqNumber ep + u32 (Z.of_nat (length recs))) in
  let msg := data_message (ep_obsDomainID ep) seq now tid recs in
  Write c msg = (Z.of_nat (length msg), None) →
  ∃ set', 
    SendSet Write json_encode now (built_set Data tid (data_rec tid <$> recs)) ep =
    (Ok ((Z.of_nat (length msg), None), set'),
     with_conn (Some (sent_on c msg)) (with_seq seq ep)).
Proof.
  intros Hm Hj Hc Ht Hn Hfit Hsz seq msg Hw.
  assert (Hwf : Forall (Forall wf_element) recs) by (eapply Forall_impl; [|exact Hfit]; by intros ? []).
  eexists. unfold SendSet. rewrite decide_False by done.
  erewrite M_bind_Ok.
  2:{ eapply check_records_data; [done|done|]. eapply Forall_impl; [|exact Hfit].
      intros es Hes. by apply fits_checked. }
  cbn beta iota. rewrite with_records_built by apply records_length_cached.
  unfold send_checked_set. rewrite UpdateLen_built by (rewrite records_length_enc; [lia|done]).
  rewrite Hj, records_length_enc by done.
  apply createAndSend_ok; [|by apply CreateIPFIXMsg_data|done|done].
  rewrite decide_True by done. unfold GetNumberOfRecords.
  cbn [with_header built_set records]. by rewrite length_fmap.
Qed.

(** The exporting process after it has seen a template. *)
Definition remember (tid : Z) (ies : list InfoElement) (ep : ExportingProcess) : ExportingProcess :=
  match templatesMap ep !! tid with
  | Some _ => ep
  | None => with_templates (<[tid := template_entry ies]> (templatesMap ep)) ep
  end.

Lemma list_infos_Some es : list_infos (Some <$> es) = Ok (GetInfoElement <$> es).
Proof.
  unfold list_infos. induction es as [|e es IH]; [done|].
  cbn [fmap list_fmap go_mapM mbind go_bind] in *. 
  change (list_fmap _ _ Some es) with (Some <$> es). by rewrite IH.
Qed.

Lemma check_record_template tid es ep :
  templateMutex ep = false →
  check_record Template (template_rec tid es) ep =
    (Ok (None, template_rec tid es), remember tid (GetInfoElement <$> es) ep).
Proof.
  intros Hm. unfold check_record. 
  erewrite M_bind_Ok by done. unfold updateTemplate.
  erewrite M_bind_Ok; [done|].
  change (GetTemplateID (template_rec tid es)) with tid.
  change (GetOrderedElementList (template_rec tid es)) with ((Some <$> es) ++ replicate 0 None).
  rewrite app_nil_r, list_infos_Some. unfold remember. cbn [with_mutex templatesMap].
  destruct (templatesMap ep !! tid) eqn:E.
  - rewrite <- (mutex_back ep Hm) at 2. apply locked_Ok; [done|].
    cbn [with_mutex templatesMap]. by rewrite E.
  - erewrite locked_Ok; [|done|].
    2:{ cbn [with_mutex templatesMap]. by rewrite E. }
    destruct ep; simpl in *; by subst.
Qed.

Lemma template_buffer tid es :
  Z.of_nat (length es) < 65536 →
  GetBuffer (template_rec tid es) =
    Ok (template_body tid (GetInfoElement <$> es), template_rec tid es).
Proof.
  intros Hn. unfold GetBuffer, template_rec, template_record_of, template_body. simpl.
  rewrite length_fmap. unfold u16. by rewrite Z.mod_small by lia.
Qed.

Lemma template_rec_length tid es :
  Z.of_nat (length es) < 65536 →
  records_length [template_rec tid es] = length (template_body tid (GetInfoElement <$> es)).
Proof.
  intros Hn. pose proof (template_buffer tid es Hn) as H.
  unfold records_length. cbn [sum_list_with]. rewrite Nat.add_0_r.
  unfold GetRecordLength, GetBuffer, template_rec in *. apply (f_equal (λ r,
    match r with Ok (bs, _) => length bs | _ => 0%nat end)) in H. exact H.
Qed.

Lemma CreateIPFIXMsg_template tid es obs seq t :
  Z.of_nat (length es) < 65536 →
  let body := template_body tid (GetInfoElement <$> es) in
  20 + Z.of_nat (length body) <= 65535 →
  ∃ set', CreateIPFIXMsg
    (with_header (set_header_bytes TemplateSetID (4 + Z.of_nat (length body)))
       (built_set Template TemplateSetID [template_rec tid es])) obs seq t =
    Ok (template_message obs seq t tid (GetInfoElement <$> es), set').
Proof.
  intros Hn body Hsz. eexists.
  erewrite CreateIPFIXMsg_layout with (out := [(body, template_rec tid es)]); [ | |done| | |].
  - f_equal. f_equal.
    unfold template_message, message. cbn [with_header built_set headerBuffer set_length].
    rewrite template_rec_length by done. fold body. f_equal; [f_equal; lia|]. f_equal.
    simpl. by rewrite app_nil_r.
  - apply set_inv_with_header; [done|]. by unfold set_inv, built_set.
  - cbn [with_header built_set records go_mapM]. by rewrite template_buffer by done.
  - constructor; [|constructor]. pose proof (template_rec_length tid es Hn) as H.
    unfold records_length in H. cbn [sum_list_with] in H. rewrite Nat.add_0_r in H. by rewrite H.
  - cbn [with_header built_set set_length]. rewrite template_rec_length by done. fold body. lia.
Qed.

Lemma SendSet_template_ok now tid es ep c :
  templateMutex ep = false → sendJSONRecord ep = false → connToCollector ep = Some c →
  Z.of_nat (length es) < 65536 →
  let ies := GetInfoElement <$> es in
  20 + Z.of_nat (length (template_body tid ies)) <= 65535 →
  let msg := template_message (ep_obsDomainID ep) (ep_seqNumber ep) now tid ies in
  Write c msg = (Z.of_nat (length msg), None) →
  ∃ set',
    SendSet Write json_encode now (built_set Template TemplateSetID [template_rec tid es]) ep =
    (Ok ((Z.of_nat (length msg), None), set'),
     with_conn (Some (sent_on c msg)) (remember tid ies ep)).
Proof.
  intros Hm Hj Hc Hn ies Hsz msg Hw.
  destruct (CreateIPFIXMsg_template tid es (ep_obsDomainID ep) (ep_seqNumber ep) now Hn Hsz) as [set' Hmsg].
  exists set'. assert (Hr : ∃ m, remember tid ies ep = with_templates m ep).
  { unfold remember. destruct (templatesMap ep !! tid); [|eauto].
    exists (templatesMap ep). by destruct ep. }
  destruct Hr as [m Hr].
  unfold SendSet. rewrite decide_False by done.
  cbn [built_set setType records check_records].
  erewrite M_bind_Ok.
  2:{ erewrite M_bind_Ok by (by apply check_record_template). done. }
  cbn beta iota. rewrite with_records_built by done. fold ies. rewrite Hr.
  unfold send_checked_set.
  rewrite UpdateLen_built by (rewrite template_rec_length by done; fold ies; lia).
  cbn [sendJSONRecord with_templates]. rewrite Hj.
  apply createAndSend_ok with (ep1 := with_templates m ep); [by rewrite decide_False by done| |done|done].
  rewrite template_rec_length by done. exact Hmsg.
Qed.

(** A message that would be too large is refused after the sequence number has
    been advanced; nothing is sent. *)
Lemma SendSet_too_large now tid tmpl recs ep :
  templateMutex ep = false → sendJSONRecord ep = false →
  templatesMap ep !! tid = Some (template_entry tmpl) → Z.of_nat (length tmpl) < 65536 →
  Forall (fits tmpl) recs → 65535 < 20 + Z.of_nat (length (data_body recs)) →
  ∃ set',
    SendSet Write json_encode now (built_set Data tid (data_rec tid <$> recs)) ep =
    (Ok ((0, Some ErrMsgTooLarge), set'),
     with_seq (u32 (ep_seqNumber ep + u32 (Z.of_nat (length recs)))) ep).
Proof.
  intros Hm Hj Ht Hn Hfit Hsz.
  assert (Hwf : Forall (Forall wf_element) recs) by (eapply Forall_impl; [|exact Hfit]; by intros ? []).
  eexists. unfold SendSet. rewrite decide_False by done.
  erewrite M_bind_Ok.
  2:{ eapply check_records_data; [done|done|]. eapply Forall_impl; [|exact Hfit].
      intros es Hes. by apply fits_checked. }
  cbn beta iota. rewrite with_records_built by apply records_length_cached.
  unfold send_checked_set.
  rewrite (UpdateLenInHeader_ok _ tid [Byte.x00; Byte.x00]) by done.
  rewrite Hj. unfold createAndSendIPFIXMsg, CreateIPFIXMsg.
  cbn [with_header built_set set_length setType]. rewrite records_length_enc by done.
  rewrite (decide_True (P := Data = Data)) by done.
  unfold MsgHeaderLength, MaxSocketMsgSize. rewrite decide_True by lia.
  unfold GetNumberOfRecords. cbn [records built_set with_header]. by rewrite length_fmap.
Qed.

(** *** Template refresh *)

Lemma refreshed_set_ok tid tv :
  Forall (λ ie, template_type (DataType ie) = true) (tv_elements tv) →
  ∃ es, refreshed_set tid tv = Ok (built_set Template TemplateSetID [template_rec tid es]) ∧
        GetInfoElement <$> es = tv_elements tv.
Proof.
  intros Ht.
  assert (He : ∃ es, go_mapM (λ ie, DecodeAndCreateInfoElementWithValue ie None) (tv_elements tv) = Ok es
            ∧ GetInfoElement <$> es = tv_elements tv ∧ Forall (λ e, IsValueEmpty e = true) es).
  { induction Ht as [|ie ies Hie _ (es & H1 & H2 & H3)]; [by exists []|].
    destruct (decode_nil ie Hie) as (e & E & Hg & Hv). exists (e :: es).
    cbn [go_mapM fmap list_fmap]. rewrite E. cbn [mbind go_bind]. rewrite H1.
    split_and!; [done| |by constructor]. rewrite Hg. f_equal. exact H2. }
  destruct He as (es & H1 & H2 & H3). exists es. split; [|done].
  unfold refreshed_set. rewrite H1.
  change (PrepareSet Template tid (NewSet false)) with (Ok (built_set Template TemplateSetID [])).
  cbn [mbind go_bind]. rewrite AddRecord_template by done. by rewrite append_built.
Qed.

(** The bytes a refresh sends for one template. *)
Definition refresh_message (ep : ExportingProcess) (now : Z) (p : Z * templateValue) : list byte :=
  template_message (ep_obsDomainID ep) (ep_seqNumber ep) now p.1 (tv_elements p.2).

(** The exporting process after more messages were sent. *)
Definition sent_all (msgs : list (list byte)) (ep : ExportingProcess) : ExportingProcess :=
  with_conn ((λ c, mkConn (conn_sent c ++ msgs) (conn_closed c)) <$> connToCollector ep) ep.

Definition refreshable (ep : ExportingProcess) (p : Z * templateValue) : Prop :=
  templatesMap ep !! p.1 = Some p.2 ∧
  Forall (λ ie, template_type (DataType ie) = true) (tv_elements p.2) ∧
  Z.of_nat (length (tv_elements p.2)) < 65536 ∧
  20 + Z.of_nat (length (template_body p.1 (tv_elements p.2))) <= 65535.

Lemma send_refreshed_ok now order ep :
  (∀ c bs, Write c bs = (Z.of_nat (length bs), None)) →
  templateMutex ep = false → sendJSONRecord ep = false → is_Some (connToCollector ep) →
  Forall (refreshable ep) order →
  ∃ sets, go_mapM (λ p, refreshed_set p.1 p.2) order = Ok sets ∧
    send_sets Write json_encode now sets ep = (Ok tt, sent_all (refresh_message ep now <$> order) ep).
Proof.
  intros HW Hm Hj [c Hc] Ho. revert ep c Hm Hj Hc Ho.
  induction order as [|[tid tv] order IH]; intros ep c Hm Hj Hc Ho.
  { exists []. split; [done|]. unfold sent_all. destruct ep as [[[s cl]|] ? ? ? ? ? ? ? ?]; [|done].
    simpl. by rewrite app_nil_r. }
  apply Forall_cons_1 in Ho as [(Hp1 & Hp2 & Hp3 & Hp4) Ho']. cbn [fst snd] in *.
  destruct (refreshed_set_ok tid tv Hp2) as (es & E & Hes).
  destruct (SendSet_template_ok now tid es ep c) as [set' Hs]; try done.
  { rewrite <- Hes, length_fmap in Hp3. done. }
  { by rewrite Hes. }
  rewrite Hes in Hs. unfold remember in Hs. rewrite Hp1 in Hs.
  set (msg := template_message _ _ _ _ _) in *.
  destruct (IH (with_conn (Some (sent_on c msg)) ep) (sent_on c msg)) as (sets & H1 & H2); try done.
  exists (built_set Template TemplateSetID [template_rec tid es] :: sets).
  cbn [go_mapM fst snd]. rewrite E. cbn [mbind go_bind]. rewrite H1. split; [done|].
  cbn [send_sets]. erewrite M_bind_Ok by exact Hs. cbn [fst snd]. rewrite H2.
  unfold sent_all, sent_on. rewrite Hc. simpl. by rewrite <- app_assoc.
Qed.

Lemma sendRefreshedTemplates_all now order ep :
  (∀ c bs, Write c bs = (Z.of_nat (length bs), None)) →
  templateMutex ep = false → sendJSONRecord ep = false → is_Some (connToCollector ep) →
  Forall (refreshable ep) order →
  sendRefreshedTemplates Write json_encode order now ep =
    (Ok tt, sent_all (refresh_message ep now <$> order) ep).
Proof.
  intros HW Hm Hj Hc Ho.
  destruct (send_refreshed_ok now order ep) as (sets & H1 & H2); try done.
  unfold sendRefreshedTemplates. rewrite H1.
  rewrite (M_bind_Ok _ _ _ tt (with_mutex true ep)) by (unfold lock; by rewrite Hm).
  erewrite M_bind_Ok by done.
  rewrite (M_bind_Ok _ _ _ tt ep); [done|].
  unfold unlock, M_modify. by rewrite mutex_back.
Qed.

(** When a template cannot be rebuilt the mutex is never released. *)
Lemma sendRefreshedTemplates_leak now order ep e :
  templateMutex ep = false → go_mapM (λ p, refreshed_set p.1 p.2) order = Err e →
  sendRefreshedTemplates Write json_encode order now ep = (Err e, with_mutex true ep).
Proof.
  intros Hm He. unfold sendRefreshedTemplates. rewrite He.
  rewrite (M_bind_Ok _ _ _ tt (with_mutex true ep)) by (unfold lock; by rewrite Hm).
  by erewrite M_bind_Err by done.
Qed.

Lemma SendSet_blocked now set r rs ep :
  templateMutex ep = true → setType set ≠ Undefined → records set = r :: rs →
  (setType set = Template → is_ok (GetMinDataRecordLen r)) →
  SendSet Write json_encode now set ep = (Block, ep).
Proof.
  intros Hm Hty Hr Hmin. unfold SendSet. rewrite decide_False, Hr by done. cbn [check_records].
  assert (E : check_record (setType set) r ep = (Block, ep)).
  { unfold check_record, dataRecSanityCheck, updateTemplate.
    destruct (setType set); [|by apply locked_held|done].
    destruct (Hmin eq_refl) as [n ->]. unfold mbind, M_bind, M_lift. by rewrite locked_held. }
  unfold mbind, M_bind. by rewrite E.
Qed.

End sending.

(** ** Lemmas: the checks before a set is sent *)

(** [SendSet] on a checked data record of known template, branch by branch. *)
Lemma sanity_check_data tid tv es ep :
  templateMutex ep = false → Z.of_nat (length es) < 65536 → Forall wf_element es →
  templatesMap ep !! tid = Some tv →
  dataRecSanityCheck (data_rec tid es) ep =
    (if decide (Z.of_nat (length es) ≠ u16 (Z.of_nat (length (tv_elements tv))))
     then Ok (Some (ErrFieldCountMismatch tid), data_rec tid es)
     else if decide (Z.of_nat (total_length es) < tv_minDataRecLen tv)
     then Ok (Some (ErrMinRecordLength (tv_minDataRecLen tv) tid), data_rec_enc tid es)
     else Ok (None, data_rec_enc tid es), ep).
Proof.
  intros Hm Hn Hwf Ht. unfold dataRecSanityCheck.
  change (GetTemplateID (data_rec tid es)) with tid.
  change (GetFieldCount (data_rec tid es)) with (Z.of_nat (length es)).
  unfold locked, lock. rewrite Hm. cbn [with_mutex templatesMap]. rewrite Ht.
  destruct (decide (Z.of_nat (length es) ≠ _)); [by rewrite mutex_back|].
  unfold GetBuffer, data_rec. destruct (DataGetBuffer_wires tid es Hwf) as [-> _].
  cbn [mbind go_bind]. rewrite length_wires by done.
  destruct (decide (Z.of_nat (total_length es) < _)); by rewrite mutex_back.
Qed.

Lemma sanity_check_unknown rec ep :
  templateMutex ep = false → templatesMap ep !! GetTemplateID rec = None →
  dataRecSanityCheck rec ep = (Ok (Some (ErrTemplateUnknown (GetTemplateID rec)), rec), ep).
Proof.
  intros Hm Ht. unfold dataRecSanityCheck, locked, lock. rewrite Hm.
  cbn [with_mutex templatesMap]. rewrite Ht. by rewrite mutex_back.
Qed.

(** ** Template ids *)

(** [n] calls of [NewTemplateID] in a row. *)
Fixpoint new_template_ids (n : nat) : EP (list Z) :=
  match n with
  | O => mret []
  | S n => id ← NewTemplateID; ids ← new_template_ids n; mret (id :: ids)
  end.

Lemma new_template_ids_spec n ep :
  in_u 16 (ep_templateID ep) →
  new_template_ids n ep =
    (Ok ((λ k, u16 (ep_templateID ep + 1 + Z.of_nat k)) <$> seq 0 n),
     with_templateID (u16 (ep_templateID ep + Z.of_nat n)) ep).
Proof.
  revert ep. induction n as [|n IH]; intros ep Hr.
  { simpl. unfold u16. rewrite Z.add_0_r, Z.mod_small by (unfold in_u in Hr; simpl in Hr; lia).
    by destruct ep. }
  cbn [new_template_ids].
  rewrite (M_bind_Ok _ _ _ (u16 (ep_templateID ep + 1))
             (with_templateID (u16 (ep_templateID ep + 1)) ep)) by done.
  erewrite M_bind_Ok.
  2:{ apply IH. cbn [with_templateID ep_templateID]. apply (mod_in_u 16). lia. }
  unfold mret, M_ret. cbn [with_templateID ep_templateID seq fmap list_fmap].
  rewrite Z.add_0_r. f_equal; [f_equal; f_equal|].
  - rewrite <- fmap_S_seq, <- list_fmap_compose. apply list_fmap_ext. intros i k _. simpl. unfold u16.
    rewrite <- Z.add_assoc, Zplus_mod_idemp_l. f_equal. lia.
  - unfold u16. rewrite Zplus_mod_idemp_l. unfold with_templateID. simpl. do 2 f_equal. lia.
Qed.

(** ** Lemmas: the mutex after a call *)

Lemma with_mutex_false ep : templateMutex (with_mutex false ep) = false.
Proof. done. Qed.

Lemma locked_outcome {A} (body : EP A) ep :
  templateMutex ep = false → (∀ ep, (body ep).1 ≠ Block) →
  (locked body ep).1 ≠ Block ∧ templateMutex (locked body ep).2 = false.
Proof.
  intros Hm Hb. unfold locked, lock. rewrite Hm.
  specialize (Hb (with_mutex true ep)). by destruct (body _).
Qed.

Lemma copy_records_not_block rs buf i : copy_records rs buf i ≠ Block.
Proof.
  revert buf i. induction rs as [|r rs IH]; intros buf i; cbn [copy_records]; [done|].
  apply go_bind_not_block; [auto with live|]. intros [bs r'].
  apply go_bind_not_block; [auto with live|]. intros buf'.
  apply go_bind_not_block; [done|]. by intros [].
Qed.

Lemma CreateIPFIXMsg_not_block set obs seq t : CreateIPFIXMsg set obs seq t ≠ Block.
Proof.
  unfold CreateIPFIXMsg, SetVersion, SetObsDomainID, SetMessageLen, SetExportTime, SetSequenceNum.
  case_decide; [done|]. repeat (apply go_bind_not_block; [solve [auto with live]|intros ?]).
  apply go_bind_not_block; [apply copy_records_not_block|]. by intros [].
Qed.

(** A method that returns, or panics, with the mutex free. *)
Definition live {A} (m : EP A) : Prop :=
  ∀ ep, templateMutex ep = false → (m ep).1 ≠ Block ∧ templateMutex (m ep).2 = false.

Lemma live_ret {A} (a : A) : live (mret a).
Proof. by intros ep. Qed.

Lemma live_lift {A} (m : go A) : m ≠ Block → live (M_lift m).
Proof. by intros Hm ep. Qed.

Lemma live_bind {A B} (m : EP A) (f : A → EP B) : live m → (∀ a, live (f a)) → live (m ≫= f).
Proof.
  intros Hm Hf ep Hep. destruct (Hm ep Hep) as [H1 H2]. unfold mbind, M_bind.
  destruct (m ep) as [[a| | |] ep']; try done. by apply Hf.
Qed.

Lemma live_locked {A} (body : EP A) : (∀ ep, (body ep).1 ≠ Block) → live (locked body).
Proof. intros Hb ep Hep. by apply locked_outcome. Qed.

Lemma list_infos_not_block l : list_infos l ≠ Block.
Proof. apply go_mapM_not_block. by intros []. Qed.

Lemma live_updateTemplate id es n : live (updateTemplate id es n).
Proof.
  apply live_locked. intros ep. destruct (templatesMap ep !! id); [done|].
  pose proof (list_infos_not_block es). by destruct (list_infos es).
Qed.

Lemma live_dataRecSanityCheck r : live (dataRecSanityCheck r).
Proof.
  apply live_locked. intros ep. destruct (templatesMap ep !! _) as [tv|]; [|done].
  case_decide; [done|]. pose proof (GetBuffer_not_block r).
  destruct (GetBuffer r) as [[bs r']| | |]; try done. by case_decide.
Qed.
#[export] Hint Resolve live_ret live_lift live_bind live_updateTemplate live_dataRecSanityCheck : live.

Lemma live_check_record ty r : live (check_record ty r).
Proof.
  destruct ty; simpl; [|auto with live..]. apply live_bind; [|auto with live].
  apply live_lift. by destruct r.
Qed.

Lemma live_check_records ty rs : live (check_records ty rs).
Proof.
  induction rs as [|r rs IH]; simpl; [auto with live|].
  apply live_bind; [apply live_check_record|]. intros [[e|] r']; [auto with live|].
  apply live_bind; [done|]. intros []. auto with live.
Qed.

Section liveness.
Context (Write : Conn → list byte → Z * option error).
Context (json_encode : gmap string GoVal → Z → go (list byte)).

Lemma live_conn_write bs : live (conn_write Write bs).
Proof.
  intros ep Hep. unfold conn_write. destruct (connToCollector ep) as [c|]; [|done].
  by destruct (Write c bs).
Qed.

Lemma live_createAndSendIPFIXMsg now set : live (createAndSendIPFIXMsg Write now set).
Proof.
  intros ep Hep. unfold createAndSendIPFIXMsg. cbv zeta.
  set (ep1 := if decide _ then _ else ep).
  assert (Hep1 : templateMutex ep1 = false) by (unfold ep1; by case_decide).
  generalize dependent ep1. intros ep1 Hep1.
  pose proof (CreateIPFIXMsg_not_block set (ep_obsDomainID ep1) (ep_seqNumber ep1) now) as Hb.
  destruct (CreateIPFIXMsg _ _ _ _) as [[bs set']| | |]; [|done..].
  clear Hb. revert ep1 Hep1.
  apply live_bind; [apply live_conn_write|].
  intros [n [e|]]; [|case_decide]; auto with live.
Qed.

Lemma live_send_json now rs n :
  (∀ m t, json_encode m t ≠ Block) → live (send_json_records Write json_encode now rs n).
Proof.
  intros Hj. revert n. induction rs as [|r rs IH]; intros n; simpl; [auto with live|].
  assert (Hf : go_foldM json_element ∅ (GetOrderedElementList r) ≠ Block).
  { apply go_foldM_not_block. intros m [e|]; simpl; auto with live. }
  destruct (go_foldM _ _ _) as [m| | |]; [|auto with live..].
  specialize (Hj m now). destruct (json_encode m now); [|auto with live..].
  apply live_bind; [apply live_conn_write|]. intros [k [e|]]; auto with live.
Qed.

Lemma live_SendSet now set :
  (∀ m t, json_encode m t ≠ Block) → live (SendSet Write json_encode now set).
Proof.
  intros Hj. unfold SendSet. case_decide; [auto with live|].
  apply live_bind; [apply live_check_records|]. intros [[e|] rs]; [auto with live|].
  intros ep Hep. unfold send_checked_set. destruct (UpdateLenInHeader _) as [s| | |]; try done.
  destruct (sendJSONRecord ep); [|by apply live_createAndSendIPFIXMsg].
  case_decide; [|done]. revert ep Hep. apply live_bind; [by apply live_send_json|auto with live].
Qed.
End liveness.

(** ** Lemmas: what a call that returns has changed *)

Lemma locked_inv {A} (body : EP A) ep x ep' :
  locked body ep = (Ok x, ep') →
  templateMutex ep = false ∧ ∃ ep1, body (with_mutex true ep) = (Ok x, ep1) ∧ ep' = with_mutex false ep1.
Proof.
  unfold locked, lock. destruct (templateMutex ep); [done|]. destruct (body _) as [res ep1]. intros [= -> <-].
  split; [done|]. by exists ep1.
Qed.

Lemma updateTemplate_effect id es n ep ep' :
  updateTemplate id es n ep = (Ok tt, ep') →
  ∃ m, ep' = with_templates m ep ∧ templatesMap ep ⊆ m ∧
    (is_Some (templatesMap ep !! id) → m = templatesMap ep) ∧
    ∀ ep2, templatesMap ep2 = templatesMap ep → templateMutex ep2 = false →
      updateTemplate id es n ep2 = (Ok tt, with_templates m ep2).
Proof.
  unfold updateTemplate. intros (Hm & ep1 & E & ->)%locked_inv. cbn [with_mutex templatesMap] in E.
  unfold locked, lock.
  destruct (templatesMap ep !! id) eqn:Hid.
  - injection E as <-. exists (templatesMap ep). split_and!; [|done|done|].
    + by destruct ep; simpl in *; subst.
    + intros ep2 H2 M2. rewrite M2. cbn [with_mutex templatesMap]. rewrite H2, Hid. f_equal. by destruct ep2; simpl in *; subst.
  - destruct (list_infos es) as [infos| | |]; try discriminate. injection E as <-.
    exists (<[id := mkTemplateValue infos n]> (templatesMap ep)). split_and!.
    + by destruct ep; simpl in *; subst.
    + by apply insert_subseteq.
    + by intros [? ?].
    + intros ep2 H2 M2. rewrite M2. cbn [with_mutex templatesMap]. rewrite H2, Hid. f_equal. by destruct ep2; simpl in *; subst.
Qed.

Lemma sanity_check_effect r ep x ep' :
  dataRecSanityCheck r ep = (Ok x, ep') →
  ep' = ep ∧ ∀ ep2, templatesMap ep2 = templatesMap ep → templateMutex ep2 = false →
    dataRecSanityCheck r ep2 = (Ok x, ep2).
Proof.
  unfold dataRecSanityCheck. intros (Hm & ep1 & E & ->)%locked_inv. cbn [with_mutex templatesMap] in E.
  assert (H : ep1 = with_mutex true ep) by (repeat case_match; by simplify_eq).
  subst ep1. split; [by apply mutex_back|]. intros ep2 H2 M2. unfold locked, lock. rewrite M2.
  cbn [with_mutex templatesMap]. rewrite H2.
  repeat case_match; simplify_eq; (split || f_equal; by apply mutex_back).
Qed.

Lemma check_record_effect ty r ep x ep' :
  check_record ty r ep = (Ok x, ep') →
  ∃ m, ep' = with_templates m ep ∧ templatesMap ep ⊆ m ∧
    (ty = Template → x = (None, r) ∧ (is_Some (templatesMap ep !! GetTemplateID r) → m = templatesMap ep)) ∧
    ∀ ep2, templatesMap ep2 = templatesMap ep → templateMutex ep2 = false →
      check_record ty r ep2 = (Ok x, with_templates m ep2).
Proof.
  assert (Hid : ∀ ep2 : ExportingProcess, with_templates (templatesMap ep2) ep2 = ep2) by (by intros []).
  intros H. destruct ty; cbn [check_record] in *.
  - apply M_bind_inv in H as (n & ep1 & E & H). injection E as En <-.
    apply M_bind_inv in H as ([] & ep1 & E & H). injection H as <- <-.
    destruct (updateTemplate_effect _ _ _ _ _ E) as (m & -> & Hsub & Hsame & Hall). exists m.
    split_and!; [done|done|done|]. intros ep2 H2 M2.
    rewrite (M_bind_Ok _ _ _ n ep2) by (unfold M_lift; by rewrite En).
    by rewrite (M_bind_Ok _ _ _ _ _ (Hall ep2 H2 M2)).
  - apply sanity_check_effect in H as [-> Hall]. exists (templatesMap ep). split_and!; [done|done|done|].
    intros ep2 H2 M2. rewrite Hall by done. by rewrite <- H2, Hid.
  - injection H as <- <-. exists (templatesMap ep). split_and!; [done|done|done|].
    intros ep2 H2 M2. by rewrite <- H2, Hid.
Qed.

Lemma check_records_effect ty rs ep x ep' :
  check_records ty rs ep = (Ok x, ep') → ∃ m, ep' = with_templates m ep.
Proof.
  revert ep x. induction rs as [|r rs IH]; intros ep x; cbn [check_records].
  { intros [= _ <-]. exists (templatesMap ep). by destruct ep. }
  intros H. apply M_bind_inv in H as ([err r'] & ep1 & E & H).
  apply check_record_effect in E as (m & -> & _). destruct err as [e|]; [injection H as _ <-; eauto|].
  apply M_bind_inv in H as ([err' rs'] & ep2 & E & H). injection H as _ <-.
  destruct (IH _ _ E) as [m' ->]. by exists m'.
Qed.

Lemma copy_records_prefix n rs buf i buf' rs' :
  copy_records rs buf i = Ok (buf', rs') → (n <= i)%nat → length buf' = length buf ∧ take n buf' = take n buf.
Proof.
  revert buf i rs'. induction rs as [|r rs IH]; intros buf i rs'; cbn [copy_records]; [by intros [= <- <-]|].
  intros H Hn. apply go_bind_Ok in H as ([bs r'] & _ & H). apply go_bind_Ok in H as (buf1 & E & H).
  apply go_bind_Ok in H as ([buf2 rs2] & E2 & H). injection H as <- _.
  destruct (IH _ _ _ E2) as [-> ->]; [lia|]. split; [by eapply copy_range_length|by eapply copy_range_prefix].
Qed.

(** The start of a message with these bytes: its header, with its own length. *)
Definition message_header (now seq obs : Z) (bs : list byte) : Prop :=
  (20 <= length bs)%nat ∧ Z.of_nat (length bs) <= 65535 ∧
  take 16 bs = header_bytes 10 (Z.of_nat (length bs)) (u32 now) seq obs.

Lemma CreateIPFIXMsg_header set obs seq now bs set' :
  CreateIPFIXMsg set obs seq now = Ok (bs, set') → message_header now seq obs bs.
Proof.
  unfold CreateIPFIXMsg, MsgHeaderLength, SetHeaderLen, MaxSocketMsgSize. case_decide as Hsz; [done|]. intros H.
  replace (u16 (Z.of_nat (16 + set_length set))) with (Z.of_nat (16 + set_length set)) in H
    by (unfold u16; rewrite Z.mod_small; lia).
  destruct (set_header_fields 10 obs (Z.of_nat (16 + set_length set)) (u32 now) seq) as (m & Hm1 & Hmh).
  repeat (apply go_bind_Ok in Hm1 as (? & ?E & Hm1); rewrite E in H; clear E; cbn [mbind go_bind] in H).
  rewrite Hm1 in H. cbn [mbind go_bind] in H. rewrite Hmh in H.
  apply go_bind_Ok in H as (buf1 & E1 & H). apply go_bind_Ok in H as (buf2 & E2 & H).
  apply go_bind_Ok in H as ([buf3 rs] & E3 & H). injection H as <- _.
  destruct (copy_records_prefix 16 _ _ _ _ _ E3) as [L3 P3]; [lia|].
  pose proof (copy_range_length _ _ _ _ _ E2) as L2. pose proof (copy_range_prefix 16 _ _ _ _ _ E2 ltac:(lia)) as P2.
  pose proof (copy_range_length _ _ _ _ _ E1) as L1. rewrite length_replicate in L1.
  assert (H20 : (20 <= length buf1)%nat) by (unfold copy_range in E2; case_decide; [lia|done]).
  assert (Hlen : length buf3 = (16 + set_length set)%nat) by lia.
  split_and!; [lia|lia|]. rewrite P3, P2, Hlen.
  rewrite replicate_add in E1.
  pose proof (copy_range_app [] (replicate 16 Byte.x00) (replicate (set_length set) Byte.x00) 16
    (header_bytes 10 (Z.of_nat (16 + set_length set)) (u32 now) seq obs) eq_refl eq_refl) as E.
  cbn [length app] in E. rewrite E in E1. injection E1 as <-. done.
Qed.

(** ** Properties *)

(** Concrete inputs for the witnesses: a connection that takes every write, and an
    exporting process that knows one template. *)
Definition write_all (c : Conn) (bs : list byte) : Z * option error := (Z.of_nat (length bs), None).
Definition json_none (m : gmap string GoVal) (t : Z) : go (list byte) := Ok [].
Definition example_template : list InfoElement :=
  [GetInfoElement example_octets; GetInfoElement example_pod].
Definition example_ep (m : gmap Z templateValue) : ExportingProcess :=
  mkExportingProcess (Some (mkConn [] false)) 1 0 255 m false false false 0.
Definition example_known : ExportingProcess :=
  example_ep {[256 := template_entry example_template]}.
Definition example_records : list (list InfoElementWithValue) :=
  [[example_octets; example_pod]; [example_octets; example_pod]].

(** C12: a data set that fits a known template is sent as one IPFIX message.  A user
    who prepares a data set, adds records that fit the template and sends it gets
    back the number of bytes sent; the bytes on the connection are the message of
    RFC 7011 (header with version 10 and the total length, set header with the
    template id and the set length, then the records' values in order); the sequence
    number has grown by the number of records, modulo 2^32, and nothing else of the
    process has changed. *)
Theorem SendSet_data_message Write json_encode now tid tmpl recs ep c :
  templateMutex ep = false → sendJSONRecord ep = false → connToCollector ep = Some c →
  templatesMap ep !! tid = Some (template_entry tmpl) → Z.of_nat (length tmpl) < 65536 →
  Forall (fits tmpl) recs → 20 + Z.of_nat (length (data_body recs)) <= 65535 →
  let seq := u32 (ep_seqNumber ep + u32 (Z.of_nat (length recs))) in
  let msg := data_message (ep_obsDomainID ep) seq now tid recs in
  Write c msg = (Z.of_nat (length msg), None) →
  ∃ s s',
    build_set Data tid recs = Ok s ∧
    SendSet Write json_encode now s ep =
      (Ok ((Z.of_nat (length msg), None), s'),
       with_conn (Some (mkConn (conn_sent c ++ [msg]) (conn_closed c))) (with_seq seq ep)).
Proof.
  intros Hm Hj Hc Ht Hn Hfit Hsz seq msg Hw.
  destruct (SendSet_data_ok Write json_encode now tid tmpl recs ep c) as [s' Hs]; try done.
  eexists _, s'. split; [|exact Hs]. apply build_data_set.
  eapply Forall_impl; [|exact Hfit]. intros es [Hes _]. by rewrite <- (length_fmap GetInfoElement), Hes.
Qed.

Lemma SendSet_data_message_witness :
  ∃ s s',
    build_set Data 256 example_records = Ok s ∧
    SendSet write_all json_none 1000 s example_known =
      (Ok ((Z.of_nat (length (data_message 1 2 1000 256 example_records)), None), s'),
       with_conn (Some (mkConn [data_message 1 2 1000 256 example_records] false))
         (with_seq 2 example_known)).
Proof.
  apply (SendSet_data_message write_all json_none 1000 256 example_template example_records
           example_known (mkConn [] false)); try reflexivity.
  - apply (bool_decide_unpack _). vm_compute. exact I.
  - apply Z.leb_le. vm_compute. reflexivity.
Defined.

(** C13: a template set is sent as one template message, and a template id that the
    process already knows keeps its first definition: later sanity checks go on
    using the old fields even though the new ones were sent.  The sequence number
    does not move. *)
Theorem SendSet_template_message Write json_encode now tid es ep c :
  templateMutex ep = false → sendJSONRecord ep = false → connToCollector ep = Some c →
  Forall (λ e, IsValueEmpty e = true) es → Z.of_nat (length es) < 65536 →
  let ies := GetInfoElement <$> es in
  20 + Z.of_nat (length (template_body tid ies)) <= 65535 →
  let msg := template_message (ep_obsDomainID ep) (ep_seqNumber ep) now tid ies in
  Write c msg = (Z.of_nat (length msg), None) →
  ∃ s s' ep',
    build_set Template tid [es] = Ok s ∧
    SendSet Write json_encode now s ep = (Ok ((Z.of_nat (length msg), None), s'), ep') ∧
    connToCollector ep' = Some (mkConn (conn_sent c ++ [msg]) (conn_closed c)) ∧
    ep_seqNumber ep' = ep_seqNumber ep ∧
    (∀ id, templatesMap ep' !! id =
       if decide (id = tid ∧ templatesMap ep !! tid = None)
       then Some (mkTemplateValue ies (u16 (min_record_len ies))) else templatesMap ep !! id).
Proof.
  intros Hm Hj Hc He Hn ies Hsz msg Hw.
  destruct (SendSet_template_ok Write json_encode now tid es ep c) as [s' Hs]; try done.
  eexists _, s', _. split_and!; [by apply build_template_set|exact Hs|done|..].
  - unfold remember. by destruct (templatesMap ep !! tid).
  - intros id. unfold remember. destruct (templatesMap ep !! tid) eqn:E.
    + by rewrite decide_False by (intros [_ ?]; congruence).
    + cbn [with_conn with_templates templatesMap]. rewrite lookup_insert.
      destruct (decide (tid = id)) as [<-|]; [by rewrite decide_True|].
      by rewrite decide_False by (intros [? _]; congruence).
Qed.

Lemma SendSet_template_message_witness :
  ∃ s s' ep',
    build_set Template 256 [[ResetValue example_octets; ResetValue example_pod]] = Ok s ∧
    SendSet write_all json_none 1000 s (example_ep ∅) =
      (Ok ((Z.of_nat (length (template_message 1 0 1000 256 example_template)), None), s'), ep') ∧
    connToCollector ep' = Some (mkConn [template_message 1 0 1000 256 example_template] false) ∧
    templatesMap ep' !! 256 = Some (template_entry example_template).
Proof.
  destruct (SendSet_template_message write_all json_none 1000 256
              [ResetValue example_octets; ResetValue example_pod] (example_ep ∅) (mkConn [] false))
    as (s & s' & ep' & H1 & H2 & H3 & _ & H5); try reflexivity.
  - repeat constructor.
  - apply Z.leb_le. vm_compute. reflexivity.
  - exists s, s', ep'. split; [exact H1|]. split; [exact H2|]. split; [exact H3|].
    rewrite H5. reflexivity.
Defined.

(** What the sanity check makes of a record of well-formed elements: the answer
    is decided by the template map alone.  An unknown template id, another number
    of fields (modulo 2^16) and a record shorter than the template's minimum are
    each refused with their own error; everything else passes.  The process is
    unchanged and the template mutex is free again in every case. *)
Theorem sanity_check_decides tid es ep :
  templateMutex ep = false → Z.of_nat (length es) < 65536 → Forall wf_element es →
  ∃ rec',
    dataRecSanityCheck (data_rec tid es) ep =
      (Ok (match templatesMap ep !! tid with
           | None => Some (ErrTemplateUnknown tid)
           | Some tv =>
               if decide (Z.of_nat (length es) ≠ u16 (Z.of_nat (length (tv_elements tv))))
               then Some (ErrFieldCountMismatch tid)
               else if decide (Z.of_nat (length (wires es)) < tv_minDataRecLen tv)
               then Some (ErrMinRecordLength (tv_minDataRecLen tv) tid)
               else None
           end, rec'), ep).
Proof.
  intros Hm Hn Hwf. destruct (templatesMap ep !! tid) as [tv|] eqn:Ht.
  - rewrite (sanity_check_data tid tv) by done. rewrite length_wires by done.
    case_decide; [eauto|]. case_decide; eauto.
  - rewrite sanity_check_unknown by done. eauto.
Qed.

Lemma sanity_check_decides_witness :
  ∃ rec', dataRecSanityCheck (data_rec 256 [example_octets]) example_known =
    (Ok (Some (ErrFieldCountMismatch 256), rec'), example_known).
Proof.
  destruct (sanity_check_decides 256 [example_octets] example_known) as [rec' H].
  - reflexivity.
  - reflexivity.
  - apply (bool_decide_unpack _). vm_compute. exact I.
  - exists rec'. rewrite H. reflexivity.
Defined.

(** A data set of an unknown template is refused before anything is sent: the
    error names the template, no byte is written, and the process, sequence number
    included, is as it was. *)
Theorem SendSet_unknown_template Write json_encode now tid es recs ep :
  templateMutex ep = false → templatesMap ep !! tid = None →
  Forall (λ es, Z.of_nat (length es) < 65536) (es :: recs) →
  ∃ s, build_set Data tid (es :: recs) = Ok s ∧
    SendSet Write json_encode now s ep =
      (Ok ((0, Some (ErrSanityCheck (ErrTemplateUnknown tid))), s), ep).
Proof.
  intros Hm Ht Hn. eexists. split; [by apply build_data_set|].
  unfold SendSet. rewrite decide_False by done.
  erewrite M_bind_Ok by (by apply check_records_unknown). done.
Qed.

Lemma SendSet_unknown_template_witness :
  ∃ s, build_set Data 300 [[example_octets]] = Ok s ∧
    SendSet write_all json_none 1000 s example_known =
      (Ok ((0, Some (ErrSanityCheck (ErrTemplateUnknown 300))), s), example_known).
Proof.
  apply (SendSet_unknown_template write_all json_none 1000 300 [example_octets] [] example_known).
  - reflexivity.
  - reflexivity.
  - repeat constructor.
Defined.

(** A data set that does not fit into one message is refused by the size check
    and nothing is written, but the sequence number has already been advanced by
    its records: the next message that is sent reports records that never left. *)
Theorem SendSet_oversized_advances_sequence Write json_encode now tid tmpl recs ep :
  templateMutex ep = false → sendJSONRecord ep = false →
  templatesMap ep !! tid = Some (template_entry tmpl) → Z.of_nat (length tmpl) < 65536 →
  Forall (fits tmpl) recs → 65535 < 20 + Z.of_nat (length (data_body recs)) →
  ∃ s s', build_set Data tid recs = Ok s ∧
    SendSet Write json_encode now s ep =
      (Ok ((0, Some ErrMsgTooLarge), s'),
       with_seq (u32 (ep_seqNumber ep + u32 (Z.of_nat (length recs)))) ep).
Proof.
  intros Hm Hj Ht Hn Hfit Hsz.
  destruct (SendSet_too_large Write json_encode now tid tmpl recs ep) as [s' Hs]; try done.
  eexists _, s'. split; [|exact Hs]. apply build_data_set.
  eapply Forall_impl; [|exact Hfit]. intros es [Hes _]. by rewrite <- (length_fmap GetInfoElement), Hes.
Qed.

(** Six thousand records of eleven bytes and more. *)
Definition example_many : list (list InfoElementWithValue) :=
  replicate (Z.to_nat 6000) [example_octets; example_pod].

Lemma SendSet_oversized_advances_sequence_witness :
  ∃ s s', build_set Data 256 example_many = Ok s ∧
    SendSet write_all json_none 1000 s example_known =
      (Ok ((0, Some ErrMsgTooLarge), s'), with_seq 6000 example_known).
Proof.
  destruct (SendSet_oversized_advances_sequence write_all json_none 1000 256 example_template
              example_many example_known) as (s & s' & H1 & H2).
  - reflexivity.
  - reflexivity.
  - reflexivity.
  - reflexivity.
  - apply Forall_replicate. apply (bool_decide_unpack _). vm_compute. exact I.
  - apply Z.ltb_lt. vm_compute. reflexivity.
  - exists s, s'. split; [exact H1|]. rewrite H2. reflexivity.
Defined.



(** The template ids of a new exporting process.  As long as no more than 65280
    ids are taken they are 256, 257, ... in order, so all different and none of the
    reserved values below 256; the counter is sixteen bits wide, and the id after
    65535 is 0. *)
Theorem template_ids_fresh n ep :
  ep_templateID ep = startTemplateID →
  ∃ ids, new_template_ids n ep =
           (Ok ids, with_templateID (u16 (startTemplateID + Z.of_nat n)) ep) ∧
    ids = (λ k, u16 (256 + Z.of_nat k)) <$> seq 0 n ∧
    (Z.of_nat n <= 65280 → NoDup ids ∧ Forall (λ id, 256 <= id <= 65535) ids) ∧
    (65280 < Z.of_nat n → ids !! Z.to_nat 65280 = Some 0).
Proof.
  intros H0. eexists. rewrite new_template_ids_spec by (rewrite H0; by unfold in_u, startTemplateID).
  rewrite H0. split_and!; [done|done|..].
  - intros Hn.
    assert (Hk : ∀ k, (k < n)%nat → u16 (startTemplateID + 1 + Z.of_nat k) = 256 + Z.of_nat k).
    { intros k Hk. unfold u16, startTemplateID. rewrite Z.mod_small; lia. }
    split.
    + apply NoDup_fmap_2_strong; [|apply NoDup_seq]. intros x y [_ Hx]%elem_of_seq [_ Hy]%elem_of_seq.
      rewrite !Hk by lia. lia.
    + apply Forall_fmap, Forall_forall. intros k [_ Hk']%in_seq. simpl. rewrite Hk by lia. lia.
  - intros Hn. rewrite list_lookup_fmap, lookup_seq_lt by lia. cbn [fmap option_fmap option_map].
    by rewrite Nat.add_0_l, Z2Nat.id by lia.
Qed.

Lemma template_ids_fresh_witness :
  ∃ ids, new_template_ids 3 (example_ep ∅) = (Ok ids, with_templateID 258 (example_ep ∅)) ∧
    ids = [256; 257; 258] ∧
    (Z.of_nat 3 <= 65280 → NoDup ids ∧ Forall (λ id, 256 <= id <= 65535) ids) ∧
    (65280 < Z.of_nat 3 → ids !! Z.to_nat 65280 = Some 0).
Proof. apply (template_ids_fresh 3 (example_ep ∅)). reflexivity. Defined.

(** A template refresh re-sends every template once.  Whatever order the map is
    visited in, one template message per known template goes out, with the stored
    fields and the current sequence number, and neither the templates nor the
    sequence number change; the mutex is released. *)
Theorem refresh_sends_every_template Write json_encode now order ep :
  (∀ c bs, Write c bs = (Z.of_nat (length bs), None)) →
  templateMutex ep = false → sendJSONRecord ep = false → is_Some (connToCollector ep) →
  order ≡ₚ map_to_list (templatesMap ep) →
  (∀ tid tv, templatesMap ep !! tid = Some tv →
     Forall (λ ie, template_type (DataType ie) = true) (tv_elements tv) ∧
     20 + Z.of_nat (length (template_body tid (tv_elements tv))) <= 65535) →
  sendRefreshedTemplates Write json_encode order now ep =
    (Ok tt, with_conn ((λ c, mkConn (conn_sent c ++ (refresh_message ep now <$> order))
                                    (conn_closed c)) <$> connToCollector ep) ep).
Proof.
  intros HW Hm Hj Hc Ho Hall. apply sendRefreshedTemplates_all; try done.
  apply Forall_forall. intros [tid tv] Hin.
  assert (Hl : templatesMap ep !! tid = Some tv).
  { apply elem_of_map_to_list. rewrite <- Ho. by apply list_elem_of_In. }
  destruct (Hall _ _ Hl) as [H1 H2]. split_and!; try done. cbn [fst snd].
  pose proof (template_body_length tid (tv_elements tv)). lia.
Qed.

Lemma refresh_sends_every_template_witness :
  sendRefreshedTemplates write_all json_none [(256, template_entry example_template)] 1000 example_known =
    (Ok tt, with_conn (Some (mkConn [template_message 1 0 1000 256 example_template] false))
              example_known).
Proof.
  apply (refresh_sends_every_template write_all json_none 1000 [(256, template_entry example_template)]
           example_known).
  - reflexivity.
  - reflexivity.
  - reflexivity.
  - apply (bool_decide_unpack _). vm_compute. exact I.
  - unfold example_known. cbn [example_ep templatesMap]. rewrite map_to_list_singleton. reflexivity.
  - unfold example_known. cbn [example_ep templatesMap].
    intros tid tv [<- <-]%lookup_singleton_Some.
    split; apply (bool_decide_unpack _); vm_compute; exact I.
Defined.

(** A refresh that cannot rebuild a template leaves the process locked.  When
    one of the stored elements has a type that [DecodeAndCreateInfoElementWithValue]
    refuses, [sendRefreshedTemplates] returns the error with the template mutex
    still held; the refresh goroutine then closes the connection, and every later
    [SendSet] of a set with a record blocks for ever. *)
Theorem refresh_error_deadlocks Write json_encode now now' order ep e set r rs c :
  templateMutex ep = false → connToCollector ep = Some c →
  go_mapM (λ p, refreshed_set p.1 p.2) order = Err e →
  setType set ≠ Undefined → records set = r :: rs →
  (setType set = Template → is_ok (GetMinDataRecordLen r)) →
  ∃ ep', refresh_tick Write json_encode order now ep = (Ok tt, ep') ∧
    templateMutex ep' = true ∧ connToCollector ep' = Some (mkConn (conn_sent c) true) ∧
    SendSet Write json_encode now' set ep' = (Block, ep').
Proof.
  intros Hm Hc He Hty Hr Hmin. unfold refresh_tick.
  rewrite (sendRefreshedTemplates_leak _ _ _ _ _ e) by done.
  assert (Hclose : ∃ ep', CloseConnToCollector (with_mutex true ep) = (Ok tt, ep') ∧
            templateMutex ep' = true ∧ connToCollector ep' = Some (mkConn (conn_sent c) true)).
  { unfold CloseConnToCollector. cbn [with_mutex templateRefCh_closed].
    destruct (isChanClosed _); cbn [with_refCh with_mutex connToCollector]; rewrite Hc; eauto. }
  destruct Hclose as (ep' & H1 & H2 & H3). exists ep'. split_and!; try done.
  by eapply SendSet_blocked.
Qed.

(** A template whose only field is an octet array. *)
Definition example_octetArray : InfoElement := NewInfoElement "paddingOctets" 210 OctetArray 0 65535.
Definition example_stuck : ExportingProcess := example_ep {[256 := template_entry [example_octetArray]]}.

Lemma refresh_error_deadlocks_witness :
  ∃ ep', refresh_tick write_all json_none [(256, template_entry [example_octetArray])] 1000
           example_stuck = (Ok tt, ep') ∧
    templateMutex ep' = true ∧ connToCollector ep' = Some (mkConn [] true) ∧
    SendSet write_all json_none 1001 (built_set Data 256 [data_rec 256 [example_octets]]) ep' =
      (Block, ep').
Proof.
  apply (refresh_error_deadlocks write_all json_none 1000 1001
           [(256, template_entry [example_octetArray])] example_stuck ErrInvalidDataType
           (built_set Data 256 [data_rec 256 [example_octets]]) (data_rec 256 [example_octets]) []
           (mkConn [] false)); try reflexivity; discriminate.
Defined.

(** A template with a [signed64] element takes the exporter down at the first
    refresh: the element can be created and sent, and is remembered, but rebuilding
    it from a nil value panics. *)
Theorem refresh_signed64_panics Write json_encode now tid ies1 ie ies2 n order ep :
  templateMutex ep = false →
  Forall (λ ie, template_type (DataType ie) = true) ies1 → DataType ie = Signed64 →
  refresh_tick Write json_encode ((tid, mkTemplateValue (ies1 ++ ie :: ies2) n) :: order) now ep =
    (Panic, with_mutex true ep).
Proof.
  intros Hm H1 Hie. unfold refresh_tick, sendRefreshedTemplates.
  rewrite (M_bind_Ok _ _ _ tt (with_mutex true ep)) by (unfold lock; by rewrite Hm).
  assert (E : refreshed_set tid (mkTemplateValue (ies1 ++ ie :: ies2) n) = Panic).
  { unfold refreshed_set.
    change (PrepareSet Template tid (NewSet false)) with (Ok (built_set Template TemplateSetID [])).
    cbn [mbind go_bind tv_elements].
    enough (E : go_mapM (λ ie, DecodeAndCreateInfoElementWithValue ie None) (ies1 ++ ie :: ies2) = Panic)
      by (by rewrite E).
    induction H1 as [|ie1 ies1 Hie1 _ IH]; cbn [go_mapM app].
    - by rewrite decode_nil_signed64.
    - destruct (decode_nil ie1 Hie1) as (e & -> & _). cbn [mbind go_bind]. by rewrite IH. }
  cbn [go_mapM fst snd]. by rewrite E.
Qed.

(** An element of a private enterprise with a signed 64-bit value. *)
Definition example_signed64 : InfoElement := NewInfoElement "drift" 9 Signed64 4242 8.

Lemma refresh_signed64_panics_witness :
  refresh_tick write_all json_none
    [(256, mkTemplateValue [GetInfoElement example_octets; example_signed64] 16)] 1000
    (example_ep {[256 := mkTemplateValue [GetInfoElement example_octets; example_signed64] 16]}) =
  (Panic, with_mutex true
     (example_ep {[256 := mkTemplateValue [GetInfoElement example_octets; example_signed64] 16]})).
Proof.
  apply (refresh_signed64_panics write_all json_none 1000 256 [GetInfoElement example_octets]
           example_signed64 [] 16 []); [reflexivity|repeat constructor|reflexivity].
Defined.

(** Sending never deadlocks by itself.  Whatever set it is given, and whatever
    the connection answers, [SendSet] called with the template mutex free does not
    block, and the mutex is free again when it returns or panics. *)
Theorem SendSet_releases_mutex Write json_encode now set ep :
  (∀ m t, json_encode m t ≠ Block) → templateMutex ep = false →
  (SendSet Write json_encode now set ep).1 ≠ Block ∧
  templateMutex (SendSet Write json_encode now set ep).2 = false.
Proof. intros Hj Hm. by apply live_SendSet. Qed.

Lemma SendSet_releases_mutex_witness :
  (SendSet write_all json_none 1000 (NewSet false) example_known).1 ≠ Block ∧
  templateMutex (SendSet write_all json_none 1000 (NewSet false) example_known).2 = false.
Proof. apply SendSet_releases_mutex; [discriminate|reflexivity]. Defined.

(** ** JSON records *)

Lemma wf_element_value e : wf_element e → is_ok (element_value e).
Proof. intros Hwf. destruct (reference_encoder_wire e Hwf) as (v & Hv & _). by exists v. Qed.

(** The object of a JSON record is the element map of the record. *)
Lemma json_elements_map m es :
  Forall wf_element es →
  ∃ m', go_foldM json_element m (Some <$> es) = Ok m' ∧ go_foldM put_element m (Some <$> es) = Ok m'.
Proof.
  intros Hes. revert m. induction Hes as [|e es He _ IH]; intros m; [eexists; by split|].
  destruct (wf_element_value e He) as [v Hv]. cbn [fmap list_fmap go_foldM].
  cbn [json_element put_element]. rewrite Hv. apply IH.
Qed.

Section json.
Context (Write : Conn → list byte → Z * option error).
Context (json_encode : gmap string GoVal → Z → go (list byte)).
(** The connection takes every write. *)
Context (HW : ∀ c bs, Write c bs = (Z.of_nat (length bs), None)).

(** The JSON text of a record of elements [es]. *)
Definition json_text (now tid : Z) (es : list InfoElementWithValue) : go (list byte) :=
  m ← GetElementMap (data_record_of tid false es); json_encode m now.

Lemma send_json_records_ok now tid recs texts n ep :
  Forall (Forall wf_element) recs → go_mapM (json_text now tid) recs = Ok texts →
  is_Some (connToCollector ep) →
  send_json_records Write json_encode now (data_rec_enc tid <$> recs) n ep =
    (Ok (n + Z.of_nat (length (concat texts)), None), sent_all texts ep).
Proof.
  intros Hwf. revert texts n ep. induction Hwf as [|es recs Hes _ IH]; intros texts n ep Ht [c Hc].
  { injection Ht as <-. unfold sent_all. destruct ep as [[[s cl]|] ? ? ? ? ? ? ? ?]; [|done].
    simpl. by rewrite app_nil_r, Z.add_0_r. }
  cbn [go_mapM] in Ht. apply go_bind_Ok in Ht as (t & Ht & (ts & Hts & [= <-])%go_bind_Ok).
  destruct (json_elements_map ∅ es Hes) as (m & Hm1 & Hm2).
  unfold json_text, GetElementMap in Ht. cbn [data_record_of orderedElementList] in Ht.
  rewrite Hm2 in Ht. cbn [mbind go_bind] in Ht.
  cbn [fmap list_fmap send_json_records].
  change (GetOrderedElementList (data_rec_enc tid es)) with (Some <$> es). rewrite Hm1, Ht.
  erewrite M_bind_Ok by (by apply conn_write_ok). cbn beta iota.
  erewrite IH; [|done|by eexists]. cbn [concat]. rewrite length_app, Nat2Z.inj_add.
  f_equal; [f_equal; f_equal; lia|].
  unfold sent_all, sent_on. rewrite Hc. simpl. by rewrite <- app_assoc.
Qed.

End json.

(** An exporter in JSON mode sends one JSON object per record.  A data set that
    fits a known template goes out as the encodings of the records' element maps
    (the maps [GetElementMap] returns), one write per record and in order; the
    returned count is their total length, and the sequence number is not used. *)
Theorem SendSet_json_records Write json_encode now tid tmpl recs texts ep :
  (∀ c bs, Write c bs = (Z.of_nat (length bs), None)) →
  templateMutex ep = false → sendJSONRecord ep = true → is_Some (connToCollector ep) →
  templatesMap ep !! tid = Some (template_entry tmpl) → Z.of_nat (length tmpl) < 65536 →
  Forall (fits tmpl) recs → go_mapM (json_text json_encode now tid) recs = Ok texts →
  ∃ s s', build_set Data tid recs = Ok s ∧
    SendSet Write json_encode now s ep =
      (Ok ((Z.of_nat (length (concat texts)), None), s'), sent_all texts ep).
Proof.
  intros HW Hm Hj Hc Ht Hn Hfit Htx.
  assert (Hwf : Forall (Forall wf_element) recs) by (eapply Forall_impl; [|exact Hfit]; by intros ? []).
  eexists _, _. split.
  { apply build_data_set. eapply Forall_impl; [|exact Hfit]. intros es [Hes _].
    by rewrite <- (length_fmap GetInfoElement), Hes. }
  unfold SendSet. rewrite decide_False by done.
  erewrite M_bind_Ok.
  2:{ eapply check_records_data; [done|done|]. eapply Forall_impl; [|exact Hfit].
      intros es Hes. by apply fits_checked. }
  cbn beta iota. rewrite with_records_built by apply records_length_cached.
  unfold send_checked_set. rewrite (UpdateLenInHeader_ok _ tid [Byte.x00; Byte.x00]) by done.
  rewrite Hj. rewrite decide_True by done. unfold createAndSendJSONMsg.
  erewrite M_bind_Ok by (by apply send_json_records_ok). done.
Qed.

Definition example_json : ExportingProcess :=
  mkExportingProcess (Some (mkConn [] false)) 1 0 255 {[256 := template_entry example_template]}
    false false true 5000.

(** A stand-in for the JSON encoder. *)
Definition json_size (m : gmap string GoVal) (t : Z) : go (list byte) :=
  Ok [byte_of_Z (Z.of_nat (size m)); byte_of_Z t].

Lemma SendSet_json_records_witness :
  ∃ s s', build_set Data 256 example_records = Ok s ∧
    SendSet write_all json_size 7 s example_json =
      (Ok ((4, None), s'),
       sent_all [[byte_of_Z 2; byte_of_Z 7]; [byte_of_Z 2; byte_of_Z 7]] example_json).
Proof.
  apply (SendSet_json_records write_all json_size 7 256 example_template example_records
           [[byte_of_Z 2; byte_of_Z 7]; [byte_of_Z 2; byte_of_Z 7]] example_json).
  - reflexivity.
  - reflexivity.
  - reflexivity.
  - by eexists.
  - reflexivity.
  - reflexivity.
  - apply (bool_decide_unpack _). vm_compute. exact I.
  - vm_compute. reflexivity.
Defined.

(** What [InitExportingProcess] returns.  A process starts with no template, the
    sequence number 0 and the template counter 255, and with the connection check
    for tcp or the template refresh for udp, at the requested interval or the
    default.  With a TLS configuration and any other protocol it reports success
    without a connection, and every write panics. *)
Theorem InitExportingProcess_start {Certificate : Type} AppendCerts
    (X509 : slice → slice → go Certificate) dp dt dd input ep bg :
  InitExportingProcess AppendCerts X509 dp dt dd input = Ok (ep, bg) →
  templatesMap ep = ∅ ∧ ep_seqNumber ep = 0 ∧ ep_templateID ep = startTemplateID ∧
  templateMutex ep = false ∧ templateRefCh_closed ep = false ∧
  bg = (if String.eqb (CollectorProtocol input) "tcp"
        then [CheckConnLoop (if decide (CheckConnInterval input = 0)
                             then defaultCheckConnInterval else CheckConnInterval input)]
        else if String.eqb (CollectorProtocol input) "udp"
        then [TemplateRefreshLoop (if decide (TempRefTimeout input = 0)
                                   then TemplateRefreshTimeOut else TempRefTimeout input)]
        else []) ∧
  (connToCollector ep = None ↔
     is_Some (TLSClientConfig input) ∧ CollectorProtocol input ≠ "tcp" ∧
     CollectorProtocol input ≠ "udp") ∧
  (connToCollector ep = None → ∀ Write bs, (conn_write Write bs ep).1 = Panic).
Proof.
  unfold InitExportingProcess, connect.
  intros (conn & Hconn & [= <- <-])%go_bind_Ok. split_and!; try done.
  - destruct (String.eqb_spec (CollectorProtocol input) "tcp") as [->|]; [done|].
    by destruct (String.eqb_spec (CollectorProtocol input) "udp") as [->|].
  - cbn [connToCollector]. revert Hconn.
    destruct (TLSClientConfig input) as [cfg|].
    2:{ destruct (dp _ _); intros [= <-]. split; [done|]. by intros ([? ?] & _). }
    destruct (String.eqb_spec (CollectorProtocol input) "tcp") as [->|H1].
    { intros (? & _ & H)%go_bind_Ok. destruct (dt _ _ _); simplify_eq/=. split; [done|tauto]. }
    destruct (String.eqb_spec (CollectorProtocol input) "udp") as [->|H2].
    { destruct (AppendCerts _); [|done]. destruct (dd _ _ _); intros [= <-]. split; [done|tauto]. }
    intros [= <-]. split; eauto.
  - cbn [connToCollector]. intros -> Write bs. done.
Qed.

Definition example_input : ExporterInput :=
  mkExporterInput "10.0.0.1:4739" "sctp" 1 0 (Some (mkTLSClientConfig "" None None None))
    false false 0 0.

Lemma InitExportingProcess_start_witness :
  ∃ ep, InitExportingProcess (Certificate := unit) (λ _, true) (λ _ _, Ok tt) (λ _ _, Panic)
          (λ _ _ _, Panic) (λ _ _ _, Panic) example_input = Ok (ep, []) ∧
    (conn_write write_all [] ep).1 = Panic.
Proof.
  eexists. split; [reflexivity|].
  edestruct (InitExportingProcess_start (Certificate := unit) (λ _, true) (λ _ _, Ok tt)
    (λ _ _, Panic) (λ _ _ _, Panic) (λ _ _ _, Panic) example_input)
    as (_ & _ & _ & _ & _ & _ & _ & H); [reflexivity|].
  apply H. reflexivity.
Defined.
