(* ===== verification/ExporterThreads.v ===== *)
(** * The goroutines of an exporting process

    The user of src/pkg/exporter/process.go calls [SendSet]; the goroutine that
    [InitExportingProcess] starts for UDP sends all templates again at every tick of its
    ticker; both work on the same sequence number, template map and connection, and only
    the template map has a mutex.  [SendSet] is cut into its atomic steps, and the two
    goroutines are a transition system; the user's calls are proved to do what they do
    without the other goroutine. *)

From Stdlib Require Import ZArith Lia.
From Stdlib.Strings Require Import Byte.
From stdpp Require Import base gmap strings list numbers relations.
From S2P Require Import Prelude Bytes InfoElement Records Sets Wire Exporter.

#[local] Open Scope Z_scope.

(** ** The steps of a call of [SendSet] *)

(** Where a call is: in the loop over the records, with those that are done and those to
    do; about to count the records; about to build the message; about to write it; or
    returned with its result.  The records are not sent as JSON. *)
Inductive send_pc : Type :=
| Checking (now : Z) (set : ipfix_set) (done todo : list IPFIXRecord)
| Counting (now : Z) (set : ipfix_set)
| Building (now : Z) (set : ipfix_set)
| Writing (set : ipfix_set) (bytesSlice : list byte)
| SendReturned (res : sent * ipfix_set).

Definition send_start (now : Z) (set : ipfix_set) : send_pc :=
  if decide (setType set = Undefined) then SendReturned ((0, Some ErrUndefinedSetType), set)
  else Checking now set [] (records set).

Section threads.
Context (Write : Conn → list byte → Z * option error).

(** One step of [SendSet] and of the [createAndSendIPFIXMsg] it calls: a record is
    checked, which takes and releases the mutex; the sequence number is advanced; it is
    read for the message; the message is written. *)
Definition send_step (pc : send_pc) : EP send_pc :=
  match pc with
  | Checking now set done (r :: todo) =>
      res ← check_record (setType set) r;
      let '(err, r) := (res : option error * IPFIXRecord) in
      match err with
      | Some e => mret (SendReturned ((0, Some (ErrSanityCheck e)), with_records (done ++ r :: todo) set))
      | None => mret (Checking now set (done ++ [r]) todo)
      end
  | Checking now set done [] =>
      match UpdateLenInHeader (with_records done set) with
      | Ok set => mret (Counting now set)
      | _ => M_lift Panic
      end
  | Counting now set => fun ep =>
      (Ok (Building now set),
       if decide (setType set = Data)
       then with_seq (u32 (ep_seqNumber ep + GetNumberOfRecords set)) ep else ep)
  | Building now set => fun ep =>
      match CreateIPFIXMsg set (ep_obsDomainID ep) (ep_seqNumber ep) now with
      | Ok (bytesSlice, set) => (Ok (Writing set bytesSlice), ep)
      | Err e => (Ok (SendReturned ((0, Some e), set)), ep)
      | Panic => (Panic, ep)
      | Block => (Block, ep)
      end
  | Writing set bytesSlice =>
      res ← conn_write Write bytesSlice;
      let '(bytesSent, err) := (res : sent) in
      match err with
      | Some e => mret (SendReturned ((bytesSent, Some (ErrSend e)), set))
      | None =>
          if decide (bytesSent ≠ Z.of_nat (length bytesSlice))
          then mret (SendReturned ((bytesSent, Some ErrPartialSend), set))
          else mret (SendReturned ((bytesSent, None), set))
      end
  | SendReturned res => mret (SendReturned res)
  end.

(** ** The goroutines *)

(** Where the refresh goroutine is: in its [select]; sending the sets it has built, of
    which one may be in a call of [SendSet]; or about to close the connection. *)
Inductive refresh_pc : Type :=
| RefreshWaiting
| RefreshSending (sets : list ipfix_set) (call : option send_pc)
| RefreshClosing.

(** The sets to send with the times of the calls, the call that is going on, and the
    results so far; [x_log] is a history: the messages written, with [true] for the
    user's. *)
Record exporter_state : Type := mkExporterState {
  x_ep : ExportingProcess;
  x_todo : list (Z * ipfix_set);
  x_call : option send_pc;
  x_results : list (sent * ipfix_set);
  x_refresh : refresh_pc;
  x_log : list (bool * list byte);
}.

(** The messages that were written from [ep] to [ep']. *)
Definition new_messages (ep ep' : ExportingProcess) : list (list byte) :=
  match connToCollector ep, connToCollector ep' with
  | Some c, Some c' => drop (length (conn_sent c)) (conn_sent c')
  | _, _ => []
  end.

(** The critical section of [sendRefreshedTemplates]: the sets for all templates. *)
Definition build_refresh (order : list (Z * templateValue)) : EP (list ipfix_set) :=
  lock;;
  sets ← M_lift (go_mapM (λ p, refreshed_set p.1 p.2) order);
  unlock;;
  mret sets.

(** The user calls [SendSet], the call goes on, and it returns; the ticker of the refresh
    goroutine fires and the sets are built, or cannot be, and the mutex stays locked; the
    sets are sent one after the other; an error ends in the connection being closed.
    Once [templateRefCh] is closed the [select] also takes its other case, again and
    again, which changes nothing. *)
Inductive exporter_step : exporter_state → exporter_state → Prop :=
| user_calls now set todo x :
    x_call x = None → x_todo x = (now, set) :: todo →
    exporter_step x (mkExporterState (x_ep x) todo (Some (send_start now set)) (x_results x) (x_refresh x) (x_log x))
| user_runs pc pc' ep' x :
    x_call x = Some pc → send_step pc (x_ep x) = (Ok pc', ep') →
    exporter_step x (mkExporterState ep' (x_todo x) (Some pc') (x_results x) (x_refresh x)
                       (x_log x ++ (pair true <$> new_messages (x_ep x) ep')))
| user_returns res x :
    x_call x = Some (SendReturned res) →
    exporter_step x (mkExporterState (x_ep x) (x_todo x) None (x_results x ++ [res]) (x_refresh x) (x_log x))
| refresh_builds order sets ep' x :
    x_refresh x = RefreshWaiting → order ≡ₚ map_to_list (templatesMap (x_ep x)) →
    build_refresh order (x_ep x) = (Ok sets, ep') →
    exporter_step x (mkExporterState ep' (x_todo x) (x_call x) (x_results x) (RefreshSending sets None) (x_log x))
| refresh_fails order e ep' x :
    x_refresh x = RefreshWaiting → order ≡ₚ map_to_list (templatesMap (x_ep x)) →
    build_refresh order (x_ep x) = (Err e, ep') →
    exporter_step x (mkExporterState ep' (x_todo x) (x_call x) (x_results x) RefreshClosing (x_log x))
| refresh_calls now set sets x :
    x_refresh x = RefreshSending (set :: sets) None →
    exporter_step x (mkExporterState (x_ep x) (x_todo x) (x_call x) (x_results x)
                       (RefreshSending sets (Some (send_start now set))) (x_log x))
| refresh_runs sets pc pc' ep' x :
    x_refresh x = RefreshSending sets (Some pc) → send_step pc (x_ep x) = (Ok pc', ep') →
    exporter_step x (mkExporterState ep' (x_todo x) (x_call x) (x_results x)
                       (RefreshSending sets (Some pc'))
                       (x_log x ++ (pair false <$> new_messages (x_ep x) ep')))
| refresh_returns sets n err set x :
    x_refresh x = RefreshSending sets (Some (SendReturned ((n, err), set))) →
    exporter_step x (mkExporterState (x_ep x) (x_todo x) (x_call x) (x_results x)
                       (match err with Some _ => RefreshClosing | None => RefreshSending sets None end) (x_log x))
| refresh_done x :
    x_refresh x = RefreshSending [] None →
    exporter_step x (mkExporterState (x_ep x) (x_todo x) (x_call x) (x_results x) RefreshWaiting (x_log x))
| refresh_closes ep' x :
    x_refresh x = RefreshClosing → CloseConnToCollector (x_ep x) = (Ok tt, ep') →
    exporter_step x (mkExporterState ep' (x_todo x) (x_call x) (x_results x) RefreshWaiting (x_log x)).

(** The process of a user who is going to send these sets. *)
Definition exporter_start (ep : ExportingProcess) (todo : list (Z * ipfix_set)) : exporter_state :=
  mkExporterState ep todo None [] RefreshWaiting [].

(** The user's calls one after the other, without another goroutine. *)
Fixpoint send_each (json_encode : gmap string GoVal → Z → go (list byte)) (todo : list (Z * ipfix_set))
    : EP (list (sent * ipfix_set)) :=
  match todo with
  | [] => mret []
  | (now, set) :: todo =>
      res ← SendSet Write json_encode now set;
      rest ← send_each json_encode todo;
      mret (res :: rest)
  end.

(** The messages of one of the goroutines. *)
Definition written_by (user : bool) (log : list (bool * list byte)) : list (list byte) :=
  snd <$> filter (λ m, m.1 = user) log.

(** The bytes are those of a set that re-sends a template of the map. *)
Definition is_refresh (obs : Z) (m : gmap Z templateValue) (bs : list byte) : Prop :=
  ∃ now seq tid tv s s1 s2, m !! tid = Some tv ∧ refreshed_set tid tv = Ok s ∧
    UpdateLenInHeader (with_records (records s) s) = Ok s1 ∧ CreateIPFIXMsg s1 obs seq now = Ok (bs, s2).

End threads.

(** ** Lemmas: the steps make up the call *)

Section steps.
Context (Write : Conn → list byte → Z * option error).
Context (json_encode : gmap string GoVal → Z → go (list byte)).

Definition rest_of_write (bytesSlice : list byte) (set : ipfix_set) : EP (sent * ipfix_set) :=
  res ← conn_write Write bytesSlice;
  let '(bytesSent, err) := (res : sent) in
  match err with
  | Some e => mret ((bytesSent, Some (ErrSend e)), set)
  | None =>
      if decide (bytesSent ≠ Z.of_nat (length bytesSlice))
      then mret ((bytesSent, Some ErrPartialSend), set)
      else mret ((bytesSent, None), set)
  end.

(** What is left of a call. *)
Definition rest_of (pc : send_pc) : EP (sent * ipfix_set) :=
  match pc with
  | Checking now set done todo =>
      res ← check_records (setType set) todo;
      let '(err, rs) := (res : option error * list IPFIXRecord) in
      match err with
      | Some e => mret ((0, Some (ErrSanityCheck e)), with_records (done ++ rs) set)
      | None => send_checked_set Write json_encode now (with_records (done ++ rs) set)
      end
  | Counting now set => createAndSendIPFIXMsg Write now set
  | Building now set => fun ep =>
      match CreateIPFIXMsg set (ep_obsDomainID ep) (ep_seqNumber ep) now with
      | Ok (bytesSlice, set) => rest_of_write bytesSlice set ep
      | Err e => (Ok ((0, Some e), set), ep)
      | Panic => (Panic, ep)
      | Block => (Block, ep)
      end
  | Writing set bytesSlice => rest_of_write bytesSlice set
  | SendReturned res => mret res
  end.

Lemma rest_of_start now set : rest_of (send_start now set) = SendSet Write json_encode now set.
Proof. unfold send_start, SendSet. case_decide; [done|]. reflexivity. Qed.

(** A step does not change what is left to do. *)
Lemma send_step_rest pc ep pc' ep' :
  sendJSONRecord ep = false → send_step Write pc ep = (Ok pc', ep') → rest_of pc ep = rest_of pc' ep'.
Proof.
  intros Hj H. destruct pc as [now set done [|r todo]|now set|now set|set bs|res]; cbn [send_step rest_of check_records] in *.
  - rewrite (M_bind_Ok _ _ _ (None, []) ep) by done. cbv beta iota. rewrite app_nil_r. unfold send_checked_set.
    destruct (UpdateLenInHeader _); try discriminate. rewrite Hj. injection H as <- <-. done.
  - apply M_bind_inv in H as ([err r'] & ep1 & E & H).
    destruct err as [e|]; injection H as <- <-; cbn [rest_of]; unfold mbind, M_bind; rewrite E; cbv beta iota; [done|].
    destruct (check_records (setType set) todo ep1) as [[[[e|] rs]| | |] ep2]; try done;
      unfold mret, M_ret; by rewrite <- app_assoc.
  - injection H as <- <-. done.
  - destruct (CreateIPFIXMsg _ _ _ _) as [[bs set']| | |]; try discriminate; by injection H as <- <-.
  - apply M_bind_inv in H as ([n err] & ep1 & E & H). unfold rest_of_write. rewrite (M_bind_Ok _ _ _ _ _ E).
    cbv beta iota. destruct err; [|case_decide]; by injection H as <- <-.
  - by injection H as <- <-.
Qed.

End steps.

(** ** Lemmas: what a step does to the exporting process *)

(** The template map, the sequence number, and more messages on the connection. *)
Definition put (m : gmap Z templateValue) (n : Z) (new : list (list byte)) (ep : ExportingProcess)
    : ExportingProcess :=
  with_conn ((λ c, mkConn (conn_sent c ++ new) (conn_closed c)) <$> connToCollector ep)
    (with_seq n (with_templates m ep)).

Lemma put_same ep : put (templatesMap ep) (ep_seqNumber ep) [] ep = ep.
Proof. destruct ep as [[[]|]]; unfold put; cbn; by rewrite ?app_nil_r. Qed.

(** The steps of a call cannot tell [ep2] from [ep], except for the mutex. *)
Definition same_shared (ep2 ep : ExportingProcess) : Prop :=
  templatesMap ep2 = templatesMap ep ∧ ep_seqNumber ep2 = ep_seqNumber ep ∧
  ep_obsDomainID ep2 = ep_obsDomainID ep ∧ templateMutex ep2 = false ∧ is_Some (connToCollector ep2).

Lemma same_shared_put ep2 ep n : same_shared ep2 ep → n = ep_seqNumber ep →
  put (templatesMap ep) n [] ep2 = ep2.
Proof. intros (E1 & E2 & _) ->. rewrite <- E1, <- E2. apply put_same. Qed.

Section effects.
Context (Write : Conn → list byte → Z * option error).
Hypothesis HWrite : ∀ c bs, Write c bs = (Z.of_nat (length bs), None).

Lemma conn_write_all bs ep :
  is_Some (connToCollector ep) →
  conn_write Write bs ep = (Ok (Z.of_nat (length bs), None), put (templatesMap ep) (ep_seqNumber ep) [bs] ep).
Proof.
  intros [c Hc]. rewrite (conn_write_ok Write c) by done. f_equal. unfold put, sent_on. rewrite Hc. by destruct ep.
Qed.

(** Every step is of this form, and does the same to every process that looks the same. *)
Lemma send_step_effect pc ep pc' ep' :
  is_Some (connToCollector ep) → send_step Write pc ep = (Ok pc', ep') →
  ∃ m n new, ep' = put m n new ep ∧ templatesMap ep ⊆ m ∧
    ∀ ep2, same_shared ep2 ep → send_step Write pc ep2 = (Ok pc', put m n new ep2).
Proof.
  intros Hc H. destruct pc as [now set done [|r todo]|now set|now set|set bs|res]; cbn [send_step] in *.
  - destruct (UpdateLenInHeader _); try discriminate. injection H as <- <-.
    exists (templatesMap ep), (ep_seqNumber ep), []. split_and!; [by rewrite put_same|done|].
    intros ep2 H2. by rewrite (same_shared_put ep2 ep).
  - apply M_bind_inv in H as ([err r'] & ep1 & E & H).
    destruct (check_record_effect _ _ _ _ _ E) as (m & -> & Hsub & _ & Hall).
    exists m, (ep_seqNumber ep), [].
    assert (Hput : ∀ e : ExportingProcess, ep_seqNumber e = ep_seqNumber ep → is_Some (connToCollector e) →
      put m (ep_seqNumber ep) [] e = with_templates m e).
    { intros e <- [[s b] Hs]. unfold put. rewrite Hs. cbn. rewrite app_nil_r. destruct e; cbn in *. by subst. }
    split_and!; [|done|].
    + rewrite Hput by done. by destruct err; injection H as <- <-.
    + intros ep2 (T & S & _ & M & C). rewrite (M_bind_Ok _ _ _ _ _ (Hall ep2 T M)), Hput by done.
      by destruct err; injection H as <- <-.
  - injection H as <- <-. exists (templatesMap ep).
    exists (if decide (setType set = Data) then u32 (ep_seqNumber ep + GetNumberOfRecords set) else ep_seqNumber ep), [].
    assert (Hput : ∀ e n, is_Some (connToCollector e) → put (templatesMap e) n [] e = with_seq n e).
    { intros e n [[s b] Hs]. unfold put. rewrite Hs. cbn. rewrite app_nil_r. destruct e; cbn in *. by subst. }
    split_and!; [|done|].
    + rewrite Hput by done. case_decide; [done|]. by destruct ep.
    + intros ep2 (T & S & _ & M & C). rewrite <- T, Hput by done. f_equal. case_decide; [by rewrite S|].
      rewrite <- S. by destruct ep2.
  - exists (templatesMap ep), (ep_seqNumber ep), [].
    assert (E : ep' = ep) by (destruct (CreateIPFIXMsg _ _ _ _) as [[bs set']| | |]; congruence). subst ep'.
    split_and!; [by rewrite put_same|done|]. intros ep2 H2. rewrite (same_shared_put ep2 ep) by done.
    destruct H2 as (T & S & O & M & C). rewrite O, S.
    destruct (CreateIPFIXMsg _ _ _ _) as [[bs set']| | |]; congruence.
  - apply M_bind_inv in H as ([k err] & ep1 & E & H). rewrite conn_write_all in E by done.
    injection E as <- <- <-. exists (templatesMap ep), (ep_seqNumber ep), [bs]. split_and!; [|done|].
    + case_decide; by injection H as <- <-.
    + intros ep2 (T & S & O & M & C). rewrite (M_bind_Ok _ _ _ _ _ (conn_write_all bs ep2 C)). rewrite T, S.
      case_decide; by injection H as <- <-.
  - injection H as <- <-. exists (templatesMap ep), (ep_seqNumber ep), [].
    split_and!; [by rewrite put_same|done|]. intros ep2 H2. by rewrite (same_shared_put ep2 ep).
Qed.

Lemma new_messages_put m n new ep : is_Some (connToCollector ep) → new_messages ep (put m n new ep) = new.
Proof. intros [c Hc]. unfold new_messages, put. cbn. rewrite Hc. cbn. by rewrite drop_app_length. Qed.

(** *** The calls of the refresh goroutine *)

(** Where a call that re-sends a template can be: its records are those of known
    templates, and its message is the template's. *)
Definition refresh_call (obs : Z) (m : gmap Z templateValue) (pc : send_pc) : Prop :=
  ∃ tid tv s, m !! tid = Some tv ∧ refreshed_set tid tv = Ok s ∧ setType s = Template ∧
    Forall (λ r, GetTemplateID r = tid) (records s) ∧
    match pc with
    | Checking _ set done todo => set = s ∧ done ++ todo = records s
    | Counting _ set | Building _ set => UpdateLenInHeader (with_records (records s) s) = Ok set
    | Writing _ bs => is_refresh obs m bs
    | SendReturned _ => True
    end.

Lemma is_refresh_mono obs m m' bs : m ⊆ m' → is_refresh obs m bs → is_refresh obs m' bs.
Proof.
  intros Hm (now & seq & tid & tv & s & s1 & s2 & H & ?). exists now, seq, tid, tv, s, s1, s2.
  split; [by eapply lookup_weaken|done].
Qed.

Lemma refresh_call_mono obs m m' pc : m ⊆ m' → refresh_call obs m pc → refresh_call obs m' pc.
Proof.
  intros Hm (tid & tv & s & H1 & H2 & H3 & H4 & H5). exists tid, tv, s.
  split_and!; [by eapply lookup_weaken|done..|]. destruct pc; try done. by eapply is_refresh_mono.
Qed.

Lemma update_len_type s s1 : UpdateLenInHeader s = Ok s1 → setType s1 = setType s.
Proof.
  unfold UpdateLenInHeader. destruct (set_isDecoding s); [by intros [= <-]|].
  destruct (write_at _ _ _); [|done..]. by intros [= <-].
Qed.

(** It changes nothing but the connection, and writes only such messages. *)
Lemma refresh_step_effect pc ep pc' ep' :
  is_Some (connToCollector ep) → refresh_call (ep_obsDomainID ep) (templatesMap ep) pc →
  send_step Write pc ep = (Ok pc', ep') →
  ∃ new, ep' = put (templatesMap ep) (ep_seqNumber ep) new ep ∧
    Forall (is_refresh (ep_obsDomainID ep) (templatesMap ep)) new ∧
    refresh_call (ep_obsDomainID ep) (templatesMap ep) pc'.
Proof.
  intros Hc (tid & tv & s & H1 & H2 & H3 & H4 & H5) H.
  assert (Hsame : ∃ new, ep = put (templatesMap ep) (ep_seqNumber ep) new ep ∧ new = []) by (exists []; by rewrite put_same).
  destruct pc as [now set done [|r todo]|now set|now set|set bs|res]; cbn [send_step] in *.
  - destruct H5 as [-> Hd]. rewrite app_nil_r in Hd. subst done.
    destruct (UpdateLenInHeader _) as [s1| | |] eqn:E; try discriminate. injection H as <- <-.
    exists []. rewrite put_same. split_and!; [done|constructor|]. by exists tid, tv, s.
  - destruct H5 as [-> Hd]. apply M_bind_inv in H as ([err r'] & ep1 & E & H). rewrite H3 in E.
    destruct (check_record_effect _ _ _ _ _ E) as (m & -> & _ & Ht & _). destruct (Ht eq_refl) as [[= -> ->] Hm].
    injection H as <- <-. rewrite <- Hd in H4. apply list.Forall_app in H4 as [H4 [Hr H4']%list.Forall_cons].
    rewrite Hm by (rewrite Hr; eauto). exists []. rewrite put_same.
    split_and!; [by destruct ep|constructor|]. exists tid, tv, s. split_and!; try done; [|by rewrite <- app_assoc].
    rewrite <- Hd. apply list.Forall_app. split; [done|]. by constructor.
  - injection H as <- <-. rewrite decide_False by (rewrite (update_len_type _ _ H5); cbn; congruence).
    exists []. rewrite put_same. split_and!; [done|constructor|]. by exists tid, tv, s.
  - exists []. rewrite put_same. destruct (CreateIPFIXMsg _ _ _ _) as [[bs set']|e| |] eqn:E; try discriminate;
      injection H as <- <-; (split_and!; [done|constructor|]); exists tid, tv, s; split_and!; try done.
    by exists now, (ep_seqNumber ep), tid, tv, s, set, set'.
  - apply M_bind_inv in H as ([k err] & ep1 & E & H). rewrite conn_write_all in E by done.
    injection E as <- <- <-. exists [bs]. rewrite decide_False in H by (intros Hn; by apply Hn).
    injection H as <- <-. split_and!; [done|by repeat constructor|]. by exists tid, tv, s.
  - injection H as <- <-. exists []. rewrite put_same. split_and!; [done|constructor|]. by exists tid, tv, s.
Qed.

End effects.

(** ** Lemmas: the sets of a refresh *)

Lemma decoded_template_type ie e :
  DecodeAndCreateInfoElementWithValue ie None = Ok e → template_type (DataType ie) = true.
Proof. unfold DecodeAndCreateInfoElementWithValue. by destruct (DataType ie). Qed.

Lemma refreshed_set_shape tid tv s :
  refreshed_set tid tv = Ok s →
  ∃ es, s = built_set Template TemplateSetID [template_rec tid es] ∧ GetInfoElement <$> es = tv_elements tv.
Proof.
  intros H. assert (Ht : Forall (λ ie, template_type (DataType ie) = true) (tv_elements tv)).
  { unfold refreshed_set in H.
    change (PrepareSet Template tid (NewSet false)) with (Ok (built_set Template TemplateSetID [])) in H.
    cbn [mbind go_bind] in H. apply go_bind_Ok in H as (es & E & _). clear -E.
    revert es E. induction (tv_elements tv) as [|ie ies IH]; intros es E; [constructor|].
    cbn [go_mapM] in E. apply go_bind_Ok in E as (e & E1 & E). apply go_bind_Ok in E as (es' & E2 & _).
    constructor; [by eapply decoded_template_type|by eapply IH]. }
  destruct (refreshed_set_ok tid tv Ht) as (es & E & He). exists es. split; [congruence|done].
Qed.

(** A message of such a set is the template message of the template. *)
Lemma refresh_bytes obs m bs :
  is_refresh obs m bs →
  ∃ now seq tid tv, m !! tid = Some tv ∧ bs = template_message obs seq now tid (tv_elements tv).
Proof.
  intros (now & seq & tid & tv & s & s1 & s2 & Hm & Hs & HU & HC). exists now, seq, tid, tv. split; [done|].
  destruct (refreshed_set_shape _ _ _ Hs) as (es & -> & He). rewrite <- He. clear Hs He Hm tv m.
  change (with_records _ _) with (built_set Template TemplateSetID [template_rec tid es]) in HU.
  assert (Hlen : (4 * length es <= records_length [template_rec tid es])%nat).
  { pose proof (field_specifiers_length (GetInfoElement <$> es)) as H. rewrite length_fmap in H.
    unfold records_length, GetRecordLength. cbn [sum_list_with]. etransitivity; [exact H|].
    unfold template_rec, template_record_of, template_partial. simpl. lia. }
  assert (Hsz : 20 + Z.of_nat (records_length [template_rec tid es]) <= 65535).
  { rewrite (UpdateLenInHeader_ok _ TemplateSetID [Byte.x00; Byte.x00]) in HU by done. injection HU as <-.
    unfold CreateIPFIXMsg in HC. cbn [with_header set_length built_set] in HC. case_decide as Hd; [done|].
    unfold MsgHeaderLength, MaxSocketMsgSize in Hd. lia. }
  assert (Hn : Z.of_nat (length es) < 65536) by lia.
  rewrite UpdateLen_built, template_rec_length in HU by lia. rewrite template_rec_length in Hsz by done.
  assert (HU' := f_equal (from_ok s1) HU). cbn [from_ok] in HU'. subst s1.
  destruct (CreateIPFIXMsg_template tid es obs seq now Hn Hsz) as [set' E]. rewrite E in HC. congruence.
Qed.

Lemma refresh_starts obs m now tid tv s :
  m !! tid = Some tv → refreshed_set tid tv = Ok s → refresh_call obs m (send_start now s).
Proof.
  intros Hm H. exists tid, tv, s. destruct (refreshed_set_shape _ _ _ H) as (es & -> & _).
  split_and!; try done. by repeat constructor.
Qed.

Lemma build_refresh_effect order ep res ep' :
  build_refresh order ep = (res, ep') →
  match res with
  | Ok sets => ep' = ep ∧ go_mapM (λ p, refreshed_set p.1 p.2) order = Ok sets
  | Err _ => ep' = with_mutex true ep
  | _ => True
  end.
Proof.
  unfold build_refresh, lock. destruct (templateMutex ep) eqn:Hm.
  { unfold mbind, M_bind. rewrite Hm. by intros [= <- <-]. }
  rewrite (M_bind_Ok _ _ _ tt (with_mutex true ep)) by (by rewrite Hm). unfold mbind, M_bind, M_lift.
  destruct (go_mapM _ _) as [sets| | |]; intros [= <- <-]; try done. split; [by apply mutex_back|done].
Qed.

(** ** Lemmas: the two goroutines *)

Section exporter.
Context (Write : Conn → list byte → Z * option error).
Context (json_encode : gmap string GoVal → Z → go (list byte)).
Hypothesis HWrite : ∀ c bs, Write c bs = (Z.of_nat (length bs), None).
Context (ep0 : ExportingProcess) (c0 : Conn) (todo0 : list (Z * ipfix_set)).

(** The exporting process the user would have alone. *)
Definition alone (g : ExportingProcess) (x : exporter_state) : Prop :=
  same_shared g (x_ep x) ∧ sendJSONRecord g = false ∧
  connToCollector g = Some (mkConn (conn_sent c0 ++ written_by true (x_log x)) (conn_closed c0)).

(** The calls that have returned, and the one that is going on. *)
Definition in_sequence (g : ExportingProcess) (x : exporter_state) : Prop :=
  ∃ calls g1, send_each Write json_encode calls ep0 = (Ok (x_results x), g1) ∧
    match x_call x with
    | None => todo0 = calls ++ x_todo x ∧ g = g1
    | Some pc => ∃ now set, todo0 = calls ++ (now, set) :: x_todo x ∧
        SendSet Write json_encode now set g1 = rest_of Write json_encode pc g
    end.

Definition refresh_ok (x : exporter_state) : Prop :=
  let obs := ep_obsDomainID (x_ep x) in let m := templatesMap (x_ep x) in
  Forall (is_refresh obs m) (written_by false (x_log x)) ∧
  match x_refresh x with
  | RefreshSending sets call =>
      Forall (λ s, ∃ tid tv, m !! tid = Some tv ∧ refreshed_set tid tv = Ok s) sets ∧
      from_option (refresh_call obs m) True call
  | _ => True
  end.

Definition exporter_inv (x : exporter_state) : Prop :=
  is_Some (connToCollector (x_ep x)) ∧ refresh_ok x ∧ ∃ g, alone g x ∧ in_sequence g x.

Lemma written_by_app b b' log new :
  written_by b (log ++ (pair b' <$> new)) = written_by b log ++ (if decide (b' = b) then new else []).
Proof.
  unfold written_by. rewrite list.filter_app, fmap_app. f_equal. induction new as [|m new IH]; [by case_decide|].
  rewrite fmap_cons, filter_cons. cbn [fst]. case_decide; cbn [fmap list_fmap]; rewrite IH; [done|done].
Qed.

(** The refresh goroutine finds the templates of earlier states again. *)
Lemma refresh_ok_grows x ep' :
  refresh_ok x → ep_obsDomainID ep' = ep_obsDomainID (x_ep x) → templatesMap (x_ep x) ⊆ templatesMap ep' →
  ∀ todo call results log, written_by false log = written_by false (x_log x) →
    refresh_ok (mkExporterState ep' todo call results (x_refresh x) log).
Proof.
  intros [H1 H2] HO HM todo call results log Hl. split; cbn [x_ep x_log x_refresh]; rewrite HO.
  - rewrite Hl. eapply list.Forall_impl; [exact H1|]. intros bs. by apply is_refresh_mono.
  - destruct (x_refresh x) as [|sets c|]; try done. destruct H2 as [H2 H3]. split.
    + eapply list.Forall_impl; [exact H2|]. intros s (tid & tv & E & ?). exists tid, tv.
      split; [by eapply lookup_weaken|done].
    + destruct c; [|done]. by eapply refresh_call_mono.
Qed.

Lemma send_each_snoc calls now set results g1 res g :
  send_each Write json_encode calls ep0 = (Ok results, g1) → SendSet Write json_encode now set g1 = (Ok res, g) →
  send_each Write json_encode (calls ++ [(now, set)]) ep0 = (Ok (results ++ [res]), g).
Proof.
  revert results. generalize ep0. induction calls as [|[now' set'] calls IH]; intros e results H1 H2.
  - injection H1 as <- <-. cbn [app send_each]. by rewrite (M_bind_Ok _ _ _ _ _ H2).
  - cbn [app send_each] in *. apply M_bind_inv in H1 as (r & e1 & E1 & H1).
    apply M_bind_inv in H1 as (rs & e2 & E2 & H1). injection H1 as <- <-.
    rewrite (M_bind_Ok _ _ _ _ _ E1). by rewrite (M_bind_Ok _ _ _ _ _ (IH _ _ E2 H2)).
Qed.

(** A step of the user's call. *)
Lemma user_step_inv pc pc' ep' x :
  x_call x = Some pc → send_step Write pc (x_ep x) = (Ok pc', ep') → exporter_inv x →
  exporter_inv (mkExporterState ep' (x_todo x) (Some pc') (x_results x) (x_refresh x)
                  (x_log x ++ (pair true <$> new_messages (x_ep x) ep'))).
Proof.
  intros Hpc Hst (Hc & Hr & g & (Hg & Hj & Hgc) & calls & g1 & Hrun & Hcall). rewrite Hpc in Hcall.
  destruct (send_step_effect Write HWrite pc (x_ep x) pc' ep' Hc Hst) as (m & n & new & -> & Hsub & Hall).
  rewrite new_messages_put by done. split; [by apply fmap_is_Some|]. split.
  { apply refresh_ok_grows; [done|done|done|]. rewrite written_by_app. by rewrite app_nil_r. }
  exists (put m n new g). pose proof (Hall g Hg) as Hgs. split; [split_and!|].
  - destruct Hg as (_ & _ & O & M & C). split_and!; try done. by apply fmap_is_Some.
  - done.
  - cbn [x_log put with_conn connToCollector]. rewrite written_by_app. unfold put. cbn. rewrite Hgc. cbn.
    by rewrite <- app_assoc.
  - exists calls, g1. split; [done|]. cbn [x_call]. destruct Hcall as (now & set & Ht & Hs). exists now, set.
    split; [done|]. rewrite Hs. by apply send_step_rest.
Qed.

(** A step of the refresh goroutine: the user's view stays as it is. *)
Lemma refresh_inv ep' refresh log x :
  exporter_inv x → is_Some (connToCollector ep') →
  templatesMap ep' = templatesMap (x_ep x) → ep_seqNumber ep' = ep_seqNumber (x_ep x) →
  ep_obsDomainID ep' = ep_obsDomainID (x_ep x) → written_by true log = written_by true (x_log x) →
  refresh_ok (mkExporterState ep' (x_todo x) (x_call x) (x_results x) refresh log) →
  exporter_inv (mkExporterState ep' (x_todo x) (x_call x) (x_results x) refresh log).
Proof.
  intros (Hc & _ & g & ((T & S & O & M & C) & Hj & Hgc) & Hs) Hc' ET ES EO Hlog Hr.
  split; [done|]. split; [done|]. exists g. split; [|exact Hs]. split; [by split_and!; cbn [x_ep]; try congruence|].
  split; [done|]. cbn [x_log]. by rewrite Hlog.
Qed.

Lemma exporter_inv_step x y : exporter_step Write x y → exporter_inv x → exporter_inv y.
Proof.
  intros Hst HI. pose proof HI as (Hc & Hr & g & Hg & Hs).
  destruct Hst as [now set todo x Hcall Htodo|pc pc' ep' x Hpc Hst|res x Hpc|order sets ep' x Hw Ho Hb
    |order e ep' x Hw Ho Hb|now set sets x Hw|sets pc pc' ep' x Hw Hst|sets n err set x Hw|x Hw|ep' x Hw Hcl].
  - split; [done|]. split; [exact Hr|]. exists g. split; [exact Hg|].
    destruct Hs as (calls & g1 & Hrun & Hcl). rewrite Hcall in Hcl. destruct Hcl as [Ht ->].
    exists calls, g1. split; [done|]. exists now, set. rewrite rest_of_start. split; [|done]. by rewrite Ht, Htodo.
  - by apply (user_step_inv pc pc' ep' x).
  - split; [done|]. split; [exact Hr|]. exists g. split; [exact Hg|].
    destruct Hs as (calls & g1 & Hrun & Hcl). rewrite Hpc in Hcl. destruct Hcl as (now & set & Ht & Hs).
    exists (calls ++ [(now, set)]), g. split; [by eapply send_each_snoc|]. cbn [x_call x_todo].
    by rewrite <- app_assoc.
  - apply build_refresh_effect in Hb as [-> Hsets]. apply refresh_inv; try done. destruct Hr as [H1 _]. split; [done|].
    cbn [x_refresh x_ep]. split; [|done]. apply list.Forall_forall. intros s Hin.
    apply go_mapM_Ok in Hsets. apply list_elem_of_lookup in Hin as [i Hi].
    destruct (Forall2_lookup_r _ _ _ _ _ Hsets Hi) as ([tid tv] & Hp%list_elem_of_lookup_2 & Hs'). exists tid, tv. split; [|done].
    apply elem_of_map_to_list. by rewrite <- Ho.
  - apply build_refresh_effect in Hb as ->. apply refresh_inv; try done. destruct Hr as [H1 _]. by split.
  - apply refresh_inv; try done. destruct Hr as [H1 H2]. rewrite Hw in H2. destruct H2 as [H2 _]. split; [done|].
    apply list.Forall_cons in H2 as [(tid & tv & E1 & E2) H2]. split; [done|]. by eapply refresh_starts.
  - destruct Hr as [H1 H2]. rewrite Hw in H2. destruct H2 as [H2 H3].
    destruct (refresh_step_effect Write HWrite pc (x_ep x) pc' ep' Hc H3 Hst) as (new & -> & Hn & H3').
    rewrite new_messages_put by done. apply refresh_inv; try done.
    + by apply fmap_is_Some.
    + rewrite written_by_app. by rewrite app_nil_r.
    + split; [|by split]. cbn [x_log x_ep]. rewrite written_by_app. apply list.Forall_app. by split.
  - apply refresh_inv; try done. destruct Hr as [H1 H2]. rewrite Hw in H2. split; [done|]. destruct err; [done|].
    split; [apply H2|done].
  - apply refresh_inv; try done. destruct Hr as [H1 H2]. by split.
  - unfold CloseConnToCollector in Hcl. destruct Hr as [H1 H2].
    destruct (isChanClosed (templateRefCh_closed (x_ep x))); cbn in Hcl;
      (destruct (connToCollector (x_ep x)) as [c|] eqn:Ec; [|done]); injection Hcl as <-;
      by apply refresh_inv.
Qed.

Lemma exporter_inv_start :
  connToCollector ep0 = Some c0 → templateMutex ep0 = false → sendJSONRecord ep0 = false →
  exporter_inv (exporter_start ep0 todo0).
Proof.
  intros Hc Hm Hj. split; [eauto|]. split; [by split; [constructor|]|]. exists ep0. split.
  - split_and!; [split_and!; eauto|done|]. cbn. rewrite app_nil_r. by destruct c0.
  - exists [], ep0. by split_and!.
Qed.

End exporter.

(** ** A scheduler *)

Section scheduler.
Context (Write : Conn → list byte → Z * option error).

(** The next step of the user's goroutine. *)
Definition user_next (x : exporter_state) : option exporter_state :=
  match x_call x, x_todo x with
  | None, [] => None
  | None, (now, set) :: todo =>
      Some (mkExporterState (x_ep x) todo (Some (send_start now set)) (x_results x) (x_refresh x) (x_log x))
  | Some (SendReturned res), _ =>
      Some (mkExporterState (x_ep x) (x_todo x) None (x_results x ++ [res]) (x_refresh x) (x_log x))
  | Some pc, _ =>
      match send_step Write pc (x_ep x) with
      | (Ok pc', ep') =>
          Some (mkExporterState ep' (x_todo x) (Some pc') (x_results x) (x_refresh x)
                  (x_log x ++ (pair true <$> new_messages (x_ep x) ep')))
      | _ => None
      end
  end.

(** The next step of the refresh goroutine, which calls [SendSet] at this time. *)
Definition refresh_next (now : Z) (x : exporter_state) : option exporter_state :=
  let goes ep refresh log := Some (mkExporterState ep (x_todo x) (x_call x) (x_results x) refresh log) in
  match x_refresh x with
  | RefreshWaiting =>
      match build_refresh (map_to_list (templatesMap (x_ep x))) (x_ep x) with
      | (Ok sets, ep') => goes ep' (RefreshSending sets None) (x_log x)
      | (Err _, ep') => goes ep' RefreshClosing (x_log x)
      | _ => None
      end
  | RefreshSending [] None => goes (x_ep x) RefreshWaiting (x_log x)
  | RefreshSending (set :: sets) None => goes (x_ep x) (RefreshSending sets (Some (send_start now set))) (x_log x)
  | RefreshSending sets (Some (SendReturned ((_, err), _))) =>
      goes (x_ep x) (match err with Some _ => RefreshClosing | None => RefreshSending sets None end) (x_log x)
  | RefreshSending sets (Some pc) =>
      match send_step Write pc (x_ep x) with
      | (Ok pc', ep') => goes ep' (RefreshSending sets (Some pc'))
                           (x_log x ++ (pair false <$> new_messages (x_ep x) ep'))
      | _ => None
      end
  | RefreshClosing =>
      match CloseConnToCollector (x_ep x) with
      | (Ok _, ep') => goes ep' RefreshWaiting (x_log x)
      | _ => None
      end
  end.

(** One of the two goroutines takes a step, [true] for the user's. *)
Definition exporter_next (now : Z) (user : bool) (x : exporter_state) : option exporter_state :=
  if user then user_next x else refresh_next now x.

Fixpoint exporter_run (now : Z) (schedule : list bool) (x : exporter_state) : option exporter_state :=
  match schedule with
  | [] => Some x
  | user :: schedule => y ← exporter_next now user x; exporter_run now schedule y
  end.

Lemma exporter_next_step now user x y : exporter_next now user x = Some y → exporter_step Write x y.
Proof.
  unfold exporter_next. destruct user.
  - unfold user_next. destruct (x_call x) as [pc|] eqn:Hc.
    + intros H. assert (Hpc : (∃ res, pc = SendReturned res) ∨ ∃ pc' ep', send_step Write pc (x_ep x) = (Ok pc', ep') ∧
        y = mkExporterState ep' (x_todo x) (Some pc') (x_results x) (x_refresh x)
              (x_log x ++ (pair true <$> new_messages (x_ep x) ep'))).
      { destruct pc; eauto; right; destruct (send_step Write _ _) as [[pc'| | |] ep']; try discriminate; injection H as <-; eauto. }
      destruct Hpc as [[res ->]|(pc' & ep' & E & ->)]; [injection H as <-; by apply user_returns|by eapply user_runs].
    + destruct (x_todo x) as [|[t set] todo] eqn:Ht; [done|]. intros [= <-]. by apply user_calls.
  - unfold refresh_next. destruct (x_refresh x) as [|sets [pc|]|] eqn:Hr.
    + destruct (build_refresh _ _) as [[sets|e| |] ep'] eqn:E; intros H; try discriminate; injection H as <-;
        [by eapply refresh_builds|by eapply refresh_fails].
    + intros H. assert (Hpc : (∃ n err set, pc = SendReturned ((n, err), set)) ∨
        ∃ pc' ep', send_step Write pc (x_ep x) = (Ok pc', ep') ∧
        y = mkExporterState ep' (x_todo x) (x_call x) (x_results x) (RefreshSending sets (Some pc'))
              (x_log x ++ (pair false <$> new_messages (x_ep x) ep'))).
      { destruct pc as [| | | |[[n err] set]]; [..|left; eauto]; right;
          (destruct sets; destruct (send_step Write _ _) as [[pc'| | |] ep']; try discriminate; injection H as <-; eauto). }
      destruct Hpc as [(n & err & set & ->)|(pc' & ep' & E & ->)]; [|by eapply refresh_runs].
      destruct sets; injection H as <-; by eapply refresh_returns.
    + destruct sets as [|set sets]; intros [= <-]; [by apply refresh_done|by apply refresh_calls].
    + destruct (CloseConnToCollector _) as [[[]| | |] ep'] eqn:E; try discriminate. intros [= <-]. by apply refresh_closes.
Qed.

Lemma exporter_run_steps now schedule x y : exporter_run now schedule x = Some y → rtc (exporter_step Write) x y.
Proof.
  revert x. induction schedule as [|user schedule IH]; intros x H; [injection H as <-; apply rtc_refl|].
  apply bind_Some in H as (z & Hz & H). eapply rtc_l; [by eapply exporter_next_step|by apply IH].
Qed.

End scheduler.

(** ** Properties *)


(** The user sends a template and then a data set; when its records are counted and its
    message is not yet built, the refresh goroutine sends the template again. *)
Definition example_todo : list (Z * ipfix_set) :=
  [(1000, built_set Template TemplateSetID
            [template_rec 256 (ResetValue <$> [example_octets; example_pod])]);
   (1001, built_set Data 256 (data_rec 256 <$> example_records))].

Definition example_x : exporter_state :=
  let start := exporter_start (example_ep ∅) example_todo in
  default start (exporter_run write_all 1002 (replicate 12 true ++ replicate 9 false ++ replicate 3 true) start).

