(* ===== verification/Collector.v ===== *)
(** * The collecting process: templates and packet decoding

    src/pkg/collector/process.go. *)

From Stdlib Require Import ZArith Lia Ascii.
From Stdlib.Strings Require Import Byte.
From stdpp Require Import base gmap strings list numbers.
From S2P Require Import Prelude Bytes InfoElement Records Sets Wire Registry.

#[local] Open Scope Z_scope.

(** ** State *)

(** The expiry goroutine [addTemplate] starts for a template received over UDP:
    it deletes the template when its deadline (in seconds) has come. *)
Record timer : Type := mkTimer {
  deadline : Z;
  timer_obsDomainID : Z;
  timer_templateID : Z;
}.

#[global] Instance timer_eq_dec : EqDecision timer.
Proof. solve_decision. Defined.

(** The handler of a client; a channel is named by the order in which it was made. *)
Record clientHandler : Type := mkClientHandler { packetChan : nat }.

#[global] Instance clientHandler_eq_dec : EqDecision clientHandler.
Proof. solve_decision. Defined.

(** [messageChan] is the list of the messages sent on the channel, oldest first, and
    [messageChan_closed] and [stopChan_closed] say whether the channels were closed.
    [numChans] counts the packet channels made so far. *)
Record CollectingProcess : Type := mkCollectingProcess {
  cp_templatesMap : gmap Z (gmap Z (list InfoElement));
  templateTTL : Z;
  address : string;
  protocol : string;
  netAddress : option string;
  maxBufferSize : Z;
  stopChan_closed : bool;
  messageChan : list Message;
  messageChan_closed : bool;
  clients : gmap string clientHandler;
  numChans : nat;
  isEncrypted : bool;
  numExtraElements : nat;
  caCert : slice;
  serverCert : slice;
  serverKey : slice;
  numOfRecordsReceived : Z;
  timers : list timer;
}.

Abbreviation CP := (M CollectingProcess).

Record CollectorInput : Type := mkCollectorInput {
  in_IsIPv6 : bool;
  in_IsEncrypted : bool;
  in_Address : string;
  in_Protocol : string;
  in_MaxBufferSize : Z;
  in_TemplateTTL : Z;
  in_CACert : slice;
  in_ServerCert : slice;
  in_ServerKey : slice;
  in_NumExtraElements : nat;
}.

Definition InitCollectingProcess (input : CollectorInput) : CollectingProcess :=
  {| cp_templatesMap := ∅; templateTTL := in_TemplateTTL input; address := in_Address input;
     protocol := in_Protocol input; netAddress := None; maxBufferSize := in_MaxBufferSize input;
     stopChan_closed := false; messageChan := []; messageChan_closed := false;
     clients := ∅; numChans := 0; isEncrypted := in_IsEncrypted input;
     numExtraElements := in_NumExtraElements input; caCert := in_CACert input;
     serverCert := in_ServerCert input; serverKey := in_ServerKey input;
     numOfRecordsReceived := 0; timers := [] |}.

Definition with_cp_templates (m : gmap Z (gmap Z (list InfoElement))) (ttl : Z) (ts : list timer)
    (cp : CollectingProcess) : CollectingProcess :=
  {| cp_templatesMap := m; templateTTL := ttl; address := address cp; protocol := protocol cp;
     netAddress := netAddress cp; maxBufferSize := maxBufferSize cp;
     stopChan_closed := stopChan_closed cp; messageChan := messageChan cp;
     messageChan_closed := messageChan_closed cp; clients := clients cp; numChans := numChans cp;
     isEncrypted := isEncrypted cp; numExtraElements := numExtraElements cp; caCert := caCert cp;
     serverCert := serverCert cp; serverKey := serverKey cp;
     numOfRecordsReceived := numOfRecordsReceived cp; timers := ts |}.

Definition with_messages (ms : list Message) (closed : bool) (n : Z) (cp : CollectingProcess)
    : CollectingProcess :=
  {| cp_templatesMap := cp_templatesMap cp; templateTTL := templateTTL cp; address := address cp;
     protocol := protocol cp; netAddress := netAddress cp; maxBufferSize := maxBufferSize cp;
     stopChan_closed := stopChan_closed cp; messageChan := ms; messageChan_closed := closed;
     clients := clients cp; numChans := numChans cp; isEncrypted := isEncrypted cp;
     numExtraElements := numExtraElements cp; caCert := caCert cp; serverCert := serverCert cp;
     serverKey := serverKey cp; numOfRecordsReceived := n; timers := timers cp |}.

(** What the servers of Transport.v change. *)
Definition with_server (net : option string) (stopped : bool) (cs : gmap string clientHandler)
    (n : nat) (cp : CollectingProcess) : CollectingProcess :=
  {| cp_templatesMap := cp_templatesMap cp; templateTTL := templateTTL cp; address := address cp;
     protocol := protocol cp; netAddress := net; maxBufferSize := maxBufferSize cp;
     stopChan_closed := stopped; messageChan := messageChan cp;
     messageChan_closed := messageChan_closed cp;
     clients := cs; numChans := n; isEncrypted := isEncrypted cp;
     numExtraElements := numExtraElements cp; caCert := caCert cp; serverCert := serverCert cp;
     serverKey := serverKey cp; numOfRecordsReceived := numOfRecordsReceived cp;
     timers := timers cp |}.

Definition incrementNumRecordsReceived (cp : CollectingProcess) : CollectingProcess :=
  with_messages (messageChan cp) (messageChan_closed cp) (u64 (numOfRecordsReceived cp + 1)) cp.

(** [cp.messageChan <- message; cp.incrementNumRecordsReceived()] on an open channel. *)
Definition deliver (message : Message) (cp : CollectingProcess) : CollectingProcess :=
  incrementNumRecordsReceived
    (with_messages (messageChan cp ++ [message]) (messageChan_closed cp) (numOfRecordsReceived cp) cp).

(** Closing a channel twice panics. *)
Definition CloseMsgChan : CP unit := fun cp =>
  if messageChan_closed cp then (Panic, cp)
  else (Ok tt, with_messages (messageChan cp) true (numOfRecordsReceived cp) cp).

(** [GetNumRecordsReceived] converts the [uint64] counter to [int64]. *)
Definition GetNumRecordsReceived (cp : CollectingProcess) : Z := i64 (numOfRecordsReceived cp).

(** ** Addresses and clients *)

Definition GetAddress (cp : CollectingProcess) : option string := netAddress cp.

Definition updateAddress (addr : string) (cp : CollectingProcess) : CollectingProcess :=
  with_server (Some addr) (stopChan_closed cp) (clients cp) (numChans cp) cp.

(** [int64(len(cp.clients))]. *)
Definition GetNumConnToCollector (cp : CollectingProcess) : Z := i64 (Z.of_nat (size (clients cp))).

(** A new handler has a new channel. *)
Definition createClient : CP clientHandler := fun cp =>
  (Ok (mkClientHandler (numChans cp)),
   with_server (netAddress cp) (stopChan_closed cp) (clients cp) (S (numChans cp)) cp).

Definition addClient (addr : string) (client : clientHandler) (cp : CollectingProcess)
    : CollectingProcess :=
  with_server (netAddress cp) (stopChan_closed cp) (<[addr := client]> (clients cp)) (numChans cp) cp.

Definition deleteClient (name : string) (cp : CollectingProcess) : CollectingProcess :=
  with_server (netAddress cp) (stopChan_closed cp) (delete name (clients cp)) (numChans cp) cp.

(** [close(cp.stopChan)]; closing it again panics. *)
Definition close_stopChan : CP unit := fun cp =>
  if stopChan_closed cp then (Panic, cp)
  else (Ok tt, with_server (netAddress cp) true (clients cp) (numChans cp) cp).

(** ** Templates *)

(** A missing inner map reads as an empty one. *)
Definition domain_templates (cp : CollectingProcess) (obsDomainID : Z)
    : gmap Z (list InfoElement) :=
  default ∅ (cp_templatesMap cp !! obsDomainID).

(** [now] is the time in seconds at which the expiry goroutine starts. *)
Definition addTemplate (now obsDomainID templateID : Z)
    (elementsWithValue : list InfoElementWithValue) (cp : CollectingProcess)
    : CollectingProcess :=
  let elements := GetInfoElement <$> elementsWithValue in
  let m := <[obsDomainID := <[templateID := elements]> (domain_templates cp obsDomainID)]>
             (cp_templatesMap cp) in
  if String.eqb (protocol cp) "tcp" then with_cp_templates m (templateTTL cp) (timers cp) cp
  else
    let ttl := if decide (templateTTL cp = 0) then TemplateTTL else templateTTL cp in
    with_cp_templates m ttl (timers cp ++ [mkTimer (now + ttl) obsDomainID templateID]) cp.

Definition getTemplate (obsDomainID templateID : Z) (cp : CollectingProcess)
    : go (list InfoElement) :=
  of_option (Err (ErrCollectorTemplate templateID obsDomainID))
    (domain_templates cp obsDomainID !! templateID).

(** Deleting from a missing inner map does nothing. *)
Definition delete_template_from (obsDomainID templateID : Z)
    (m : gmap Z (gmap Z (list InfoElement))) : gmap Z (gmap Z (list InfoElement)) :=
  match m !! obsDomainID with
  | Some inner => <[obsDomainID := delete templateID inner]> m
  | None => m
  end.

Definition CollectorDeleteTemplate (obsDomainID templateID : Z) (cp : CollectingProcess)
    : CollectingProcess :=
  with_cp_templates (delete_template_from obsDomainID templateID (cp_templatesMap cp))
    (templateTTL cp) (timers cp) cp.

(** The expiry goroutines whose ticker has fired by [now] delete their template
    and return. *)
Definition fire_timers (now : Z) (cp : CollectingProcess) : CollectingProcess :=
  let due := filter (λ t, deadline t ≤ now) (timers cp) in
  let rest := filter (λ t, now < deadline t) (timers cp) in
  let m := foldl (λ m t, delete_template_from (timer_obsDomainID t) (timer_templateID t) m)
             (cp_templatesMap cp) due in
  with_cp_templates m (templateTTL cp) rest cp.

(** ** Decoding *)

(** [util.Decode(dataBuffer, binary.BigEndian, &lengthTwoBytes)] with its error
    ignored: the variable keeps its zero value. *)
Definition decode_len : M (list byte) nat := fun buf =>
  match Decode [2%nat] buf with
  | (Ok [l], buf) => (Ok (Z.to_nat l), buf)
  | (_, buf) => (Ok 0%nat, buf)
  end.

Definition getFieldLength : M (list byte) nat :=
  oneByte ← buf_ReadByte;
  if decide (oneByte < 255) then mret (Z.to_nat oneByte) else decode_len.

Section Collector.
(** The global registry. *)
Context (reg : Registry).

(** One field specifier of a template record.  The field length is read and not
    used. *)
Definition decode_field : M (list byte) InfoElementWithValue :=
  elementid ← read_full 2;
  _ ← read_full 2;
  match (elementid : list byte) with
  | b0 :: bs =>
      element ←
        (if decide (Z.shiftr (byte_to_Z b0) 7 = 1) then
           ent ← Decode [4%nat];
           match (ent : list Z) with
           | enterpriseID :: _ =>
               let b0 := byte_of_Z (Z.lxor (byte_to_Z b0) 128) in
               M_lift (GetInfoElementFromID (be_val (b0 :: bs)) enterpriseID reg)
           | [] => M_lift Panic
           end
         else M_lift (GetInfoElementFromID (be_val (b0 :: bs)) IANAEnterpriseID reg));
      M_lift (DecodeAndCreateInfoElementWithValue element None)
  | [] => M_lift Panic
  end.

Fixpoint decode_fields (fieldCount : nat) : M (list byte) (list InfoElementWithValue) :=
  match fieldCount with
  | O => mret []
  | S n => e ← decode_field; es ← decode_fields n; mret (e :: es)
  end.

(** The template id and the elements of the first template record of the set. *)
Definition decode_template_record : M (list byte) (Z * list InfoElementWithValue) :=
  hdr ← Decode [2%nat; 2%nat];
  match (hdr : list Z) with
  | [templateID; fieldCount] =>
      elements ← decode_fields (Z.to_nat fieldCount);
      mret (templateID, elements)
  | _ => M_lift Panic
  end.

Definition decodeTemplateSet (now : Z) (templateBuffer : list byte) (obsDomainID : Z)
    : CP ipfix_set := fun cp =>
  match (decode_template_record templateBuffer).1 with
  | Ok (templateID, elementsWithValue) =>
      match (templateSet ← PrepareSet Template templateID (NewSet true);
             AddRecord elementsWithValue templateID templateSet) with
      | Ok templateSet =>
          (Ok templateSet, addTemplate now obsDomainID templateID elementsWithValue cp)
      | Err e => (Err e, cp)
      | Panic => (Panic, cp)
      | Block => (Block, cp)
      end
  | Err e => (Err e, cp)
  | Panic => (Panic, cp)
  | Block => (Block, cp)
  end.

End Collector.

(** One field of a data record. *)
Definition decode_value (element : InfoElement) : M (list byte) InfoElementWithValue :=
  length ← (if decide (Len element = VariableLength) then getFieldLength
            else mret (Z.to_nat (Len element)));
  bs ← buf_Next length;
  M_lift (DecodeAndCreateInfoElementWithValue element (Some (bs : list byte))).

Fixpoint decode_values (template : list InfoElement) : M (list byte) (list InfoElementWithValue) :=
  match template with
  | [] => mret []
  | ie :: template => e ← decode_value ie; es ← decode_values template; mret (e :: es)
  end.

(** The loop [for dataBuffer.Len() > 0] of [decodeDataSet].  Every iteration that
    goes on takes a byte, so a loop that is still running after as many iterations
    as there are bytes never stops: running out of fuel is [Block]. *)
Fixpoint decode_records (fuel : nat) (template : list InfoElement) (numExtra : nat)
    (templateID : Z) (dataSet : ipfix_set) (dataBuffer : list byte) : go ipfix_set :=
  match dataBuffer with
  | [] => Ok dataSet
  | _ =>
      match fuel with
      | O => Block
      | S fuel =>
          match decode_values template dataBuffer with
          | (Ok elements, dataBuffer) =>
              dataSet ← AddRecordWithExtraElements elements numExtra templateID dataSet;
              decode_records fuel template numExtra templateID dataSet dataBuffer
          | (Err e, _) => Err e
          | (Panic, _) => Panic
          | (Block, _) => Block
          end
      end
  end.

Definition decodeDataSet (dataBuffer : list byte) (obsDomainID templateID : Z)
    (cp : CollectingProcess) : go ipfix_set :=
  template ← getTemplate obsDomainID templateID cp;
  dataSet ← PrepareSet Data templateID (NewSet true);
  decode_records (length dataBuffer) template (numExtraElements cp) templateID dataSet dataBuffer.

(** ** The export address *)

(** [strings.LastIndex(s, ":")]. *)
Fixpoint LastIndex (c : ascii) (s : string) : option nat :=
  match s with
  | EmptyString => None
  | String a s =>
      match LastIndex c s with
      | Some i => Some (S i)
      | None => if decide (a = c) then Some 0%nat else None
      end
  end.

(** [strings.Replace(s, c, "", -1)]. *)
Fixpoint remove_char (c : ascii) (s : string) : string :=
  match s with
  | EmptyString => EmptyString
  | String a s => if decide (a = c) then remove_char c s else String a (remove_char c s)
  end.

(** The host part of the address; slicing with index -1 panics. *)
Definition export_host (exportAddress : string) : go string :=
  match LastIndex ":" exportAddress with
  | None => Panic
  | Some i => Ok (remove_char "]" (remove_char "[" (String.substring 0 i exportAddress)))
  end.

(** ** decodePacket *)

Section Packet.
Context (reg : Registry).

Definition decode_message (version length exportTime sequencNum obsDomainID : Z)
    (exportAddress : string) : go Message :=
  message ← SetVersion version (NewMessage true);
  message ← SetMessageLen length message;
  message ← SetExportTime exportTime message;
  message ← SetSequenceNum sequencNum message;
  message ← SetObsDomainID obsDomainID message;
  host ← export_host exportAddress;
  Ok (SetExportAddress host message).

Definition decode_set (now setID obsDomainID : Z) (packetBuffer : list byte) : CP ipfix_set :=
  fun cp =>
  if decide (setID = TemplateSetID) then decodeTemplateSet reg now packetBuffer obsDomainID cp
  else (decodeDataSet packetBuffer obsDomainID setID cp, cp).

Definition decodePacket (now : Z) (packet : list byte) (exportAddress : string) : CP Message :=
  fun cp =>
  match Decode [2; 2; 4; 4; 4; 2; 2]%nat packet with
  | (Ok [version; length; exportTime; sequencNum; obsDomainID; setID; setLen], packetBuffer) =>
      if decide (version ≠ 10) then (Err (ErrVersion version), cp) else
      match decode_message version length exportTime sequencNum obsDomainID exportAddress with
      | Ok message =>
          match decode_set now setID obsDomainID packetBuffer cp with
          | (Ok set, cp) =>
              let message := AddSet set message in
              if messageChan_closed cp then (Panic, cp) else (Ok message, deliver message cp)
          | (Err e, cp) => (Err (ErrDecodeMsg e), cp)
          | (Panic, cp) => (Panic, cp)
          | (Block, cp) => (Block, cp)
          end
      | Err e => (Err e, cp)
      | Panic => (Panic, cp)
      | Block => (Block, cp)
      end
  | (Ok _, _) => (Panic, cp)
  | (Err e, _) => (Err e, cp)
  | (Panic, _) => (Panic, cp)
  | (Block, _) => (Block, cp)
  end.

End Packet.

(** ** Lemmas: reading a field *)

Lemma getFieldLength_prefix n rest :
  0 <= n <= 65535 → getFieldLength (var_prefix n ++ rest) = (Ok (Z.to_nat n), rest).
Proof.
  intros Hn. unfold getFieldLength, var_prefix.
  case_decide as Hs; cbn [app]; erewrite M_bind_Ok by done; rewrite byte_to_of_Z.
  - rewrite Z.mod_small by lia. by rewrite decide_True.
  - rewrite decide_False by done. unfold decode_len.
    pose proof (Decode_put [(2%nat, n)] rest) as H. cbn [fmap list_fmap fst snd mbind list_bind] in H.
    rewrite app_nil_r in H. rewrite H; [done|]. constructor; [|done]. unfold in_u. simpl. lia.
Qed.

Lemma decode_value_wire e rest :
  wf_element e → decode_value (GetInfoElement e) (wire e ++ rest) = (Ok (canonical e), rest).
Proof.
  intros Hwf. pose proof (decode_payload e Hwf) as Hd. pose proof (length_wire e Hwf) as Hl.
  unfold decode_value.
  destruct (decide (Len (GetInfoElement e) = VariableLength)) as [HV|HV].
  - destruct (wf_variable e Hwf HV) as (ie & v & -> & Hv).
    cbn [wire GetInfoElement payload] in *.
    rewrite <- app_assoc, (M_bind_Ok _ _ _ (length (string_bytes v)) (string_bytes v ++ rest)).
    + erewrite M_bind_Ok by done. unfold M_lift.
      by rewrite take_app_exact, drop_app_exact, Hd.
    + rewrite getFieldLength_prefix; [by rewrite Nat2Z.id|]. rewrite length_string_bytes. lia.
  - erewrite M_bind_Ok by done. erewrite M_bind_Ok by done. unfold M_lift.
    destruct (wf_fixed e Hwf HV) as [Hp <-]. rewrite <- Hl.
    rewrite take_app_length, drop_app_length, Hp, Hd. done.
Qed.

Lemma decode_values_wires es rest :
  Forall wf_element es →
  decode_values (GetInfoElement <$> es) (wires es ++ rest) = (Ok (canonical <$> es), rest).
Proof.
  induction 1 as [|e es He _ IH]; [done|].
  cbn [fmap list_fmap decode_values]. unfold wires. cbn [flat_map]. rewrite <- app_assoc.
  erewrite M_bind_Ok by (by apply decode_value_wire). by erewrite M_bind_Ok by apply IH.
Qed.

(** ** Lemmas: reading a template *)

Lemma lxor_128 x : 0 <= x < 128 → Z.lxor (x + 128) 128 = x ∧ Z.shiftr (x + 128) 7 = 1.
Proof.
  intros Hx.
  assert (H : Forall (λ n, Z.lxor (Z.of_nat n + 128) 128 = Z.of_nat n ∧
                           Z.shiftr (Z.of_nat n + 128) 7 = 1) (seq 0 128)).
  { apply (bool_decide_unpack _). vm_compute. exact I. }
  rewrite Forall_forall in H. specialize (H (Z.to_nat x)).
  rewrite Z2Nat.id in H by lia. apply H. apply in_seq. lia.
Qed.

(** The first byte of a plain element id has its top bit clear; with the
    enterprise bit set it is recovered by clearing the bit. *)
Lemma element_id_bytes id :
  0 <= id < 32768 →
  let b0 := byte_of_Z (Z.shiftr id 8) in
  put_be 2 id = [b0; byte_of_Z id] ∧ Z.shiftr (byte_to_Z b0) 7 ≠ 1.
Proof.
  intros Hid b0. split; [unfold b0; cbn [put_be]; by rewrite Z.shiftr_0_r|].
  unfold b0. rewrite byte_to_of_Z. change 256 with (2 ^ 8).
  rewrite !Z.shiftr_div_pow2 by lia. change (2 ^ 8) with 256. change (2 ^ 7) with 128.
  assert (0 <= id / 256 < 128) by (split; [apply Z.div_pos; lia|apply Z.div_lt_upper_bound; lia]).
  rewrite (Z.mod_small (id / 256)) by lia. rewrite Z.div_small by lia. lia.
Qed.

Lemma enterprise_id_bytes id :
  0 <= id < 32768 →
  ∃ b0, put_be 2 (Z.lor id 32768) = [b0; byte_of_Z id] ∧ Z.shiftr (byte_to_Z b0) 7 = 1 ∧
        byte_of_Z (Z.lxor (byte_to_Z b0) 128) = byte_of_Z (Z.shiftr id 8).
Proof.
  intros Hid. exists (byte_of_Z (Z.shiftr (Z.lor id 32768) 8)).
  assert (Hor : Z.lor id 32768 = id + 32768).
  { rewrite Z.lor_comm. change 32768 with (Z.shiftl 1 15) at 1.
    rewrite lor_shiftl_add by lia. lia. }
  rewrite Hor, byte_to_of_Z. cbn [put_be]. change (8 * Z.of_nat 1) with 8.
  change (8 * Z.of_nat 0) with 0. rewrite Z.shiftr_0_r, !Z.shiftr_div_pow2 by lia.
  change (2 ^ 8) with 256.
  assert (0 <= id / 256 < 128) by (split; [apply Z.div_pos; lia|apply Z.div_lt_upper_bound; lia]).
  assert (Hd : (id + 32768) / 256 = id / 256 + 128).
  { change 32768 with (128 * 256). by rewrite Z.div_add. }
  rewrite Hd, (Z.mod_small (id / 256 + 128)) by lia.
  destruct (lxor_128 (id / 256)) as [H1 H2]; [lia|]. rewrite <- H2 at 1.
  rewrite Z.shiftr_div_pow2 by lia.
  split_and!; [|done|by rewrite H1].
  do 2 f_equal. apply byte_of_Z_eq. change 32768 with (128 * 256). by rewrite Z.mod_add.
Qed.

Section template_lemmas.
Context (reg : Registry).

Lemma decode_field_specifier ie rest :
  wf_ie ie → registered reg ie → template_type (DataType ie) = true →
  ∃ e, decode_field reg (field_specifier ie ++ rest) = (Ok e, rest) ∧
       GetInfoElement e = ie ∧ IsValueEmpty e = true.
Proof.
  intros (Hid & Hent & Hlen) Hreg Ht.
  destruct (decode_nil ie Ht) as (e & He & Hg & Hv). exists e. split; [|done].
  unfold field_specifier, decode_field. case_decide as Hz.
  - destruct (enterprise_id_bytes _ Hid) as (b0 & Hb & Hs & Hx). rewrite <- !app_assoc.
    erewrite M_bind_Ok by apply read_full_put. erewrite M_bind_Ok by apply read_full_put.
    rewrite Hb. cbn beta iota. rewrite decide_True by done.
    pose proof (Decode_put [(4%nat, EnterpriseId ie)] rest) as HD.
    cbn [fmap list_fmap fst snd mbind list_bind] in HD. rewrite app_nil_r in HD.
    rewrite (M_bind_Ok _ _ _ ie rest).
    + unfold M_lift. by rewrite He.
    + rewrite (M_bind_Ok _ _ _ [EnterpriseId ie] rest) by (apply HD; by constructor).
      unfold M_lift. rewrite Hx.
      destruct (element_id_bytes _ Hid) as [<- _]. rewrite be_val_put_be, Z.mod_small by (simpl; lia).
      by rewrite Hreg.
  - rewrite <- app_assoc.
    erewrite M_bind_Ok by apply read_full_put. erewrite M_bind_Ok by apply read_full_put.
    destruct (element_id_bytes _ Hid) as [Hb Hs]. rewrite Hb. cbn beta iota.
    rewrite decide_False by done. rewrite <- Hb.
    rewrite be_val_put_be, Z.mod_small by (simpl; lia).
    unfold registered in Hreg. replace (EnterpriseId ie) with IANAEnterpriseID in Hreg
      by (unfold IANAEnterpriseID; lia).
    rewrite (M_bind_Ok _ _ _ ie rest) by (unfold M_lift; by rewrite Hreg).
    unfold M_lift. by rewrite He.
Qed.

Lemma decode_fields_specifiers ies rest :
  Forall wf_ie ies → Forall (registered reg) ies →
  Forall (λ ie, template_type (DataType ie) = true) ies →
  ∃ es, decode_fields reg (length ies) (field_specifiers ies ++ rest) = (Ok es, rest) ∧
        GetInfoElement <$> es = ies ∧ Forall (λ e, IsValueEmpty e = true) es.
Proof.
  induction ies as [|ie ies IH]; intros H1 H2 H3; [by exists []|].
  apply Forall_cons_1 in H1 as [? ?], H2 as [? ?], H3 as [? ?].
  destruct IH as (es & E & Hg & Hv); [done..|].
  destruct (decode_field_specifier ie (field_specifiers ies ++ rest)) as (e & Ee & Hge & Hve); [done..|].
  exists (e :: es). cbn [length decode_fields]. unfold field_specifiers. cbn [flat_map].
  rewrite <- app_assoc. erewrite M_bind_Ok by exact Ee. erewrite M_bind_Ok by exact E.
  split_and!; [done| |by constructor]. cbn [fmap list_fmap]. rewrite Hge. f_equal. exact Hg.
Qed.

(** *** The packet header *)

Lemma Decode_header obs seq t setID body :
  in_u 32 obs → in_u 32 seq → in_u 16 setID → 20 + Z.of_nat (length body) < 65536 →
  Decode [2; 2; 4; 4; 4; 2; 2]%nat (message obs seq t setID body) =
  (Ok [10; 20 + Z.of_nat (length body); u32 t; seq; obs; setID; 4 + Z.of_nat (length body)], body).
Proof.
  intros Hobs Hseq Hset Hn. set (n := Z.of_nat (length body)) in *.
  pose proof (Decode_put [(2%nat, 10); (2%nat, 20 + n); (4%nat, u32 t); (4%nat, seq); (4%nat, obs);
    (2%nat, setID); (2%nat, 4 + n)] body) as H.
  cbn [fmap list_fmap fst snd] in H. rewrite <- H.
  - f_equal.
  - repeat constructor; unfold in_u in *; cbn [fst snd] in *; simpl in *; try lia.
    all: unfold u32; apply Z.mod_pos_bound; lia.
Qed.

(** The message [decodePacket] returns. *)
Definition received (len t seq obs : Z) (host : string) (s : ipfix_set) : Message :=
  {| msgHeader := replicate MsgHeaderLength Byte.x00; version := 10; msg_length := len;
     seqNumber := seq; obsDomainID := obs; exportTime := t; exportAddress := host;
     msg_isDecoding := true; msg_set := Some s |}.

Lemma decode_message_ok len t seq obs addr host :
  export_host addr = Ok host →
  ∃ m, decode_message 10 len t seq obs addr = Ok m ∧ ∀ s, AddSet s m = received len t seq obs host s.
Proof. intros H. unfold decode_message. simpl. rewrite H. simpl. eauto. Qed.

Lemma decodePacket_message now obs seq t setID body addr host cp :
  in_u 32 obs → in_u 32 seq → in_u 16 setID → 20 + Z.of_nat (length body) < 65536 →
  export_host addr = Ok host →
  decodePacket reg now (message obs seq t setID body) addr cp =
  match decode_set reg now setID obs body cp with
  | (Ok set, cp) =>
      let m := received (20 + Z.of_nat (length body)) (u32 t) seq obs host set in
      if messageChan_closed cp then (Panic, cp) else (Ok m, deliver m cp)
  | (Err e, cp) => (Err (ErrDecodeMsg e), cp)
  | (Panic, cp) => (Panic, cp)
  | (Block, cp) => (Block, cp)
  end.
Proof.
  intros Hobs Hseq Hset Hn Hh. unfold decodePacket. rewrite Decode_header by done.
  cbn beta iota. rewrite decide_False by tauto.
  destruct (decode_message_ok (20 + Z.of_nat (length body)) (u32 t) seq obs addr host Hh)
    as (m & -> & Hm).
  destruct (decode_set _ _ _ _ _ _) as [[s| | |] cp']; [|done..]. by rewrite Hm.
Qed.

(** *** Template messages *)

(** The set the collector returns for a template record. *)
Definition decoded_template_set (tid : Z) (es : list InfoElementWithValue) : ipfix_set :=
  append_record (TemplateRecord (template_record_of tid true es))
    {| headerBuffer := []; setType := Template; records := []; set_isDecoding := true;
       set_length := 0 |}.

Lemma decode_template_body now obs tid ies cp :
  in_u 16 tid → Z.of_nat (length ies) < 65536 →
  Forall wf_ie ies → Forall (registered reg) ies →
  Forall (λ ie, template_type (DataType ie) = true) ies →
  ∃ es, decode_set reg now TemplateSetID obs (template_body tid ies) cp =
          (Ok (decoded_template_set tid es), addTemplate now obs tid es cp) ∧
        GetInfoElement <$> es = ies.
Proof.
  intros Htid Hn H1 H2 H3.
  destruct (decode_fields_specifiers ies [] H1 H2 H3) as (es & E & Hg & Hv).
  exists es. split; [|done]. unfold decode_set. rewrite decide_True by done.
  unfold decodeTemplateSet, decode_template_record, template_body.
  pose proof (Decode_put [(2%nat, tid); (2%nat, Z.of_nat (length ies))] (field_specifiers ies)) as HD.
  cbn [fmap list_fmap fst snd mbind list_bind] in HD. rewrite app_nil_r, <- app_assoc in HD.
  rewrite (M_bind_Ok _ _ _ [tid; Z.of_nat (length ies)] (field_specifiers ies)).
  2:{ apply HD. repeat constructor; unfold in_u in *; simpl in *; lia. }
  cbn beta iota. rewrite Nat2Z.id. rewrite app_nil_r in E.
  rewrite (M_bind_Ok _ _ _ es []) by exact E. cbn [fst mret M_ret].
  change (PrepareSet Template tid (NewSet true)) with (Ok
    {| headerBuffer := []; setType := Template; records := []; set_isDecoding := true;
       set_length := 0 |}).
  cbn [mbind go_bind]. by rewrite AddRecord_template by done.
Qed.

End template_lemmas.

(** What a template looks like to [getTemplate] once it is added. *)
Lemma getTemplate_add now obs tid es cp :
  getTemplate obs tid (addTemplate now obs tid es cp) = Ok (GetInfoElement <$> es).
Proof.
  unfold getTemplate, addTemplate, domain_templates.
  destruct (String.eqb (protocol cp) "tcp"); cbn [with_cp_templates cp_templatesMap];
    rewrite lookup_insert_eq; simpl; by rewrite lookup_insert_eq.
Qed.

Lemma getTemplate_add_ne now obs tid obs' tid' es cp :
  (obs, tid) ≠ (obs', tid') →
  getTemplate obs' tid' (addTemplate now obs tid es cp) = getTemplate obs' tid' cp.
Proof.
  intros Hne. unfold getTemplate, addTemplate, domain_templates.
  destruct (String.eqb (protocol cp) "tcp"); cbn [with_cp_templates cp_templatesMap];
    (destruct (decide (obs = obs')) as [<-|];
     [rewrite lookup_insert_eq; simpl; rewrite lookup_insert_ne by congruence; done
     |by rewrite lookup_insert_ne]).
Qed.

(** ** Lemmas: reading data records *)

(** A record of a template with fields has at least one byte. *)
Lemma wires_nonempty tmpl es : tmpl ≠ [] → fits tmpl es → (0 < length (wires es))%nat.
Proof.
  intros Hne [<- Hwf]. rewrite length_wires by done. unfold total_length.
  destruct Hwf as [|e es He _]; [done|]. simpl. pose proof (wire_nonempty e He). lia.
Qed.

Lemma records_count_le tmpl recs :
  tmpl ≠ [] → Forall (fits tmpl) recs → (length recs <= length (data_body recs))%nat.
Proof.
  intros Hne. unfold data_body. induction 1 as [|es recs Hes _ IH]; simpl; [lia|].
  rewrite length_app. pose proof (wires_nonempty tmpl es Hne Hes). lia.
Qed.

(** The set the collector returns for a list of data records. *)
Definition decoded_set (tid : Z) (recs : list (list InfoElementWithValue)) : ipfix_set :=
  {| headerBuffer := []; setType := Data;
     records := (λ es, DataRecord (data_record_of tid true es)) <$> recs;
     set_isDecoding := true; set_length := 0 |}.

Definition canonical_all (es : list InfoElementWithValue) : list InfoElementWithValue :=
  canonical <$> es.

Lemma append_decoded tid recs es :
  append_record (DataRecord (data_record_of tid true es)) (decoded_set tid recs) =
  decoded_set tid (recs ++ [es]).
Proof. unfold append_record, decoded_set. simpl. by rewrite fmap_app. Qed.

Lemma decode_records_body fuel tmpl n tid recs recs0 :
  tmpl ≠ [] → Z.of_nat (length tmpl) < 65536 → Forall (fits tmpl) recs →
  (length recs <= fuel)%nat →
  decode_records fuel tmpl n tid (decoded_set tid recs0) (data_body recs) =
  Ok (decoded_set tid (recs0 ++ (canonical_all <$> recs))).
Proof.
  intros Hne Hn Hf. revert fuel recs0. induction Hf as [|es recs [Hes Hwf] _ IH]; intros fuel recs0 Hfuel.
  { unfold data_body. destruct fuel; simpl; by rewrite app_nil_r. }
  destruct fuel as [|fuel]; [simpl in Hfuel; lia|].
  unfold data_body. cbn [flat_map]. fold (data_body recs).
  pose proof (decode_values_wires es (data_body recs) Hwf) as Hv. rewrite Hes in Hv.
  destruct (wires es ++ data_body recs) as [|b buf] eqn:Hbuf.
  { exfalso. apply app_eq_nil in Hbuf as [Hw _].
    pose proof (wires_nonempty tmpl es Hne (conj Hes Hwf)) as Hl. rewrite Hw in Hl. simpl in Hl. lia. }
  cbn [decode_records]. rewrite Hv.
  rewrite AddRecordWithExtraElements_data by
    (done || (rewrite length_fmap, <- (length_fmap GetInfoElement es), Hes; done)).
  cbn [mbind go_bind].
  change (set_isDecoding (decoded_set tid recs0)) with true. rewrite append_decoded.
  rewrite IH by (simpl in Hfuel; lia). by rewrite <- app_assoc.
Qed.

(** ** Lemmas: whole messages *)

Lemma addTemplate_closed now obs tid es cp :
  messageChan_closed (addTemplate now obs tid es cp) = messageChan_closed cp.
Proof. unfold addTemplate. by destruct (String.eqb _ _). Qed.

Lemma addTemplate_messages now obs tid es cp :
  messageChan (addTemplate now obs tid es cp) = messageChan cp.
Proof. unfold addTemplate. by destruct (String.eqb _ _). Qed.

Lemma decode_template_message reg now obs seq t tid ies addr host cp :
  in_u 32 obs → in_u 32 seq → in_u 16 tid →
  Forall wf_ie ies → Forall (registered reg) ies →
  Forall (λ ie, template_type (DataType ie) = true) ies →
  20 + Z.of_nat (length (template_body tid ies)) < 65536 → export_host addr = Ok host →
  messageChan_closed cp = false →
  ∃ es, GetInfoElement <$> es = ies ∧
    let m := received (20 + Z.of_nat (length (template_body tid ies))) (u32 t) seq obs host
               (decoded_template_set tid es) in
    decodePacket reg now (template_message obs seq t tid ies) addr cp =
      (Ok m, deliver m (addTemplate now obs tid es cp)).
Proof.
  intros Hobs Hseq Htid H1 H2 H3 Hn Hh Hopen.
  assert (Hl : Z.of_nat (length ies) < 65536) by (pose proof (template_body_length tid ies); lia).
  destruct (decode_template_body reg now obs tid ies cp) as (es & E & Hes); try done.
  exists es. split; [done|].
  unfold template_message. rewrite (decodePacket_message reg now obs seq t _ _ addr host) by done.
  by rewrite E, addTemplate_closed, Hopen.
Qed.

Lemma decode_data_message reg now obs seq t tid tmpl recs addr host cp :
  in_u 32 obs → in_u 32 seq → in_u 16 tid → tid ≠ TemplateSetID →
  getTemplate obs tid cp = Ok tmpl → tmpl ≠ [] → Z.of_nat (length tmpl) < 65536 →
  Forall (fits tmpl) recs → 20 + Z.of_nat (length (data_body recs)) < 65536 →
  export_host addr = Ok host → messageChan_closed cp = false →
  let m := received (20 + Z.of_nat (length (data_body recs))) (u32 t) seq obs host
             (decoded_set tid (canonical_all <$> recs)) in
  decodePacket reg now (data_message obs seq t tid recs) addr cp = (Ok m, deliver m cp).
Proof.
  intros Hobs Hseq Htid Hne Ht Htm Hn Hfit Hsz Hh Hopen m.
  unfold data_message. rewrite (decodePacket_message reg now obs seq t _ _ addr host) by done.
  unfold decode_set. rewrite decide_False by done. unfold decodeDataSet. rewrite Ht.
  cbn [mbind go_bind].
  change (PrepareSet Data tid (NewSet true)) with (Ok (decoded_set tid [])). cbn [mbind go_bind].
  rewrite decode_records_body; [by rewrite Hopen|done..|].
  eapply records_count_le; [exact Htm|exact Hfit].
Qed.

Lemma decoded_set_records tid recs :
  GetOrderedElementList <$> records (decoded_set tid (canonical_all <$> recs)) =
    (λ es, Some <$> (canonical <$> es)) <$> recs.
Proof. cbn [decoded_set records]. by rewrite <- !list_fmap_compose. Qed.

(** ** Lemmas: how much a record reads *)

Lemma getFieldLength_run buf :
  ∃ n k, getFieldLength buf = (Ok n, drop k buf) ∧ (buf ≠ [] → (0 < k)%nat).
Proof.
  unfold getFieldLength. destruct buf as [|b buf].
  { exists 0%nat, 0%nat. split; [|done]. erewrite M_bind_Ok by done. by rewrite decide_True by lia. }
  erewrite M_bind_Ok by done. case_decide.
  - exists (Z.to_nat (byte_to_Z b)), 1%nat. split; [done|lia].
  - unfold decode_len. cbn [Decode]. unfold mbind, M_bind. cbn beta iota.
    unfold read_full. case_decide.
    + exists (Z.to_nat (be_val (take 2 buf))), 3%nat. split; [done|lia].
    + exists 0%nat, (S (length buf)). split; [|lia].
      cbn [drop]. rewrite drop_all. by destruct buf.
Qed.

(** Reading a value takes some prefix of the buffer, and at least a byte of it. *)
Lemma decode_value_run ie buf :
  ∃ k, (decode_value ie buf).2 = drop k buf ∧ (decode_value ie buf).1 ≠ Block ∧
       (wf_ie ie → buf ≠ [] → is_ok (decode_value ie buf).1 → (0 < k)%nat).
Proof.
  unfold decode_value. case_decide as HV.
  - destruct (getFieldLength_run buf) as (n & k & E & Hk). erewrite M_bind_Ok by exact E.
    erewrite M_bind_Ok by done. unfold M_lift. simpl. exists (k + n)%nat.
    rewrite drop_drop. split_and!; [done|apply decode_not_block|].
    intros _ Hb _. specialize (Hk Hb). lia.
  - erewrite M_bind_Ok by done. erewrite M_bind_Ok by done. unfold M_lift. simpl.
    exists (Z.to_nat (Len ie)). split_and!; [done|apply decode_not_block|].
    intros (_ & _ & Hl) _ [e He]. rewrite Hl.
    unfold DecodeAndCreateInfoElementWithValue in He.
    by destruct (DataType ie); simpl in *; try lia.
Qed.

Lemma decode_values_run tmpl buf :
  ∃ k, (decode_values tmpl buf).2 = drop k buf ∧ (decode_values tmpl buf).1 ≠ Block ∧
       (Forall wf_ie tmpl → tmpl ≠ [] → buf ≠ [] → is_ok (decode_values tmpl buf).1 → (0 < k)%nat).
Proof.
  revert buf. induction tmpl as [|ie tmpl IH]; intros buf.
  { exists 0%nat. by split_and!. }
  cbn [decode_values]. destruct (decode_value_run ie buf) as (k1 & E1 & N1 & P1).
  unfold mbind, M_bind in *.
  destruct (decode_value ie buf) as [[e| | |] buf1]; cbn [fst snd] in *; subst buf1;
    [|by exists k1; split_and!; [..|intros _ _ _ []]..].
  destruct (IH (drop k1 buf)) as (k2 & E2 & N2 & _). rewrite drop_drop in E2.
  destruct (decode_values tmpl (drop k1 buf)) as [[es| | |] buf2]; cbn [fst snd] in *; subst buf2;
    [|by exists (k1 + k2)%nat; split_and!; [..|intros _ _ _ []]..].
  exists (k1 + k2)%nat. split_and!; [done|done|].
  intros [Hw _]%Forall_cons_1 _ Hb _. specialize (P1 Hw Hb (ex_intro _ e eq_refl)). lia.
Qed.

(** A record that takes no byte is read again and again. *)
Lemma decode_records_stuck fuel tmpl n tid s buf es :
  buf ≠ [] → setType s = Data → decode_values tmpl buf = (Ok es, buf) →
  decode_records fuel tmpl n tid s buf = Block.
Proof.
  intros Hb. revert s. induction fuel as [|fuel IH]; intros s Hs Hv; destruct buf; try done.
  cbn [decode_records]. rewrite Hv.
  destruct (add_data_record es n tid s Hs) as (d & -> & _). cbn [mbind go_bind]. by apply IH.
Qed.

(** As many iterations as there are bytes are enough: more fuel changes nothing. *)
Lemma decode_records_fuel tmpl n tid f1 f2 s buf :
  setType s = Data → (length buf <= f1)%nat → (length buf <= f2)%nat →
  decode_records f1 tmpl n tid s buf = decode_records f2 tmpl n tid s buf.
Proof.
  revert f2 s buf. induction f1 as [|f1 IH]; intros f2 s buf Hs H1 H2.
  { destruct buf; [|simpl in H1; lia]. by destruct f2. }
  destruct buf as [|b buf]; [by destruct f2|]. destruct f2 as [|f2]; [simpl in H2; lia|].
  cbn [decode_records]. set (bf := b :: buf) in *.
  destruct (decode_values_run tmpl bf) as (k & E & _ & _).
  destruct (decode_values tmpl bf) as [[es| | |] bf'] eqn:Ev; cbn [snd] in E; subst bf'; [|done..].
  destruct (add_data_record es n tid s Hs) as (d & -> & _). cbn [mbind go_bind].
  destruct k as [|k].
  - cbn [drop] in *.
    by rewrite !(decode_records_stuck _ _ _ _ _ bf es) by done.
  - apply IH; [done|..]; rewrite length_drop; simpl in *; lia.
Qed.

Lemma decode_records_terminates fuel tmpl n tid s buf :
  setType s = Data → (length buf <= fuel)%nat → tmpl ≠ [] → Forall wf_ie tmpl →
  decode_records fuel tmpl n tid s buf ≠ Block.
Proof.
  revert s buf. induction fuel as [|fuel IH]; intros s buf Hs Hf Ht Hw.
  { by destruct buf; [|simpl in Hf; lia]. }
  destruct buf as [|b buf]; [done|]. cbn [decode_records]. set (bf := b :: buf) in *.
  destruct (decode_values_run tmpl bf) as (k & E & Nb & Hk).
  destruct (decode_values tmpl bf) as [[es| | |] bf'] eqn:Ev; cbn [fst snd] in *; subst bf'; [|done..].
  destruct (add_data_record es n tid s Hs) as (d & -> & _). cbn [mbind go_bind].
  apply IH; [done| |done|done]. specialize (Hk Hw Ht ltac:(done) (ex_intro _ es eq_refl)).
  rewrite length_drop. simpl in *. lia.
Qed.

(** ** Lemmas: the invariant of the collecting process *)

Section invariant.
Context (reg : Registry).

(** Every template the collector knows is made of registered elements. *)
Definition cp_inv (cp : CollectingProcess) : Prop :=
  ∀ obs tid ies, getTemplate obs tid cp = Ok ies →
    Forall (λ ie, wf_ie ie ∧ registered reg ie) ies ∧ Z.of_nat (length ies) < 65536.

Lemma lookup_element_inv id ent ie :
  registry_ok reg → GetInfoElementFromID id ent reg = Ok ie → wf_ie ie ∧ registered reg ie.
Proof.
  intros Hr E. destruct (GetInfoElementFromID_inv _ _ _ _ Hr E) as (<- & <- & Hwf). by split.
Qed.

Lemma decode_field_inv buf e buf' :
  registry_ok reg → decode_field reg buf = (Ok e, buf') →
  wf_ie (GetInfoElement e) ∧ registered reg (GetInfoElement e).
Proof.
  intros Hr. unfold decode_field.
  intros (bs & b1 & _ & (x & b2 & _ & H)%M_bind_inv)%M_bind_inv.
  destruct bs as [|b0 bs]; [done|].
  apply M_bind_inv in H as (ie & b3 & H3 & H4).
  unfold M_lift in H4. injection H4 as H4 _. apply decode_element in H4 as ->.
  case_decide.
  - apply M_bind_inv in H3 as (ent & b4 & _ & H3). destruct ent as [|ent ?]; [done|].
    unfold M_lift in H3. injection H3 as H3 _. by eapply lookup_element_inv.
  - unfold M_lift in H3. injection H3 as H3 _. by eapply lookup_element_inv.
Qed.

Lemma decode_fields_inv n buf es buf' :
  registry_ok reg → decode_fields reg n buf = (Ok es, buf') →
  Forall (λ ie, wf_ie ie ∧ registered reg ie) (GetInfoElement <$> es) ∧ length es = n.
Proof.
  intros Hr. revert buf es buf'. induction n as [|n IH]; intros buf es buf'; cbn [decode_fields].
  { intros [= <- _]. done. }
  intros (e & b1 & H1 & (es' & b2 & H2 & [= <- _])%M_bind_inv)%M_bind_inv.
  apply decode_field_inv in H1; [|done]. apply IH in H2 as [H2 <-].
  split; [|done]. by constructor.
Qed.

Lemma Decode2_range buf a b buf' :
  Decode [2%nat; 2%nat] buf = (Ok [a; b], buf') → 0 <= b < 65536.
Proof.
  cbn [Decode].
  intros (b1 & r1 & _ & (vs & r2 & H2 & [= _ -> _])%M_bind_inv)%M_bind_inv.
  apply M_bind_inv in H2 as (b2 & r3 & H3 & (vs & r4 & _ & [= <- _ _])%M_bind_inv).
  apply read_full_inv in H3 as [_ Hl]. pose proof (be_val_range b2) as Hr. rewrite Hl in Hr.
  exact Hr.
Qed.

Lemma decode_template_record_inv buf tid es buf' :
  registry_ok reg → decode_template_record reg buf = (Ok (tid, es), buf') →
  Forall (λ ie, wf_ie ie ∧ registered reg ie) (GetInfoElement <$> es) ∧ Z.of_nat (length es) < 65536.
Proof.
  intros Hr. unfold decode_template_record. intros (hdr & b1 & H1 & H2)%M_bind_inv.
  destruct hdr as [|a [|n [|]]]; try done.
  apply M_bind_inv in H2 as (es' & b2 & H2 & [= -> -> _]).
  apply Decode2_range in H1. apply decode_fields_inv in H2 as [? Hl]; [|done].
  split; [done|]. rewrite Hl. lia.
Qed.

Lemma cp_inv_add now obs tid es cp :
  cp_inv cp → Forall (λ ie, wf_ie ie ∧ registered reg ie) (GetInfoElement <$> es) →
  Z.of_nat (length es) < 65536 → cp_inv (addTemplate now obs tid es cp).
Proof.
  intros Hi Hes Hl obs' tid' ies.
  destruct (decide ((obs, tid) = (obs', tid'))) as [[= <- <-]|Hne].
  - rewrite getTemplate_add. intros [= <-]. by rewrite length_fmap.
  - rewrite getTemplate_add_ne by done. apply Hi.
Qed.

Lemma getTemplate_deliver obs tid m cp : getTemplate obs tid (deliver m cp) = getTemplate obs tid cp.
Proof. done. Qed.

Lemma cp_inv_Init input : cp_inv (InitCollectingProcess input).
Proof. intros obs tid ies. unfold getTemplate, domain_templates. simpl. by rewrite lookup_empty. Qed.

(** What [decode_set] can do to the state. *)
Lemma decode_set_state now setID obs buf cp res cp' :
  registry_ok reg → decode_set reg now setID obs buf cp = (res, cp') →
  (cp' = cp ∧ (setID = TemplateSetID → ¬ is_ok res)) ∨
  (is_ok res ∧ setID = TemplateSetID ∧ ∃ tid es, cp' = addTemplate now obs tid es cp ∧
     Forall (λ ie, wf_ie ie ∧ registered reg ie) (GetInfoElement <$> es) ∧
     Z.of_nat (length es) < 65536).
Proof.
  intros Hr. unfold decode_set, decodeTemplateSet. case_decide as Hs; [|intros [= _ <-]; by left].
  destruct (decode_template_record reg buf) as [r b'] eqn:E. cbn [fst].
  destruct r as [[tid es]| | |]; [|intros [= <- <-]; left; (split; [done|by intros _ []])..].
  destruct (_ ≫= _) as [s| | |] eqn:E2; [|intros [= <- <-]; left; (split; [done|by intros _ []])..].
  intros [= <- <-]. right. split; [by eexists|]. split; [done|].
  exists tid, es. split; [done|]. by eapply decode_template_record_inv.
Qed.

Lemma decodePacket_inv now pkt addr cp res cp' :
  registry_ok reg → cp_inv cp → decodePacket reg now pkt addr cp = (res, cp') → cp_inv cp'.
Proof.
  intros Hr Hi. unfold decodePacket.
  destruct (Decode _ pkt) as [[vs| | |] buf]; [|by intros [= _ <-]..].
  destruct vs as [|v [|l [|t [|seq [|obs [|setID [|setLen [|]]]]]]]]; try by intros [= _ <-].
  case_decide; [by intros [= _ <-]|].
  destruct (decode_message _ _ _ _ _ _) as [m| | |]; [|by intros [= _ <-]..].
  destruct (decode_set reg now setID obs buf cp) as [r cp1] eqn:E.
  assert (Hcp1 : cp_inv cp1).
  { apply decode_set_state in E as [[-> _]|(_ & _ & tid & es & -> & ? & ?)]; [done| |done].
    by apply cp_inv_add. }
  destruct r as [s| | |]; [destruct (messageChan_closed cp1)|..]; by intros [= _ <-].
Qed.

(** [decodePacket] delivers the message it returns, and nothing else. *)
Lemma decodePacket_messages now pkt addr cp :
  messageChan (decodePacket reg now pkt addr cp).2 =
  messageChan cp ++ match (decodePacket reg now pkt addr cp).1 with Ok m => [m] | _ => [] end.
Proof.
  unfold decodePacket. destruct (Decode _ pkt) as [[vs| | |] buf]; [|by rewrite app_nil_r..].
  destruct vs as [|v [|l [|t [|seq [|obs [|setID [|setLen [|]]]]]]]]; try by rewrite app_nil_r.
  case_decide; [by rewrite app_nil_r|].
  destruct (decode_message _ _ _ _ _ _) as [m| | |]; [|by rewrite app_nil_r..].
  assert (Hm : messageChan (decode_set reg now setID obs buf cp).2 = messageChan cp).
  { unfold decode_set, decodeTemplateSet. case_decide; [|done].
    destruct (decode_template_record reg buf).1 as [[tid es]| | |]; [|done..].
    destruct (_ ≫= _); [|done..]. unfold addTemplate. by destruct (String.eqb _ _). }
  destruct (decode_set reg now setID obs buf cp) as [[s| | |] cp1]; cbn [snd fst] in *;
    [destruct (messageChan_closed cp1)|..]; rewrite ?app_nil_r; cbn; by rewrite Hm.
Qed.

(** A packet that is refused leaves the process as it was. *)
Lemma decodePacket_err now pkt addr cp e cp' :
  registry_ok reg → decodePacket reg now pkt addr cp = (Err e, cp') → cp' = cp.
Proof.
  intros Hr. unfold decodePacket.
  destruct (Decode _ pkt) as [[vs| | |] buf]; [|by intros [= _ <-]..].
  destruct vs as [|v [|l [|t [|seq [|obs [|setID [|setLen [|]]]]]]]]; try done.
  case_decide; [by intros [= _ <-]|].
  destruct (decode_message _ _ _ _ _ _) as [m| | |]; [|by intros [= _ <-]..].
  destruct (decode_set reg now setID obs buf cp) as [r cp1] eqn:E.
  destruct r as [s| | |]; [by destruct (messageChan_closed cp1)| |done..]. intros [= _ <-].
  apply decode_set_state in E as [[-> _]|([? ?] & _)]; done.
Qed.

Lemma decode_field_not_block buf : (decode_field reg buf).1 ≠ Block.
Proof.
  unfold decode_field, mbind, M_bind, M_lift.
  pose proof read_full_not_block as HR.
  assert (HG : ∀ i e, GetInfoElementFromID i e reg ≠ Block).
  { intros. unfold GetInfoElementFromID. destruct (lookup2 _ _) as [m|]; [|done].
    by destruct (m !! i). }
  pose proof (HR 2%nat buf). destruct (read_full 2 buf) as [[bs| | |] b1]; [|done..].
  pose proof (HR 2%nat b1). destruct (read_full 2 b1) as [[x| | |] b2]; [|done..].
  destruct bs as [|b0 bs]; [done|]. case_decide.
  - cbn [Decode]. unfold mbind, M_bind, mret, M_ret.
    pose proof (HR 4%nat b2). destruct (read_full 4 b2) as [[y| | |] b3]; [|done..].
    destruct (GetInfoElementFromID _ _ reg) eqn:E; try done; [apply decode_not_block|].
    by apply HG in E.
  - destruct (GetInfoElementFromID _ _ reg) eqn:E; try done; [apply decode_not_block|].
    by apply HG in E.
Qed.

Lemma decode_fields_not_block n buf : (decode_fields reg n buf).1 ≠ Block.
Proof.
  revert buf. induction n as [|n IH]; intros buf; [done|]. cbn [decode_fields].
  unfold mbind, M_bind. pose proof (decode_field_not_block buf).
  destruct (decode_field reg buf) as [[e| | |] b1]; [|done..].
  specialize (IH b1). by destruct (decode_fields reg n b1) as [[es| | |] b2].
Qed.

Lemma decode_template_record_not_block buf : (decode_template_record reg buf).1 ≠ Block.
Proof.
  unfold decode_template_record, mbind, M_bind. pose proof (Decode_not_block [2%nat; 2%nat] buf).
  destruct (Decode [2%nat; 2%nat] buf) as [[vs| | |] b1]; [|done..].
  destruct vs as [|a [|n [|]]]; try done.
  pose proof (decode_fields_not_block (Z.to_nat n) b1).
  by destruct (decode_fields reg (Z.to_nat n) b1) as [[es| | |] b2].
Qed.

Lemma decode_message_not_block l t seq obs v addr : decode_message v l t seq obs addr ≠ Block.
Proof. unfold decode_message. simpl. unfold export_host. by destruct (LastIndex _ _). Qed.

(** The only packets the collector never finishes with are data sets of a template
    without fields. *)
Lemma decodePacket_block now pkt addr cp :
  cp_inv cp → (decodePacket reg now pkt addr cp).1 = Block →
  ∃ obs tid, getTemplate obs tid cp = Ok [].
Proof.
  intros Hi. unfold decodePacket.
  pose proof (Decode_not_block [2; 2; 4; 4; 4; 2; 2]%nat pkt).
  destruct (Decode _ pkt) as [[vs| | |] buf]; [|done..].
  destruct vs as [|v [|l [|t [|seq [|obs [|setID [|setLen [|]]]]]]]]; try done.
  case_decide; [done|].
  pose proof (decode_message_not_block l t seq obs v addr).
  destruct (decode_message _ _ _ _ _ _) as [m| | |]; [|done..].
  unfold decode_set, decodeTemplateSet. case_decide.
  - pose proof (decode_template_record_not_block buf).
    destruct (decode_template_record reg buf) as [[[tid es]| | |] b']; [|done..]. cbn [fst].
    change (PrepareSet Template tid (NewSet true)) with (Ok
      {| headerBuffer := []; setType := Template; records := []; set_isDecoding := true;
         set_length := 0 |}). cbn [mbind go_bind].
    match goal with |- context [AddRecord ?a ?b ?c] =>
      pose proof (AddRecord_not_block a b c); destruct (AddRecord a b c) end; try done.
    by destruct (messageChan_closed _).
  - unfold decodeDataSet. destruct (getTemplate obs setID cp) as [tmpl| | |] eqn:Et; try done.
    2:{ unfold getTemplate in Et. by destruct (_ !! _). }
    destruct (Hi _ _ _ Et) as [Hw Hl]. intros HB. exists obs, setID. rewrite Et.
    destruct tmpl as [|ie tmpl]; [done|]. exfalso. revert HB. cbn [mbind go_bind].
    change (PrepareSet Data setID (NewSet true)) with (Ok (decoded_set setID [])). cbn [mbind go_bind].
    pose proof (decode_records_terminates (length buf) (ie :: tmpl) (numExtraElements cp) setID
      (decoded_set setID []) buf) as HT.
    destruct (decode_records _ _ _ _ _ _); [by destruct (messageChan_closed cp)|done|done|].
    intros _. apply HT; try done.
    eapply Forall_impl; [|exact Hw]. by intros ? [].
Qed.

End invariant.

(** ** Lemmas: the life of a template *)

(** Deleting templates never adds one. *)
Lemma lookup_delete_template obs tid m obs' tid' :
  (default ∅ (delete_template_from obs tid m !! obs') : gmap Z (list InfoElement)) !! tid' =
  if decide ((obs', tid') = (obs, tid)) then None
  else (default ∅ (m !! obs') : gmap Z (list InfoElement)) !! tid'.
Proof.
  unfold delete_template_from. destruct (m !! obs) as [inner|] eqn:E.
  - destruct (decide (obs' = obs)) as [->|Ho].
    + rewrite lookup_insert_eq, E. cbn [default from_option id].
      destruct (decide (tid' = tid)) as [->|].
      * by rewrite lookup_delete_eq, decide_True.
      * rewrite lookup_delete_ne by done. by rewrite decide_False by congruence.
    + rewrite lookup_insert_ne by done. by rewrite decide_False by congruence.
  - destruct (decide _) as [[= -> ->]|]; [|done]. rewrite E. apply lookup_empty.
Qed.

Lemma getTemplate_delete obs tid cp obs' tid' :
  getTemplate obs' tid' (CollectorDeleteTemplate obs tid cp) =
  if decide ((obs', tid') = (obs, tid)) then Err (ErrCollectorTemplate tid' obs')
  else getTemplate obs' tid' cp.
Proof.
  unfold getTemplate, domain_templates. cbn [CollectorDeleteTemplate with_cp_templates cp_templatesMap].
  rewrite lookup_delete_template. by case_decide.
Qed.

(** A timer is for this template. *)
Definition timer_of (obs tid : Z) (t : timer) : Prop :=
  timer_obsDomainID t = obs ∧ timer_templateID t = tid.

#[global] Instance timer_of_dec obs tid t : Decision (timer_of obs tid t).
Proof. unfold timer_of. apply _. Defined.

Lemma lookup_delete_due due m obs tid :
  (default ∅ (foldl (λ m t, delete_template_from (timer_obsDomainID t) (timer_templateID t) m) m due
              !! obs) : gmap Z (list InfoElement)) !! tid =
  if decide (Exists (timer_of obs tid) due) then None
  else (default ∅ (m !! obs) : gmap Z (list InfoElement)) !! tid.
Proof.
  revert m. induction due as [|t due IH]; intros m; cbn [foldl].
  { rewrite decide_False; [done|]. by intros ?%Exists_nil. }
  rewrite IH, lookup_delete_template. unfold timer_of at 2.
  destruct (decide (Exists (timer_of obs tid) due)) as [H|H].
  - rewrite decide_True; [done|]. by apply Exists_cons_tl.
  - case_decide as Ht.
    + rewrite decide_True; [done|]. apply Exists_cons_hd. by injection Ht as -> ->.
    + rewrite decide_False; [done|]. intros [[<- <-]|?]%Exists_cons; done.
Qed.

(** After the timers have fired a template is there when it was there before and
    none of its timers was due. *)
Lemma getTemplate_fire now obs tid cp :
  getTemplate obs tid (fire_timers now cp) =
  if decide (Exists (λ t, timer_of obs tid t ∧ deadline t <= now) (timers cp))
  then Err (ErrCollectorTemplate tid obs) else getTemplate obs tid cp.
Proof.
  unfold getTemplate, domain_templates. cbn [fire_timers with_cp_templates cp_templatesMap].
  rewrite lookup_delete_due.
  assert (H : Exists (timer_of obs tid) (filter (λ t, deadline t ≤ now) (timers cp)) ↔
              Exists (λ t, timer_of obs tid t ∧ deadline t <= now) (timers cp)).
  { induction (timers cp) as [|t ts IH]; [by split; intros ?%Exists_nil|]. rewrite filter_cons.
    case_decide; rewrite ?Exists_cons, IH; tauto. }
  destruct (decide (Exists (timer_of obs tid) _)) as [H1|H1]; case_decide as H2; tauto || done.
Qed.

Section life.
Context (reg : Registry).

(** What happens to a collecting process: a packet is decoded, a template is
    deleted, time passes, the message channel is closed, and the servers keep their
    books. *)
Inductive collector_step : CollectingProcess → CollectingProcess → Prop :=
| step_packet now pkt addr cp res cp' :
    decodePacket reg now pkt addr cp = (res, cp') → collector_step cp cp'
| step_delete obs tid cp : collector_step cp (CollectorDeleteTemplate obs tid cp)
| step_timers now cp : collector_step cp (fire_timers now cp)
| step_close cp : collector_step cp (CloseMsgChan cp).2
| step_server net stopped cs n cp : collector_step cp (with_server net stopped cs n cp).

Lemma cp_inv_step cp cp' : registry_ok reg → collector_step cp cp' → cp_inv reg cp → cp_inv reg cp'.
Proof.
  intros Hr.
  destruct 1 as [now pkt addr cp res cp' H|obs tid cp|now cp|cp|net stopped cs n cp]; intros Hi;
    [..|unfold CloseMsgChan; by destruct (messageChan_closed cp)|done].
  - by eapply decodePacket_inv.
  - intros obs' tid' ies. rewrite getTemplate_delete. case_decide; [done|]. apply Hi.
  - intros obs' tid' ies. rewrite getTemplate_fire. case_decide; [done|]. apply Hi.
Qed.

Lemma cp_inv_reachable input cp :
  registry_ok reg → rtc collector_step (InitCollectingProcess input) cp → cp_inv reg cp.
Proof.
  intros Hr H. pose proof (cp_inv_Init reg input) as H0.
  induction H as [|x y z Hxy _ IH]; eauto using cp_inv_step.
Qed.
End life.

(** ** Lemmas: the export address *)

Lemma LastIndex_none c s : has_char c s = false → LastIndex c s = None.
Proof.
  induction s as [|a s IH]; simpl; [done|]. intros [H1 H2]%orb_false_iff.
  rewrite IH by done. apply bool_decide_eq_false in H1. by rewrite decide_False.
Qed.

Lemma LastIndex_app c s t :
  has_char c t = false → LastIndex c (s +:+ String c t) = Some (String.length s).
Proof.
  intros Ht. induction s as [|a s IH]; simpl.
  - rewrite LastIndex_none by done. by rewrite decide_True.
  - change (String.append s (String c t)) with (s +:+ String c t). by rewrite IH.
Qed.

Lemma substring_app s t : String.substring 0 (String.length s) (s +:+ t) = s.
Proof. induction s as [|a s IH]; simpl; [by destruct t|]. exact (f_equal (String a) IH). Qed.

Lemma remove_char_none c s : has_char c s = false → remove_char c s = s.
Proof.
  induction s as [|a s IH]; simpl; [done|]. intros [H1 H2]%orb_false_iff.
  apply bool_decide_eq_false in H1. rewrite decide_False by done. by rewrite IH.
Qed.

Lemma remove_char_app c s t : remove_char c (s +:+ t) = remove_char c s +:+ remove_char c t.
Proof.
  induction s as [|a s IH]; simpl; [done|]. change (String.append s t) with (s +:+ t).
  rewrite IH. by case_decide.
Qed.

Lemma remove_brackets host :
  has_char "[" host = false → has_char "]" host = false →
  remove_char "]" (remove_char "[" ("[" +:+ host +:+ "]")) = host.
Proof.
  intros H1 H2. rewrite !remove_char_app, (remove_char_none "[" host) by done.
  rewrite (remove_char_none "]" host) by done.
  change (remove_char "]" (remove_char "[" "[")) with ""%string.
  change (remove_char "]" (remove_char "[" "]")) with ""%string. apply string_app_nil.
Qed.

(** ** Properties *)

(** C10: encoding an element and decoding what was written gives the element back.
    The collector reads, from the slot the exporter filled and whatever follows it,
    exactly the slot's bytes, and gets the element in canonical form: the same
    information element and value, with the struct of its data type and an address
    of its family's length; the canonical form is well formed, has the same bytes on
    the wire, and is a fixed point. *)
Theorem element_roundtrip e pre mid post :
  wf_element e → length mid = GetLength e →
  ∃ buf,
    encodeInfoElementValueToBuff e (pre ++ mid ++ post) (length pre) = Ok buf ∧
    take (length pre) buf = pre ∧
    decode_value (GetInfoElement e) (drop (length pre) buf) = (Ok (canonical e), post) ∧
    wf_element (canonical e) ∧ wire (canonical e) = wire e ∧
    canonical (canonical e) = canonical e.
Proof.
  intros Hwf Hmid. destruct (canonical_wf e Hwf) as [Hc Hw].
  exists (pre ++ wire e ++ post). split_and!; try done.
  - by apply encode_element_app.
  - by rewrite take_app_length.
  - rewrite drop_app_length. by apply decode_value_wire.
  - by apply canonical_idemp.
Qed.

Lemma element_roundtrip_witness :
  ∃ buf,
    encodeInfoElementValueToBuff example_addr ([Byte.x01] ++ replicate 4 Byte.x00 ++ [Byte.x02]) 1 =
      Ok buf ∧
    take 1 buf = [Byte.x01] ∧
    decode_value (GetInfoElement example_addr) (drop 1 buf) = (Ok (canonical example_addr), [Byte.x02]) ∧
    wf_element (canonical example_addr) ∧ wire (canonical example_addr) = wire example_addr ∧
    canonical (canonical example_addr) = canonical example_addr.
Proof.
  apply (element_roundtrip example_addr [Byte.x01] (replicate 4 Byte.x00) [Byte.x02]).
  - apply (bool_decide_unpack _). vm_compute. exact I.
  - reflexivity.
Defined.

(** Collecting processes for the witnesses. *)
Definition example_input_collector (protocol : string) : CollectorInput :=
  mkCollectorInput false false "0.0.0.0:4739" protocol 65535 0 None None None 0.
Definition example_cp (protocol : string) : CollectingProcess :=
  InitCollectingProcess (example_input_collector protocol).

(** A template message teaches the collector exactly that template.  When every
    field is a registered element of a supported type, [decodePacket] returns the
    message with the header's fields and the sender's host, delivers it and counts
    it; afterwards the template of that observation domain and id is the list of
    the fields in order, and every other template is as before. *)
Theorem template_message_learnt reg now obs seq t tid ies addr host cp :
  in_u 32 obs → in_u 32 seq → in_u 16 tid →
  Forall wf_ie ies → Forall (registered reg) ies →
  Forall (λ ie, template_type (DataType ie) = true) ies →
  20 + Z.of_nat (length (template_body tid ies)) < 65536 → export_host addr = Ok host →
  messageChan_closed cp = false →
  ∃ m cp',
    decodePacket reg now (template_message obs seq t tid ies) addr cp = (Ok m, cp') ∧
    obsDomainID m = obs ∧ seqNumber m = seq ∧ exportTime m = u32 t ∧ exportAddress m = host ∧
    messageChan cp' = messageChan cp ++ [m] ∧
    numOfRecordsReceived cp' = u64 (numOfRecordsReceived cp + 1) ∧
    getTemplate obs tid cp' = Ok ies ∧
    (∀ obs' tid', (obs, tid) ≠ (obs', tid') → getTemplate obs' tid' cp' = getTemplate obs' tid' cp).
Proof.
  intros Hobs Hseq Htid H1 H2 H3 Hn Hh Hopen.
  destruct (decode_template_message reg now obs seq t tid ies addr host cp) as (es & Hes & E);
    try done.
  rewrite E. eexists _, _. split; [done|]. split_and!; try done.
  - unfold addTemplate. by destruct (String.eqb _ _).
  - unfold addTemplate. by destruct (String.eqb _ _).
  - rewrite getTemplate_deliver, getTemplate_add. by rewrite Hes.
  - intros obs' tid' Hne. by rewrite getTemplate_deliver, getTemplate_add_ne.
Qed.

(** C11: a data message is decoded to the records that were encoded.  With the
    template known, [decodePacket] on the message of any list of records that fit
    it returns a data set whose records are, in order, the canonical forms of the
    elements; the message is delivered and counted, and no template changes. *)
Theorem data_message_decoded reg now obs seq t tid tmpl recs addr host cp :
  in_u 32 obs → in_u 32 seq → in_u 16 tid → tid ≠ TemplateSetID →
  getTemplate obs tid cp = Ok tmpl → tmpl ≠ [] → Z.of_nat (length tmpl) < 65536 →
  Forall (fits tmpl) recs → 20 + Z.of_nat (length (data_body recs)) < 65536 →
  export_host addr = Ok host → messageChan_closed cp = false →
  ∃ m s,
    decodePacket reg now (data_message obs seq t tid recs) addr cp = (Ok m, deliver m cp) ∧
    msg_set m = Some s ∧ setType s = Data ∧
    GetOrderedElementList <$> records s = (λ es, Some <$> (canonical <$> es)) <$> recs ∧
    Forall (λ r, GetTemplateID r = tid ∧ GetFieldCount r = Z.of_nat (length tmpl)) (records s).
Proof.
  intros Hobs Hseq Htid Hne Ht Htm Hn Hfit Hsz Hh Hopen.
  eexists _, _. split; [by eapply decode_data_message|].
  split_and!; [done|done|apply decoded_set_records|].
  cbn [decoded_set records]. rewrite <- list_fmap_compose. apply Forall_fmap.
  eapply Forall_impl; [|exact Hfit]. intros es [Hes _]. split; [done|].
  change (Z.of_nat (length (canonical <$> es)) = Z.of_nat (length tmpl)).
  by rewrite <- Hes, !length_fmap.
Qed.

Lemma template_message_learnt_witness :
  ∃ m cp',
    decodePacket loaded_registry 0 (template_message 1 5 1000 256 [GetInfoElement example_octets;
      GetInfoElement example_pod]) "10.0.0.7:41000" (example_cp "tcp") = (Ok m, cp') ∧
    exportAddress m = "10.0.0.7" ∧
    getTemplate 1 256 cp' = Ok [GetInfoElement example_octets; GetInfoElement example_pod].
Proof.
  destruct (template_message_learnt loaded_registry 0 1 5 1000 256
    [GetInfoElement example_octets; GetInfoElement example_pod] "10.0.0.7:41000" "10.0.0.7"
    (example_cp "tcp")) as (m & cp' & H1 & _ & _ & _ & H2 & _ & _ & H3 & _).
  1-6: apply (bool_decide_unpack _); vm_compute; exact I.
  - apply Z.ltb_lt. vm_compute. reflexivity.
  - reflexivity.
  - reflexivity.
  - exists m, cp'. auto.
Defined.

(** A collector that has learnt a template. *)
Definition example_fields : list InfoElement :=
  [GetInfoElement example_octets; GetInfoElement example_pod].
Definition example_learnt (protocol : string) : CollectingProcess :=
  addTemplate 0 1 256 [ResetValue example_octets; ResetValue example_pod] (example_cp protocol).

Lemma data_message_decoded_witness :
  ∃ m s,
    decodePacket loaded_registry 0 (data_message 1 5 1000 256 [[example_octets; example_pod]])
      "[2001:db8::7]:41000" (example_learnt "tcp") = (Ok m, deliver m (example_learnt "tcp")) ∧
    msg_set m = Some s ∧ setType s = Data ∧
    GetOrderedElementList <$> records s = [[Some example_octets; Some example_pod]] ∧
    Forall (λ r, GetTemplateID r = 256 ∧ GetFieldCount r = 2) (records s).
Proof.
  apply (data_message_decoded loaded_registry 0 1 5 1000 256 example_fields
    [[example_octets; example_pod]] "[2001:db8::7]:41000" "2001:db8::7" (example_learnt "tcp")).
  1-4: apply (bool_decide_unpack _); vm_compute; exact I.
  - vm_compute. reflexivity.
  - discriminate.
  - reflexivity.
  - apply (bool_decide_unpack _). vm_compute. exact I.
  - apply Z.ltb_lt. vm_compute. reflexivity.
  - vm_compute. reflexivity.
  - reflexivity.
Defined.

(** C25: the collector only ever knows templates of registered elements.  In every
    state a collecting process can reach by decoding packets (of any content, with
    any outcome), deleting templates and letting templates expire, each template it
    knows has fewer than 2^16 fields, and each field is an element that the registry
    returns for its own id and enterprise, with the length of its data type. *)
Theorem known_templates_registered reg input cp :
  registry_ok reg → rtc (collector_step reg) (InitCollectingProcess input) cp →
  ∀ obs tid ies, getTemplate obs tid cp = Ok ies →
    Z.of_nat (length ies) < 65536 ∧
    Forall (λ ie, registered reg ie ∧ Len ie = InfoElementLength (DataType ie) ∧
                  0 <= ElementId ie < 32768) ies.
Proof.
  intros Hr H obs tid ies Ht. destruct (cp_inv_reachable reg input cp Hr H obs tid ies Ht) as [Hf Hl].
  split; [done|]. eapply Forall_impl; [|exact Hf]. intros ie ((? & ? & ?) & ?). done.
Qed.

Definition example_packet : list byte := template_message 1 5 1000 256 example_fields.

Lemma known_templates_registered_witness :
  ∃ cp, getTemplate 1 256 cp = Ok example_fields ∧
    ∀ obs tid ies, getTemplate obs tid cp = Ok ies →
      Z.of_nat (length ies) < 65536 ∧
      Forall (λ ie, registered loaded_registry ie ∧ Len ie = InfoElementLength (DataType ie) ∧
                    0 <= ElementId ie < 32768) ies.
Proof.
  exists (decodePacket loaded_registry 0 example_packet "10.0.0.7:41000" (example_cp "tcp")).2.
  split; [vm_compute; reflexivity|].
  apply (known_templates_registered loaded_registry (example_input_collector "tcp")).
  - apply LoadRegistry_registry_ok, LoadRegistry_loaded.
  - apply rtc_once. eapply step_packet. apply surjective_pairing.
Defined.

(** C33: a packet that is refused leaves no trace.  If [decodePacket] returns an
    error the collecting process is unchanged (no template learnt, no message
    delivered, no record counted); a packet too short for the two headers is refused
    with an end-of-input error, and one of another version with that version. *)
Theorem refused_packet_no_trace reg now pkt addr cp :
  registry_ok reg →
  (∀ e cp', decodePacket reg now pkt addr cp = (Err e, cp') → cp' = cp) ∧
  ((length pkt < 20)%nat →
     ∃ e, decodePacket reg now pkt addr cp = (Err e, cp) ∧ (e = ErrEOF ∨ e = ErrUnexpectedEOF)) ∧
  (∀ v rest, in_u 16 v → v ≠ 10 → (18 <= length rest)%nat → pkt = put_be 2 v ++ rest →
     decodePacket reg now pkt addr cp = (Err (ErrVersion v), cp)).
Proof.
  intros Hr. split_and!.
  - intros e cp'. by apply decodePacket_err.
  - intros Hl. unfold decodePacket.
    destruct (Decode_short [2; 2; 4; 4; 4; 2; 2]%nat pkt) as (e & b & -> & He); [simpl; lia|].
    eauto.
  - intros v rest Hv Hne Hl ->. unfold decodePacket.
    destruct (Decode_long [2; 4; 4; 4; 2; 2]%nat rest) as (vs & b & E & Hvs); [simpl; lia|].
    cbn [Decode] in *.
    erewrite M_bind_Ok by apply read_full_put. erewrite M_bind_Ok by exact E.
    unfold mret, M_ret. do 7 (destruct vs as [|? vs]; try done).
    rewrite be_val_put_be, Z.mod_small by done. by rewrite decide_True.
Qed.

Lemma refused_packet_no_trace_witness :
  decodePacket loaded_registry 0 (put_be 2 9 ++ replicate 30 Byte.x00) "10.0.0.7:41000"
    (example_cp "tcp") = (Err (ErrVersion 9), example_cp "tcp").
Proof.
  destruct (refused_packet_no_trace loaded_registry 0 (put_be 2 9 ++ replicate 30 Byte.x00)
    "10.0.0.7:41000" (example_cp "tcp")) as (_ & _ & H).
  - apply LoadRegistry_registry_ok, LoadRegistry_loaded.
  - apply (H 9 (replicate 30 Byte.x00)).
    + apply (bool_decide_unpack _). vm_compute. exact I.
    + discriminate.
    + apply Nat.leb_le. reflexivity.
    + reflexivity.
Defined.



(** C35: a template without fields hangs the collector.  A template record with field
    count 0 is accepted and stored, and then any data set with that id and at least
    one byte makes [decodePacket] loop for ever: the loop over the buffer reads
    records of no bytes. *)
Theorem empty_template_hangs reg now now' obs seq seq' t t' tid body addr host cp :
  in_u 32 obs → in_u 32 seq → in_u 32 seq' → in_u 16 tid → tid ≠ TemplateSetID →
  body ≠ [] → 20 + Z.of_nat (length body) < 65536 → export_host addr = Ok host →
  messageChan_closed cp = false →
  ∃ m cp',
    decodePacket reg now (template_message obs seq t tid []) addr cp = (Ok m, cp') ∧
    decodePacket reg now' (message obs seq' t' tid body) addr cp' = (Block, cp').
Proof.
  intros Hobs Hseq Hseq' Htid Hne Hb Hn Hh Hopen.
  destruct (decode_template_body reg now obs tid [] cp) as (es & E & Hes); try (done || constructor).
  unfold template_message. rewrite (decodePacket_message reg now obs seq t _ _ addr host) by done.
  rewrite E, addTemplate_closed, Hopen. eexists _, _. split; [done|].
  rewrite (decodePacket_message reg now' obs seq' t' _ _ addr host) by done.
  unfold decode_set. rewrite decide_False by done. unfold decodeDataSet.
  rewrite getTemplate_deliver, getTemplate_add, Hes. cbn [mbind go_bind].
  change (PrepareSet Data tid (NewSet true)) with (Ok (decoded_set tid [])). cbn [mbind go_bind].
  by rewrite (decode_records_stuck _ _ _ _ _ _ []).
Qed.

Lemma empty_template_hangs_witness :
  ∃ m cp',
    decodePacket loaded_registry 0 (template_message 1 0 1000 256 []) "10.0.0.7:41000"
      (example_cp "tcp") = (Ok m, cp') ∧
    decodePacket loaded_registry 0 (message 1 1 1001 256 [Byte.x00]) "10.0.0.7:41000" cp' =
      (Block, cp').
Proof.
  apply (empty_template_hangs loaded_registry 0 0 1 0 1 1000 1001 256 [Byte.x00]
    "10.0.0.7:41000" "10.0.0.7" (example_cp "tcp")).
  1-5: apply (bool_decide_unpack _); vm_compute; exact I.
  - discriminate.
  - reflexivity.
  - reflexivity.
  - reflexivity.
Defined.

(** The data types that are read as big-endian integers. *)
Definition integer_type (t : IEDataType) : bool :=
  match t with
  | Unsigned8 | Unsigned16 | Unsigned32 | Unsigned64 | Signed8 | Signed16 | Signed32 | Signed64
  | Float32 | Float64 | Boolean | DateTimeSeconds | DateTimeMilliseconds => true
  | _ => false
  end.

Lemma decode_integer_short ie bs :
  integer_type (DataType ie) = true → Z.of_nat (length bs) < InfoElementLength (DataType ie) →
  DecodeAndCreateInfoElementWithValue ie (Some bs) = Panic.
Proof.
  unfold DecodeAndCreateInfoElementWithValue, num_or_zero, slice_bytes.
  destruct (DataType ie); try done; simpl; intros _ Hl; by rewrite get_be_short by lia.
Qed.

(** A truncated data set crashes the collector.  When the first field of a known
    template is a number and the data set holds fewer bytes than that number takes,
    [decodePacket] panics instead of returning an error: the value is read from
    however many bytes [Next] returned. *)
Theorem truncated_number_panics reg now obs seq t tid ie tmpl body addr host cp :
  in_u 32 obs → in_u 32 seq → in_u 16 tid → tid ≠ TemplateSetID →
  getTemplate obs tid cp = Ok (ie :: tmpl) →
  integer_type (DataType ie) = true → Len ie = InfoElementLength (DataType ie) →
  body ≠ [] → Z.of_nat (length body) < Len ie → export_host addr = Ok host →
  decodePacket reg now (message obs seq t tid body) addr cp = (Panic, cp).
Proof.
  intros Hobs Hseq Htid Hne Ht Hi Hlen Hb Hl Hh.
  assert (Len ie <= 8) by (rewrite Hlen; by destruct (DataType ie)).
  rewrite (decodePacket_message reg now obs seq t _ _ addr host) by (done || lia).
  unfold decode_set. rewrite decide_False by done. unfold decodeDataSet. rewrite Ht.
  cbn [mbind go_bind].
  change (PrepareSet Data tid (NewSet true)) with (Ok (decoded_set tid [])). cbn [mbind go_bind].
  destruct body as [|b body]; [done|]. cbn [length decode_records decode_values].
  assert (E : decode_value ie (b :: body) = (Panic, drop (Z.to_nat (Len ie)) (b :: body))).
  { unfold decode_value. rewrite decide_False by (unfold VariableLength; lia).
    erewrite M_bind_Ok by done. erewrite M_bind_Ok by done. unfold M_lift.
    rewrite decode_integer_short; [done|done|]. rewrite length_take. lia. }
  unfold mbind, M_bind. by rewrite E.
Qed.

Lemma truncated_number_panics_witness :
  decodePacket loaded_registry 0 (message 1 5 1000 256 [Byte.x00; Byte.x01]) "10.0.0.7:41000"
    (example_learnt "tcp") = (Panic, example_learnt "tcp").
Proof.
  apply (truncated_number_panics loaded_registry 0 1 5 1000 256 (GetInfoElement example_octets)
    [GetInfoElement example_pod] [Byte.x00; Byte.x01] "10.0.0.7:41000" "10.0.0.7").
  1-4: apply (bool_decide_unpack _); vm_compute; exact I.
  - vm_compute. reflexivity.
  - reflexivity.
  - reflexivity.
  - discriminate.
  - reflexivity.
  - reflexivity.
Defined.

(** ** Expiry *)

(** The lifetime of a template, in seconds: the default is 5400. *)
Definition effective_ttl (cp : CollectingProcess) : Z :=
  if decide (templateTTL cp = 0) then TemplateTTL else templateTTL cp.

Lemma timers_add now obs tid es cp :
  timers (addTemplate now obs tid es cp) =
    timers cp ++ (if decide (protocol cp = "tcp") then []
                  else [mkTimer (now + effective_ttl cp) obs tid]) ∧
  effective_ttl (addTemplate now obs tid es cp) = effective_ttl cp ∧
  protocol (addTemplate now obs tid es cp) = protocol cp.
Proof.
  unfold addTemplate. destruct (String.eqb_spec (protocol cp) "tcp") as [E|E].
  - rewrite decide_True by done. by rewrite app_nil_r.
  - rewrite (decide_False (P := protocol cp = "tcp"%string)) by done.
    cbn [with_cp_templates timers protocol]. split_and!; [done| |done]. unfold effective_ttl. cbn [with_cp_templates templateTTL].
    destruct (decide (templateTTL cp = 0)); [done|]. by rewrite decide_False.
Qed.

(** The lifetime of a template that is received once.  Over TCP it never expires;
    otherwise it is there until its lifetime (the configured one, or 5400 seconds)
    has passed since it was received, and gone from then on. *)
Theorem template_lifetime now obs tid es cp t :
  ¬ Exists (timer_of obs tid) (timers cp) →
  getTemplate obs tid (fire_timers t (addTemplate now obs tid es cp)) =
    if decide (protocol cp ≠ "tcp" ∧ now + effective_ttl cp <= t)
    then Err (ErrCollectorTemplate tid obs) else Ok (GetInfoElement <$> es).
Proof.
  intros Hn. rewrite getTemplate_fire, getTemplate_add.
  destruct (timers_add now obs tid es cp) as (-> & _ & _).
  assert (Hn' : ¬ Exists (λ x, timer_of obs tid x ∧ deadline x <= t) (timers cp)).
  { intros H. apply Hn. eapply Exists_impl; [|exact H]. by intros ? []. }
  destruct (decide (protocol cp = "tcp")).
  - rewrite app_nil_r, !decide_False by tauto. done.
  - rewrite (decide_ext _ (protocol cp ≠ "tcp" ∧ now + effective_ttl cp <= t)); [done|].
    rewrite Exists_app, Exists_cons, Exists_nil. unfold timer_of. cbn [timer_obsDomainID timer_templateID deadline].
    tauto.
Qed.

Lemma template_lifetime_witness :
  getTemplate 1 256 (fire_timers 5399 (example_learnt "udp")) = Ok example_fields ∧
  getTemplate 1 256 (fire_timers 5400 (example_learnt "udp")) = Err (ErrCollectorTemplate 256 1).
Proof.
  split.
  - unfold example_learnt. rewrite template_lifetime; [reflexivity|]. intros H. inversion H.
  - unfold example_learnt. rewrite template_lifetime; [reflexivity|]. intros H. inversion H.
Defined.

(** Over UDP, receiving a template again does not extend its life.  Each arrival
    starts its own expiry goroutine and none is ever stopped, so a template that was
    refreshed in time is deleted when the first arrival's lifetime ends, although the
    last arrival was less than a lifetime ago. *)
Theorem refreshed_template_expires_early t0 t1 t obs tid es cp :
  protocol cp ≠ "tcp" → t0 <= t1 →
  t0 + effective_ttl cp <= t < t1 + effective_ttl cp →
  let cp' := addTemplate t1 obs tid es (addTemplate t0 obs tid es cp) in
  getTemplate obs tid cp' = Ok (GetInfoElement <$> es) ∧
  getTemplate obs tid (fire_timers t cp') = Err (ErrCollectorTemplate tid obs).
Proof.
  intros Hp Ht01 Ht cp'. split; [apply getTemplate_add|].
  unfold cp'. rewrite getTemplate_fire, decide_True; [done|].
  destruct (timers_add t1 obs tid es (addTemplate t0 obs tid es cp)) as (-> & _ & _).
  destruct (timers_add t0 obs tid es cp) as (-> & _ & _). rewrite decide_False by done.
  rewrite !Exists_app. left; right. constructor. split; [done|]. simpl. lia.
Qed.

Lemma refreshed_template_expires_early_witness :
  let cp' := addTemplate 1800 1 256 [ResetValue example_octets]
               (addTemplate 0 1 256 [ResetValue example_octets] (example_cp "udp")) in
  getTemplate 1 256 cp' = Ok [GetInfoElement example_octets] ∧
  getTemplate 1 256 (fire_timers 5400 cp') = Err (ErrCollectorTemplate 256 1).
Proof.
  apply (refreshed_template_expires_early 0 1800 5400).
  - discriminate.
  - apply Z.leb_le. reflexivity.
  - split; [apply Z.leb_le|apply Z.ltb_lt]; reflexivity.
Defined.

(** The export address.  The collector reports the host part of the sender's
    address: everything before the last colon, with the brackets of an IPv6 address
    removed; an address without a colon makes it panic. *)
Theorem export_host_parses host port :
  has_char ":" port = false → has_char "[" host = false → has_char "]" host = false →
  export_host (host +:+ ":" +:+ port) = Ok host ∧
  export_host ("[" +:+ host +:+ "]:" +:+ port) = Ok host ∧
  export_host port = Panic.
Proof.
  intros Hp H1 H2. unfold export_host. split_and!.
  - change (":" +:+ port) with (String ":" port). rewrite LastIndex_app by done.
    rewrite substring_app, (remove_char_none "[") by done. by rewrite remove_char_none.
  - replace ("[" +:+ host +:+ "]:" +:+ port) with (("[" +:+ host +:+ "]") +:+ String ":" port)
      by (by rewrite string_app_assoc; f_equal; rewrite string_app_assoc).
    rewrite LastIndex_app by done. by rewrite substring_app, remove_brackets.
  - by rewrite LastIndex_none.
Qed.

Lemma export_host_parses_witness :
  export_host "2001:db8::7:41000" = Ok "2001:db8::7" ∧
  export_host "[2001:db8::7]:41000" = Ok "2001:db8::7" ∧ export_host "41000" = Panic.
Proof. apply (export_host_parses "2001:db8::7" "41000"); reflexivity. Defined.
