(* ===== verification/Tcp.v ===== *)
(** * The TCP server of the collector

    src/pkg/collector/tcp.go, with the parts of process.go it needs: cutting the byte
    stream of a connection into messages, the handler of one connection, and the
    server with all its connections as a transition system. *)

From Stdlib Require Import ZArith Lia.
From Stdlib.Strings Require Import Byte.
From stdpp Require Import base gmap strings list numbers relations.
From S2P Require Import Prelude Bytes InfoElement Records Sets Wire Registry Collector.

#[local] Open Scope Z_scope.

(** ** The buffered reader of a connection *)

(** The bytes that have arrived and are not read yet, and what comes after them: an
    error ([ErrEOF] when the client closed the connection), or nothing so far. *)
Record stream : Type := mkStream {
  unread : list byte;
  stream_end : option error;
}.

(** [reader.Peek(n)], for [n] within the size of the reader's buffer. *)
Definition Peek_stream (n : nat) (reader : stream) : go (list byte) :=
  if decide (n <= length (unread reader))%nat then Ok (take n (unread reader))
  else match stream_end reader with
       | Some err => Err err
       | None => Block
       end.

(** [io.ReadFull(reader, buff)] for a buffer of [n] bytes. *)
Definition ReadFull (n : nat) : M stream (list byte) := fun reader =>
  if decide (n <= length (unread reader))%nat
  then (Ok (take n (unread reader)), mkStream (drop n (unread reader)) (stream_end reader))
  else match stream_end reader with
       | Some err =>
           (Err (if decide (err = ErrEOF ∧ unread reader ≠ []) then ErrUnexpectedEOF else err),
            mkStream [] (stream_end reader))
       | None => (Block, mkStream [] None)
       end.

Definition getMessageLength (reader : stream) : go Z :=
  partialHeader ← Peek_stream 4 reader;
  match (Decode [2%nat] (drop 2 partialHeader)).1 with
  | Ok [msgLen] => Ok msgLen
  | Ok _ => Panic
  | Err err => Err err
  | Panic => Panic
  | Block => Block
  end.

(** ** The handler of one connection *)

Section handler.
Context (reg : Registry).

(** One iteration of the handler's loop: [true] when the loop goes on. *)
Definition tcp_iteration (now : Z) (addr : string) : M (stream * CollectingProcess) bool :=
  fun '(reader, cp) =>
  match getMessageLength reader with
  | Err err =>
      if decide (err = ErrEOF) then (Ok false, (reader, cp))
      else (Ok false, (reader, deleteClient addr cp))
  | Panic => (Panic, (reader, cp))
  | Block => (Block, (reader, cp))
  | Ok length =>
      match ReadFull (Z.to_nat length) reader with
      | (Err _, reader) => (Ok false, (reader, deleteClient addr cp))
      | (Panic, reader) => (Panic, (reader, cp))
      | (Block, reader) => (Block, (reader, cp))
      | (Ok buff, reader) =>
          match decodePacket reg now buff addr cp with
          | (Ok _, cp) | (Err _, cp) => (Ok true, (reader, cp))
          | (Panic, cp) => (Panic, (reader, cp))
          | (Block, cp) => (Block, (reader, cp))
          end
      end
  end.

(** The loop; running out of fuel is [Block]. *)
Fixpoint tcp_loop (fuel : nat) (now : Z) (addr : string) : M (stream * CollectingProcess) unit :=
  match fuel with
  | O => M_lift Block
  | S fuel =>
      goes_on ← tcp_iteration now addr;
      if (goes_on : bool) then tcp_loop fuel now addr else mret tt
  end.

(** Every message takes at least one byte unless its length is 0, so that a loop that
    runs more often than there are bytes never stops. *)
Definition handleTCPClient (now : Z) (addr : string) (conn : stream) : CP unit := fun cp =>
  match createClient cp with
  | (Ok client, cp) =>
      let '(res, (_, cp)) :=
        tcp_loop (S (length (unread conn))) now addr (conn, addClient addr client cp) in
      (res, cp)
  | (Err err, cp) => (Err err, cp)
  | (Panic, cp) => (Panic, cp)
  | (Block, cp) => (Block, cp)
  end.

End handler.

(** ** Starting the server *)

Section server.
Context {Certificate : Type}.

Inductive ClientAuthType : Type := NoClientCert | RequireAndVerifyClientCert.

Record ServerTLSConfig : Type := mkServerTLSConfig {
  Certificates : list Certificate;
  ClientAuth : ClientAuthType;
  ClientCAs : slice;
  MinVersion : Z;
}.

(** [tls.X509KeyPair], [x509.CertPool.AppendCertsFromPEM] on a new pool, and
    [net.Listen] and [tls.Listen] with the address they listen on. *)
Context (X509KeyPair : slice → slice → go Certificate).
Context (AppendCertsFromPEM : slice → bool).
Context (listen_tcp : string → go string).
Context (listen_tls : string → ServerTLSConfig → go string).

Definition VersionTLS12 : Z := 771.

Definition createServerConfig (cp : CollectingProcess) : go ServerTLSConfig :=
  cert ← X509KeyPair (serverCert cp) (serverKey cp);
  match caCert cp with
  | None => Ok (mkServerTLSConfig [cert] NoClientCert None VersionTLS12)
  | Some _ =>
      if AppendCertsFromPEM (caCert cp)
      then Ok (mkServerTLSConfig [cert] RequireAndVerifyClientCert (caCert cp) VersionTLS12)
      else Err ErrRootCertificate
  end.

(** The part of [startTCPServer] before the accept loop: [true] when the server
    listens.  Errors are logged, and the server does not start. *)
Definition startTCPServer : CP bool := fun cp =>
  let listener :=
    if isEncrypted cp then
      config ← createServerConfig cp;
      listen_tls (address cp) config
    else listen_tcp (address cp) in
  match listener with
  | Ok addr => (Ok true, updateAddress addr cp)
  | Err _ => (Ok false, cp)
  | Panic => (Panic, cp)
  | Block => (Block, cp)
  end.

End server.
Arguments ServerTLSConfig : clear implicits.

(** ** The server and its connections *)

(** A connection the server has accepted.  [conn_done] says that the goroutine reading
    it has returned.  Two histories: all the bytes that have arrived, and the packets
    cut from them. *)
Record tcp_conn : Type := mkTcpConn {
  conn_addr : string;
  conn_stream : stream;
  conn_done : bool;
  conn_received : list byte;
  conn_frames : list (list byte);
}.

(** The history [srv_decoded] is the list of all packets given to [decodePacket]: the
    index of the connection, the time, the address and the bytes. *)
Record tcp_server : Type := mkTcpServer {
  srv_cp : CollectingProcess;
  srv_conns : list tcp_conn;
  srv_decoded : list (nat * Z * string * list byte);
}.

Definition new_conn (addr : string) : tcp_conn := mkTcpConn addr (mkStream [] None) false [] [].

Definition conn_receive (bs : list byte) (c : tcp_conn) : tcp_conn :=
  mkTcpConn (conn_addr c) (mkStream (unread (conn_stream c) ++ bs) (stream_end (conn_stream c)))
    (conn_done c) (conn_received c ++ bs) (conn_frames c).

Definition conn_end (k : nat) (err : error) (c : tcp_conn) : tcp_conn :=
  mkTcpConn (conn_addr c) (mkStream (take k (unread (conn_stream c))) (Some err))
    (conn_done c) (conn_received c) (conn_frames c).

(** The bytes an iteration took from the stream. *)
Definition taken (before after : stream) : list byte :=
  take (length (unread before) - length (unread after)) (unread before).

Definition conn_iterate (goes_on : bool) (st : stream) (c : tcp_conn) : tcp_conn :=
  mkTcpConn (conn_addr c) st (negb goes_on) (conn_received c)
    (if goes_on then conn_frames c ++ [taken (conn_stream c) st] else conn_frames c).

Section system.
Context (reg : Registry).

(** What can happen: a connection is accepted, bytes arrive on one, one ends (closed
    by the client or broken), a handler runs an iteration, [Stop] closes the stop
    channel, and then the handlers close their connections, whose unread bytes may be
    lost. *)
Inductive tcp_step : tcp_server → tcp_server → Prop :=
| tcp_accept addr client cp' s :
    stopChan_closed (srv_cp s) = false → createClient (srv_cp s) = (Ok client, cp') →
    tcp_step s (mkTcpServer (addClient addr client cp') (srv_conns s ++ [new_conn addr]) (srv_decoded s))
| tcp_receive i c bs s :
    srv_conns s !! i = Some c → stream_end (conn_stream c) = None →
    tcp_step s (mkTcpServer (srv_cp s) (<[i := conn_receive bs c]> (srv_conns s)) (srv_decoded s))
| tcp_end i c err s :
    srv_conns s !! i = Some c → stream_end (conn_stream c) = None →
    tcp_step s (mkTcpServer (srv_cp s)
      (<[i := conn_end (length (unread (conn_stream c))) err c]> (srv_conns s)) (srv_decoded s))
| tcp_goes_on i c now st cp s :
    srv_conns s !! i = Some c → conn_done c = false →
    tcp_iteration reg now (conn_addr c) (conn_stream c, srv_cp s) = (Ok true, (st, cp)) →
    tcp_step s (mkTcpServer cp (<[i := conn_iterate true st c]> (srv_conns s))
      (srv_decoded s ++ [(i, now, conn_addr c, taken (conn_stream c) st)]))
| tcp_returns i c now st cp s :
    srv_conns s !! i = Some c → conn_done c = false →
    tcp_iteration reg now (conn_addr c) (conn_stream c, srv_cp s) = (Ok false, (st, cp)) →
    tcp_step s (mkTcpServer cp (<[i := conn_iterate false st c]> (srv_conns s)) (srv_decoded s))
| tcp_stop cp s :
    close_stopChan (srv_cp s) = (Ok tt, cp) →
    tcp_step s (mkTcpServer cp (srv_conns s) (srv_decoded s))
| tcp_close i c k err s :
    stopChan_closed (srv_cp s) = true → srv_conns s !! i = Some c →
    stream_end (conn_stream c) = None →
    tcp_step s (mkTcpServer (srv_cp s) (<[i := conn_end k err c]> (srv_conns s)) (srv_decoded s)).

End system.

(** ** Lemmas: one iteration *)

(** The length field at the start of the stream. *)
Definition next_length (reader : stream) : nat := Z.to_nat (be_val (take 2 (drop 2 (unread reader)))).

Lemma getMessageLength_spec reader :
  getMessageLength reader =
  if decide (4 <= length (unread reader))%nat then Ok (be_val (take 2 (drop 2 (unread reader))))
  else match stream_end reader with Some err => Err err | None => Block end.
Proof.
  unfold getMessageLength, Peek_stream. case_decide as H; [|by destruct (stream_end reader)].
  cbn [mbind go_bind]. destruct (unread reader) as [|a [|b [|c [|d bs]]]]; simpl in H; try lia.
  done.
Qed.

Lemma iteration_goes_on reg now addr reader cp st cp' :
  tcp_iteration reg now addr (reader, cp) = (Ok true, (st, cp')) ↔
  let n := next_length reader in let pkt := take n (unread reader) in
  (4 <= length (unread reader) ∧ n <= length (unread reader))%nat ∧
  st = mkStream (drop n (unread reader)) (stream_end reader) ∧
  (decodePacket reg now pkt addr cp).1 ≠ Panic ∧ (decodePacket reg now pkt addr cp).1 ≠ Block ∧
  cp' = (decodePacket reg now pkt addr cp).2.
Proof.
  unfold tcp_iteration. rewrite getMessageLength_spec. unfold ReadFull.
  destruct (decide (4 <= length (unread reader))%nat) as [H4|H4]; cbn zeta.
  - fold (next_length reader). set (n := next_length reader).
    destruct (decide (n <= length (unread reader))%nat) as [Hn|Hn].
    + destruct (decodePacket reg now (take n (unread reader)) addr cp) as [[m|e| |] cp1]; simpl;
        (split; [by intros [= <- <-]|]); intros (_ & -> & ? & ? & ->); done.
    + destruct (stream_end reader); split; [done|naive_solver lia|done|naive_solver lia].
  - destruct (stream_end reader); [case_decide|]; (split; [done|naive_solver lia]).
Qed.

Lemma iteration_returns reg now addr reader cp st cp' :
  tcp_iteration reg now addr (reader, cp) = (Ok false, (st, cp')) →
  ∃ err, stream_end reader = Some err ∧ stream_end st = Some err ∧
    (unread st = unread reader ∨ unread st = []) ∧
    cp' = (if decide (err = ErrEOF ∧ (length (unread reader) < 4)%nat) then cp
           else deleteClient addr cp).
Proof.
  unfold tcp_iteration. rewrite getMessageLength_spec. unfold ReadFull.
  destruct (decide (4 <= length (unread reader))%nat) as [H4|H4].
  - case_decide.
    + destruct (decodePacket _ _ _ _ _) as [[] ?]; by intros [=].
    + destruct (stream_end reader) as [err|]; intros [= <- <-]. exists err.
      rewrite decide_False by naive_solver lia. auto.
  - destruct (stream_end reader) as [err|] eqn:He; [|by intros [=]]. case_decide as Hd; intros [= <- <-]; exists err.
    + rewrite decide_True by naive_solver lia. auto.
    + rewrite decide_False by naive_solver. auto.
Qed.

(** A message at the start of the stream that is there as a whole is decoded. *)
Lemma iteration_framed reg now addr pkt rest fin cp :
  framed pkt →
  tcp_iteration reg now addr (mkStream (pkt ++ rest) fin, cp) =
  match decodePacket reg now pkt addr cp with
  | (Ok _, cp) | (Err _, cp) => (Ok true, (mkStream rest fin, cp))
  | (Panic, cp) => (Panic, (mkStream rest fin, cp))
  | (Block, cp) => (Block, (mkStream rest fin, cp))
  end.
Proof.
  intros [H4 Hl]. unfold tcp_iteration. rewrite getMessageLength_spec. cbn [unread stream_end].
  rewrite decide_True by (rewrite length_app; lia).
  assert (Hl' : be_val (take 2 (drop 2 (pkt ++ rest))) = Z.of_nat (length pkt)).
  { rewrite drop_app_le, take_app_le by (rewrite ?length_drop; lia). done. }
  rewrite Hl'. unfold ReadFull. cbn [unread stream_end]. rewrite Nat2Z.id.
  rewrite decide_True by (rewrite length_app; lia).
  by rewrite take_app_length, drop_app_length.
Qed.

(** ** Lemmas: decoding and the servers' books do not interfere *)

Section books.
Context (net : option string) (stopped : bool) (cs : gmap string clientHandler) (nch : nat).

Lemma addTemplate_with_server now obs tid es cp :
  addTemplate now obs tid es (with_server net stopped cs nch cp) =
  with_server net stopped cs nch (addTemplate now obs tid es cp).
Proof. unfold addTemplate. cbn [protocol with_server]. by destruct (String.eqb _ _). Qed.

Lemma decode_set_with_server reg now setID obs buf cp :
  decode_set reg now setID obs buf (with_server net stopped cs nch cp) =
  let '(res, cp') := decode_set reg now setID obs buf cp in
  (res, with_server net stopped cs nch cp').
Proof.
  unfold decode_set, decodeTemplateSet. case_decide; [|done].
  destruct (decode_template_record reg buf).1 as [[tid es]| | |]; [|done..].
  destruct (_ ≫= _); [|done..]. by rewrite addTemplate_with_server.
Qed.

Lemma decodePacket_with_server reg now pkt addr cp :
  decodePacket reg now pkt addr (with_server net stopped cs nch cp) =
  let '(res, cp') := decodePacket reg now pkt addr cp in
  (res, with_server net stopped cs nch cp').
Proof.
  unfold decodePacket. destruct (Decode _ pkt) as [[vs| | |] buf]; [|done..].
  destruct vs as [|v [|l [|t [|seq [|obs [|setID [|setLen [|]]]]]]]]; try done.
  case_decide; [done|]. destruct (decode_message _ _ _ _ _ _); [|done..].
  rewrite decode_set_with_server. destruct (decode_set _ _ _ _ _ cp) as [[s| | |] cp']; [|done..].
  cbn [messageChan_closed with_server]. by destruct (messageChan_closed cp').
Qed.

End books.

Lemma with_server_id cp :
  with_server (netAddress cp) (stopChan_closed cp) (clients cp) (numChans cp) cp = cp.
Proof. by destruct cp. Qed.

(** [decodePacket] keeps the books as they are. *)
Lemma decodePacket_books reg now pkt addr cp :
  let cp' := (decodePacket reg now pkt addr cp).2 in
  clients cp' = clients cp ∧ numChans cp' = numChans cp ∧
  stopChan_closed cp' = stopChan_closed cp ∧ netAddress cp' = netAddress cp.
Proof.
  pose proof (decodePacket_with_server (netAddress cp) (stopChan_closed cp) (clients cp)
    (numChans cp) reg now pkt addr cp) as H.
  rewrite with_server_id in H. rewrite H. by destruct (decodePacket _ _ _ _ _).
Qed.

(** What the process knows and has delivered, apart from the servers' books. *)
Definition bare (cp : CollectingProcess) : CollectingProcess := with_server None false ∅ 0 cp.

Lemma decodePacket_bare reg now pkt addr cp cp1 :
  bare cp = bare cp1 →
  bare (decodePacket reg now pkt addr cp).2 = bare (decodePacket reg now pkt addr cp1).2.
Proof.
  intros H.
  pose proof (decodePacket_with_server None false ∅ 0 reg now pkt addr cp) as H1.
  pose proof (decodePacket_with_server None false ∅ 0 reg now pkt addr cp1) as H2.
  fold (bare cp) in H1. fold (bare cp1) in H2. rewrite H in H1. rewrite H1 in H2.
  destruct (decodePacket reg now pkt addr cp), (decodePacket reg now pkt addr cp1).
  exact (f_equal snd H2).
Qed.

(** ** Lemmas: a whole stream *)

Section stream.
Context (reg : Registry) (now : Z) (addr : string).

(** The packets of a connection one after the other; one that is refused is skipped. *)
Fixpoint decode_each (pkts : list (list byte)) : CP unit := fun cp =>
  match pkts with
  | [] => (Ok tt, cp)
  | pkt :: pkts =>
      match decodePacket reg now pkt addr cp with
      | (Ok _, cp) | (Err _, cp) => decode_each pkts cp
      | (Panic, cp) => (Panic, cp)
      | (Block, cp) => (Block, cp)
      end
  end.

Lemma decode_each_books pkts cp : clients (decode_each pkts cp).2 = clients cp.
Proof.
  revert cp. induction pkts as [|pkt pkts IH]; intros cp; [done|]. cbn [decode_each].
  destruct (decodePacket_books reg now pkt addr cp) as [H _].
  destruct (decodePacket reg now pkt addr cp) as [[m|e| |] cp1]; cbn in H |- *; by rewrite ?IH.
Qed.

(** The books when the handler returns at the end of the stream. *)
Definition leave (err : error) (cp : CollectingProcess) : CollectingProcess :=
  if decide (err = ErrEOF) then cp else deleteClient addr cp.

Lemma loop_framed fuel pkts rest err cp :
  Forall framed pkts → (length pkts < fuel)%nat → (length rest < 4)%nat →
  ∃ st, tcp_loop reg fuel now addr (mkStream (concat pkts ++ rest) (Some err), cp) =
    let '(res, cp') := decode_each pkts cp in
    (res, (st, match res with Ok _ => leave err cp' | _ => cp' end)).
Proof.
  intros Hf Hfuel Hr. revert fuel cp Hfuel.
  induction Hf as [|pkt pkts Hp Hf IH]; intros [|fuel] cp Hfuel; simpl in Hfuel; try lia.
  - exists (mkStream rest (Some err)). cbn [concat app tcp_loop decode_each].
    unfold mbind, M_bind, tcp_iteration, leave. rewrite getMessageLength_spec. cbn [unread stream_end].
    rewrite decide_False by lia. by case_decide.
  - cbn [concat tcp_loop decode_each]. rewrite <- app_assoc. unfold mbind, M_bind.
    rewrite iteration_framed by done.
    destruct (decodePacket reg now pkt addr cp) as [[m|e| |] cp1]; [apply IH; lia..|eauto|eauto].
Qed.

Lemma framed_count pkts : Forall framed pkts → (length pkts <= length (concat pkts))%nat.
Proof.
  induction 1 as [|pkt pkts [Hp _] _ IH]; cbn [length concat]; [lia|]. rewrite length_app. lia.
Qed.

(** The handler of a connection whose client sends messages: it decodes them one by one. *)
Lemma handle_framed pkts rest err cp :
  Forall framed pkts → (length rest < 4)%nat →
  handleTCPClient reg now addr (mkStream (concat pkts ++ rest) (Some err)) cp =
  let '(res, cp') := decode_each pkts
    (addClient addr (mkClientHandler (numChans cp)) (createClient cp).2) in
  (res, match res with Ok _ => leave err cp' | _ => cp' end).
Proof.
  intros Hf Hr. unfold handleTCPClient, createClient. cbn [snd].
  destruct (loop_framed (S (length (concat pkts ++ rest))) pkts rest err
    (addClient addr (mkClientHandler (numChans cp)) (createClient cp).2)) as [st E]; [done| |done|].
  - pose proof (framed_count pkts Hf). rewrite length_app. lia.
  - cbn [unread]. unfold createClient in E. cbn [snd] in E. rewrite E. by destruct (decode_each _ _).
Qed.

End stream.

(** ** Lemmas: the invariant of the server *)

Lemma taken_drop n reader :
  (n <= length (unread reader))%nat →
  taken reader (mkStream (drop n (unread reader)) (stream_end reader)) = take n (unread reader).
Proof. intros Hn. unfold taken. cbn [unread]. rewrite length_drop. f_equal. lia. Qed.

(** Two equal streams that start with the four bytes of a message header have the same
    length field. *)
Lemma next_length_app (a p x y : list byte) :
  a ++ x = p ++ y → (4 <= length a)%nat → (4 <= length p)%nat → take 2 (drop 2 a) = take 2 (drop 2 p).
Proof.
  intros E Ha Hp.
  assert (Hd : ∀ b z : list byte, (4 <= length b)%nat → take 2 (drop 2 (b ++ z)) = take 2 (drop 2 b)).
  { intros b z Hb. by rewrite drop_app_le, take_app_le by (rewrite ?length_drop; lia). }
  by rewrite <- (Hd a x Ha), E, Hd.
Qed.

(** The handler cuts the next message off a stream of messages. *)
Lemma next_message reader x pkts :
  Forall framed pkts → unread reader ++ x = concat pkts → (4 <= length (unread reader))%nat →
  (next_length reader <= length (unread reader))%nat →
  ∃ pkts', pkts = take (next_length reader) (unread reader) :: pkts'.
Proof.
  intros Hf E H4 Hn. destruct Hf as [|p pkts [Hp Hl] Hf]; cbn [concat] in E.
  { apply (f_equal length) in E. rewrite length_app in E. simpl in E. lia. }
  exists pkts. f_equal. unfold next_length in *.
  rewrite (next_length_app _ _ _ _ E H4 Hp), Hl, Nat2Z.id in *.
  apply (f_equal (take (length p))) in E.
  rewrite take_app_le, take_app_length in E by done. done.
Qed.

(** What has arrived on a connection is what was cut off, what is unread and what was
    lost when the server closed it; and if the client sends messages, those that were
    cut off are the first ones it sent. *)
Definition conn_ok (c : tcp_conn) : Prop :=
  (∃ lost, conn_received c = concat (conn_frames c) ++ unread (conn_stream c) ++ lost ∧
     (stream_end (conn_stream c) = None → lost = [])) ∧
  (∀ pkts future, Forall framed pkts → conn_received c ++ future = concat pkts →
     conn_frames c `prefix_of` pkts).

(** The packets of connection [i] in the history. *)
Definition frames_of (i : nat) (log : list (nat * Z * string * list byte)) : list (list byte) :=
  omap (λ '(j, _, _, pkt), if decide (j = i) then Some pkt else None) log.

Lemma conn_ok_new addr : conn_ok (new_conn addr).
Proof. split; [by exists []|]. intros. apply prefix_nil. Qed.

Lemma conn_ok_receive bs c : stream_end (conn_stream c) = None → conn_ok c → conn_ok (conn_receive bs c).
Proof.
  intros He [(lost & E & Hl) Hp]. rewrite Hl in E by done. split.
  - exists []. split; [|done]. cbn. rewrite E, !app_nil_r. by rewrite <- app_assoc.
  - intros pkts future Hf. cbn. rewrite <- app_assoc. by apply Hp.
Qed.

Lemma conn_ok_end k err c : stream_end (conn_stream c) = None → conn_ok c → conn_ok (conn_end k err c).
Proof.
  intros He [(lost & E & Hl) Hp]. split; [|exact Hp].
  exists (drop k (unread (conn_stream c)) ++ lost). split; [|done]. cbn.
  rewrite (app_assoc (take _ _)), take_drop. exact E.
Qed.

Lemma conn_ok_returns reg now cp st cp' c :
  tcp_iteration reg now (conn_addr c) (conn_stream c, cp) = (Ok false, (st, cp')) →
  conn_ok c → conn_ok (conn_iterate false st c).
Proof.
  intros (err & He & He' & Hu & _)%iteration_returns [(lost & E & _) Hp]. split; [|exact Hp].
  cbn. rewrite E. destruct Hu as [->| ->]; [by exists lost; rewrite He'|].
  exists (unread (conn_stream c) ++ lost). by rewrite He'.
Qed.

Lemma conn_ok_goes_on reg now cp st cp' c :
  tcp_iteration reg now (conn_addr c) (conn_stream c, cp) = (Ok true, (st, cp')) →
  conn_ok c → conn_ok (conn_iterate true st c).
Proof.
  intros ([H4 Hn] & -> & _)%iteration_goes_on [(lost & E & Hl) Hp].
  unfold conn_iterate. rewrite taken_drop by done.
  set (n := next_length (conn_stream c)) in *. split.
  - exists lost. split; [|done]. cbn.
    rewrite concat_app. cbn [concat]. rewrite app_nil_r, <- app_assoc, (app_assoc (take _ _)), take_drop.
    exact E.
  - cbn [conn_received conn_frames]. intros pkts future Hf Hr.
    destruct (Hp pkts future Hf Hr) as [pkts2 ->].
    rewrite E, concat_app, <- !app_assoc in Hr. apply app_inv_head in Hr.
    apply list.Forall_app in Hf as [_ Hf].
    destruct (next_message (conn_stream c) _ pkts2 Hf Hr) as [pkts3 ->]; [done..|].
    exists pkts3. by rewrite <- app_assoc.
Qed.

Section server_invariant.
Context (reg : Registry) (input : CollectorInput).

Definition replay (log : list (nat * Z * string * list byte)) (cp : CollectingProcess)
    : CollectingProcess :=
  foldl (λ cp '(_, now, addr, pkt), (decodePacket reg now pkt addr cp).2) cp log.

Definition server_inv (s : tcp_server) : Prop :=
  bare (srv_cp s) = bare (replay (srv_decoded s) (InitCollectingProcess input)) ∧
  (∀ i c, srv_conns s !! i = Some c → conn_ok c) ∧
  (∀ i, frames_of i (srv_decoded s) = from_option conn_frames [] (srv_conns s !! i)).

(** A step that changes one connection and adds nothing to the history. *)
Lemma server_inv_conn cp c c' i s :
  server_inv s → srv_conns s !! i = Some c → bare cp = bare (srv_cp s) →
  conn_ok c' → conn_frames c' = conn_frames c →
  server_inv (mkTcpServer cp (<[i := c']> (srv_conns s)) (srv_decoded s)).
Proof.
  intros (Hb & Hc & Hf) Hi Hcp Hok Hfr. split_and!; cbn [srv_cp srv_conns srv_decoded].
  - by rewrite Hcp.
  - intros j d [(_ & <- & _)|[_ Hj]]%list_lookup_insert_Some; [done|by eapply Hc].
  - intros j. rewrite Hf. destruct (decide (j = i)) as [->|Hne].
    + rewrite list_lookup_insert_eq by (by eapply lookup_lt_Some). rewrite Hi. cbn. by rewrite Hfr.
    + by rewrite list_lookup_insert_ne.
Qed.

Lemma iteration_bare_returns now addr st cp st' cp' :
  tcp_iteration reg now addr (st, cp) = (Ok false, (st', cp')) → bare cp' = bare cp.
Proof. intros (err & _ & _ & _ & ->)%iteration_returns. by case_decide. Qed.

Lemma server_inv_step s s' : tcp_step reg s s' → server_inv s → server_inv s'.
Proof.
  intros Hst Hinv. destruct Hst as [addr client cp' s Hop Hcr|i c bs s Hi He|i c err s Hi He
    |i c now st cp s Hi Hd Hit|i c now st cp s Hi Hd Hit|cp s Hcl|i c k err s Hst Hi He].
  - destruct Hinv as (Hb & Hc & Hf). injection Hcr as <- <-. split_and!; cbn [srv_cp srv_conns srv_decoded]; [exact Hb| |].
    + intros i c [Hi|[_ Hi]]%lookup_app_Some; [by eapply Hc|].
      apply list_lookup_singleton_Some in Hi as [_ <-]. apply conn_ok_new.
    + intros i. rewrite Hf, lookup_app. destruct (srv_conns s !! i) eqn:E; [done|].
      destruct ([new_conn addr] !! _) eqn:E2; [|done].
      by apply list_lookup_singleton_Some in E2 as [_ <-].
  - eapply server_inv_conn; [done|done|done| |done]. apply conn_ok_receive; [done|]. by eapply Hinv.
  - eapply server_inv_conn; [done|done|done| |done]. apply conn_ok_end; [done|]. by eapply Hinv.
  - pose proof Hinv as (Hb & Hc & Hf). pose proof (conn_ok_goes_on _ _ _ _ _ _ Hit (Hc _ _ Hi)) as Hok.
    apply iteration_goes_on in Hit as ([H4 Hn] & -> & _ & _ & ->). rewrite taken_drop by done.
    split_and!; cbn [srv_cp srv_conns srv_decoded].
    + unfold replay. rewrite foldl_app. cbn. by apply decodePacket_bare.
    + intros j d [(_ & <- & _)|[_ Hj]]%list_lookup_insert_Some; [done|by eapply Hc].
    + intros j. unfold frames_of. rewrite omap_app. fold (frames_of j (srv_decoded s)). rewrite Hf. cbn.
      destruct (decide (i = j)) as [<-|Hne].
      * rewrite list_lookup_insert_eq by (by eapply lookup_lt_Some). rewrite Hi. cbn.
        by rewrite taken_drop.
      * rewrite list_lookup_insert_ne by done. by rewrite app_nil_r.
  - eapply server_inv_conn; [done|done|by eapply iteration_bare_returns| |done].
    eapply conn_ok_returns; [done|]. by eapply Hinv.
  - unfold close_stopChan in Hcl. destruct (stopChan_closed _); [done|]. injection Hcl as <-. exact Hinv.
  - eapply server_inv_conn; [done|done|done| |done]. apply conn_ok_end; [done|]. by eapply Hinv.
Qed.

(** The server when it has started to listen. *)
Definition listening : tcp_server :=
  mkTcpServer (updateAddress (in_Address input) (InitCollectingProcess input)) [] [].

Lemma server_inv_reachable s :
  rtc (tcp_step reg) listening s → server_inv s.
Proof.
  intros H. refine (rtc_invariant _ _ _ _ server_inv_step H _).
  split_and!; [done|by intros i c [=]|done].
Qed.

End server_invariant.

(** ** Properties *)


(** Two connections from one exporter: the second message arrives in two segments. *)
Definition example_pkt1 : list byte := template_message 1 0 1000 256 example_fields.
Definition example_pkt2 : list byte := data_message 1 1 1001 256 [[example_octets; example_pod]].
Definition example_addr_tcp : string := "10.0.0.7:41000".

Definition example_c1 : tcp_conn :=
  conn_receive (take 7 example_pkt2) (conn_receive example_pkt1 (new_conn example_addr_tcp)).
Definition example_c2 : tcp_conn :=
  conn_iterate true (mkStream (take 7 example_pkt2) None) example_c1.
Definition example_accepted : CollectingProcess :=
  addClient example_addr_tcp (mkClientHandler 0)
    (createClient (srv_cp (listening (example_input_collector "tcp")))).2.
Definition example_srv : tcp_server :=
  mkTcpServer (decodePacket loaded_registry 1000 example_pkt1 example_addr_tcp example_accepted).2
    [example_c2] [(0%nat, 1000, example_addr_tcp, example_pkt1)].

Lemma example_srv_reachable :
  rtc (tcp_step loaded_registry) (listening (example_input_collector "tcp")) example_srv.
Proof.
  eapply rtc_l; [eapply (tcp_accept _ example_addr_tcp); reflexivity|].
  eapply rtc_l; [by eapply (tcp_receive _ 0 (new_conn example_addr_tcp) example_pkt1)|].
  eapply rtc_l; [by eapply (tcp_receive _ 0 _ (take 7 example_pkt2))|].
  apply rtc_once.
  refine (tcp_goes_on loaded_registry 0 example_c1 1000 (mkStream (take 7 example_pkt2) None) _ _ _ _ _);
    [done|done|].
  change (conn_stream example_c1) with (mkStream (example_pkt1 ++ take 7 example_pkt2) None).
  rewrite iteration_framed by (apply (bool_decide_unpack _); vm_compute; exact I).
  assert (H : (decodePacket loaded_registry 1000 example_pkt1 example_addr_tcp example_accepted).1 ≠ Panic ∧
    is_ok (decodePacket loaded_registry 1000 example_pkt1 example_addr_tcp example_accepted).1)
    by (split; [vm_compute; discriminate|vm_compute; by eexists]).
  change (srv_cp _) with example_accepted. change (conn_addr _) with example_addr_tcp.
  destruct (decodePacket loaded_registry 1000 example_pkt1 example_addr_tcp example_accepted) as [r cp].
  cbn [fst snd] in *. destruct H as [_ [m ->]]. done.
Qed.


Section loop.
Context (reg : Registry) (now : Z) (addr : string).

Lemma decodePacket_nil cp : decodePacket reg now [] addr cp = (Err ErrEOF, cp).
Proof. done. Qed.

(** A message of length 0 is not consumed. *)
Lemma iteration_zero st cp :
  (4 <= length (unread st))%nat → next_length st = 0%nat →
  tcp_iteration reg now addr (st, cp) = (Ok true, (st, cp)).
Proof.
  intros H4 H0. apply iteration_goes_on. rewrite H0. cbn [take drop].
  rewrite decodePacket_nil. split_and!; [done|lia|by destruct st|done..].
Qed.

Lemma loop_zero fuel st cp :
  (4 <= length (unread st))%nat → next_length st = 0%nat →
  tcp_loop reg fuel now addr (st, cp) = (Block, (st, cp)).
Proof.
  intros H4 H0. induction fuel as [|fuel IH]; [done|]. cbn [tcp_loop]. unfold mbind, M_bind.
  by rewrite iteration_zero.
Qed.

(** An iteration blocks while it waits for bytes, or in [decodePacket]. *)
Lemma iteration_block st cp :
  (tcp_iteration reg now addr (st, cp)).1 = Block →
  stream_end st = None ∨ ∃ pkt, (decodePacket reg now pkt addr cp).1 = Block.
Proof.
  unfold tcp_iteration. rewrite getMessageLength_spec. unfold ReadFull.
  destruct (stream_end st) eqn:He; [|by left]. right.
  case_decide; [|by case_decide]. case_decide; [|done].
  exists (take (Z.to_nat (be_val (take 2 (drop 2 (unread st))))) (unread st)).
  by destruct (decodePacket _ _ _ _ _) as [[] ?].
Qed.

(** Why a loop does not end. *)
Definition stuck (r : go unit * (stream * CollectingProcess)) (st : stream) : Prop :=
  stream_end st = None ∨
  (∃ pkt cp, (decodePacket reg now pkt addr cp).1 = Block) ∨
  ((4 <= length (unread r.2.1))%nat ∧ next_length r.2.1 = 0%nat).

(** An iteration that does not go on is the last one. *)
Lemma loop_last fuel n s :
  (tcp_iteration reg now addr s).1 ≠ Ok true →
  tcp_loop reg (S fuel) now addr s = tcp_loop reg (S n) now addr s.
Proof.
  cbn [tcp_loop]. unfold mbind, M_bind.
  destruct (tcp_iteration reg now addr s) as [[[]| | |] s']; done.
Qed.

Lemma loop_next fuel s s' :
  tcp_iteration reg now addr s = (Ok true, s') →
  tcp_loop reg (S fuel) now addr s = tcp_loop reg fuel now addr s'.
Proof. intros E. cbn [tcp_loop]. unfold mbind, M_bind. by rewrite E. Qed.

Lemma loop_block n st cp :
  (tcp_iteration reg now addr (st, cp)).1 ≠ Ok true →
  (tcp_loop reg (S n) now addr (st, cp)).1 = Block → (tcp_iteration reg now addr (st, cp)).1 = Block.
Proof.
  cbn [tcp_loop]. unfold mbind, M_bind.
  destruct (tcp_iteration reg now addr (st, cp)) as [[[]| | |] s']; done.
Qed.

Lemma loop_total n st cp :
  (length (unread st) < n)%nat →
  let r := tcp_loop reg n now addr (st, cp) in
  (∀ fuel, (n <= fuel)%nat → tcp_loop reg fuel now addr (st, cp) = r) ∧ (r.1 = Block → stuck r st).
Proof.
  revert st cp. induction n as [|n IH]; intros st cp Hn; [lia|]. cbv zeta.
  destruct (decide ((tcp_iteration reg now addr (st, cp)).1 = Ok true)) as [E|E].
  - destruct (tcp_iteration reg now addr (st, cp)) as [res [st' cp']] eqn:Eit. cbn in E. subst res.
    pose proof (proj1 (iteration_goes_on _ _ _ _ _ _ _) Eit) as ([H4 Hl] & Hst & _).
    destruct (decide (next_length st = 0%nat)) as [H0|H0].
    { split; [intros fuel _; by rewrite !loop_zero|]. intros _. right. right. by rewrite loop_zero. }
    assert (Hlt : (length (unread st') < n)%nat) by (rewrite Hst; cbn; rewrite length_drop; lia).
    destruct (IH st' cp' Hlt) as [H1 H2]. rewrite (loop_next _ _ _ Eit). split.
    + intros [|fuel] Hf; [lia|]. rewrite (loop_next _ _ _ Eit). apply H1. lia.
    + intros HB. destruct (H2 HB) as [Hs|Hs]; [left; by rewrite Hst in Hs|by right].
  - split; [intros [|fuel] Hf; [lia|by apply loop_last]|].
    intros HB. destruct (iteration_block st cp) as [?|[pkt ?]]; [by eapply loop_block|by left|].
    right. left. eauto.
Qed.

End loop.


(** C36: a message whose length field is 0 stops a connection for ever.  The handler
    decodes the messages before it; then it spins: every further iteration leaves the
    stream and the process as they are, whatever follows on the stream and however it
    ends, so that nothing more is decoded and the client is never removed. *)
Theorem zero_length_livelock reg now addr pkts a b rest fin cp cp' :
  Forall framed pkts → decode_each reg now addr pkts cp = (Ok tt, cp') →
  let st := mkStream (a :: b :: x00 :: x00 :: rest) fin in
  tcp_iteration reg now addr (st, cp') = (Ok true, (st, cp')) ∧
  ∀ fuel, (length pkts <= fuel)%nat →
    tcp_loop reg fuel now addr (mkStream (concat pkts ++ unread st) fin, cp) = (Block, (st, cp')).
Proof.
  intros Hf E st. assert (H0 : next_length st = 0%nat) by done.
  assert (H4 : (4 <= length (unread st))%nat) by (cbn; lia).
  split; [by apply iteration_zero|]. revert cp E.
  induction Hf as [|pkt pkts Hp Hf IH]; cbn [decode_each concat length app]; intros cp E fuel Hfuel.
  { injection E as ->. by apply loop_zero. }
  destruct fuel as [|fuel]; [lia|]. rewrite <- app_assoc.
  pose proof (iteration_framed reg now addr pkt (concat pkts ++ unread st) fin cp Hp) as Hit.
  destruct (decodePacket reg now pkt addr cp) as [[m|e| |] cp1]; [| |done..];
    rewrite (loop_next _ _ _ _ _ _ Hit); apply IH; (done || lia).
Qed.

Lemma zero_length_livelock_witness :
  ∃ cp', decode_each loaded_registry 1000 example_addr_tcp [example_pkt1] (example_cp "tcp") = (Ok tt, cp') ∧
    tcp_loop loaded_registry 1000 1000 example_addr_tcp
      (mkStream (example_pkt1 ++ [x00; x0a; x00; x00] ++ example_pkt2) (Some ErrEOF), example_cp "tcp") =
    (Block, (mkStream ([x00; x0a; x00; x00] ++ example_pkt2) (Some ErrEOF), cp')).
Proof.
  destruct (decode_each loaded_registry 1000 example_addr_tcp [example_pkt1] (example_cp "tcp"))
    as [res cp'] eqn:E. exists cp'.
  assert (res = Ok tt) as -> by (change res with (res, cp').1; rewrite <- E; vm_compute; reflexivity).
  split; [done|].
  refine (proj2 (zero_length_livelock loaded_registry 1000 example_addr_tcp [example_pkt1] x00 x0a
    example_pkt2 (Some ErrEOF) (example_cp "tcp") cp' _ E) 1000%nat _).
  - apply (bool_decide_unpack _). vm_compute. exact I.
  - simpl. lia.
Defined.

(** How a connection ends.  After whole messages and fewer than four further bytes
    the handler has decoded exactly those messages (an undecodable one is skipped); if
    the connection broke, the client is removed, and if the client closed it, the
    client stays in the map, so that [GetNumConnToCollector] goes on counting it. *)
Theorem tcp_connection_end reg now addr pkts rest err cp cp' :
  Forall framed pkts → (length rest < 4)%nat →
  decode_each reg now addr pkts
    (addClient addr (mkClientHandler (numChans cp)) (createClient cp).2) = (Ok tt, cp') →
  ∃ cp'', handleTCPClient reg now addr (mkStream (concat pkts ++ rest) (Some err)) cp = (Ok tt, cp'') ∧
    bare cp'' = bare cp' ∧
    clients cp'' = if decide (err = ErrEOF) then <[addr := mkClientHandler (numChans cp)]> (clients cp)
                   else delete addr (clients cp).
Proof.
  intros Hf Hr E. rewrite handle_framed by done. rewrite E. eexists. split; [done|].
  pose proof (decode_each_books reg now addr pkts
    (addClient addr (mkClientHandler (numChans cp)) (createClient cp).2)) as Hb.
  rewrite E in Hb. cbn in Hb. unfold leave.
  case_decide; [by rewrite Hb|]. split; [done|]. cbn. rewrite Hb. apply delete_insert_eq.
Qed.

Lemma tcp_connection_end_witness :
  ∃ cp cp'', handleTCPClient loaded_registry 1000 example_addr_tcp
      (mkStream (concat [example_pkt1; example_pkt2] ++ [x00]) (Some ErrEOF)) (example_cp "tcp") =
      (Ok tt, cp'') ∧
    bare cp'' = bare cp ∧ clients cp'' = {[example_addr_tcp := mkClientHandler 0]}.
Proof.
  destruct (decode_each loaded_registry 1000 example_addr_tcp [example_pkt1; example_pkt2]
    (addClient example_addr_tcp (mkClientHandler 0) (createClient (example_cp "tcp")).2))
    as [res cp'] eqn:E. exists cp'.
  assert (res = Ok tt) as -> by (change res with (res, cp').1; rewrite <- E; vm_compute; reflexivity).
  refine (tcp_connection_end loaded_registry 1000 example_addr_tcp [example_pkt1; example_pkt2] [x00]
    ErrEOF (example_cp "tcp") cp' _ _ E).
  - apply (bool_decide_unpack _). vm_compute. exact I.
  - simpl. lia.
Defined.
