(* ===== verification/Udp.v ===== *)
(** * The UDP server of the collector

    src/pkg/collector/udp.go, and [Start] of process.go: the goroutine that reads the
    socket, one goroutine for each client address, and the channels between them, as a
    transition system. *)

From Stdlib Require Import ZArith Lia.
From Stdlib.Strings Require Import Byte.
From stdpp Require Import base gmap strings list numbers relations.
From S2P Require Import Prelude Bytes InfoElement Records Sets Wire Registry Collector Tcp.

#[local] Open Scope Z_scope.

(** ** Starting the server *)

Section start.
Context {Certificate : Type}.

Record DTLSServerConfig : Type := mkDTLSServerConfig {
  dtls_Certificates : list Certificate;
  dtls_ClientCAs : slice;
}.

(** The libraries the server starts with: resolving the address, reading the key pair,
    listening (with the address they listen on), and accepting one DTLS connection. *)
Context (X509KeyPair : slice → slice → go Certificate).
Context (AppendCertsFromPEM : slice → bool).
Context (ResolveUDPAddr : string → go string).
Context (listen_udp : string → go string).
Context (listen_dtls : string → DTLSServerConfig → go string).
Context (accept_dtls : go unit).
Context (listen_tcp : string → go string).
Context (listen_tls : string → ServerTLSConfig Certificate → go string).

(** The part of [startUDPServer] before the reading goroutine: [true] when the server
    reads packets.  With DTLS the process has its address before the one connection is
    accepted. *)
Definition startUDPServer : CP bool := fun cp =>
  match ResolveUDPAddr (address cp) with
  | Ok addr =>
      if isEncrypted cp then
        match (cert ← X509KeyPair (serverCert cp) (serverKey cp);
               listen_dtls addr (mkDTLSServerConfig [cert] (serverCert cp))) with
        | Ok laddr =>
            match accept_dtls with
            | Ok _ => (Ok true, updateAddress laddr cp)
            | Err _ => (Ok false, updateAddress laddr cp)
            | Panic => (Panic, updateAddress laddr cp)
            | Block => (Block, updateAddress laddr cp)
            end
        | Err _ => (Ok false, cp)
        | Panic => (Panic, cp)
        | Block => (Block, cp)
        end
      else
        match listen_udp addr with
        | Ok laddr => (Ok true, updateAddress laddr cp)
        | Err _ => (Ok false, cp)
        | Panic => (Panic, cp)
        | Block => (Block, cp)
        end
  | Err _ => (Ok false, cp)
  | Panic => (Panic, cp)
  | Block => (Block, cp)
  end.

(** Any other protocol starts nothing, and says nothing. *)
Definition Start : CP bool := fun cp =>
  if String.eqb (protocol cp) "tcp"
  then startTCPServer X509KeyPair AppendCertsFromPEM listen_tcp listen_tls cp
  else if String.eqb (protocol cp) "udp" then startUDPServer cp
  else (Ok false, cp).

End start.
Arguments DTLSServerConfig : clear implicits.

(** ** The goroutines *)

(** Where the goroutine of a client is: in its [select], decoding a packet, or
    returned. *)
Inductive handler_pc : Type := Selecting | Decoding (pkt : list byte) | Gone.

(** The goroutine of a client; [uh_deadline] is when its ticker fires. *)
Record udp_handler : Type := mkUdpHandler {
  uh_addr : string;
  uh_pc : handler_pc;
  uh_deadline : Z;
}.

(** Where the reading goroutine is: in [ReadFromUDP]; about to look up the channel of the
    client a packet is from; sending the packet on channel [chan]; returned; or dead of
    a nil dereference. *)
Inductive reader_pc : Type :=
| Receiving
| LookingUp (addr : string) (pkt : list byte)
| SendingOn (addr : string) (chan : nat) (pkt : list byte)
| ReaderGone
| Crashed.

(** What is done to the collecting process: a packet decoded, templates expired. *)
Inductive udp_event : Type :=
| PacketDecoded (now : Z) (addr : string) (pkt : list byte)
| TemplatesExpired (now : Z).

(** The goroutine of the client with channel [n] is element [n] of [us_handlers].  Two
    histories: the packets read from the socket, and the events. *)
Record udp_server : Type := mkUdpServer {
  us_cp : CollectingProcess;
  us_now : Z;
  us_reader : reader_pc;
  us_handlers : list udp_handler;
  us_received : list (string * list byte);
  us_events : list udp_event;
}.

Definition with_cp (cp : CollectingProcess) (s : udp_server) : udp_server :=
  mkUdpServer cp (us_now s) (us_reader s) (us_handlers s) (us_received s) (us_events s).
Definition with_reader (r : reader_pc) (s : udp_server) : udp_server :=
  mkUdpServer (us_cp s) (us_now s) r (us_handlers s) (us_received s) (us_events s).
Definition with_handler (i : nat) (h : udp_handler) (s : udp_server) : udp_server :=
  mkUdpServer (us_cp s) (us_now s) (us_reader s) (<[i := h]> (us_handlers s)) (us_received s)
    (us_events s).
Definition with_event (e : udp_event) (s : udp_server) : udp_server :=
  mkUdpServer (us_cp s) (us_now s) (us_reader s) (us_handlers s) (us_received s)
    (us_events s ++ [e]).
Definition with_received (addr : string) (pkt : list byte) (s : udp_server) : udp_server :=
  mkUdpServer (us_cp s) (us_now s) (us_reader s) (us_handlers s) (us_received s ++ [(addr, pkt)])
    (us_events s).

Definition new_deadline (s : udp_server) : Z := us_now s + TemplateRefreshTimeOut.

(** A client without a handler gets one, with a new channel and its goroutine. *)
Definition handleUDPClient (addr : string) (s : udp_server) : udp_server :=
  match clients (us_cp s) !! addr with
  | Some _ => s
  | None =>
      match createClient (us_cp s) with
      | (Ok client, cp) =>
          mkUdpServer (addClient addr client cp) (us_now s) (us_reader s)
            (us_handlers s ++ [mkUdpHandler addr Selecting (new_deadline s)]) (us_received s)
            (us_events s)
      | _ => s
      end
  end.

(** The address a packet is filed under: over DTLS, the collector's own. *)
Definition packet_addr (addr : string) (cp : CollectingProcess) : string :=
  if isEncrypted cp then default EmptyString (netAddress cp) else addr.

(** What [ReadFromUDP] leaves of a packet in a buffer of [maxBufferSize] bytes. *)
Definition packet_read (bs : list byte) (cp : CollectingProcess) : list byte :=
  take (Z.to_nat (maxBufferSize cp)) bs.

Section system.
Context (reg : Registry).

(** A handler that returns without a packet removes its client. *)
Definition remove_client (i : nat) (h : udp_handler) (s : udp_server) : udp_server :=
  with_handler i (mkUdpHandler (uh_addr h) Gone (uh_deadline h))
    (with_cp (deleteClient (uh_addr h) (us_cp s)) s).

(** What can happen: time passes; a packet is read, its client's channel looked up and
    the packet handed over; a handler decodes a packet and goes on, or cannot and
    returns; it returns because its ticker fires or the process is stopped; [Stop] is
    called; the reader returns on a read error (which closing the socket gives); and
    expired templates are deleted. *)
Inductive udp_step : udp_server → udp_server → Prop :=
| udp_tick d s :
    0 <= d →
    udp_step s (mkUdpServer (us_cp s) (us_now s + d) (us_reader s) (us_handlers s) (us_received s)
      (us_events s))
| udp_receive src bs s :
    us_reader s = Receiving →
    let addr := packet_addr src (us_cp s) in
    let pkt := packet_read bs (us_cp s) in
    udp_step s (with_received addr pkt (with_reader (LookingUp addr pkt) (handleUDPClient addr s)))
| udp_look_up addr pkt client s :
    us_reader s = LookingUp addr pkt → clients (us_cp s) !! addr = Some client →
    udp_step s (with_reader (SendingOn addr (packetChan client) pkt) s)
| udp_no_client addr pkt s :
    us_reader s = LookingUp addr pkt → clients (us_cp s) !! addr = None →
    udp_step s (with_reader Crashed s)
| udp_hand_over addr i pkt h s :
    us_reader s = SendingOn addr i pkt → us_handlers s !! i = Some h → uh_pc h = Selecting →
    udp_step s (with_reader Receiving
      (with_handler i (mkUdpHandler (uh_addr h) (Decoding pkt) (uh_deadline h)) s))
| udp_decode i h pkt m cp s :
    us_handlers s !! i = Some h → uh_pc h = Decoding pkt →
    decodePacket reg (us_now s) pkt (uh_addr h) (us_cp s) = (Ok m, cp) →
    udp_step s (with_event (PacketDecoded (us_now s) (uh_addr h) pkt)
      (with_handler i (mkUdpHandler (uh_addr h) Selecting (new_deadline s)) (with_cp cp s)))
| udp_refuse i h pkt e cp s :
    us_handlers s !! i = Some h → uh_pc h = Decoding pkt →
    decodePacket reg (us_now s) pkt (uh_addr h) (us_cp s) = (Err e, cp) →
    udp_step s (with_event (PacketDecoded (us_now s) (uh_addr h) pkt)
      (with_handler i (mkUdpHandler (uh_addr h) Gone (uh_deadline h)) (with_cp cp s)))
| udp_timeout i h s :
    us_handlers s !! i = Some h → uh_pc h = Selecting → uh_deadline h <= us_now s →
    udp_step s (remove_client i h s)
| udp_stopped i h s :
    us_handlers s !! i = Some h → uh_pc h = Selecting → stopChan_closed (us_cp s) = true →
    udp_step s (remove_client i h s)
| udp_stop cp s :
    close_stopChan (us_cp s) = (Ok tt, cp) → udp_step s (with_cp cp s)
| udp_reader_returns s :
    us_reader s = Receiving →
    udp_step s (with_reader ReaderGone s)
| udp_expire s :
    udp_step s (with_event (TemplatesExpired (us_now s))
      (with_cp (fire_timers (us_now s) (us_cp s)) s)).

End system.

(** ** Lemmas: the invariant of the server *)

Section invariant.
Context (reg : Registry) (input : CollectorInput).

Definition apply_event (cp : CollectingProcess) (e : udp_event) : CollectingProcess :=
  match e with
  | PacketDecoded now addr pkt => (decodePacket reg now pkt addr cp).2
  | TemplatesExpired now => fire_timers now cp
  end.

(** The packets of an address among those read, and among those decoded. *)
Definition received_from (addr : string) (s : udp_server) : list (list byte) :=
  omap (λ '(a, pkt), if decide (a = addr) then Some pkt else None) (us_received s).
Definition decoded_from (addr : string) (s : udp_server) : list (list byte) :=
  omap (λ e, match e with
             | PacketDecoded _ a pkt => if decide (a = addr) then Some pkt else None
             | TemplatesExpired _ => None
             end) (us_events s).

(** The packet the handler of an address is decoding. *)
Definition decoding (pc : handler_pc) : list (list byte) :=
  match pc with Decoding pkt => [pkt] | _ => [] end.
Definition handling (addr : string) (s : udp_server) : list (list byte) :=
  match clients (us_cp s) !! addr with
  | Some client => from_option (decoding ∘ uh_pc) [] (us_handlers s !! packetChan client)
  | None => []
  end.

(** The packet the reader holds for an address. *)
Definition pending (addr : string) (s : udp_server) : list (list byte) :=
  match us_reader s with
  | LookingUp a pkt | SendingOn a _ pkt => if decide (a = addr) then [pkt] else []
  | _ => []
  end.

(** The clients and the goroutines belong together: a client's channel is that of a
    goroutine with its address, and a goroutine that has not returned is the one whose
    channel its client has. *)
Record udp_links (s : udp_server) : Prop := {
  links_chans : numChans (us_cp s) = length (us_handlers s);
  links_clients : ∀ addr client, clients (us_cp s) !! addr = Some client →
    ∃ h, us_handlers s !! packetChan client = Some h ∧ uh_addr h = addr;
  links_live : ∀ i h, us_handlers s !! i = Some h → uh_pc h ≠ Gone →
    clients (us_cp s) !! uh_addr h = Some (mkClientHandler i);
  links_reader : ∀ addr i pkt, us_reader s = SendingOn addr i pkt →
    ∃ h, us_handlers s !! i = Some h ∧ uh_addr h = addr;
}.

Definition in_order (s : udp_server) : Prop :=
  us_reader s ≠ Crashed → ∀ addr,
    received_from addr s = decoded_from addr s ++ handling addr s ++ pending addr s.

Definition udp_inv (s : udp_server) : Prop :=
  udp_links s ∧ in_order s ∧
  bare (us_cp s) = bare (foldl apply_event (InitCollectingProcess input) (us_events s)).

Lemma apply_event_bare e cp cp' :
  bare cp = bare cp' → bare (apply_event cp e) = bare (apply_event cp' e).
Proof.
  intros H. destruct e as [now addr pkt|now]; [by apply decodePacket_bare|].
  transitivity (fire_timers now (bare cp)); [done|]. by rewrite H.
Qed.

(** *** How the parts of the state keep the links *)

Lemma links_with_cp cp s :
  clients cp = clients (us_cp s) → numChans cp = numChans (us_cp s) →
  udp_links s → udp_links (with_cp cp s).
Proof. intros Hc Hn [H1 H2 H3 H4]. split; cbn; rewrite ?Hc, ?Hn; auto. Qed.

Lemma links_with_reader r s :
  (∀ addr i pkt, r = SendingOn addr i pkt → ∃ h, us_handlers s !! i = Some h ∧ uh_addr h = addr) →
  udp_links s → udp_links (with_reader r s).
Proof. intros Hr [H1 H2 H3 H4]. by split. Qed.

Lemma links_with_event e s : udp_links s → udp_links (with_event e s).
Proof. by intros []. Qed.

Lemma links_with_received addr pkt s : udp_links s → udp_links (with_received addr pkt s).
Proof. by intros []. Qed.

Lemma lookup_handler_update i h h' s j g :
  us_handlers s !! i = Some h → uh_addr h' = uh_addr h → us_handlers s !! j = Some g →
  ∃ g', <[i := h']> (us_handlers s) !! j = Some g' ∧ uh_addr g' = uh_addr g.
Proof.
  intros Hi Ha Hj. destruct (decide (i = j)) as [<-|Hne].
  - exists h'. rewrite list_lookup_insert_eq by (by eapply lookup_lt_Some). by simplify_eq.
  - exists g. by rewrite list_lookup_insert_ne.
Qed.

Lemma links_with_handler i h h' s :
  us_handlers s !! i = Some h → uh_addr h' = uh_addr h → (uh_pc h' ≠ Gone → uh_pc h ≠ Gone) →
  udp_links s → udp_links (with_handler i h' s).
Proof.
  intros Hi Ha Hp [H1 H2 H3 H4]. split; cbn [us_cp us_handlers us_reader with_handler].
  - by rewrite length_insert.
  - intros addr client Hc. destruct (H2 _ _ Hc) as (g & Hg & <-).
    by destruct (lookup_handler_update i h h' s _ g Hi Ha Hg) as (g' & ? & ?); eauto.
  - intros j g [(<- & <- & _)|[_ Hj]]%list_lookup_insert_Some Hl; [|by apply H3].
    rewrite Ha. apply H3; auto.
  - intros addr j pkt Hr. destruct (H4 _ _ _ Hr) as (g & Hg & <-).
    by destruct (lookup_handler_update i h h' s _ g Hi Ha Hg) as (g' & ? & ?); eauto.
Qed.

(** Two goroutines with the same address have not both still to return. *)
Lemma live_unique s i j h g :
  udp_links s → us_handlers s !! i = Some h → us_handlers s !! j = Some g →
  uh_pc h ≠ Gone → uh_pc g ≠ Gone → uh_addr h = uh_addr g → i = j.
Proof.
  intros HL Hi Hj Hh Hg E. pose proof (links_live _ HL _ _ Hi Hh) as H1.
  pose proof (links_live _ HL _ _ Hj Hg) as H2. rewrite E, H2 in H1. by injection H1.
Qed.

Lemma links_remove i h s :
  us_handlers s !! i = Some h → uh_pc h = Selecting → udp_links s → udp_links (remove_client i h s).
Proof.
  intros Hi Hp HL. assert (Hl : uh_pc h ≠ Gone) by (by rewrite Hp).
  destruct (links_with_handler i h (mkUdpHandler (uh_addr h) Gone (uh_deadline h)) s)
    as [H1 H2 H3 H4]; try done.
  split; cbn [us_cp us_handlers us_reader with_handler remove_client with_cp] in *; [exact H1| |
    |exact H4].
  - intros addr client Hc. cbn [clients deleteClient with_server] in Hc.
    apply lookup_delete_Some in Hc as [_ Hc]. by apply H2.
  - intros j g Hj Hg. pose proof (H3 j g Hj Hg) as Hc. cbn. apply lookup_delete_Some.
    split; [|exact Hc]. intros E. apply list_lookup_insert_Some in Hj as [(<- & <- & _)|[Hne Hj]]; [done|].
    by apply Hne, (live_unique s i j h g).
Qed.

Lemma links_handle addr s : udp_links s → udp_links (handleUDPClient addr s).
Proof.
  intros [H1 H2 H3 H4]. unfold handleUDPClient.
  destruct (clients (us_cp s) !! addr) as [client|] eqn:Hc; [by split|]. cbn [createClient].
  assert (Hold : ∀ i h, us_handlers s !! i = Some h →
    (us_handlers s ++ [mkUdpHandler addr Selecting (new_deadline s)]) !! i = Some h).
  { intros i h Hi. by apply lookup_app_l_Some. }
  split; cbn [us_cp us_handlers us_reader].
  - cbn. rewrite length_app, H1. cbn. lia.
  - intros a client Ha. cbn [clients addClient with_server] in Ha.
    apply lookup_insert_Some in Ha as [(<- & <-)|[_ Ha]].
    + eexists. cbn. rewrite H1, lookup_app_r, Nat.sub_diag by done. done.
    + destruct (H2 _ _ Ha) as (h & Hh & <-). eauto.
  - intros i h [Hi|[Hge Hi]]%lookup_app_Some Hl; cbn [clients addClient with_server].
    + rewrite lookup_insert_ne; [by apply H3|]. intros ->. by rewrite (H3 i h Hi Hl) in Hc.
    + apply list_lookup_singleton_Some in Hi as [Hi <-]. cbn [uh_addr]. rewrite lookup_insert_eq, H1.
      do 2 f_equal. lia.
  - intros a i pkt Hr. destruct (H4 _ _ _ Hr) as (h & Hh & E). eauto.
Qed.

(** *** How the packets in flight change *)

Lemma handling_live i h s :
  udp_links s → us_handlers s !! i = Some h → uh_pc h ≠ Gone →
  handling (uh_addr h) s = decoding (uh_pc h).
Proof. intros HL Hi Hl. unfold handling. rewrite (links_live _ HL _ _ Hi Hl). cbn. by rewrite Hi. Qed.

Lemma handling_update i h h' s s' addr :
  udp_links s → us_handlers s !! i = Some h → uh_pc h ≠ Gone → uh_addr h' = uh_addr h →
  clients (us_cp s') = clients (us_cp s) → us_handlers s' = <[i := h']> (us_handlers s) →
  handling addr s' = if decide (addr = uh_addr h) then decoding (uh_pc h') else handling addr s.
Proof.
  intros HL Hi Hl Ha Hc Hh. unfold handling. rewrite Hc, Hh. case_decide as E.
  - subst addr. rewrite (links_live _ HL _ _ Hi Hl). cbn.
    by rewrite list_lookup_insert_eq by (by eapply lookup_lt_Some).
  - destruct (clients (us_cp s) !! addr) as [client|] eqn:Hcl; [|done].
    rewrite list_lookup_insert_ne; [done|]. intros ->.
    destruct (links_clients _ HL _ _ Hcl) as (g & Hg & Eg). rewrite Hi in Hg. by simplify_eq.
Qed.

Lemma handling_remove i h s addr :
  udp_links s → us_handlers s !! i = Some h → uh_pc h = Selecting →
  handling addr (remove_client i h s) = handling addr s.
Proof.
  intros HL Hi Hp. assert (Hl : uh_pc h ≠ Gone) by (by rewrite Hp).
  destruct (decide (addr = uh_addr h)) as [->|Hne].
  - rewrite (handling_live i h s HL Hi Hl), Hp. unfold handling.
    cbn [us_cp remove_client with_handler with_cp clients deleteClient with_server].
    by rewrite lookup_delete_eq.
  - transitivity (handling addr (with_handler i (mkUdpHandler (uh_addr h) Gone (uh_deadline h)) s)).
    + unfold handling. cbn [us_cp us_handlers remove_client with_handler with_cp clients deleteClient with_server].
      by rewrite lookup_delete_ne.
    + rewrite (handling_update i h (mkUdpHandler (uh_addr h) Gone (uh_deadline h)) s) by done.
      by rewrite decide_False.
Qed.

Lemma handling_handle a s addr : udp_links s → handling addr (handleUDPClient a s) = handling addr s.
Proof.
  intros HL. unfold handleUDPClient. destruct (clients (us_cp s) !! a) as [|] eqn:Hc; [done|].
  cbn [createClient]. unfold handling. cbn [us_cp us_handlers clients addClient with_server].
  rewrite lookup_insert. case_decide as E.
  - subst a. rewrite Hc. cbn. rewrite (links_chans _ HL), lookup_app_r, Nat.sub_diag by done. done.
  - destruct (clients (us_cp s) !! addr) as [client|] eqn:Hcl; [|done].
    destruct (links_clients _ HL _ _ Hcl) as (h & Hh & _). by rewrite (lookup_app_l_Some _ _ _ _ Hh), Hh.
Qed.

Lemma handleUDPClient_same a s :
  us_received (handleUDPClient a s) = us_received s ∧ us_events (handleUDPClient a s) = us_events s ∧
  us_reader (handleUDPClient a s) = us_reader s ∧ bare (us_cp (handleUDPClient a s)) = bare (us_cp s).
Proof. unfold handleUDPClient. by destruct (clients (us_cp s) !! a). Qed.

Lemma received_from_snoc addr a pkt s :
  received_from addr (with_received a pkt s) =
  received_from addr s ++ if decide (a = addr) then [pkt] else [].
Proof. unfold received_from. cbn [us_received with_received]. rewrite omap_app. cbn. by case_decide. Qed.

Lemma decoded_from_snoc addr now a pkt s :
  decoded_from addr (with_event (PacketDecoded now a pkt) s) =
  decoded_from addr s ++ if decide (a = addr) then [pkt] else [].
Proof. unfold decoded_from. cbn [us_events with_event]. rewrite omap_app. cbn. by case_decide. Qed.

(** *** Every step keeps the invariant *)

Lemma decoded_books now pkt addr cp res cp' :
  decodePacket reg now pkt addr cp = (res, cp') → clients cp' = clients cp ∧ numChans cp' = numChans cp.
Proof.
  intros E. destruct (decodePacket_books reg now pkt addr cp) as (H1 & H2 & _). by rewrite E in H1, H2.
Qed.

Lemma closed_books cp cp' : close_stopChan cp = (Ok tt, cp') →
  clients cp' = clients cp ∧ numChans cp' = numChans cp ∧ bare cp' = bare cp.
Proof. unfold close_stopChan. destruct (stopChan_closed cp); [done|]. by intros [= <-]. Qed.

Lemma links_step s s' : udp_step reg s s' → udp_links s → udp_links s'.
Proof.
  destruct 1 as [d s|src bs s Hr addr pkt|addr pkt client s Hr Hc|addr pkt s Hr Hc
    |addr i pkt h s Hr Hi Hp|i h pkt m cp s Hi Hp Hd|i h pkt e cp s Hi Hp Hd|i h s Hi Hp Hd
    |i h s Hi Hp Hd|cp s Hcl|s Hr|s]; intros HL.
  - by destruct HL.
  - apply links_with_received, links_with_reader; [done|]. by apply links_handle.
  - apply links_with_reader; [|done]. intros a i p [= <- <- <-]. by apply links_clients.
  - by apply links_with_reader.
  - apply links_with_reader; [done|]. eapply links_with_handler; [done|done| |done]. by rewrite Hp.
  - apply decoded_books in Hd as [? ?].
    apply links_with_event, (links_with_handler i h); [done|done|by rewrite Hp|by apply links_with_cp].
  - apply decoded_books in Hd as [? ?].
    apply links_with_event, (links_with_handler i h); [done|done|done|by apply links_with_cp].
  - by apply links_remove.
  - by apply links_remove.
  - apply closed_books in Hcl as (? & ? & _). by apply links_with_cp.
  - by apply links_with_reader.
  - by apply links_with_event, links_with_cp.
Qed.

Lemma events_step s s' : udp_step reg s s' →
  bare (us_cp s) = bare (foldl apply_event (InitCollectingProcess input) (us_events s)) →
  bare (us_cp s') = bare (foldl apply_event (InitCollectingProcess input) (us_events s')).
Proof.
  destruct 1 as [d s|src bs s Hr addr pkt|addr pkt client s Hr Hc|addr pkt s Hr Hc
    |addr i pkt h s Hr Hi Hp|i h pkt m cp s Hi Hp Hd|i h pkt e cp s Hi Hp Hd|i h s Hi Hp Hd
    |i h s Hi Hp Hd|cp s Hcl|s Hr|s]; intros HB; try done.
  - destruct (handleUDPClient_same addr s) as (_ & He & _ & Hb). cbn. by rewrite He, Hb.
  - cbn. rewrite foldl_app. cbn. change cp with (Ok m, cp).2. rewrite <- Hd. by apply decodePacket_bare.
  - cbn. rewrite foldl_app. cbn. change cp with (Err e : go Message, cp).2. rewrite <- Hd.
    by apply decodePacket_bare.
  - apply closed_books in Hcl as (_ & _ & Hb). cbn. by rewrite Hb.
  - cbn [us_events us_cp with_event with_cp]. rewrite foldl_app.
    exact (apply_event_bare (TemplatesExpired (us_now s)) _ _ HB).
Qed.

(** A handler that stops decoding a packet has put it into the history. *)
Lemma order_decoded i h h' now pkt cp s :
  udp_links s → in_order s → us_handlers s !! i = Some h → uh_pc h = Decoding pkt →
  uh_addr h' = uh_addr h → decoding (uh_pc h') = [] → clients cp = clients (us_cp s) →
  in_order (with_event (PacketDecoded now (uh_addr h) pkt) (with_handler i h' (with_cp cp s))).
Proof.
  intros HL HO Hi Hp Ha Hd Hc Hnc addr. rewrite decoded_from_snoc.
  assert (Hl : uh_pc h ≠ Gone) by (by rewrite Hp).
  rewrite (handling_update i h h' s) by done.
  pose proof (HO Hnc addr) as E. change (received_from addr _) with (received_from addr s).
  change (decoded_from addr (with_handler _ _ _)) with (decoded_from addr s).
  change (pending addr _) with (pending addr s). rewrite E.
  destruct (decide (addr = uh_addr h)) as [->|Hne].
  - rewrite (handling_live i h s HL Hi Hl), Hp, Hd, decide_True by done. by rewrite <- app_assoc.
  - rewrite decide_False by done. by rewrite app_nil_r.
Qed.

Lemma order_step s s' : udp_step reg s s' → udp_links s → in_order s → in_order s'.
Proof.
  destruct 1 as [d s|src bs s Hr a pkt|a pkt client s Hr Hc|a pkt s Hr Hc
    |a i pkt h s Hr Hi Hp|i h pkt m cp s Hi Hp Hd|i h pkt e cp s Hi Hp Hd|i h s Hi Hp Hd
    |i h s Hi Hp Hd|cp s Hcl|s Hr|s]; intros HL HO.
  - exact HO.
  - intros _ addr. destruct (handleUDPClient_same a s) as (E1 & E2 & E3 & _).
    pose proof (HO ltac:(by rewrite Hr) addr) as E. unfold pending in E. rewrite Hr, app_nil_r in E.
    rewrite received_from_snoc. unfold received_from, decoded_from in *.
    cbn [us_received us_events with_received with_reader]. rewrite E1, E2, E, <- app_assoc. f_equal.
    by rewrite <- (handling_handle a s addr HL).
  - intros _ addr. pose proof (HO ltac:(by rewrite Hr) addr) as E. unfold pending in *. rewrite Hr in E.
    exact E.
  - by intros [].
  - intros _ addr. pose proof (HO ltac:(by rewrite Hr) addr) as E. unfold pending in E. rewrite Hr in E.
    destruct (links_reader _ HL _ _ _ Hr) as (g & Hg & Ea). rewrite Hi in Hg. injection Hg as <-.
    assert (Hl : uh_pc h ≠ Gone) by (by rewrite Hp).
    rewrite (handling_update i h (mkUdpHandler (uh_addr h) (Decoding pkt) (uh_deadline h)) s) by done.
    unfold pending. cbn [us_reader with_reader]. rewrite app_nil_r.
    change (received_from addr _) with (received_from addr s).
    change (decoded_from addr _) with (decoded_from addr s). rewrite E. f_equal.
    destruct (decide (addr = uh_addr h)) as [->|Hne].
    + rewrite (handling_live i h s HL Hi Hl), Hp, decide_True by done. done.
    + rewrite decide_False by congruence. by rewrite app_nil_r.
  - apply decoded_books in Hd as [? _]. by apply order_decoded.
  - apply decoded_books in Hd as [? _]. by apply order_decoded.
  - intros Hnc addr. rewrite handling_remove by done. exact (HO Hnc addr).
  - intros Hnc addr. rewrite handling_remove by done. exact (HO Hnc addr).
  - apply closed_books in Hcl as (Hc & _). intros Hnc addr. pose proof (HO Hnc addr) as E.
    unfold handling in *. cbn [us_cp us_handlers with_cp]. by rewrite Hc.
  - intros _ addr. pose proof (HO ltac:(by rewrite Hr) addr) as E. unfold pending in *. by rewrite Hr in E.
  - intros Hnc addr. unfold decoded_from. cbn [us_events with_event with_cp]. rewrite omap_app. cbn [omap].
    rewrite app_nil_r. exact (HO Hnc addr).
Qed.

(** The server when it has started to read packets. *)
Definition udp_listening (t : Z) : udp_server :=
  mkUdpServer (updateAddress (in_Address input) (InitCollectingProcess input)) t Receiving [] [] [].

Lemma udp_inv_reachable t s : rtc (udp_step reg) (udp_listening t) s → udp_inv s.
Proof.
  intros H. refine (rtc_invariant _ udp_inv _ _ _ H _).
  - intros x y Hxy (HL & HO & HB).
    split_and!; [by eapply links_step|by eapply order_step|by eapply events_step].
  - split_and!; [|done|done]. split; [done| |by intros i h [=]|done].
    intros addr client Hc. apply (lookup_empty_Some addr client) in Hc as [].
Qed.

End invariant.

(** ** Properties *)


(** The reader sends to a goroutine that has returned. *)
Definition reader_stuck (s : udp_server) : Prop :=
  ∃ addr i pkt h, us_reader s = SendingOn addr i pkt ∧ us_handlers s !! i = Some h ∧ uh_pc h = Gone.

(** A goroutine that has returned does not come back. *)
Lemma gone_step reg s s' i h :
  udp_step reg s s' → us_handlers s !! i = Some h → uh_pc h = Gone → us_handlers s' !! i = Some h.
Proof.
  intros Hst Hi Hg.
  assert (Hne : ∀ j g g', us_handlers s !! j = Some g → uh_pc g ≠ Gone →
    <[j := g']> (us_handlers s) !! i = Some h).
  { intros j g g' Hj Hl. rewrite list_lookup_insert_ne; [done|]. intros ->. by simplify_eq. }
  destruct Hst as [d s|src bs s Hr a pkt|a pkt client s Hr Hc|a pkt s Hr Hc
    |a j pkt g s Hr Hj Hp|j g pkt m cp s Hj Hp Hd|j g pkt e cp s Hj Hp Hd|j g s Hj Hp Hd
    |j g s Hj Hp Hd|cp s Hcl|s Hr|s]; try done; try (eapply Hne; [done|by rewrite Hp]).
  cbn. unfold handleUDPClient. destruct (clients (us_cp s) !! a); [done|]. by apply lookup_app_l_Some.
Qed.

Lemma stuck_step reg s s' :
  udp_step reg s s' → reader_stuck s →
  reader_stuck s' ∧ us_reader s' = us_reader s ∧ us_received s' = us_received s.
Proof.
  intros Hst (a & i & pkt & h & Hr & Hi & Hg).
  pose proof (gone_step reg s s' i h Hst Hi Hg) as Hi'.
  enough (us_reader s' = us_reader s ∧ us_received s' = us_received s) as [E1 E2].
  { split; [|done]. exists a, i, pkt, h. by rewrite E1. }
  destruct Hst; try done; congruence.
Qed.

Lemma stuck_forever reg s s' :
  rtc (udp_step reg) s s' → reader_stuck s →
  us_reader s' = us_reader s ∧ us_received s' = us_received s.
Proof.
  intros H Hs.
  refine (proj2 (rtc_invariant (udp_step reg)
    (λ x, reader_stuck x ∧ us_reader x = us_reader s ∧ us_received x = us_received s) s s' _ H _)); [|done].
  intros x y Hxy (Hx & E1 & E2). destruct (stuck_step reg x y Hxy Hx) as (Hy & E3 & E4).
  split; [done|]. by rewrite E3, E4.
Qed.

(** The client of an address is new, or its goroutine is waiting in its [select]. *)
Definition ready (addr : string) (s : udp_server) : Prop :=
  match clients (us_cp s) !! addr with
  | Some client => uh_pc <$> us_handlers s !! packetChan client = Some Selecting
  | None => True
  end.

#[global] Instance ready_dec addr s : Decision (ready addr s).
Proof.
  unfold ready. destruct (clients (us_cp s) !! addr); [|apply _].
  destruct (us_handlers s !! packetChan c) as [[? [] ?]|]; (by left) || (by right).
Defined.

(** After [handleUDPClient] the client has a goroutine that is waiting. *)
Lemma handle_ready addr s :
  udp_links s → ready addr s →
  ∃ i h, clients (us_cp (handleUDPClient addr s)) !! addr = Some (mkClientHandler i) ∧
    us_handlers (handleUDPClient addr s) !! i = Some h ∧ uh_pc h = Selecting ∧ uh_addr h = addr.
Proof.
  intros HL. unfold ready, handleUDPClient.
  destruct (clients (us_cp s) !! addr) as [[i]|] eqn:Hc.
  - intros Hh. cbn in Hh. destruct (us_handlers s !! i) as [h|] eqn:Hi; [|done]. injection Hh as Hh.
    exists i, h. split_and!; [done..|]. destruct (links_clients _ HL _ _ Hc) as (g & Hg & E).
    cbn in Hg. by simplify_eq.
  - intros _. cbn [createClient]. eexists _, _.
    cbn [us_cp us_handlers clients addClient with_server]. rewrite lookup_insert_eq. split_and!; [done|..].
    + rewrite (links_chans _ HL), lookup_app_r, Nat.sub_diag by done. done.
    + done.
    + done.
Qed.

Lemma handle_books addr s :
  ∃ cs n, us_cp (handleUDPClient addr s) =
    with_server (netAddress (us_cp s)) (stopChan_closed (us_cp s)) cs n (us_cp s) ∧
    us_now (handleUDPClient addr s) = us_now s.
Proof.
  unfold handleUDPClient. destruct (clients (us_cp s) !! addr).
  - exists (clients (us_cp s)), (numChans (us_cp s)). by rewrite with_server_id.
  - by eexists _, _.
Qed.

(** A packet from a client that is ready is read and handed to its goroutine. *)
Lemma packet_handed_over reg src bs s :
  udp_links s → us_reader s = Receiving →
  let addr := packet_addr src (us_cp s) in let pkt := packet_read bs (us_cp s) in
  ready addr s →
  ∃ i h, let s' := with_handler i (mkUdpHandler addr (Decoding pkt) (uh_deadline h))
                     (with_received addr pkt (with_reader Receiving (handleUDPClient addr s))) in
    rtc (udp_step reg) s s' ∧ clients (us_cp s') !! addr = Some (mkClientHandler i) ∧
    us_handlers (handleUDPClient addr s) !! i = Some h.
Proof.
  intros HL Hr addr pkt Hready. destruct (handle_ready addr s HL Hready) as (i & h & Hc & Hi & Hp & Ha).
  exists i, h. split_and!; [|done|done]. rewrite <- Ha at 1.
  eapply rtc_l; [by apply (udp_receive reg src bs)|].
  eapply rtc_l; [by eapply (udp_look_up reg addr pkt)|].
  apply rtc_once. by eapply (udp_hand_over reg addr i pkt h).
Qed.

(** The books do not matter to a packet that is refused. *)
Lemma refused_with_server reg now pkt addr net stopped cs n cp e :
  registry_ok reg → (decodePacket reg now pkt addr cp).1 = Err e →
  decodePacket reg now pkt addr (with_server net stopped cs n cp) =
    (Err e, with_server net stopped cs n cp).
Proof.
  intros Hreg He. rewrite decodePacket_with_server.
  destruct (decodePacket reg now pkt addr cp) as [res cp'] eqn:E. cbn in He. subst res.
  by rewrite (decodePacket_err reg _ _ _ _ _ _ Hreg E).
Qed.

(** A packet from a client whose goroutine has returned without removing it blocks the
    reader. *)
Lemma gone_client_blocks reg src bs s addr i h :
  us_reader s = Receiving → packet_addr src (us_cp s) = addr →
  clients (us_cp s) !! addr = Some (mkClientHandler i) →
  us_handlers s !! i = Some h → uh_pc h = Gone →
  ∃ s', rtc (udp_step reg) s s' ∧ reader_stuck s' ∧
    us_received s' = us_received s ++ [(addr, packet_read bs (us_cp s))].
Proof.
  intros Hr Ha Hc Hi Hg. set (pkt := packet_read bs (us_cp s)).
  assert (Hh : handleUDPClient addr s = s) by (unfold handleUDPClient; by rewrite Hc).
  exists (with_reader (SendingOn addr i pkt) (with_received addr pkt (with_reader (LookingUp addr pkt) s))).
  split_and!; [|by exists addr, i, pkt, h|done].
  eapply rtc_l; [by apply (udp_receive reg src bs)|]. cbv zeta. rewrite Ha, Hh.
  apply rtc_once. by apply (udp_look_up reg addr pkt (mkClientHandler i)).
Qed.

(** A packet that is refused, and one more from the same client. *)
Lemma bad_packet_silences reg input t s src bs bs' e :
  registry_ok reg → rtc (udp_step reg) (udp_listening input t) s → us_reader s = Receiving →
  let addr := packet_addr src (us_cp s) in
  ready addr s →
  (decodePacket reg (us_now s) (packet_read bs (us_cp s)) addr (us_cp s)).1 = Err e →
  ∃ s', rtc (udp_step reg) s s' ∧
    us_received s' = us_received s ++ [(addr, packet_read bs (us_cp s)); (addr, packet_read bs' (us_cp s))] ∧
    ∀ s'', rtc (udp_step reg) s' s'' → us_received s'' = us_received s'.
Proof.
  intros Hreg (HL & _)%udp_inv_reachable Hr addr Hready He.
  destruct (packet_handed_over reg src bs s HL Hr Hready) as (i & h & Hrun & Hc & Hi).
  set (s1 := with_handler _ _ _) in *. fold addr in s1, Hrun, Hc, Hi.
  destruct (handle_books addr s) as (cs & n & Hcp & Hnow).
  assert (Hi1 : us_handlers s1 !! i =
    Some (mkUdpHandler addr (Decoding (packet_read bs (us_cp s))) (uh_deadline h))).
  { apply list_lookup_insert_eq. by eapply lookup_lt_Some. }
  assert (Hd : decodePacket reg (us_now s1) (packet_read bs (us_cp s)) addr (us_cp s1) =
               (Err e, us_cp s1)).
  { unfold s1. cbn [us_cp us_now with_handler with_received with_reader]. rewrite Hcp, Hnow.
    by apply refused_with_server. }
  pose proof (udp_refuse reg i _ _ e _ s1 Hi1 eq_refl Hd) as Hstep. set (s2 := with_event _ _) in Hstep.
  destruct (gone_client_blocks reg src bs' s2 addr i (mkUdpHandler addr Gone (uh_deadline h)))
    as (s' & Hrun' & Hstuck & Hrec); [done| |done| |done|].
  - unfold s2, s1, packet_addr. cbn [us_cp with_event with_handler with_cp with_received with_reader].
    by rewrite Hcp.
  - apply list_lookup_insert_eq. by eapply lookup_lt_Some.
  - exists s'. split_and!.
    + etransitivity; [exact Hrun|]. eapply rtc_l; [exact Hstep|exact Hrun'].
    + rewrite Hrec. unfold s2, s1, packet_read.
      cbn [us_cp us_received with_event with_handler with_cp with_received with_reader].
      rewrite Hcp. destruct (handleUDPClient_same addr s) as (-> & _). by rewrite <- app_assoc.
    + intros s'' Hs''. by apply (stuck_forever reg s').
Qed.


Definition example_udp : udp_server := udp_listening (example_input_collector "udp") 1000.
Definition example_client : string := "10.0.0.9:5000".

(** The first packet of a client has been handed to its goroutine. *)
Definition example_handed : udp_server :=
  with_handler 0 (mkUdpHandler example_client (Decoding example_pkt1) 2800)
    (with_received example_client example_pkt1
      (with_reader Receiving (handleUDPClient example_client example_udp))).

Lemma example_handed_reachable : rtc (udp_step loaded_registry) example_udp example_handed.
Proof.
  eapply rtc_l; [by apply (udp_receive loaded_registry example_client example_pkt1)|].
  eapply rtc_l; [by apply (udp_look_up loaded_registry example_client example_pkt1 (mkClientHandler 0))|].
  apply rtc_once.
  by apply (udp_hand_over loaded_registry example_client 0 example_pkt1
    (mkUdpHandler example_client Selecting 2800)).
Qed.



(** A timeout can crash the collector.  From any state in which the reader waits for
    packets and some client's goroutine is idle, the following can happen: a packet of
    that client is read, and before the reader looks up the client's channel the
    goroutine's timeout deletes the client; the look-up then gives a nil handler and the
    reader panics. *)
Theorem udp_timeout_crashes reg src i h s :
  us_reader s = Receiving →
  clients (us_cp s) !! packet_addr src (us_cp s) = Some (mkClientHandler i) →
  us_handlers s !! i = Some h → uh_pc h = Selecting → uh_addr h = packet_addr src (us_cp s) →
  ∃ s', rtc (udp_step reg) s s' ∧ us_reader s' = Crashed.
Proof.
  intros Hr Hc Hi Hp Ha. set (addr := packet_addr src (us_cp s)) in *.
  set (s1 := mkUdpServer (us_cp s) (us_now s + Z.max 0 (uh_deadline h - us_now s)) (us_reader s)
               (us_handlers s) (us_received s) (us_events s)).
  assert (Hh : handleUDPClient addr s1 = s1) by (unfold handleUDPClient; cbn [us_cp s1]; by rewrite Hc).
  eexists. split.
  - eapply rtc_l; [apply (udp_tick reg (Z.max 0 (uh_deadline h - us_now s))); lia|].
    eapply rtc_l; [by apply (udp_receive reg src [])|]. fold s1. cbv zeta.
    change (packet_addr src (us_cp s1)) with addr. rewrite Hh.
    eapply rtc_l; [eapply (udp_timeout reg i h); [exact Hi|exact Hp|cbn; lia]|].
    apply rtc_once. eapply udp_no_client; [done|].
    cbn [us_cp remove_client with_handler with_cp clients deleteClient with_server].
    rewrite Ha. apply lookup_delete_eq.
  - done.
Qed.

Definition example_idle : udp_server := handleUDPClient example_client example_udp.

Lemma udp_timeout_crashes_witness :
  ∃ s', rtc (udp_step loaded_registry) example_idle s' ∧ us_reader s' = Crashed.
Proof.
  apply (udp_timeout_crashes loaded_registry example_client 0
    (mkUdpHandler example_client Selecting 2800)); reflexivity.
Defined.
