(* ===== verification/EndToEnd.v ===== *)
(** * From the exporter to the collector

    The exporting process of Exporter.v and the collecting process of Collector.v
    put together over a reliable connection: the bytes of all messages on one stream,
    which the TCP handler of Tcp.v cuts into messages.  An abstract specification of
    what is exported, and the proof that the pair implements it, for any sequence of
    sends. *)

From Stdlib Require Import ZArith Lia.
From Stdlib.Strings Require Import Byte.
From stdpp Require Import base gmap strings list numbers.
From S2P Require Import Prelude Bytes InfoElement Records Sets Wire Registry Exporter Collector Tcp.

#[local] Open Scope Z_scope.

(** ** What a user exports *)

Inductive export_op : Type :=
| ExportTemplate (tid : Z) (es : list InfoElementWithValue)
| ExportData (tid : Z) (recs : list (list InfoElementWithValue)).

(** The abstract state: the templates both sides have agreed on, and the number of
    data records exported, modulo 2^32. *)
Record export_spec : Type := mkExportSpec {
  known : gmap Z (list InfoElement);
  spec_seq : Z;
}.

(** A template may be exported when all its fields are elements of the registry
    that the library can represent, and its id is new or was used for the same
    fields; data may be exported when its template is known and it fits it. *)
Definition allowed (reg : Registry) (st : export_spec) (o : export_op) : Prop :=
  match o with
  | ExportTemplate tid es =>
      let ies := GetInfoElement <$> es in
      256 <= tid < 65536 ∧ es ≠ [] ∧ Forall (λ e, IsValueEmpty e = true) es ∧
      Forall wf_ie ies ∧ Forall (registered reg) ies ∧
      Forall (λ ie, template_type (DataType ie) = true) ies ∧
      20 + Z.of_nat (length (template_body tid ies)) <= 65535 ∧
      (known st !! tid = None ∨ known st !! tid = Some ies)
  | ExportData tid recs =>
      match known st !! tid with
      | Some ies => Forall (fits ies) recs ∧ 20 + Z.of_nat (length (data_body recs)) <= 65535
      | None => False
      end
  end.

#[global] Instance allowed_dec reg st o : Decision (allowed reg st o).
Proof.
  destruct o as [tid es|tid recs]; simpl; [apply _|]. destruct (known st !! tid); apply _.
Defined.

Definition spec_step (st : export_spec) (o : export_op) : export_spec :=
  match o with
  | ExportTemplate tid es => mkExportSpec (<[tid := GetInfoElement <$> es]> (known st)) (spec_seq st)
  | ExportData tid recs =>
      mkExportSpec (known st) (u32 (spec_seq st + u32 (Z.of_nat (length recs))))
  end.

Fixpoint all_allowed (reg : Registry) (st : export_spec) (ops : list export_op) : Prop :=
  match ops with
  | [] => True
  | o :: ops => allowed reg st o ∧ all_allowed reg (spec_step st o) ops
  end.

#[global] Instance all_allowed_dec reg st ops : Decision (all_allowed reg st ops).
Proof. revert st. induction ops; intros st; simpl; apply _. Defined.

(** What the message for an operation must hold when it comes out of the collector. *)
Definition reports (now obs : Z) (host : string) (st : export_spec) (o : export_op) (m : Message) : Prop :=
  exportTime m = u32 now ∧ obsDomainID m = obs ∧ exportAddress m = host ∧
  seqNumber m = spec_seq (spec_step st o) ∧
  ∃ s, msg_set m = Some s ∧
  match o with
  | ExportTemplate tid es =>
      setType s = Template ∧
      ∃ r, records s = [r] ∧ GetTemplateID r = tid ∧
           fmap GetInfoElement <$> GetOrderedElementList r = Some ∘ GetInfoElement <$> es
  | ExportData tid recs =>
      setType s = Data ∧
      records s = (λ es, DataRecord (data_record_of tid true (canonical <$> es))) <$> recs
  end.

Fixpoint all_reported (now obs : Z) (host : string) (st : export_spec) (ops : list export_op)
    (ms : list Message) : Prop :=
  match ops, ms with
  | [], [] => True
  | o :: ops, m :: ms => reports now obs host st o m ∧ all_reported now obs host (spec_step st o) ops ms
  | _, _ => False
  end.

(** ** The two processes at work *)

Section run.
Context (Write : Conn → list byte → Z * option error).
Context (json_encode : gmap string GoVal → Z → go (list byte)).
Context (reg : Registry).

(** Build the set and send it; an error ends the run. *)
Definition export (now : Z) (o : export_op) : EP unit :=
  s ← M_lift (match o with
              | ExportTemplate tid es => build_set Template tid [es]
              | ExportData tid recs => build_set Data tid recs
              end);
  res ← SendSet Write json_encode now s;
  match (res : sent * ipfix_set).1.2 with
  | Some e => M_lift (Err e)
  | None => mret tt
  end.

Fixpoint export_all (now : Z) (ops : list export_op) : EP unit :=
  match ops with
  | [] => mret tt
  | o :: ops => export now o;; export_all now ops
  end.

(** Decode packets one after the other. *)
Fixpoint collect (now : Z) (addr : string) (pkts : list (list byte)) : CP (list Message) :=
  match pkts with
  | [] => mret []
  | p :: pkts => m ← decodePacket reg now p addr; ms ← collect now addr pkts; mret (m :: ms)
  end.

End run.

(** ** The simulation relation *)

(** The message that an operation puts on the connection. *)
Definition packet_of (now obs : Z) (st : export_spec) (o : export_op) : list byte :=
  let seq := spec_seq (spec_step st o) in
  match o with
  | ExportTemplate tid es => template_message obs seq now tid (GetInfoElement <$> es)
  | ExportData tid recs => data_message obs seq now tid recs
  end.

Definition proper_template (tid : Z) (ies : list InfoElement) : Prop :=
  256 <= tid < 65536 ∧ ies ≠ [] ∧ Z.of_nat (length ies) < 65536.

(** The abstract states that can come up. *)
Definition proper_spec (st : export_spec) : Prop :=
  in_u 32 (spec_seq st) ∧ map_Forall proper_template (known st).

(** The exporting process is in this abstract state. *)
Record exporting (obs : Z) (st : export_spec) (ep : ExportingProcess) : Prop := {
  exp_obs : ep_obsDomainID ep = obs;
  exp_seq : ep_seqNumber ep = spec_seq st;
  exp_idle : templateMutex ep = false ∧ sendJSONRecord ep = false;
  exp_templates : templatesMap ep = template_entry <$> known st;
}.

(** The collecting process takes messages and knows all templates. *)
Definition collecting (obs : Z) (st : export_spec) (cp : CollectingProcess) : Prop :=
  messageChan_closed cp = false ∧
  ∀ tid ies, known st !! tid = Some ies → getTemplate obs tid cp = Ok ies.

Definition related (obs : Z) (st : export_spec) (ep : ExportingProcess) (cp : CollectingProcess)
    : Prop :=
  proper_spec st ∧ exporting obs st ep ∧ collecting obs st cp.

(** ** Lemmas: one operation *)

Lemma proper_step reg st o : allowed reg st o → proper_spec st → proper_spec (spec_step st o).
Proof.
  intros Ha [Hs Hk]. destruct o as [tid es|tid recs]; cbn [spec_step].
  - destruct Ha as (Htid & Hne & _ & _ & _ & _ & Hsz & _). split; [done|]. apply map_Forall_insert_2; [|done].
    pose proof (template_body_length tid (GetInfoElement <$> es)). rewrite length_fmap in *.
    split_and!; [lia|lia|by destruct es|rewrite length_fmap; lia].
  - split; [|done]. apply (mod_in_u 32). lia.
Qed.

Section exporter.
Context (Write : Conn → list byte → Z * option error).
Context (json_encode : gmap string GoVal → Z → go (list byte)).
Context (reg : Registry) (obs : Z).
(** The connection takes every write whole. *)
Hypothesis HW : ∀ c bs, Write c bs = (Z.of_nat (length bs), None).

Implicit Types (st : export_spec) (ep : ExportingProcess).

Lemma remember_known tid ies st ep :
  exporting obs st ep → known st !! tid = None ∨ known st !! tid = Some ies →
  ∃ m, remember tid ies ep = with_templates m ep ∧
       m = template_entry <$> <[tid := ies]> (known st).
Proof.
  intros HR Hk. pose proof (exp_templates _ _ _ HR) as Hm. unfold remember.
  rewrite Hm, lookup_fmap. destruct Hk as [E|E]; rewrite E; cbn [fmap option_fmap option_map].
  - eexists. split; [done|]. by rewrite fmap_insert.
  - exists (templatesMap ep). split; [by destruct ep|]. by rewrite Hm, insert_id.
Qed.

(** An allowed export succeeds and writes its message. *)
Lemma export_sends now o st ep c :
  exporting obs st ep → connToCollector ep = Some c → proper_spec st → allowed reg st o →
  ∃ ep', export Write json_encode now o ep = (Ok tt, ep') ∧
    connToCollector ep' = Some (sent_on c (packet_of now obs st o)) ∧ exporting obs (spec_step st o) ep'.
Proof.
  intros HR Hc Hp Ha. pose proof (proper_step reg st o Ha Hp) as Hp'.
  pose proof HR as [Hobs Hseq [Hmx Hj] Hex]. unfold export.
  destruct o as [tid es|tid recs]; cbn [spec_step packet_of spec_seq] in *.
  - destruct Ha as (Htid & _ & He & _ & _ & _ & Hsz & Hk). destruct Hp' as [_ Hp'].
    destruct (Hp' tid _ (lookup_insert_eq _ _ _)) as (_ & _ & Hn). rewrite length_fmap in Hn.
    destruct (SendSet_template_ok Write json_encode now tid es ep c) as [s' Hs]; try done.
    destruct (remember_known tid (GetInfoElement <$> es) st ep HR Hk) as (m & Hr & Hm).
    rewrite Hr, Hobs, Hseq in Hs. eexists. split_and!.
    + rewrite build_template_set by done. erewrite M_bind_Ok by done. by erewrite M_bind_Ok by exact Hs.
    + done.
    + by constructor.
  - simpl in Ha. destruct (known st !! tid) as [ies|] eqn:Hk; [|done]. destruct Ha as [Hfit Hsz].
    destruct Hp as [_ Hp]. destruct (Hp tid ies Hk) as (_ & _ & Hn).
    destruct (SendSet_data_ok Write json_encode now tid ies recs ep c) as [s' Hs]; try done.
    { by rewrite Hex, lookup_fmap, Hk. }
    rewrite Hobs, Hseq in Hs. eexists. split_and!.
    + rewrite build_data_set; [erewrite M_bind_Ok by done; by erewrite M_bind_Ok by exact Hs|].
      eapply list.Forall_impl; [exact Hfit|]. intros es [Hes _]. by rewrite <- (length_fmap GetInfoElement), Hes.
    + done.
    + by constructor.
Qed.

End exporter.

Section collector.
Context (reg : Registry) (obs : Z) (addr host : string).
Hypothesis Hobs : in_u 32 obs.
(** The sender's address has a host. *)
Hypothesis Hhost : export_host addr = Ok host.

Implicit Types (st : export_spec) (cp : CollectingProcess).

(** A template arrives. *)
Lemma template_arrives now cnow tid es st cp :
  proper_spec st → allowed reg st (ExportTemplate tid es) → messageChan_closed cp = false →
  ∃ es' m, GetInfoElement <$> es' = GetInfoElement <$> es ∧
    decodePacket reg cnow (packet_of now obs st (ExportTemplate tid es)) addr cp =
      (Ok m, deliver m (addTemplate cnow obs tid es' cp)) ∧
    reports now obs host st (ExportTemplate tid es) m.
Proof.
  intros [Hs Hp] (Htid & Hne & He & H1 & H2 & H3 & Hsz & Hk) Hop.
  destruct (decode_template_message reg cnow obs (spec_seq st) now tid (GetInfoElement <$> es) addr host cp)
    as (es' & Hes' & Hd); try done; [unfold in_u; simpl; lia|lia|].
  exists es'. eexists. split_and!; [done|exact Hd|]. split_and!; try done.
  eexists. split; [done|]. split; [done|]. eexists. split_and!; [done|done|].
  change (GetOrderedElementList _) with ((Some <$> es') ++ []). rewrite app_nil_r.
  rewrite (list_fmap_compose GetInfoElement Some es), <- Hes'. by rewrite <- !list_fmap_compose.
Qed.

(** Data arrive when the template is known. *)
Lemma data_arrives now cnow tid recs st cp ies :
  proper_spec st → allowed reg st (ExportData tid recs) → known st !! tid = Some ies →
  getTemplate obs tid cp = Ok ies → messageChan_closed cp = false →
  ∃ m, decodePacket reg cnow (packet_of now obs st (ExportData tid recs)) addr cp = (Ok m, deliver m cp) ∧
    reports now obs host st (ExportData tid recs) m.
Proof.
  intros Hp Ha Hk Ht Hop. pose proof (proper_step _ _ _ Ha Hp) as [Hs _]. destruct Hp as [_ Hp].
  destruct (Hp tid ies Hk) as (Htid & Hne & Hn). simpl in Ha. rewrite Hk in Ha. destruct Ha as [Hfit Hsz].
  eexists. split.
  - apply (decode_data_message reg cnow obs _ now tid ies recs addr host cp); try done;
      [unfold in_u; simpl; lia|unfold TemplateSetID; lia|lia].
  - split_and!; try done. eexists. split; [done|]. split; [done|].
    cbn [decoded_set records]. by rewrite <- list_fmap_compose.
Qed.

End collector.

Lemma packet_framed reg now obs st o : allowed reg st o → framed (packet_of now obs st o).
Proof.
  destruct o as [tid es|tid recs]; cbn [packet_of allowed].
  - intros (_ & _ & _ & _ & _ & _ & Hsz & _). apply message_framed. lia.
  - destruct (known st !! tid); [|done]. intros [_ Hsz]. apply message_framed. lia.
Qed.

Section simulation.
Context (Write : Conn → list byte → Z * option error).
Context (json_encode : gmap string GoVal → Z → go (list byte)).
Context (reg : Registry) (obs : Z) (addr host : string).
Hypothesis HW : ∀ c bs, Write c bs = (Z.of_nat (length bs), None).
Hypothesis Hobs : in_u 32 obs.
Hypothesis Hhost : export_host addr = Ok host.

Implicit Types (st : export_spec) (ep : ExportingProcess) (cp : CollectingProcess).

Lemma arrives_in_order now cnow o st cp :
  proper_spec st → allowed reg st o → collecting obs st cp →
  ∃ m cp', decodePacket reg cnow (packet_of now obs st o) addr cp = (Ok m, cp') ∧
    reports now obs host st o m ∧ collecting obs (spec_step st o) cp'.
Proof.
  intros Hp Ha [Hop Hco]. destruct o as [tid es|tid recs].
  - destruct (template_arrives reg obs addr host Hobs Hhost now cnow tid es st cp Hp Ha Hop) as (es' & m & Hes & Hd & Hm).
    exists m. eexists. split_and!; [exact Hd|done|]. split; [by cbn; rewrite addTemplate_closed|].
    intros tid' ies'. cbn [spec_step known]. rewrite lookup_insert, getTemplate_deliver. case_decide as Ht.
    + intros [= <-]. subst tid'. by rewrite getTemplate_add, Hes.
    + intros Hk'. rewrite getTemplate_add_ne by congruence. by apply Hco.
  - destruct (known st !! tid) as [ies|] eqn:Hk; [|simpl in Ha; by rewrite Hk in Ha].
    destruct (data_arrives reg obs addr host Hobs Hhost now cnow tid recs st cp ies Hp Ha Hk (Hco _ _ Hk) Hop)
      as (m & Hd & Hm).
    exists m. by eexists.
Qed.

Lemma export_step now cnow o st ep cp c :
  related obs st ep cp → connToCollector ep = Some c → allowed reg st o →
  ∃ pkt ep' m cp',
    export Write json_encode now o ep = (Ok tt, ep') ∧
    connToCollector ep' = Some (sent_on c pkt) ∧
    framed pkt ∧ decodePacket reg cnow pkt addr cp = (Ok m, cp') ∧
    reports now obs host st o m ∧ related obs (spec_step st o) ep' cp'.
Proof.
  intros (Hp & He & Hco) Hc Ha.
  destruct (export_sends Write json_encode reg obs HW now o st ep c He Hc Hp Ha) as (ep' & H1 & H2 & H3).
  destruct (arrives_in_order now cnow o st cp Hp Ha Hco) as (m & cp' & H4 & H5 & H6).
  exists (packet_of now obs st o), ep', m, cp'. split_and!; try done; [by eapply packet_framed|].
  split_and!; [by eapply proper_step|done|done].
Qed.

Lemma export_all_steps now cnow ops st ep cp c :
  related obs st ep cp → connToCollector ep = Some c → all_allowed reg st ops →
  ∃ pkts ep' ms cp',
    export_all Write json_encode now ops ep = (Ok tt, ep') ∧
    connToCollector ep' = Some (mkConn (conn_sent c ++ pkts) (conn_closed c)) ∧
    Forall framed pkts ∧ collect reg cnow addr pkts cp = (Ok ms, cp') ∧
    all_reported now obs host st ops ms ∧ related obs (foldl spec_step st ops) ep' cp'.
Proof.
  revert st ep cp c. induction ops as [|o ops IH]; intros st ep cp c HR Hc Hops.
  { exists [], ep, [], cp. split_and!; try done. destruct c. simpl. by rewrite app_nil_r. }
  destruct Hops as [Ho Hops].
  destruct (export_step now cnow o st ep cp c HR Hc Ho) as (pkt & ep1 & m & cp1 & E1 & Hc1 & F1 & D1 & R1 & HR1).
  destruct (IH _ _ _ _ HR1 Hc1 Hops) as (pkts & ep' & ms & cp' & E2 & Hc2 & F2 & D2 & R2 & HR2).
  exists (pkt :: pkts), ep', (m :: ms), cp'. split_and!; try done.
  - cbn [export_all]. by erewrite M_bind_Ok by exact E1.
  - rewrite Hc2. cbn [sent_on conn_sent conn_closed]. by rewrite <- app_assoc.
  - by constructor.
  - cbn [collect]. erewrite M_bind_Ok by exact D1. by erewrite M_bind_Ok by exact D2.
Qed.

End simulation.

(** ** Lemmas: the packets on a stream *)

(** Packets that all decode are decoded by the handler, too, and delivered in order. *)
Lemma collect_decode_each reg now addr pkts cp ms cp' :
  collect reg now addr pkts cp = (Ok ms, cp') →
  decode_each reg now addr pkts cp = (Ok tt, cp') ∧ messageChan cp' = messageChan cp ++ ms.
Proof.
  revert cp ms. induction pkts as [|pkt pkts IH]; intros cp ms; cbn [collect decode_each].
  { intros [= <- <-]. by rewrite app_nil_r. }
  unfold mbind, M_bind.
  destruct (decodePacket reg now pkt addr cp) as [[m| | |] cp1] eqn:E; [|done..].
  destruct (collect reg now addr pkts cp1) as [[ms1| | |] cp2] eqn:E2; [|done..].
  intros [= <- <-]. destruct (IH cp1 ms1 E2) as [-> ->]. split; [done|].
  pose proof (decodePacket_messages reg now pkt addr cp) as Hm. rewrite E in Hm. cbn [fst snd] in Hm.
  by rewrite Hm, <- app_assoc.
Qed.

(** A whole session, from the first send to the last delivery. *)
Lemma session_delivered Write json_encode reg now cnow obs addr host input c ops jbl :
  (∀ c bs, Write c bs = (Z.of_nat (length bs), None)) → export_host addr = Ok host →
  in_u 32 obs → all_allowed reg (mkExportSpec ∅ 0) ops →
  let ep := mkExportingProcess (Some c) obs 0 startTemplateID ∅ false false false jbl in
  ∃ pkts ep' cp',
    export_all Write json_encode now ops ep = (Ok tt, ep') ∧
    connToCollector ep' = Some (mkConn (conn_sent c ++ pkts) (conn_closed c)) ∧
    handleTCPClient reg cnow addr (mkStream (concat pkts) (Some ErrEOF))
      (InitCollectingProcess input) = (Ok tt, cp') ∧
    all_reported now obs host (mkExportSpec ∅ 0) ops (messageChan cp').
Proof.
  intros HW Hh Hobs Hops ep.
  set (cp := addClient addr (mkClientHandler 0) (createClient (InitCollectingProcess input)).2).
  destruct (export_all_steps Write json_encode reg obs addr host HW Hobs Hh now cnow ops
              (mkExportSpec ∅ 0) ep cp c)
    as (pkts & ep' & ms & cp' & H1 & H2 & Hf & H3 & H4 & _); [by split_and!|done|done|].
  apply collect_decode_each in H3 as [H3 Hms].
  exists pkts, ep', cp'. split_and!; [done|done| |by rewrite Hms].
  rewrite <- (app_nil_r (concat pkts)), handle_framed by (done || simpl; lia).
  change (addClient addr _ _) with cp. by rewrite H3.
Qed.

(** ** Properties *)

(** C1: whatever is exported arrives.  A new exporting process, the TCP handler of a new
    collecting process and a connection that takes every write implement the
    specification for any sequence of allowed template and data exports: every send
    succeeds; the handler, which sees only the bytes of all writes in a row, ends with
    the stream; and the messages it has delivered are, one for each export and in
    order, the exported template fields, or the exported records in order and in
    canonical form, under the right template id, with the time of the export, the
    exporter's observation domain, its host and the running count of data records as
    sequence number. *)
Theorem exporter_collector_refine Write json_encode reg now cnow obs addr host input c ops jbl :
  (∀ c bs, Write c bs = (Z.of_nat (length bs), None)) → export_host addr = Ok host →
  in_u 32 obs → all_allowed reg (mkExportSpec ∅ 0) ops →
  let ep := mkExportingProcess (Some c) obs 0 startTemplateID ∅ false false false jbl in
  ∃ pkts ep' cp',
    export_all Write json_encode now ops ep = (Ok tt, ep') ∧
    connToCollector ep' = Some (mkConn (conn_sent c ++ pkts) (conn_closed c)) ∧
    handleTCPClient reg cnow addr (mkStream (concat pkts) (Some ErrEOF))
      (InitCollectingProcess input) = (Ok tt, cp') ∧
    all_reported now obs host (mkExportSpec ∅ 0) ops (messageChan cp').
Proof. apply session_delivered. Qed.

Definition example_ops : list export_op :=
  [ExportTemplate 256 [ResetValue example_octets; ResetValue example_pod];
   ExportData 256 [[example_octets; example_pod]; [example_octets; example_pod]];
   ExportTemplate 257 [ResetValue example_addr];
   ExportData 257 [[example_addr]]; ExportData 256 [[example_octets; example_pod]]].

Lemma exporter_collector_refine_witness :
  ∃ pkts ep' cp',
    export_all write_all json_none 1000 example_ops
      (mkExportingProcess (Some (mkConn [] false)) 1 0 startTemplateID ∅ false false false 0) =
      (Ok tt, ep') ∧
    connToCollector ep' = Some (mkConn ([] ++ pkts) false) ∧
    handleTCPClient loaded_registry 1001 "10.0.0.7:41000" (mkStream (concat pkts) (Some ErrEOF))
      (example_cp "tcp") = (Ok tt, cp') ∧
    all_reported 1000 1 "10.0.0.7" (mkExportSpec ∅ 0) example_ops (messageChan cp').
Proof.
  apply (exporter_collector_refine write_all json_none loaded_registry 1000 1001 1
    "10.0.0.7:41000" "10.0.0.7" (example_input_collector "tcp") (mkConn [] false) example_ops 0).
  - reflexivity.
  - reflexivity.
  - apply (bool_decide_unpack _). vm_compute. exact I.
  - apply (bool_decide_unpack _). vm_compute. exact I.
Defined.
