(* ===== verification/UdpSession.v ===== *)
(** * Export sessions over UDP

    The exporting process of Exporter.v and the UDP server of Udp.v with a network between
    them that may lose, repeat and reorder datagrams.  An abstract specification of the
    collector, a cache of templates that expire, and the proof that the server implements
    it; and what follows while no template is old enough to expire. *)

From Stdlib Require Import ZArith Lia.
From Stdlib.Strings Require Import Byte.
From stdpp Require Import base gmap strings list numbers relations.
From S2P Require Import Prelude Bytes InfoElement Records Sets Wire Registry Exporter Collector Tcp Udp EndToEnd.

#[local] Open Scope Z_scope.

(** ** What is sent *)

(** The datagrams of a sequence of exports. *)
Fixpoint packets (now obs : Z) (st : export_spec) (ops : list export_op) : list (list byte) :=
  match ops with
  | [] => []
  | o :: ops => packet_of now obs st o :: packets now obs (spec_step st o) ops
  end.

(** The abstract state of the exporter before export [i] of a session. *)
Definition before (ops : list export_op) (i : nat) : export_spec :=
  foldl spec_step (mkExportSpec ∅ 0) (take i ops).

(** The message reports export [i]. *)
Definition reported (now obs : Z) (host : string) (ops : list export_op) (i : nat) (m : Message) : Prop :=
  ∃ o, ops !! i = Some o ∧ reports now obs host (before ops i) o m.

(** ** The specification of the collector *)

(** The templates that can be used, and for every arrival of a template that has not yet
    expired, the time when it does. *)
Record cache : Type := mkCache {
  alive : gset Z;
  expiries : list (Z * Z);
}.

Definition empty_cache : cache := mkCache ∅ [].

(** Datagram [i] of the session arrives; templates expire. *)
Inductive cache_event : Type :=
| Arrived (now : Z) (i : nat)
| CacheExpired (now : Z).

(** Templates are always taken, data when their template is alive. *)
Definition cache_takes (o : export_op) (c : cache) : bool :=
  match o with
  | ExportTemplate _ _ => true
  | ExportData tid _ => bool_decide (tid ∈ alive c)
  end.

Definition cache_arrive (ttl now : Z) (o : export_op) (c : cache) : cache :=
  match o with
  | ExportTemplate tid _ => mkCache ({[tid]} ∪ alive c) (expiries c ++ [(now + ttl, tid)])
  | ExportData _ _ => c
  end.

(** A template of which some arrival has expired is gone, whenever it arrived last. *)
Definition cache_expire (now : Z) (c : cache) : cache :=
  mkCache (filter (λ tid, ¬ Exists (λ t, t.2 = tid ∧ t.1 <= now) (expiries c)) (alive c))
    (filter (λ t, now < t.1) (expiries c)).

(** The datagrams that are taken, in order. *)
Fixpoint taken (ttl : Z) (ops : list export_op) (c : cache) (evs : list cache_event) : list nat :=
  match evs with
  | [] => []
  | Arrived now i :: evs =>
      match ops !! i with
      | Some o => (if cache_takes o c then [i] else []) ++ taken ttl ops (cache_arrive ttl now o c) evs
      | None => taken ttl ops c evs
      end
  | CacheExpired now :: evs => taken ttl ops (cache_expire now c) evs
  end.

(** All arrivals. *)
Definition arrivals (evs : list cache_event) : list nat :=
  omap (λ e, match e with Arrived _ i => Some i | CacheExpired _ => None end) evs.

(** An event of the server, seen by the specification. *)
Definition event_is (addr : string) (pkts : list (list byte)) (e : udp_event) (ce : cache_event) : Prop :=
  match e, ce with
  | PacketDecoded now a pkt, Arrived now' i => now' = now ∧ a = addr ∧ pkts !! i = Some pkt
  | TemplatesExpired now, CacheExpired now' => now' = now
  | _, _ => False
  end.

(** Every data datagram comes after one with its template. *)
Fixpoint templates_first (seen : gset Z) (ops : list export_op) : Prop :=
  match ops with
  | [] => True
  | ExportTemplate tid _ :: ops => templates_first ({[tid]} ∪ seen) ops
  | ExportData tid _ :: ops => tid ∈ seen ∧ templates_first seen ops
  end.

#[global] Instance templates_first_dec seen ops : Decision (templates_first seen ops).
Proof. revert seen. induction ops as [|[] ops IH]; intros seen; simpl; apply _. Defined.

Lemma templates_first_app seen ops1 ops2 :
  templates_first seen (ops1 ++ ops2) → templates_first seen ops1.
Proof. revert seen. induction ops1 as [|[] ops1 IH]; intros seen; [done|apply IH|]. intros [? ?]. by split; [|apply IH]. Qed.

(** ** Lemmas: the exporter *)

Lemma known_step reg st o tid ies :
  allowed reg st o → known st !! tid = Some ies → known (spec_step st o) !! tid = Some ies.
Proof.
  destruct o as [tid' es|tid' recs]; [|done]. intros (_ & _ & _ & _ & _ & _ & _ & Hk) Ht. cbn [spec_step known].
  destruct (decide (tid' = tid)) as [->|]; [|by rewrite lookup_insert_ne].
  rewrite lookup_insert_eq. destruct Hk; congruence.
Qed.

Lemma known_later reg st ops tid ies :
  all_allowed reg st ops → known st !! tid = Some ies → known (foldl spec_step st ops) !! tid = Some ies.
Proof.
  revert st. induction ops as [|o ops IH]; intros st; [done|]. intros [Ha Hs] Hk. cbn [foldl].
  apply IH; [done|]. by eapply known_step.
Qed.

(** The export a datagram is from. *)
Lemma packets_lookup reg now obs st ops i pkt :
  all_allowed reg st ops → proper_spec st → packets now obs st ops !! i = Some pkt →
  ∃ o, ops !! i = Some o ∧ let sti := foldl spec_step st (take i ops) in
    pkt = packet_of now obs sti o ∧ proper_spec sti ∧ allowed reg sti o ∧
    all_allowed reg (spec_step sti o) (drop (S i) ops).
Proof.
  revert st i. induction ops as [|o ops IH]; intros st i; [done|]. intros [Ha Hs] Hp. destruct i as [|i].
  - intros [= <-]. by exists o.
  - intros H. destruct (IH (spec_step st o) i Hs (proper_step _ _ _ Ha Hp) H) as (o' & H1 & H2). by exists o'.
Qed.

Lemma packets_length now obs st ops : length (packets now obs st ops) = length ops.
Proof. revert st. induction ops as [|o ops IH]; intros st; [done|]. cbn. by rewrite IH. Qed.

Lemma export_all_sends Write json_encode reg obs now ops st ep c :
  (∀ c bs, Write c bs = (Z.of_nat (length bs), None)) →
  exporting obs st ep → connToCollector ep = Some c → proper_spec st → all_allowed reg st ops →
  ∃ ep', export_all Write json_encode now ops ep = (Ok tt, ep') ∧
    connToCollector ep' = Some (mkConn (conn_sent c ++ packets now obs st ops) (conn_closed c)).
Proof.
  intros HW. revert st ep c. induction ops as [|o ops IH]; intros st ep c He Hc Hp Ha.
  { exists ep. split; [done|]. cbn. rewrite app_nil_r. by destruct c. }
  destruct Ha as [Ha Hs].
  destruct (export_sends Write json_encode reg obs HW now o st ep c He Hc Hp Ha) as (ep1 & E1 & Hc1 & He1).
  destruct (IH _ _ _ He1 Hc1 (proper_step _ _ _ Ha Hp) Hs) as (ep' & E2 & Hc2). exists ep'. split.
  - cbn [export_all]. by erewrite M_bind_Ok by exact E1.
  - rewrite Hc2. cbn [sent_on conn_sent conn_closed packets]. by rewrite <- app_assoc.
Qed.

(** ** Lemmas: the collector is the cache *)

Section cache.
Context (reg : Registry) (obs now : Z) (addr host : string) (ops : list export_op).
Hypothesis Hobs : in_u 32 obs.
Hypothesis Hhost : export_host addr = Ok host.
Hypothesis Hops : all_allowed reg (mkExportSpec ∅ 0) ops.

Abbreviation pkts := (packets now obs (mkExportSpec ∅ 0) ops).
Abbreviation all_known := (known (foldl spec_step (mkExportSpec ∅ 0) ops)).

(** The collecting process is the cache: the templates that are alive are the exporter's. *)
Record cached (ttl : Z) (c : cache) (cp : CollectingProcess) : Prop := {
  cached_open : messageChan_closed cp = false;
  cached_ttl : protocol cp ≠ "tcp"%string ∧ effective_ttl cp = ttl;
  cached_alive : ∀ tid, tid ∈ alive c →
    ∃ ies, all_known !! tid = Some ies ∧ getTemplate obs tid cp = Ok ies;
  cached_gone : ∀ tid, tid ∉ alive c → ∃ e, getTemplate obs tid cp = Err e;
  cached_timers : timers cp = (λ t, mkTimer t.1 obs t.2) <$> expiries c;
}.

Lemma proper_start : proper_spec (mkExportSpec ∅ 0).
Proof. split; [unfold in_u; simpl; lia|]. apply map_Forall_empty. Qed.

Lemma data_refused st tid recs cnow cp e :
  proper_spec st → allowed reg st (ExportData tid recs) → getTemplate obs tid cp = Err e →
  decodePacket reg cnow (packet_of now obs st (ExportData tid recs)) addr cp = (Err (ErrDecodeMsg e), cp).
Proof.
  intros Hp Ha Ht. pose proof (proper_step _ _ _ Ha Hp) as [Hs _]. destruct Hp as [_ Hp]. simpl in Ha.
  destruct (known st !! tid) as [ies|] eqn:Hk; [|done]. destruct Ha as [_ Hsz].
  destruct (Hp tid ies Hk) as (Htid & _). cbn [packet_of]. unfold data_message.
  rewrite (decodePacket_message reg cnow obs _ now tid _ addr host) by (done || lia || (unfold in_u; simpl; lia)).
  unfold decode_set. rewrite decide_False by (unfold TemplateSetID; lia). unfold decodeDataSet. by rewrite Ht.
Qed.

(** A datagram arrives. *)
Lemma cached_arrive ttl c cp cnow i pkt :
  cached ttl c cp → pkts !! i = Some pkt →
  ∃ o, ops !! i = Some o ∧
    let cp' := (decodePacket reg cnow pkt addr cp).2 in
    cached ttl (cache_arrive ttl cnow o c) cp' ∧
    ∃ ms, messageChan cp' = messageChan cp ++ ms ∧
      Forall2 (reported now obs host ops) (if cache_takes o c then [i] else []) ms.
Proof.
  intros [Hop [Hpr Httl] Hal Hgo Hti] Hi.
  destruct (packets_lookup reg now obs _ ops i pkt Hops proper_start Hi) as (o & Ho & -> & Hp & Ha & Hl).
  fold (before ops i) in *. set (st := before ops i) in *. exists o. split; [done|].
  assert (Hfin : ∀ tid ies, known (spec_step st o) !! tid = Some ies → all_known !! tid = Some ies).
  { intros tid ies Hk. rewrite <- (take_drop_middle _ _ _ Ho), foldl_app. cbn [foldl]. by eapply known_later. }
  destruct o as [tid es|tid recs]; cbn [cache_arrive cache_takes].
  - destruct (template_arrives reg obs addr host Hobs Hhost now cnow tid es st cp Hp Ha Hop) as (es' & m & Hes & Hd & Hm).
    rewrite Hd. cbn [snd]. destruct (timers_add cnow obs tid es' cp) as (T1 & T2 & T3). split.
    + split; cbn [alive expiries].
      * cbn. by rewrite addTemplate_closed.
      * change (protocol (addTemplate cnow obs tid es' cp) ≠ "tcp"%string ∧
                effective_ttl (addTemplate cnow obs tid es' cp) = ttl). by rewrite T2, T3.
      * intros tid' Hin. rewrite getTemplate_deliver. destruct (decide (tid' = tid)) as [->|Hne].
        { exists (GetInfoElement <$> es). rewrite getTemplate_add, Hes. split; [|done].
          apply Hfin. apply lookup_insert_eq. }
        rewrite getTemplate_add_ne by congruence. apply Hal. set_solver.
      * intros tid' Hin. rewrite getTemplate_deliver, getTemplate_add_ne by set_solver. apply Hgo. set_solver.
      * change (timers (addTemplate cnow obs tid es' cp) = (λ t, mkTimer t.1 obs t.2) <$> expiries c ++ [(cnow + ttl, tid)]).
        rewrite T1, decide_False, fmap_app, Hti, Httl by done. done.
    + exists [m]. split; [cbn; by rewrite addTemplate_messages|]. repeat constructor. by eexists.
  - case_bool_decide as Hin.
    + destruct (Hal tid Hin) as (ies & Hf & Ht).
      destruct (known st !! tid) as [ies'|] eqn:Hk; [|simpl in Ha; by rewrite Hk in Ha].
      assert (ies' = ies) as -> by (pose proof (Hfin tid ies' Hk); congruence).
      destruct (data_arrives reg obs addr host Hobs Hhost now cnow tid recs st cp ies Hp Ha Hk Ht Hop) as (m & Hd & Hm).
      rewrite Hd. cbn [snd]. split; [by split|]. exists [m]. split; [done|]. repeat constructor. by eexists.
    + destruct (Hgo tid Hin) as [e He]. rewrite (data_refused st tid recs cnow cp e) by done. cbn [snd].
      split; [by split|]. exists []. by rewrite app_nil_r.
Qed.

(** Templates expire. *)
Lemma cached_expire ttl c cp cnow :
  cached ttl c cp → cached ttl (cache_expire cnow c) (fire_timers cnow cp).
Proof.
  intros [Hop Hpr Hal Hgo Hti].
  assert (Hex : ∀ tid, Exists (λ t, timer_of obs tid t ∧ deadline t <= cnow) (timers cp) ↔
                       Exists (λ t, t.2 = tid ∧ t.1 <= cnow) (expiries c)).
  { intros tid. rewrite Hti, Exists_fmap. unfold timer_of, compose. cbn. rewrite !Exists_exists. naive_solver. }
  split; cbn [cache_expire alive expiries]; try done.
  - intros tid [Hn Hin]%elem_of_filter. rewrite getTemplate_fire, decide_False by (by rewrite Hex). by apply Hal.
  - intros tid Hn. rewrite getTemplate_fire. case_decide as He; [by eexists|].
    apply Hgo. intros Hin. apply Hn, elem_of_filter. by rewrite <- Hex.
  - cbn. rewrite Hti. generalize (expiries c) as l. intros l. induction l as [|t l IH]; [done|].
    rewrite fmap_cons, !filter_cons. cbn [deadline]. case_decide; rewrite ?fmap_cons; by rewrite IH.
Qed.

Lemma cached_start input : in_Protocol input ≠ "tcp"%string →
  cached (effective_ttl (InitCollectingProcess input)) empty_cache (InitCollectingProcess input).
Proof.
  intros Hp. split; try done. intros tid _. unfold getTemplate, domain_templates. cbn. rewrite lookup_empty. cbn.
  rewrite lookup_empty. by eexists.
Qed.

(** Any sequence of events. *)
Lemma cached_events ttl es evs c cp :
  cached ttl c cp → Forall2 (event_is addr pkts) es evs →
  ∃ ms, messageChan (foldl (apply_event reg) cp es) = messageChan cp ++ ms ∧
    Forall2 (reported now obs host ops) (taken ttl ops c evs) ms.
Proof.
  intros Hc Hes. revert c cp Hc. induction Hes as [|e ce es evs He Hes IH]; intros c cp Hc.
  { exists []. by rewrite app_nil_r. }
  destruct e as [cnow a pkt|cnow], ce as [cnow' i|cnow']; try done; cbn [event_is] in He; cbn [foldl apply_event taken].
  - destruct He as (-> & -> & Hi). destruct (cached_arrive ttl c cp cnow i pkt Hc Hi) as (o & -> & Hc' & ms1 & Hm1 & H1).
    destruct (IH _ _ Hc') as (ms2 & Hm2 & H2). exists (ms1 ++ ms2). split; [by rewrite Hm2, Hm1, app_assoc|].
    by apply Forall2_app.
  - subst cnow'. exact (IH _ _ (cached_expire ttl c cp cnow Hc)).
Qed.

End cache.

(** ** Lemmas: the events of the server *)

Section server.
Context (reg : Registry) (input : CollectorInput) (t : Z).

Definition event_time (e : udp_event) : Z :=
  match e with PacketDecoded now _ _ | TemplatesExpired now => now end.

(** Events happen between the start and now. *)
Definition timely (s : udp_server) : Prop :=
  t <= us_now s ∧ Forall (λ e, t <= event_time e <= us_now s) (us_events s).

Lemma timely_step s s' : udp_step reg s s' → timely s → timely s'.
Proof.
  intros Hst [Ht He].
  assert (Hev : ∀ e, event_time e = us_now s → Forall (λ e, t <= event_time e <= us_now s) (us_events s ++ [e])).
  { intros e Hee. apply list.Forall_app. split; [done|]. repeat constructor; lia. }
  assert (Hhandle : ∀ a, us_now (handleUDPClient a s) = us_now s ∧ us_events (handleUDPClient a s) = us_events s).
  { intros a. unfold handleUDPClient. by destruct (clients (us_cp s) !! a). }
  destruct Hst; try (split; [done|]; try apply Hev; done).
  - split; [cbn; lia|]. cbn. eapply list.Forall_impl; [exact He|]. cbn. lia.
  - destruct (Hhandle addr) as [E1 E2]. unfold timely. cbn. by rewrite E1, E2.
Qed.

Lemma timely_reachable s : rtc (udp_step reg) (udp_listening input t) s → timely s.
Proof.
  intros H. refine (rtc_invariant _ timely _ _ _ H _); [exact timely_step|]. split; [cbn; lia|constructor].
Qed.

(** Events that decode datagrams of the session are events of the specification. *)
Lemma label_events addr pkts es idx :
  Forall (λ e, ∀ now a pkt, e = PacketDecoded now a pkt → a = addr) es →
  Forall2 (λ i pkt, pkts !! i = Some pkt) idx
    (omap (λ e, match e with PacketDecoded _ _ pkt => Some pkt | TemplatesExpired _ => None end) es) →
  ∃ evs, Forall2 (event_is addr pkts) es evs ∧ arrivals evs = idx.
Proof.
  intros Ha. revert idx. induction Ha as [|e es He _ IH]; intros idx Hidx.
  { apply Forall2_nil_inv_r in Hidx as ->. by exists []. }
  destruct e as [now a pkt|now]; cbn in Hidx.
  - apply Forall2_cons_inv_r in Hidx as (i & idx' & Hi & Hidx & ->). destruct (IH idx' Hidx) as (evs & H1 & <-).
    exists (Arrived now i :: evs). split; [|done]. constructor; [|done]. split_and!; [done|by eapply He|done].
  - destruct (IH idx Hidx) as (evs & H1 & <-). exists (CacheExpired now :: evs). split; [by constructor|done].
Qed.

(** The packets of one address, when there is only one. *)
Lemma only_address addr s :
  Forall (λ p, p.1 = addr) (us_received s) → received_from addr s = snd <$> us_received s ∧
  ∀ addr', addr' ≠ addr → received_from addr' s = [].
Proof.
  unfold received_from. induction (us_received s) as [|[a pkt] l IH]; [done|].
  intros [Ha Hl]%list.Forall_cons. cbn in Ha. subst a. destruct (IH Hl) as [E1 E2]. split.
  - cbn. rewrite decide_True by done. cbn. by rewrite <- E1.
  - intros addr' Hne. cbn. rewrite decide_False by done. by apply E2.
Qed.

Lemma no_events addr s now a pkt :
  decoded_from addr s = [] → PacketDecoded now a pkt ∈ us_events s → a ≠ addr.
Proof.
  unfold decoded_from. intros H Hin ->.
  assert (Hp : pkt ∈ ([] : list (list byte))); [|by apply not_elem_of_nil in Hp].
  rewrite <- H. apply list_elem_of_omap. exists (PacketDecoded now addr pkt). split; [done|]. by rewrite decide_True.
Qed.

(** The server between the datagrams [idx] of a session and the specification. *)
Lemma server_session addr pkts idx s :
  rtc (udp_step reg) (udp_listening input t) s → us_reader s ≠ Crashed →
  Forall2 (λ i p, p.1 = addr ∧ pkts !! i = Some p.2) idx (us_received s) →
  ∃ evs n, Forall2 (event_is addr pkts) (us_events s) evs ∧ arrivals evs = take n idx ∧
    drop n (snd <$> us_received s) = handling addr s ++ pending addr s ∧
    messageChan (us_cp s) = messageChan (foldl (apply_event reg) (InitCollectingProcess input) (us_events s)).
Proof.
  intros (_ & HO & HB)%udp_inv_reachable Hc Hidx. specialize (HO Hc).
  destruct (only_address addr s) as [Hr Hr'].
  { apply list.Forall_forall. intros p Hp. apply list_elem_of_lookup in Hp as [j Hj].
    by destruct (Forall2_lookup_r _ _ _ _ _ Hidx Hj) as (i & _ & ? & _). }
  assert (Hev : Forall (λ e, ∀ now a pkt, e = PacketDecoded now a pkt → a = addr) (us_events s)).
  { apply list.Forall_forall. intros e He now a pkt ->. destruct (decide (a = addr)) as [|Hne]; [done|].
    pose proof (HO a) as E. rewrite Hr' in E by done. symmetry in E. apply app_eq_nil in E as [E _].
    by destruct (no_events a s now a pkt E He). }
  assert (Hdec : decoded_from addr s =
    omap (λ e, match e with PacketDecoded _ _ pkt => Some pkt | TemplatesExpired _ => None end) (us_events s)).
  { clear HB HO. unfold decoded_from. induction Hev as [|e es He _ IH]; [done|].
    destruct e as [now a pkt|now]; cbn; rewrite <- IH.
    - by rewrite (He now a pkt eq_refl), decide_True.
    - done. }
  pose proof (HO addr) as E. rewrite Hr in E. set (n := length (decoded_from addr s)).
  assert (Htake : take n (snd <$> us_received s) = decoded_from addr s) by (by rewrite E; apply take_app_length).
  destruct (label_events addr pkts (us_events s) (take n idx) Hev) as (evs & H1 & H2).
  - rewrite <- Hdec, <- Htake. apply Forall2_take. apply Forall2_fmap_r.
    eapply Forall2_impl; [exact Hidx|]. by intros i p [_ ?].
  - exists evs, n. split_and!; [done|done|by rewrite E; apply drop_app_length|].
    exact (f_equal messageChan HB).
Qed.

End server.

(** Before the first template can expire everything is taken that comes after its
    template. *)
Lemma taken_all ttl ops T c evs :
  Forall (λ x, T <= x.1) (expiries c) →
  Forall (λ e, match e with Arrived now _ | CacheExpired now => T - ttl <= now < T end) evs →
  Forall (λ i, is_Some (ops !! i)) (arrivals evs) →
  templates_first (alive c) (omap (ops !!.) (arrivals evs)) →
  taken ttl ops c evs = arrivals evs.
Proof.
  intros Hc Hev. revert c Hc. induction Hev as [|e evs He _ IH]; intros c Hc Hi Hf; [done|].
  destruct e as [now i|now]; cbn [taken arrivals omap list_omap] in *.
  - apply list.Forall_cons in Hi as [[o Ho] Hi]. rewrite Ho in *. destruct o as [tid es|tid recs]; cbn in Hf.
    + cbn [cache_takes app]. f_equal. apply IH; try done. cbn [cache_arrive expiries].
      apply list.Forall_app. split; [done|]. repeat constructor. cbn. lia.
    + destruct Hf as [Hin Hf]. cbn [cache_takes cache_arrive]. rewrite bool_decide_true by done.
      cbn [app]. f_equal. by apply IH.
  - assert (E : cache_expire now c = c).
    { destruct c as [al ex]. unfold cache_expire. cbn in *. f_equal.
      - apply set_eq. intros tid. rewrite elem_of_filter. split; [by intros []|]. intros Hin. split; [|done].
        rewrite Exists_exists. intros (x & Hx & _ & Hd). rewrite list.Forall_forall in Hc. specialize (Hc x Hx). lia.
      - apply filter_all. eapply list.Forall_impl; [exact Hc|]. cbn. lia. }
    rewrite E. by apply IH.
Qed.

(** ** A run of the server *)

(** A packet of an idle client is read, handed over and decoded. *)
Definition udp_serve (reg : Registry) (src : string) (bs : list byte) (s : udp_server) : option udp_server :=
  let addr := packet_addr src (us_cp s) in
  let pkt := packet_read bs (us_cp s) in
  let s1 := with_received addr pkt (with_reader Receiving (handleUDPClient addr s)) in
  match us_reader s with
  | Receiving =>
      client ← clients (us_cp s1) !! addr;
      h ← us_handlers s1 !! packetChan client;
      match uh_pc h, decodePacket reg (us_now s1) pkt (uh_addr h) (us_cp s1) with
      | Selecting, (Ok _, cp) =>
          Some (with_event (PacketDecoded (us_now s1) (uh_addr h) pkt)
                  (with_handler (packetChan client) (mkUdpHandler (uh_addr h) Selecting (new_deadline s1))
                     (with_cp cp s1)))
      | _, _ => None
      end
  | _ => None
  end.

Lemma udp_serve_steps reg src bs s s' : udp_serve reg src bs s = Some s' → rtc (udp_step reg) s s'.
Proof.
  unfold udp_serve. destruct (us_reader s) eqn:Hr; try discriminate. intros H.
  apply bind_Some in H as (client & Hc & H). apply bind_Some in H as (h & Hh & H).
  destruct (uh_pc h) eqn:Hp; try discriminate.
  destruct (decodePacket _ _ _ _ _) as [[m| | |] cp] eqn:Hd; try discriminate. injection H as <-.
  set (addr := packet_addr src (us_cp s)) in *. set (pkt := packet_read bs (us_cp s)) in *.
  eapply rtc_l; [by apply (udp_receive reg src bs)|].
  eapply rtc_l; [by apply (udp_look_up reg addr pkt client)|].
  eapply rtc_l; [by apply (udp_hand_over reg addr (packetChan client) pkt h)|].
  apply rtc_once.
  match goal with |- udp_step _ ?x _ => assert (Hi : us_handlers x !! packetChan client =
    Some (mkUdpHandler (uh_addr h) (Decoding pkt) (uh_deadline h))) end.
  { apply list_lookup_insert_eq. by eapply lookup_lt_Some. }
  eapply eq_ind; [exact (udp_decode reg _ _ _ m cp _ Hi eq_refl Hd)|].
  unfold with_event, with_handler, with_cp, with_reader, with_received.
  cbn [us_cp us_now us_reader us_handlers us_received us_events uh_addr]. by rewrite list_insert_insert_eq.
Qed.

(** ** Properties *)

(** What the theorems of a session assume: the exporter has sent the datagrams [pkts], and
    the server has been given some of them, any number of times and in any order; [idx]
    says which. *)
Record udp_session Write json_encode reg now obs addr host input c ops jbl pkts t s idx : Prop := {
  session_write : ∀ c bs, Write c bs = (Z.of_nat (length bs), None);
  session_host : export_host addr = Ok host;
  session_obs : in_u 32 obs;
  session_allowed : all_allowed reg (mkExportSpec ∅ 0) ops;
  session_protocol : in_Protocol input ≠ "tcp"%string;
  session_sent : ∃ ep',
    export_all Write json_encode now ops
      (mkExportingProcess (Some c) obs 0 startTemplateID ∅ false false false jbl) = (Ok tt, ep') ∧
    connToCollector ep' = Some (mkConn (conn_sent c ++ pkts) (conn_closed c));
  session_run : rtc (udp_step reg) (udp_listening input t) s;
  session_received : Forall2 (λ i p, p.1 = addr ∧ pkts !! i = Some p.2) idx (us_received s);
}.

#[global] Arguments session_run {_ _ _ _ _ _ _ _ _ _ _ _ _ _ _} _.
#[global] Arguments session_received {_ _ _ _ _ _ _ _ _ _ _ _ _ _ _} _.

Section session.
Context {Write : Conn → list byte → Z * option error} {json_encode : gmap string GoVal → Z → go (list byte)}
  {reg : Registry} {now obs : Z} {addr host : string} {input : CollectorInput} {c : Conn}
  {ops : list export_op} {jbl : Z} {pkts : list (list byte)} {t : Z} {s : udp_server} {idx : list nat}.

Lemma session_packets :
  udp_session Write json_encode reg now obs addr host input c ops jbl pkts t s idx →
  pkts = packets now obs (mkExportSpec ∅ 0) ops.
Proof.
  intros [HW _ _ Ha _ (ep' & H1 & H2) _ _].
  destruct (export_all_sends Write json_encode reg obs now ops (mkExportSpec ∅ 0)
    (mkExportingProcess (Some c) obs 0 startTemplateID ∅ false false false jbl) c HW) as (ep2 & H3 & H4);
    [by split|done|apply proper_start|done|].
  rewrite H1 in H3. injection H3 as <-. rewrite H2 in H4. injection H4 as H4. by apply app_inv_head in H4.
Qed.

Lemma session_refines :
  udp_session Write json_encode reg now obs addr host input c ops jbl pkts t s idx → us_reader s ≠ Crashed →
  ∃ evs n, Forall2 (event_is addr pkts) (us_events s) evs ∧ arrivals evs = take n idx ∧
    drop n (snd <$> us_received s) = handling addr s ++ pending addr s ∧
    Forall2 (reported now obs host ops)
      (taken (effective_ttl (InitCollectingProcess input)) ops empty_cache evs) (messageChan (us_cp s)).
Proof.
  intros HS Hc. pose proof (session_packets HS) as ->.
  destruct HS as [_ Hh Hobs Ha Hp _ Hrun Hidx].
  destruct (server_session reg input t addr _ idx s Hrun Hc Hidx) as (evs & n & E1 & E2 & E3 & E4).
  exists evs, n. split_and!; [done|done|done|]. rewrite E4.
  destruct (cached_events reg obs now addr host ops Hobs Hh Ha _ _ _ _ _ (cached_start obs ops input Hp) E1)
    as (ms & -> & Hms). done.
Qed.

End session.

(** C7: a UDP session is a cache of templates.  An exporting process sends any sequence of
    allowed exports, and the network gives the UDP server of a new collecting process any
    of the datagrams, any number of times and in any order.  In every state that the
    server can reach in which its reader has not crashed, the datagrams it has decoded are
    the first of them, the others are still with its goroutines, and the messages it has
    delivered are those that the cache takes, in order: each reports its export as it was,
    with its own sequence number; templates are taken whenever they arrive, and data
    exactly when no arrival of their template has expired since the last one. *)
Theorem udp_session_refines Write json_encode reg now obs addr host input c ops jbl pkts t s idx :
  udp_session Write json_encode reg now obs addr host input c ops jbl pkts t s idx → us_reader s ≠ Crashed →
  ∃ evs n, Forall2 (event_is addr pkts) (us_events s) evs ∧ arrivals evs = take n idx ∧
    drop n (snd <$> us_received s) = handling addr s ++ pending addr s ∧
    Forall2 (reported now obs host ops)
      (taken (effective_ttl (InitCollectingProcess input)) ops empty_cache evs) (messageChan (us_cp s)).
Proof. apply session_refines. Qed.

(** C2: within a template's lifetime UDP only loses what the network loses.  When every
    data datagram that the server was given comes after one with its template, and less
    than a template's lifetime has passed since the server started, then all datagrams it
    has decoded are delivered, in the order they were received and each as it was
    exported, whatever else was lost, repeated or reordered; the others are still with its
    goroutines. *)
Theorem udp_session_delivers Write json_encode reg now obs addr host input c ops jbl pkts t s idx :
  udp_session Write json_encode reg now obs addr host input c ops jbl pkts t s idx → us_reader s ≠ Crashed →
  templates_first ∅ (omap (ops !!.) idx) → us_now s < t + effective_ttl (InitCollectingProcess input) →
  ∃ n, Forall2 (reported now obs host ops) (take n idx) (messageChan (us_cp s)) ∧
    drop n (snd <$> us_received s) = handling addr s ++ pending addr s.
Proof.
  intros HS Hc Hf Hnow. destruct (session_refines HS Hc) as (evs & n & E1 & E2 & E3 & E4).
  exists n. split; [|done]. rewrite <- E2.
  rewrite (taken_all _ _ (t + effective_ttl (InitCollectingProcess input))) in E4; [done|constructor|..].
  - pose proof (session_run HS) as [_ Hev]%timely_reachable.
    apply list.Forall_forall. intros ce Hce. apply list_elem_of_lookup in Hce as [j Hj].
    destruct (Forall2_lookup_r _ _ _ _ _ E1 Hj) as (e & He & Hl).
    pose proof (Forall_lookup_1 _ _ _ _ Hev He) as Ht. cbn beta in Ht.
    destruct e, ce; try done; cbn in *; [destruct Hl as [-> _]|subst]; lia.
  - rewrite E2. apply list.Forall_forall. intros i Hi.
    assert (Hin : i ∈ idx) by (rewrite <- (take_drop n idx); apply elem_of_app; by left).
    apply list_elem_of_lookup in Hin as [j Hj].
    destruct (Forall2_lookup_l _ _ _ _ _ (session_received HS) Hj) as (p & _ & _ & Hp).
    rewrite (session_packets HS) in Hp. apply lookup_lt_Some in Hp.
    rewrite packets_length in Hp. by apply lookup_lt_is_Some.
  - rewrite E2. clear -Hf. cbn [alive empty_cache].
    rewrite <- (take_drop n idx), omap_app in Hf. by apply templates_first_app in Hf.
Qed.

(** The five datagrams of a session: one is lost, one comes twice, two are swapped. *)
Definition example_datagrams : list (list byte) := packets 1000 1 (mkExportSpec ∅ 0) example_ops.
Definition example_received : list nat := [2; 0; 4; 3; 4]%nat.

Lemma serve_all_steps reg src bss s s' :
  foldl (λ s bs, s ← s; udp_serve reg src bs s) (Some s) bss = Some s' → rtc (udp_step reg) s s'.
Proof.
  revert s. induction bss as [|bs bss IH]; intros s; cbn [foldl]; [intros [= <-]; apply rtc_refl|].
  cbn [mbind option_bind]. destruct (udp_serve reg src bs s) as [s1|] eqn:E.
  - intros H. etransitivity; [by eapply udp_serve_steps|by apply IH].
  - intros H. exfalso. clear -H. induction bss as [|b bss IH]; [done|]. by apply IH.
Qed.

Definition example_server : udp_server :=
  default example_udp
    (foldl (λ s bs, s ← s; udp_serve loaded_registry example_client bs s) (Some example_udp)
       (omap (example_datagrams !!.) example_received)).

Abbreviation example_session :=
  (udp_session write_all json_none loaded_registry 1000 1 example_client "10.0.0.9"
    (example_input_collector "udp") (mkConn [] false) example_ops 0 example_datagrams 1000
    example_server example_received).

Lemma example_session_runs : example_session.
Proof.
  split; try (reflexivity || discriminate); try (apply (bool_decide_unpack _); vm_compute; exact I).
  - assert (H : (export_all write_all json_none 1000 example_ops
                  (mkExportingProcess (Some (mkConn [] false)) 1 0 startTemplateID ∅ false false false 0)).1 = Ok tt)
      by (vm_compute; reflexivity).
    destruct (export_all _ _ _ _ _) as [res ep'] eqn:E. cbn [fst] in H. subst res. exists ep'. split; [done|].
    apply (f_equal (λ r, connToCollector r.2)) in E. cbn [snd] in E. rewrite <- E. vm_compute. reflexivity.
  - apply (serve_all_steps loaded_registry example_client (omap (example_datagrams !!.) example_received)).
    vm_compute. reflexivity.
Qed.

Lemma udp_session_refines_witness :
  length (messageChan (us_cp example_server)) = 5%nat ∧
  ∃ evs n, Forall2 (event_is example_client example_datagrams) (us_events example_server) evs ∧
    arrivals evs = take n example_received ∧
    drop n (snd <$> us_received example_server) = handling example_client example_server ++ pending example_client example_server ∧
    Forall2 (reported 1000 1 "10.0.0.9" example_ops) (taken 5400 example_ops empty_cache evs)
      (messageChan (us_cp example_server)).
Proof.
  split; [vm_compute; reflexivity|].
  apply (udp_session_refines _ _ _ _ _ _ _ _ _ _ _ _ _ _ _ example_session_runs). vm_compute. discriminate.
Defined.

Lemma udp_session_delivers_witness :
  length (messageChan (us_cp example_server)) = 5%nat ∧
  ∃ n, Forall2 (reported 1000 1 "10.0.0.9" example_ops) (take n example_received) (messageChan (us_cp example_server)) ∧
    drop n (snd <$> us_received example_server) = handling example_client example_server ++ pending example_client example_server.
Proof.
  split; [vm_compute; reflexivity|].
  apply (udp_session_delivers _ _ _ _ _ _ _ _ _ _ _ _ _ _ _ example_session_runs);
    [vm_compute; discriminate|apply (bool_decide_unpack _); vm_compute; exact I|vm_compute; reflexivity].
Defined.


(** A template that is refreshed every 1700 seconds: after 5400 seconds its first expiry
    goroutine is due, 300 seconds after the last refresh. *)
Definition udp_wait (d : Z) (s : udp_server) : udp_server :=
  mkUdpServer (us_cp s) (us_now s + d) (us_reader s) (us_handlers s) (us_received s) (us_events s).

Definition example_template_bytes : list byte := default [] (example_datagrams !! 0%nat).

Definition example_refreshed : udp_server :=
  default example_udp
    (s ← udp_serve loaded_registry example_client example_template_bytes example_udp;
     s ← udp_serve loaded_registry example_client example_template_bytes (udp_wait 1700 s);
     s ← udp_serve loaded_registry example_client example_template_bytes (udp_wait 1700 s);
     s ← udp_serve loaded_registry example_client example_template_bytes (udp_wait 1700 s);
     Some (udp_wait 300 s)).

Lemma example_refreshed_reachable : rtc (udp_step loaded_registry) example_udp example_refreshed.
Proof.
  assert (Hw : ∀ d s, 0 <= d → udp_step loaded_registry s (udp_wait d s)) by (intros; by apply udp_tick).
  unfold example_refreshed.
  destruct (udp_serve loaded_registry example_client example_template_bytes example_udp) as [s1|] eqn:E1;
    cbn [mbind option_bind default from_option]; [|apply rtc_refl].
  destruct (udp_serve _ _ _ (udp_wait 1700 s1)) as [s2|] eqn:E2; cbn [mbind option_bind default from_option]; [|apply rtc_refl].
  destruct (udp_serve _ _ _ (udp_wait 1700 s2)) as [s3|] eqn:E3; cbn [mbind option_bind default from_option]; [|apply rtc_refl].
  destruct (udp_serve _ _ _ (udp_wait 1700 s3)) as [s4|] eqn:E4; cbn [mbind option_bind default from_option]; [|apply rtc_refl].
  apply udp_serve_steps in E1, E2, E3, E4. etransitivity; [exact E1|].
  apply (rtc_l _ _ (udp_wait 1700 s1)); [by apply Hw|]. etransitivity; [exact E2|].
  apply (rtc_l _ _ (udp_wait 1700 s2)); [by apply Hw|]. etransitivity; [exact E3|].
  apply (rtc_l _ _ (udp_wait 1700 s3)); [by apply Hw|]. etransitivity; [exact E4|]. apply rtc_once. by apply Hw.
Qed.

