(* ===== verification/Typing.v ===== *)
(** * The types of decoded elements

    An element carries its data type in its [InfoElement] and its value in a struct type
    of its own; the accessors panic when the two do not fit.  Everything the collecting
    process delivers is well typed in this sense. *)

From Stdlib Require Import ZArith Lia.
From Stdlib.Strings Require Import Byte.
From stdpp Require Import base gmap strings list numbers relations.
From S2P Require Import Prelude Bytes InfoElement Records Sets Wire Registry Collector.

#[local] Open Scope Z_scope.

(** A record all of whose slots are filled with well-typed elements of the given fields. *)
Definition typed_record (ies : list InfoElement) (r : IPFIXRecord) : Prop :=
  ∃ es, GetOrderedElementList r = Some <$> es ∧ GetInfoElement <$> es = ies ∧
        Forall (λ e, typed e = true) es.

(** ** Lemmas: decoding gives well-typed elements *)

Lemma create_typed ie value e :
  DecodeAndCreateInfoElementWithValue ie value = Ok e → typed e = true ∧ GetInfoElement e = ie.
Proof.
  unfold DecodeAndCreateInfoElementWithValue, num_or_zero. unfold_new. intros H.
  destruct (DataType ie) eqn:Ht, value as [bs|]; try discriminate H; try (injection H as <-);
    try (destruct (get_be _ _); [|discriminate H..]; injection H as <-);
    cbn; unfold GetDataType; cbn; by rewrite ?Ht.
Qed.

Lemma decode_value_typed ie buf e buf' :
  decode_value ie buf = (Ok e, buf') → typed e = true ∧ GetInfoElement e = ie.
Proof.
  unfold decode_value, mbind, M_bind, M_lift. destruct (if decide _ then _ else _) as [[n| | |] b1]; [|done..].
  cbn. intros [= H _]. by eapply create_typed.
Qed.

Lemma decode_values_typed tmpl buf es buf' :
  decode_values tmpl buf = (Ok es, buf') →
  Forall (λ e, typed e = true) es ∧ GetInfoElement <$> es = tmpl.
Proof.
  revert buf es buf'. induction tmpl as [|ie tmpl IH]; intros buf es buf'; cbn [decode_values].
  { by intros [= <- _]. }
  unfold mbind, M_bind. destruct (decode_value ie buf) as [[e| | |] b1] eqn:E1; [|done..].
  destruct (decode_values tmpl b1) as [[es1| | |] b2] eqn:E2; [|done..]. intros [= <- _].
  destruct (IH _ _ _ E2) as [H1 <-]. destruct (decode_value_typed _ _ _ _ E1) as [H2 <-].
  split; [by constructor|done].
Qed.

Lemma decode_records_typed fuel tmpl n tid s buf s' :
  Z.of_nat (length tmpl) < 65536 → setType s = Data →
  decode_records fuel tmpl n tid s buf = Ok s' →
  setType s' = Data ∧ ∃ rs, records s' = records s ++ rs ∧
    Forall (λ r, typed_record tmpl r ∧ GetTemplateID r = tid) rs.
Proof.
  intros Hl. revert s buf. induction fuel as [|fuel IH]; intros s buf Hs; destruct buf as [|b buf];
    cbn [decode_records]; [|done|..].
  1,2: intros [= <-]; split; [done|]; exists []; by rewrite app_nil_r.
  destruct (decode_values tmpl (b :: buf)) as [[es| | |] b1] eqn:E; [|done..].
  destruct (decode_values_typed _ _ _ _ E) as [Ht He].
  rewrite AddRecordWithExtraElements_data by (done || by rewrite <- (length_fmap GetInfoElement es), He).
  cbn [mbind go_bind]. intros H. apply IH in H as (H1 & rs & H2 & H3); [|done]. split; [done|].
  eexists (_ :: rs). rewrite H2. cbn [append_record records]. rewrite <- app_assoc. split; [done|].
  constructor; [|done]. split; [|done]. by exists es.
Qed.

Lemma create_empty ie e : DecodeAndCreateInfoElementWithValue ie None = Ok e → IsValueEmpty e = true.
Proof.
  unfold DecodeAndCreateInfoElementWithValue, num_or_zero. unfold_new. intros H.
  destruct (DataType ie); try discriminate H; by injection H as <-.
Qed.

Lemma decode_field_typed reg buf e buf' :
  decode_field reg buf = (Ok e, buf') → typed e = true ∧ IsValueEmpty e = true.
Proof.
  unfold decode_field, mbind, M_bind, M_lift.
  destruct (read_full 2 buf) as [[id| | |] b1]; [|done..].
  destruct (read_full 2 b1) as [[l| | |] b2]; [|done..].
  destruct id as [|b0 bs]; [done|].
  match goal with |- context [match ?m b2 with _ => _ end] => destruct (m b2) as [[ie| | |] b3] end;
    [|done..].
  intros [= H _]. split; [by eapply create_typed|by eapply create_empty].
Qed.

Lemma decode_fields_typed reg n buf es buf' :
  decode_fields reg n buf = (Ok es, buf') →
  Forall (λ e, typed e = true) es ∧ Forall (λ e, IsValueEmpty e = true) es.
Proof.
  revert buf es buf'. induction n as [|n IH]; intros buf es buf'; cbn [decode_fields].
  { by intros [= <- _]. }
  unfold mbind, M_bind. destruct (decode_field reg buf) as [[e| | |] b1] eqn:E1; [|done..].
  destruct (decode_fields reg n b1) as [[es1| | |] b2] eqn:E2; [|done..]. intros [= <- _].
  destruct (IH _ _ _ E2), (decode_field_typed _ _ _ _ E1). by split; constructor.
Qed.

Lemma decode_template_record_typed reg buf tid es buf' :
  decode_template_record reg buf = (Ok (tid, es), buf') →
  Forall (λ e, typed e = true) es ∧ Forall (λ e, IsValueEmpty e = true) es.
Proof.
  unfold decode_template_record, mbind, M_bind.
  destruct (Decode _ buf) as [[vs| | |] b1]; [|done..]. destruct vs as [|? [|? [|]]]; try done.
  destruct (decode_fields reg _ b1) as [[es1| | |] b2] eqn:E; [|done..]. intros [= _ <- _].
  by eapply decode_fields_typed.
Qed.

(** What [decode_set] returns. *)
Lemma decode_set_typed reg now setID obs buf cp s cp' :
  cp_inv reg cp → decode_set reg now setID obs buf cp = (Ok s, cp') →
  (setType s = Template ∧ Forall (λ r, ∃ ies, typed_record ies r) (records s)) ∨
  (setType s = Data ∧ ∃ tmpl, getTemplate obs setID cp = Ok tmpl ∧
     Forall (λ r, typed_record tmpl r ∧ GetTemplateID r = setID) (records s)).
Proof.
  intros Hi. unfold decode_set, decodeTemplateSet. case_decide as HsetID.
  - destruct (decode_template_record reg buf) as [r b'] eqn:E. cbn [fst].
    destruct r as [[tid es]| | |]; [|done..]. apply decode_template_record_typed in E as [Ht He].
    change (PrepareSet Template tid (NewSet true)) with (Ok
      {| headerBuffer := []; setType := Template; records := []; set_isDecoding := true;
         set_length := 0 |}). cbn [mbind go_bind]. rewrite AddRecord_template by done.
    intros [= <- _]. left. split; [done|]. constructor; [|done]. exists (GetInfoElement <$> es), es.
    split; [|done]. change (GetOrderedElementList _) with ((Some <$> es) ++ []). by rewrite app_nil_r.
  - unfold decodeDataSet. intros [= H _]. destruct (getTemplate obs setID cp) as [tmpl| | |] eqn:Et; [|done..].
    destruct (Hi _ _ _ Et) as [_ Hl]. cbn [mbind go_bind] in H.
    change (PrepareSet Data setID (NewSet true)) with (Ok (decoded_set setID [])) in H. cbn [mbind go_bind] in H.
    apply decode_records_typed in H as (H1 & rs & H2 & H3); [|done|done]. right.
    split; [done|]. exists tmpl. split; [done|]. by rewrite H2.
Qed.

Lemma decodePacket_set reg now pkt addr cp m cp' :
  decodePacket reg now pkt addr cp = (Ok m, cp') →
  ∃ setID buf s cp1, decode_set reg now setID (obsDomainID m) buf cp = (Ok s, cp1) ∧ msg_set m = Some s.
Proof.
  unfold decodePacket. destruct (Decode _ pkt) as [[vs| | |] buf]; [|done..].
  destruct vs as [|v [|l [|t [|seq [|obs [|setID [|setLen [|]]]]]]]]; try done.
  case_decide; [done|].
  destruct (decode_message v l t seq obs addr) as [m1| | |] eqn:Em; [|done..].
  destruct (decode_set reg now setID obs buf cp) as [r cp1] eqn:E.
  destruct r as [s| | |]; [|done..]. destruct (messageChan_closed cp1); [done|].
  intros [= <- _]. exists setID, buf, s, cp1. split; [|done].
  assert (obsDomainID m1 = obs) as Hobs; [|cbn; by rewrite Hobs].
  revert Em. unfold decode_message. cbn. destruct (export_host addr); [|done..]. by intros [= <-].
Qed.

(** What a delivered message is like: the elements of data records are registered. *)
Definition typed_message (reg : Registry) (m : Message) : Prop :=
  ∃ s, msg_set m = Some s ∧
    ((setType s = Template ∧ Forall (λ r, ∃ ies, typed_record ies r) (records s)) ∨
     (setType s = Data ∧
      Forall (λ r, ∃ ies, typed_record ies r ∧ Forall (registered reg) ies) (records s))).

Lemma typed_messages_step reg cp cp' :
  cp_inv reg cp → collector_step reg cp cp' → Forall (typed_message reg) (messageChan cp) →
  Forall (typed_message reg) (messageChan cp').
Proof.
  intros Hi. destruct 1 as [now pkt addr cp res cp' E|obs tid cp|now cp|cp|net stopped cs n cp]; intros Hp;
    [|done|done|unfold CloseMsgChan; by destruct (messageChan_closed cp)|done].
  pose proof (decodePacket_messages reg now pkt addr cp) as Hm. rewrite E in Hm. cbn [fst snd] in Hm.
  rewrite Hm. destruct res as [m| | |]; [|by rewrite app_nil_r..].
  apply list.Forall_app. split; [done|]. constructor; [|done].
  apply decodePacket_set in E as (setID & buf & s & cp1 & E & Hs). exists s. split; [done|].
  destruct (decode_set_typed _ _ _ _ _ _ _ _ Hi E) as [?|(H1 & tmpl & Ht & H3)]; [by left|right].
  split; [done|]. refine (list.Forall_impl _ _ _ H3 _). intros r [Hr _]. exists tmpl. split; [done|].
  destruct (Hi _ _ _ Ht) as [Hreg _]. refine (list.Forall_impl _ _ _ Hreg _). by intros ie [].
Qed.

(** Every message a collecting process has delivered. *)
Lemma delivered_typed reg input cp :
  registry_ok reg → rtc (collector_step reg) (InitCollectingProcess input) cp →
  Forall (typed_message reg) (messageChan cp).
Proof.
  intros Hreg Hrun.
  refine (proj2 (rtc_invariant _ (λ cp, cp_inv reg cp ∧ Forall (typed_message reg) (messageChan cp)) _ _ _ Hrun _)).
  - intros x y Hxy [Hi Hp]. split; [by eapply cp_inv_step|by eapply typed_messages_step].
  - split; [apply cp_inv_Init|constructor].
Qed.

(** ** Properties *)

(** C22: what the collector delivers is well typed.  Every message that [decodePacket]
    returns in a reachable state carries a template or a data set, all slots of its
    records are filled, and every element's value is of the struct type of its data
    type; in a data set each record holds, in order, exactly the fields of the template
    that the collector knew under the message's observation domain and the record's
    template id. *)
Theorem decoded_message_typed reg input cp now pkt addr m cp' :
  registry_ok reg → rtc (collector_step reg) (InitCollectingProcess input) cp →
  decodePacket reg now pkt addr cp = (Ok m, cp') →
  ∃ s, msg_set m = Some s ∧
    ((setType s = Template ∧ Forall (λ r, ∃ ies, typed_record ies r) (records s)) ∨
     (setType s = Data ∧
      Forall (λ r, ∃ tmpl, getTemplate (obsDomainID m) (GetTemplateID r) cp = Ok tmpl ∧
                           typed_record tmpl r) (records s))).
Proof.
  intros Hr H%cp_inv_reachable (setID & buf & s & cp1 & E & Hs)%decodePacket_set; [|done].
  exists s. split; [done|].
  destruct (decode_set_typed _ _ _ _ _ _ _ _ H E) as [?|(H1 & tmpl & H2 & H3)]; [by left|right].
  split; [done|]. refine (list.Forall_impl _ _ _ H3 _). intros r [Ht <-]. eauto.
Qed.

(** A collector that has learnt a template, and a data message it decodes. *)
Definition example_cp1 : CollectingProcess :=
  (decodePacket loaded_registry 0 example_packet "10.0.0.7:41000" (example_cp "tcp")).2.
Definition example_data : list byte := data_message 1 5 1000 256 [[example_octets; example_pod]].
Definition example_decoded : Message :=
  from_ok (NewMessage true) (decodePacket loaded_registry 0 example_data "10.0.0.7:41000" example_cp1).1.

Lemma example_cp1_reachable :
  rtc (collector_step loaded_registry) (InitCollectingProcess (example_input_collector "tcp")) example_cp1.
Proof. apply rtc_once. eapply step_packet. apply surjective_pairing. Qed.

Lemma example_decoded_eq :
  decodePacket loaded_registry 0 example_data "10.0.0.7:41000" example_cp1 =
  (Ok example_decoded, (decodePacket loaded_registry 0 example_data "10.0.0.7:41000" example_cp1).2).
Proof.
  unfold example_decoded. rewrite <- from_ok_eq by (vm_compute; reflexivity). apply surjective_pairing.
Qed.

Lemma decoded_message_typed_witness :
  ∃ s, msg_set example_decoded = Some s ∧
    ((setType s = Template ∧ Forall (λ r, ∃ ies, typed_record ies r) (records s)) ∨
     (setType s = Data ∧
      Forall (λ r, ∃ tmpl, getTemplate (obsDomainID example_decoded) (GetTemplateID r) example_cp1 = Ok tmpl ∧
                           typed_record tmpl r) (records s))).
Proof.
  refine (decoded_message_typed loaded_registry (example_input_collector "tcp") example_cp1 0 example_data
    "10.0.0.7:41000" example_decoded _ _ example_cp1_reachable example_decoded_eq).
  apply LoadRegistry_registry_ok, LoadRegistry_loaded.
Defined.
