(* ===== verification/Heap.v ===== *)
(** * container/heap

    Go's standard binary heap, as the aggregation process uses it: the interface
    [heap.Interface] is a type class, its contract a second one, and [Push], [Pop]
    and [Fix] are proved correct for every type that fulfils the contract. *)

From Stdlib Require Import ZArith Lia.
From stdpp Require Import base list numbers sorting.
From S2P Require Import Prelude.

(** ** The interface *)

Class HeapInterface (H X : Type) : Type := {
  Len : H → nat;
  Less : H → nat → nat → go bool;
  Swap : nat → nat → H → go H;
  Push : X → H → go H;
  Pop : H → go (X * H);
}.

(** ** The algorithms *)

Section algorithms.
Context {H X : Type} `{HeapInterface H X}.

Definition parent (j : nat) : nat := ((j - 1) / 2)%nat.

(** [up]: the loop stops when the element is at the root or not less than its
    parent.  [fuel] bounds the number of iterations. *)
Fixpoint up (fuel : nat) (j : nat) (h : H) : go H :=
  match fuel with
  | O => Block
  | S fuel =>
      let i := parent j in
      if decide (i = j) then Ok h
      else
        less ← Less h j i;
        if (less : bool) then h ← Swap i j h; up fuel i h else Ok h
  end.

(** The smaller child of [i], or nothing when [i] has no child below [n]. *)
Definition smaller_child (i n : nat) (h : H) : go (option nat) :=
  let j1 := (2 * i + 1)%nat in
  if decide (n <= j1)%nat then Ok None
  else
    let j2 := (j1 + 1)%nat in
    if decide (j2 < n)%nat
    then less ← Less h j2 j1; Ok (Some (if (less : bool) then j2 else j1))
    else Ok (Some j1).

(** The loop of [down]; the result is the final position and the heap. *)
Fixpoint down_loop (fuel : nat) (i n : nat) (h : H) : go (nat * H) :=
  match fuel with
  | O => Block
  | S fuel =>
      child ← smaller_child i n h;
      match (child : option nat) with
      | None => Ok (i, h)
      | Some j =>
          less ← Less h j i;
          if (less : bool) then h ← Swap i j h; down_loop fuel j n h else Ok (i, h)
      end
  end.

Definition down (i0 n : nat) (h : H) : go (bool * H) :=
  '(i, h) ← down_loop (S n) i0 n h; Ok (bool_decide (i0 < i)%nat, h).

Definition heap_Push (x : X) (h : H) : go H :=
  h ← Push x h; up (Len h) (Len h - 1) h.

(** Swapping with index -1, in an empty heap, panics. *)
Definition heap_Pop (h : H) : go (X * H) :=
  if decide (Len h = 0%nat) then Panic
  else
    let n := (Len h - 1)%nat in
    h ← Swap 0 n h;
    '(_, h) ← down 0 n h;
    Pop h.

Definition heap_Fix (i : nat) (h : H) : go H :=
  '(moved, h) ← down i (Len h) h;
  if (moved : bool) then Ok h else up (S i) i h.

End algorithms.

(** ** Lists of keyed elements *)

Definition swap_list {A} (i j : nat) (l : list A) : list A :=
  match l !! i, l !! j with
  | Some x, Some y => <[i := y]> (<[j := x]> l)
  | _, _ => l
  end.

(** The key at a position. *)
Definition key_at {X} (l : list (X * Z)) (i : nat) : Z := default 0%Z (snd <$> l !! i).

(** The first [n] elements are in heap order. *)
Definition heap_upto {X} (n : nat) (l : list (X * Z)) : Prop :=
  ∀ j, (0 < j < n)%nat → (key_at l (parent j) <= key_at l j)%Z.

Definition heap_ordered {X} (l : list (X * Z)) : Prop := heap_upto (length l) l.

(** ** The contract *)

Class HeapLaws (H X D : Type) `{HeapInterface H X} : Type := {
  (** States on which the operations may be used. *)
  hvalid : H → Prop;
  (** The elements with their keys, by position. *)
  hview : H → list (X * Z);
  (** What the heap operations do not touch. *)
  hdata : H → D;
  (** [x] may be pushed, and has this key. *)
  hpushable : H → X → Z → Prop;
  law_Len h : hvalid h → Len h = length (hview h);
  law_Less h i j :
    hvalid h → (i < Len h)%nat → (j < Len h)%nat →
    Less h i j = Ok (bool_decide (key_at (hview h) i < key_at (hview h) j)%Z);
  law_Swap h i j :
    hvalid h → (i < Len h)%nat → (j < Len h)%nat →
    ∃ h', Swap i j h = Ok h' ∧ hvalid h' ∧ hview h' = swap_list i j (hview h) ∧ hdata h' = hdata h;
  law_Push h x k :
    hvalid h → hpushable h x k →
    ∃ h', Push x h = Ok h' ∧ hvalid h' ∧ hview h' = hview h ++ [(x, k)] ∧ hdata h' = hdata h;
  law_Pop h :
    hvalid h → Len h ≠ 0%nat →
    ∃ x k h', Pop h = Ok (x, h') ∧ hvalid h' ∧ hview h = hview h' ++ [(x, k)] ∧ hdata h' = hdata h;
}.

(** ** Lemmas: lists *)

Section lists.
Context {X : Type}.
Implicit Types l : list (X * Z).

Lemma lookup_swap {A} (l : list A) i j k :
  (i < length l)%nat → (j < length l)%nat →
  swap_list i j l !! k = if decide (k = i) then l !! j else if decide (k = j) then l !! i else l !! k.
Proof.
  intros [x Hx]%lookup_lt_is_Some_2 [y Hy]%lookup_lt_is_Some_2. unfold swap_list. rewrite Hx, Hy.
  pose proof (lookup_lt_Some _ _ _ Hx). pose proof (lookup_lt_Some _ _ _ Hy).
  destruct (decide (k = i)) as [->|].
  - rewrite list_lookup_insert_eq by (rewrite length_insert; lia). done.
  - rewrite list_lookup_insert_ne by done. case_decide; [subst|].
    + by rewrite list_lookup_insert_eq by lia.
    + by rewrite list_lookup_insert_ne.
Qed.

Lemma length_swap {A} i j (l : list A) : length (swap_list i j l) = length l.
Proof. unfold swap_list. repeat case_match; by rewrite ?length_insert. Qed.

Lemma key_at_swap l i j k :
  (i < length l)%nat → (j < length l)%nat →
  key_at (swap_list i j l) k =
    if decide (k = i) then key_at l j else if decide (k = j) then key_at l i else key_at l k.
Proof.
  intros Hi Hj. unfold key_at. rewrite lookup_swap by done. by repeat case_decide.
Qed.

Lemma swap_Permutation {A} i j (l : list A) : swap_list i j l ≡ₚ l.
Proof.
  unfold swap_list. destruct (l !! i) eqn:Hx, (l !! j) eqn:Hy; try done.
  by apply Permutation_insert_swap.
Qed.

Lemma parent_lt j : (0 < j)%nat → (parent j < j)%nat.
Proof. intros. unfold parent. apply Nat.Div0.div_lt_upper_bound; lia. Qed.

(** [j] is a child of [i]. *)
Lemma parent_spec i j : (0 < j)%nat → parent j = i ↔ j = (2 * i + 1)%nat ∨ j = (2 * i + 2)%nat.
Proof.
  intros Hj. unfold parent. pose proof (Nat.div_mod_eq (j - 1) 2).
  pose proof (Nat.mod_upper_bound (j - 1) 2). lia.
Qed.

(** The root of a heap has the smallest key. *)
Lemma heap_root n l j : heap_upto n l → (j < n)%nat → (key_at l 0 <= key_at l j)%Z.
Proof.
  intros Hh. induction (lt_wf j) as [j _ IH]. intros Hj.
  destruct (decide (j = 0)%nat) as [->|Hj0]; [lia|].
  pose proof (parent_lt j ltac:(lia)). pose proof (Hh j ltac:(lia)).
  pose proof (IH (parent j) ltac:(lia) ltac:(lia)). lia.
Qed.

(** Heap order but for the element at [k], which may be less than its parent. *)
Definition up_inv (k : nat) l : Prop :=
  (∀ j, (0 < j < length l)%nat → j ≠ k → (key_at l (parent j) <= key_at l j)%Z) ∧
  (∀ j, (0 < j < length l)%nat → parent j = k → (0 < k)%nat →
        (key_at l (parent k) <= key_at l j)%Z).

(** Heap order of the first [n] but for the element at [i], which may be less than
    its parent or greater than its children. *)
Definition fix_inv (i n : nat) l : Prop :=
  (∀ j, (0 < j < n)%nat → j ≠ i → parent j ≠ i → (key_at l (parent j) <= key_at l j)%Z) ∧
  (∀ j, (0 < j < n)%nat → parent j = i → (0 < i)%nat →
        (key_at l (parent i) <= key_at l j)%Z).

(** The same when it is not less than its parent. *)
Definition down_inv (i n : nat) l : Prop :=
  fix_inv i n l ∧ ((0 < i)%nat → (key_at l (parent i) <= key_at l i)%Z).

Lemma up_inv_done k l :
  up_inv k l → (k = 0%nat ∨ key_at l (parent k) <= key_at l k)%Z → heap_ordered l.
Proof.
  intros [H1 _] Hk j Hj. destruct (decide (j = k)) as [->|]; [|by apply H1].
  destruct Hk; [lia|done].
Qed.

Lemma up_inv_swap k l :
  (0 < k < length l)%nat → up_inv k l → (key_at l k < key_at l (parent k))%Z →
  up_inv (parent k) (swap_list (parent k) k l).
Proof.
  intros Hk [H1 H2] Hlt. pose proof (parent_lt k ltac:(lia)) as Hp. split; intros j.
  - rewrite length_swap. intros Hj Hne. rewrite !key_at_swap by lia.
    destruct (decide (j = k)) as [->|Hjk].
    { rewrite (decide_True (P := parent k = parent k)), decide_False by lia. lia. }
    destruct (decide (parent j = parent k)) as [E|E].
    { rewrite decide_False by done. pose proof (H1 j ltac:(lia) Hjk). rewrite E in *. lia. }
    destruct (decide (parent j = k)) as [E'|E'].
    { rewrite decide_False by done. pose proof (H2 j ltac:(lia) E' ltac:(lia)). lia. }
    rewrite (decide_False (P := j = parent k)) by done. apply H1; [lia|done].
  - rewrite length_swap. intros Hj Hpj Hpk. rewrite !key_at_swap by lia.
    pose proof (parent_lt (parent k) Hpk). pose proof (H1 (parent k) ltac:(lia) ltac:(lia)).
    rewrite (decide_False (P := parent (parent k) = parent k)) by lia.
    rewrite (decide_False (P := parent (parent k) = k)) by lia.
    pose proof (parent_lt j ltac:(lia)). rewrite (decide_False (P := j = parent k)) by lia.
    case_decide; [done|]. pose proof (H1 j ltac:(lia) ltac:(done)). rewrite Hpj in *. lia.
Qed.

Lemma down_inv_swap i j n l :
  (n <= length l)%nat → (i < n)%nat → (j < n)%nat → (0 < j)%nat → parent j = i →
  (∀ j', (0 < j' < n)%nat → parent j' = i → (key_at l j <= key_at l j')%Z) →
  fix_inv i n l → (key_at l j < key_at l i)%Z → down_inv j n (swap_list i j l).
Proof.
  intros Hn Hi Hj Hj0 Hpj Hmin [H1 H2] Hlt. pose proof (parent_lt j Hj0) as Hp. rewrite Hpj in Hp.
  split; [split|].
  - intros k Hk Hkj Hpk. rewrite !key_at_swap by lia.
    destruct (decide (k = i)) as [->|Hki].
    { pose proof (parent_lt i ltac:(lia)). rewrite !decide_False by lia.
      apply H2; [lia|done|lia]. }
    rewrite (decide_False (P := k = j)) by done. destruct (decide (parent k = i)) as [E|E].
    { apply Hmin; [lia|done]. }
    rewrite decide_False by done. by apply H1.
  - intros k Hk Hpk _. rewrite Hpj, !key_at_swap by lia.
    rewrite decide_True by done. pose proof (parent_lt k ltac:(lia)).
    rewrite !decide_False by lia. rewrite <- Hpk. apply H1; lia.
  - intros _. rewrite Hpj, !key_at_swap by lia. rewrite !decide_True by done.
    rewrite decide_False by lia. rewrite decide_True by done. lia.
Qed.

End lists.

(** ** Lemmas: the algorithms, for every implementation of the contract *)

Section correctness.
Context {H X D : Type} `{HL : HeapLaws H X D}.
Implicit Types h : H.

Lemma up_spec fuel j h :
  hvalid h → (j < Len h)%nat → (j < fuel)%nat → up_inv j (hview h) →
  ∃ h', up fuel j h = Ok h' ∧ hvalid h' ∧ hview h' ≡ₚ hview h ∧ heap_ordered (hview h') ∧
        hdata h' = hdata h.
Proof.
  revert j h. induction fuel as [|fuel IH]; intros j h Hv Hj Hf Hinv; [lia|].
  pose proof (law_Len h Hv) as Hl. cbn [up]. destruct (decide (parent j = j)) as [E|E].
  { assert (j = 0%nat) as -> by (destruct (decide (j = 0)%nat); [done|];
      pose proof (parent_lt j ltac:(lia)); lia).
    exists h. split_and!; try done. eapply up_inv_done; [done|]. by left. }
  assert (0 < j)%nat by (destruct j; [done|lia]). pose proof (parent_lt j ltac:(lia)).
  rewrite law_Less by (done || lia). cbn [mbind go_bind].
  destruct (bool_decide_reflect (key_at (hview h) j < key_at (hview h) (parent j))%Z) as [Hlt|Hge].
  - destruct (law_Swap h (parent j) j) as (h1 & -> & Hv1 & Hw1 & Hd1); [done|lia|lia|].
    cbn [mbind go_bind]. pose proof (law_Len h1 Hv1) as Hl1. rewrite Hw1, length_swap in Hl1.
    destruct (IH (parent j) h1) as (h' & E' & Hv' & Hp & Ho & Hd); [done|lia|lia| |].
    { rewrite Hw1. apply up_inv_swap; [lia|done|done]. }
    exists h'. split_and!; try done; [|congruence]. rewrite Hp, Hw1. apply swap_Permutation.
  - exists h. split_and!; try done. eapply up_inv_done; [done|]. right. lia.
Qed.

Lemma smaller_child_spec i n h :
  hvalid h → (n <= Len h)%nat →
  ∃ o, smaller_child i n h = Ok o ∧
    match o with
    | None => (n <= 2 * i + 1)%nat
    | Some j => (0 < j < n)%nat ∧ parent j = i ∧
        ∀ j', (0 < j' < n)%nat → parent j' = i → (key_at (hview h) j <= key_at (hview h) j')%Z
    end.
Proof.
  intros Hv Hn. unfold smaller_child. destruct (decide (n <= 2 * i + 1)%nat) as [H1|H1]; [eauto|].
  destruct (decide (2 * i + 1 + 1 < n)%nat) as [H2|H2].
  - rewrite law_Less by (done || lia). cbn [mbind go_bind].
    eexists. split; [done|].
    destruct (bool_decide_reflect (key_at (hview h) (2 * i + 1 + 1) < key_at (hview h) (2 * i + 1))%Z);
      (split_and!; [lia|lia|apply parent_spec; lia|]);
      intros j' Hj' [->| ->]%parent_spec; try lia;
      replace (2 * i + 2)%nat with (2 * i + 1 + 1)%nat by lia; lia.
  - eexists. split; [done|]. split_and!; [lia|lia|apply parent_spec; lia|].
    intros j' Hj' [->| ->]%parent_spec; lia.
Qed.

(** One turn of the loop: either [i] is not greater than its children, or the
    smaller child has moved up. *)
Lemma down_turn fuel i n h :
  hvalid h → (n <= Len h)%nat → (i < n)%nat → fix_inv i n (hview h) →
  (down_loop (S fuel) i n h = Ok (i, h) ∧
   ∀ j, (0 < j < n)%nat → parent j = i → (key_at (hview h) i <= key_at (hview h) j)%Z) ∨
  (∃ j h1, (i < j < n)%nat ∧ down_loop (S fuel) i n h = down_loop fuel j n h1 ∧ hvalid h1 ∧
     hview h1 = swap_list i j (hview h) ∧ down_inv j n (hview h1) ∧ hdata h1 = hdata h).
Proof.
  intros Hv Hn Hi Hinv. pose proof (law_Len h Hv) as Hl. cbn [down_loop].
  destruct (smaller_child_spec i n h Hv Hn) as (o & -> & Ho). cbn [mbind go_bind].
  destruct o as [j|].
  2:{ left. split; [done|]. intros j Hj [->| ->]%parent_spec; lia. }
  destruct Ho as (Hj & Hpj & Hmin). pose proof (parent_lt j ltac:(lia)).
  rewrite law_Less by (done || lia). cbn [mbind go_bind].
  destruct (bool_decide_reflect (key_at (hview h) j < key_at (hview h) i)%Z) as [Hlt|Hge].
  - right. destruct (law_Swap h i j) as (h1 & E1 & Hv1 & Hw1 & Hd1); [done|lia|lia|].
    exists j, h1. rewrite E1. cbn [mbind go_bind]. split_and!; try done; try lia.
    rewrite Hw1. by apply down_inv_swap; try lia.
  - left. split; [done|]. intros j' Hj' Hp'. pose proof (Hmin j' Hj' Hp'). lia.
Qed.

Lemma heap_upto_down_inv i n (l : list (X * Z)) :
  down_inv i n l → (∀ j, (0 < j < n)%nat → parent j = i → (key_at l i <= key_at l j)%Z) →
  heap_upto n l.
Proof.
  intros [[H1 _] H3] Hc j Hj. destruct (decide (j = i)) as [->|]; [apply H3; lia|].
  destruct (decide (parent j = i)) as [E|E]; [rewrite E; by apply Hc|by apply H1].
Qed.

Lemma down_loop_spec fuel i n h :
  hvalid h → (n <= Len h)%nat → (i < n)%nat → (n - i <= fuel)%nat → down_inv i n (hview h) →
  ∃ i' h', down_loop fuel i n h = Ok (i', h') ∧ (i <= i')%nat ∧ hvalid h' ∧
    hview h' ≡ₚ hview h ∧ (∀ k, (n <= k)%nat → hview h' !! k = hview h !! k) ∧
    heap_upto n (hview h') ∧ hdata h' = hdata h.
Proof.
  revert i h. induction fuel as [|fuel IH]; intros i h Hv Hn Hi Hf Hinv; [lia|].
  pose proof (law_Len h Hv) as Hl.
  destruct (down_turn fuel i n h Hv Hn Hi (proj1 Hinv))
    as [[E Hc]|(j & h1 & Hj & E & Hv1 & Hw1 & Hinv1 & Hd1)]; rewrite E.
  - exists i, h. split_and!; try done. by eapply heap_upto_down_inv.
  - pose proof (law_Len h1 Hv1) as Hl1. rewrite Hw1, length_swap in Hl1.
    destruct (IH j h1) as (i' & h' & E' & Hi' & Hv' & Hp & Hk & Ho & Hd); [done|lia|lia|lia|done|].
    exists i', h'. split_and!; try done; try lia; [..|congruence].
    + rewrite Hp, Hw1. apply swap_Permutation.
    + intros k Hk'. rewrite Hk, Hw1, lookup_swap by lia. by rewrite !decide_False by lia.
Qed.

(** [down] either moves the element and restores the order below and above it, or
    leaves the heap alone because the element is not greater than its children. *)
Lemma down_spec i n h :
  hvalid h → (n <= Len h)%nat → (i < n)%nat → fix_inv i n (hview h) →
  ∃ moved h', down i n h = Ok (moved, h') ∧ hvalid h' ∧ hview h' ≡ₚ hview h ∧
    (∀ k, (n <= k)%nat → hview h' !! k = hview h !! k) ∧ hdata h' = hdata h ∧
    if (moved : bool) then heap_upto n (hview h')
    else h' = h ∧ ∀ j, (0 < j < n)%nat → parent j = i → (key_at (hview h) i <= key_at (hview h) j)%Z.
Proof.
  intros Hv Hn Hi Hinv. pose proof (law_Len h Hv) as Hl. unfold down.
  destruct (down_turn n i n h Hv Hn Hi Hinv) as [[E Hc]|(j & h1 & Hj & E & Hv1 & Hw1 & Hinv1 & Hd1)];
    rewrite E; cbn [mbind go_bind].
  - exists false, h. rewrite bool_decide_false by lia. split_and!; try done.
  - pose proof (law_Len h1 Hv1) as Hl1. rewrite Hw1, length_swap in Hl1.
    destruct (down_loop_spec n j n h1) as (i' & h' & E' & Hi' & Hv' & Hp & Hk & Ho & Hd);
      [done|lia|lia|lia|done|].
    rewrite E'. cbn [mbind go_bind]. exists true, h'. rewrite bool_decide_true by lia.
    split_and!; try done; [..|congruence].
    + rewrite Hp, Hw1. apply swap_Permutation.
    + intros k Hk'. rewrite Hk, Hw1, lookup_swap by lia. by rewrite !decide_False by lia.
Qed.

Lemma key_at_app_l (l k : list (X * Z)) j : (j < length l)%nat → key_at (l ++ k) j = key_at l j.
Proof. intros. unfold key_at. by rewrite lookup_app_l. Qed.

Lemma up_inv_snoc (l : list (X * Z)) p : heap_ordered l → up_inv (length l) (l ++ [p]).
Proof.
  intros Ho. split; intros j; rewrite length_app; simpl; intros Hj.
  - intros Hne. pose proof (parent_lt j ltac:(lia)). rewrite !key_at_app_l by lia. apply Ho. lia.
  - intros Hp _. pose proof (parent_lt j ltac:(lia)). lia.
Qed.

(** A heap in which only the key at [i] was changed. *)
Lemma fix_inv_change i (l l' : list (X * Z)) :
  heap_ordered l → length l' = length l → (∀ j, j ≠ i → key_at l' j = key_at l j) →
  fix_inv i (length l') l'.
Proof.
  intros Ho Hl Hk. rewrite Hl. split; intros j Hj.
  - intros Hji Hpi. rewrite !Hk by done. by apply Ho.
  - intros Hp Hi. pose proof (parent_lt j ltac:(lia)). pose proof (parent_lt i Hi).
    rewrite !Hk by lia. pose proof (Ho j Hj). pose proof (Ho i ltac:(lia)). rewrite Hp in *. lia.
Qed.

Lemma heap_upto_snoc n (l : list (X * Z)) p :
  length l = n → heap_upto n (l ++ [p]) → heap_ordered l.
Proof.
  intros Hl Ho j Hj. pose proof (parent_lt j ltac:(lia)). 
  rewrite <- !(key_at_app_l l [p]) by lia. apply Ho. lia.
Qed.

Lemma heap_root_min (l : list (X * Z)) x k y k' :
  heap_ordered l → l !! 0%nat = Some (x, k) → (y, k') ∈ l → (k <= k')%Z.
Proof.
  intros Ho Hx [j Hy]%list_elem_of_lookup_1. pose proof (lookup_lt_Some _ _ _ Hy) as Hj.
  pose proof (heap_root _ _ j Ho Hj) as Hr. unfold key_at in Hr. rewrite Hx, Hy in Hr. done.
Qed.

Lemma heap_Push_spec x k h :
  hvalid h → heap_ordered (hview h) → hpushable h x k →
  ∃ h', heap_Push x h = Ok h' ∧ hvalid h' ∧ hview h' ≡ₚ (x, k) :: hview h ∧
        heap_ordered (hview h') ∧ hdata h' = hdata h.
Proof.
  intros Hv Ho Hx. destruct (law_Push h x k Hv Hx) as (h1 & E1 & Hv1 & Hw1 & Hd1).
  unfold heap_Push. rewrite E1. cbn [mbind go_bind]. pose proof (law_Len h1 Hv1) as Hl1.
  rewrite Hw1, length_app in Hl1. simpl in Hl1.
  destruct (up_spec (Len h1) (Len h1 - 1) h1) as (h' & E' & Hv' & Hp & Ho' & Hd); [done|lia|lia| |].
  { rewrite Hw1. replace (Len h1 - 1)%nat with (length (hview h)) by lia. by apply up_inv_snoc. }
  exists h'. split_and!; try done; [|congruence]. rewrite Hp, Hw1. symmetry. apply Permutation_cons_append.
Qed.

(** After the root and the last element were exchanged, [down] restores the order
    of all but the last. *)
Lemma down_root_spec n h :
  hvalid h → Len h = S n → fix_inv 0 n (hview h) →
  ∃ moved h', down 0 n h = Ok (moved, h') ∧ hvalid h' ∧ hview h' ≡ₚ hview h ∧
    (∀ k, (n <= k)%nat → hview h' !! k = hview h !! k) ∧ heap_upto n (hview h') ∧
    hdata h' = hdata h.
Proof.
  intros Hv Hl Hinv. destruct (decide (n = 0)%nat) as [->|Hn].
  { exists false, h. split_and!; try done. intros j Hj. lia. }
  destruct (down_spec 0 n h) as (moved & h' & E & Hv' & Hp & Hk & Hd & Hm); [done|lia|lia|done|].
  exists moved, h'. split_and!; try done. destruct moved; [done|]. destruct Hm as [-> Hc].
  eapply heap_upto_down_inv; [|exact Hc]. split; [done|lia].
Qed.

Lemma heap_Pop_spec h :
  hvalid h → heap_ordered (hview h) → Len h ≠ 0%nat →
  ∃ x k h', heap_Pop h = Ok (x, h') ∧ hvalid h' ∧ hview h !! 0%nat = Some (x, k) ∧
    (x, k) :: hview h' ≡ₚ hview h ∧ heap_ordered (hview h') ∧ hdata h' = hdata h ∧
    (∀ y k', (y, k') ∈ hview h → (k <= k')%Z).
Proof.
  intros Hv Ho Hne. unfold heap_Pop. rewrite decide_False by done.
  destruct (Len h) as [|n] eqn:Hn; [done|]. replace (S n - 1)%nat with n by lia.
  pose proof (law_Len h Hv) as Hl. rewrite Hn in Hl.
  destruct (law_Swap h 0 n) as (h1 & E1 & Hv1 & Hw1 & Hd1); [done|lia|lia|].
  rewrite E1. cbn [mbind go_bind].
  pose proof (law_Len h1 Hv1) as Hl1. rewrite Hw1, length_swap in Hl1.
  destruct (down_root_spec n h1) as (moved & h2 & E2 & Hv2 & Hp2 & Hk2 & Ho2 & Hd2); [done|lia| |].
  { rewrite Hw1. split; intros j Hj; [|lia]. intros Hj0 Hp0.
    pose proof (parent_lt j ltac:(lia)).
    rewrite !key_at_swap, !(decide_False (P := _ = 0%nat)), !decide_False by lia. apply Ho. lia. }
  rewrite E2. cbn [mbind go_bind]. pose proof (law_Len h2 Hv2) as Hl2.
  rewrite (Permutation_length Hp2), Hw1, length_swap in Hl2.
  destruct (law_Pop h2 Hv2) as (x & k & h3 & E3 & Hv3 & Hw3 & Hd3); [lia|]. rewrite E3.
  assert (Hl3 : length (hview h3) = n).
  { apply (f_equal length) in Hw3. rewrite length_app, (Permutation_length Hp2), Hw1, length_swap in Hw3.
    simpl in Hw3. lia. }
  assert (Hx : hview h !! 0%nat = Some (x, k)).
  { assert (Hlast : hview h2 !! n = Some (x, k)).
    { rewrite Hw3, lookup_app_r, Hl3, Nat.sub_diag by lia. done. }
    rewrite Hk2, Hw1, lookup_swap in Hlast by lia. destruct (decide (n = 0%nat)) as [->|]; [done|].
    by rewrite decide_True in Hlast. }
  exists x, k, h3. split_and!; try done.
  - rewrite <- (swap_Permutation 0 n (hview h)), <- Hw1, <- Hp2, Hw3. apply Permutation_cons_append.
  - rewrite Hw3 in Ho2. by eapply heap_upto_snoc.
  - congruence.
  - intros y k' Hy. by eapply heap_root_min.
Qed.

Lemma heap_Fix_spec i h :
  hvalid h → (i < Len h)%nat → fix_inv i (Len h) (hview h) →
  ∃ h', heap_Fix i h = Ok h' ∧ hvalid h' ∧ hview h' ≡ₚ hview h ∧ heap_ordered (hview h') ∧
        hdata h' = hdata h.
Proof.
  intros Hv Hi Hinv. pose proof (law_Len h Hv) as Hl. unfold heap_Fix.
  destruct (down_spec i (Len h) h) as (moved & h1 & E1 & Hv1 & Hp1 & _ & Hd & Hm); [done|lia|lia|done|].
  rewrite E1. cbn [mbind go_bind]. destruct moved.
  - exists h1. split_and!; try done. unfold heap_ordered. rewrite (Permutation_length Hp1), <- Hl. done.
  - destruct Hm as [-> Hc]. apply up_spec; [done|lia|lia|]. rewrite Hl in *.
    destruct Hinv as [H1 H2]. split; [|done]. intros j Hj Hji.
    destruct (decide (parent j = i)) as [E|E]; [rewrite E; by apply Hc|by apply H1].
Qed.

End correctness.
