(* ===== verification/PriorityQueue.v ===== *)
(** * The expiry queue

    src/pkg/intermediate/priorityqueue.go and the flow key of
    src/pkg/intermediate/types.go.  The queue is a slice of pointers to items that
    the flow records point to as well: a pointer is a number, and the items are in a
    store, so that an item changed through one pointer is seen through the other. *)

From Stdlib Require Import ZArith Lia.
From stdpp Require Import base gmap strings list numbers sorting.
From S2P Require Import Prelude Heap.

#[local] Open Scope Z_scope.

Record FlowKey : Type := mkFlowKey {
  SourceAddress : string;
  DestinationAddress : string;
  Protocol : Z;
  SourcePort : Z;
  DestinationPort : Z;
}.

#[global] Instance FlowKey_eq_dec : EqDecision FlowKey.
Proof. solve_decision. Defined.
#[global] Instance FlowKey_countable : Countable FlowKey.
Proof.
  apply (inj_countable'
    (λ k, (SourceAddress k, DestinationAddress k, Protocol k, SourcePort k, DestinationPort k))
    (λ '(a, b, c, d, e), mkFlowKey a b c d e)).
  by intros [].
Defined.

(** A pointer to an item or to a flow record. *)
Abbreviation ptr := nat (only parsing).

(** Times are nanoseconds; [index] is -1 for an item that is not in the queue. *)
Record ItemToExpire : Type := mkItemToExpire {
  flowKey : FlowKey;
  flowRecord : ptr;
  activeExpireTime : Z;
  inactiveExpireTime : Z;
  item_index : Z;
}.

#[global] Instance ItemToExpire_eq_dec : EqDecision ItemToExpire.
Proof. solve_decision. Defined.

Record TimeToExpirePriorityQueue : Type := mkQueue {
  pq : list ptr;
  items : gmap ptr ItemToExpire;
}.

Definition with_index (i : Z) (it : ItemToExpire) : ItemToExpire :=
  mkItemToExpire (flowKey it) (flowRecord it) (activeExpireTime it) (inactiveExpireTime it) i.

(** [p.index = i]. *)
Definition set_index (p : ptr) (i : Z) (m : gmap ptr ItemToExpire) : gmap ptr ItemToExpire :=
  alter (with_index i) p m.

Definition pq_Len (q : TimeToExpirePriorityQueue) : nat := length (pq q).

(** [pq[i]], dereferenced. *)
Definition item_at (q : TimeToExpirePriorityQueue) (i : nat) : go ItemToExpire :=
  p ← of_option Panic (pq q !! i); of_option Panic (items q !! p).

Definition min_expire (it : ItemToExpire) : Z :=
  if decide (activeExpireTime it < inactiveExpireTime it) then activeExpireTime it
  else inactiveExpireTime it.

Definition minExpireTime (q : TimeToExpirePriorityQueue) (i : nat) : go Z :=
  min_expire <$> item_at q i.

Definition pq_Less (q : TimeToExpirePriorityQueue) (i j : nat) : go bool :=
  a ← minExpireTime q i; b ← minExpireTime q j; Ok (bool_decide (a < b)).

Definition pq_Swap (i j : nat) (q : TimeToExpirePriorityQueue) : go TimeToExpirePriorityQueue :=
  match pq q !! i, pq q !! j with
  | Some a, Some b =>
      Ok {| pq := <[j := a]> (<[i := b]> (pq q));
            items := set_index a (Z.of_nat j) (set_index b (Z.of_nat i) (items q)) |}
  | _, _ => Panic
  end.

Definition pq_Push (item : ptr) (q : TimeToExpirePriorityQueue) : go TimeToExpirePriorityQueue :=
  match items q !! item with
  | Some _ =>
      Ok {| pq := pq q ++ [item]; items := set_index item (Z.of_nat (pq_Len q)) (items q) |}
  | None => Panic
  end.

Definition pq_Pop (q : TimeToExpirePriorityQueue) : go (ptr * TimeToExpirePriorityQueue) :=
  match last (pq q) with
  | Some item =>
      Ok (item, {| pq := take (pq_Len q - 1) (pq q); items := set_index item (-1) (items q) |})
  | None => Panic
  end.

Definition Peek (q : TimeToExpirePriorityQueue) : go ptr := of_option Panic (pq q !! 0%nat).

#[global] Instance pq_heap : HeapInterface TimeToExpirePriorityQueue ptr := {
  Len := pq_Len;
  Less := pq_Less;
  Swap := pq_Swap;
  Push := pq_Push;
  Pop := pq_Pop;
}.

(** [heap.Fix(pq, i)]; the index of an item outside the queue is -1, for which
    neither [down] nor [up] does anything. *)
Definition pq_Fix (i : Z) (q : TimeToExpirePriorityQueue) : go TimeToExpirePriorityQueue :=
  if decide (i < 0) then Ok q else heap_Fix (Z.to_nat i) q.

Definition Update (item : ptr) (key : FlowKey) (record : ptr) (active inactive : Z)
    (q : TimeToExpirePriorityQueue) : go TimeToExpirePriorityQueue :=
  match items q !! item with
  | None => Panic
  | Some it =>
      pq_Fix (item_index it)
        {| pq := pq q;
           items := <[item := mkItemToExpire key record active inactive (item_index it)]> (items q) |}
  end.

(** ** The invariant

    Every entry of the queue points to an item, and the item knows where it is; an
    item that is not queued is new or was popped. *)
Definition pq_positions (q : TimeToExpirePriorityQueue) : Prop :=
  ∀ i p, pq q !! i = Some p → ∃ it, items q !! p = Some it ∧ item_index it = Z.of_nat i.

Definition pq_idle (q : TimeToExpirePriorityQueue) : Prop :=
  ∀ p it, items q !! p = Some it → p ∉ pq q → item_index it = -1 ∨ item_index it = 0.

Definition pq_valid (q : TimeToExpirePriorityQueue) : Prop := pq_positions q ∧ pq_idle q.

Definition key_of (q : TimeToExpirePriorityQueue) (p : ptr) : Z :=
  default 0 (min_expire <$> items q !! p).

Definition pq_view (q : TimeToExpirePriorityQueue) : list (ptr * Z) :=
  (λ p, (p, key_of q p)) <$> pq q.

(** The items without their position. *)
Definition pq_data (q : TimeToExpirePriorityQueue) : gmap ptr ItemToExpire :=
  with_index 0 <$> items q.

(** ** Lemmas *)

Lemma pq_valid_NoDup q : pq_valid q → NoDup (pq q).
Proof.
  intros [Hv _]. apply NoDup_alt. intros i j p Hi Hj.
  destruct (Hv i p Hi) as (a & Ha & Hia), (Hv j p Hj) as (b & Hb & Hjb). simplify_eq. lia.
Qed.

Lemma key_of_set_index l l' p i m x :
  key_of {| pq := l; items := set_index p i m |} x = key_of {| pq := l'; items := m |} x.
Proof.
  unfold key_of, set_index. simpl. destruct (decide (x = p)) as [->|].
  - rewrite lookup_alter_eq. by destruct (m !! p).
  - by rewrite lookup_alter_ne.
Qed.

Lemma key_of_pq l l' m x : key_of {| pq := l; items := m |} x = key_of {| pq := l'; items := m |} x.
Proof. done. Qed.

Lemma data_set_index p i m : with_index 0 <$> set_index p i m = with_index 0 <$> m.
Proof.
  apply map_eq. intros x. unfold set_index. rewrite !lookup_fmap.
  destruct (decide (x = p)) as [->|]; [rewrite lookup_alter_eq; by destruct (m !! p)|].
  by rewrite lookup_alter_ne.
Qed.

Lemma lookup_set_index p i m x :
  set_index p i m !! x = if decide (x = p) then with_index i <$> m !! x else m !! x.
Proof.
  unfold set_index. case_decide as E; [subst; by rewrite lookup_alter_eq|by rewrite lookup_alter_ne].
Qed.

Lemma insert_swap_list {A} i j (l : list A) a b :
  l !! i = Some a → l !! j = Some b → <[j := a]> (<[i := b]> l) = swap_list i j l.
Proof.
  intros Ha Hb. unfold swap_list. rewrite Ha, Hb. destruct (decide (i = j)) as [->|].
  - by simplify_eq.
  - by rewrite list_insert_insert_ne.
Qed.

Lemma fmap_swap_list {A B} (f : A → B) i j l : f <$> swap_list i j l = swap_list i j (f <$> l).
Proof.
  unfold swap_list. rewrite !list_lookup_fmap.
  destruct (l !! i), (l !! j); simpl; try done. by rewrite !list_fmap_insert.
Qed.

Lemma pq_view_keys l m q :
  (∀ x, key_of {| pq := l; items := m |} x = key_of q x) →
  pq_view {| pq := l; items := m |} = (λ p, (p, key_of q p)) <$> l.
Proof.
  intros Hk. unfold pq_view. simpl. apply list_fmap_ext. intros i x _. by rewrite Hk.
Qed.

Lemma pq_law_Len q : pq_valid q → pq_Len q = length (pq_view q).
Proof. intros _. unfold pq_view. symmetry. apply length_fmap. Qed.

Lemma pq_law_Less q i j :
  pq_valid q → (i < pq_Len q)%nat → (j < pq_Len q)%nat →
  pq_Less q i j = Ok (bool_decide (key_at (pq_view q) i < key_at (pq_view q) j)).
Proof.
  intros Hv [p Hp]%lookup_lt_is_Some_2 [p' Hp']%lookup_lt_is_Some_2.
  destruct Hv as [Hv _]. destruct (Hv _ _ Hp) as (a & Ha & _), (Hv _ _ Hp') as (b & Hb & _).
  unfold pq_Less, minExpireTime, item_at, key_at, pq_view.
  rewrite !list_lookup_fmap, Hp, Hp'. simpl. rewrite Ha, Hb. simpl.
  unfold key_of. by rewrite Ha, Hb.
Qed.

Lemma pq_law_Swap q i j :
  pq_valid q → (i < pq_Len q)%nat → (j < pq_Len q)%nat →
  ∃ q', pq_Swap i j q = Ok q' ∧ pq_valid q' ∧ pq_view q' = swap_list i j (pq_view q) ∧
        pq_data q' = pq_data q.
Proof.
  intros Hv [a Ha]%lookup_lt_is_Some_2 [b Hb]%lookup_lt_is_Some_2.
  unfold pq_Swap. rewrite Ha, Hb. eexists. split; [done|].
  pose proof (lookup_lt_Some _ _ _ Ha). pose proof (lookup_lt_Some _ _ _ Hb).
  pose proof (pq_valid_NoDup q Hv) as Hnd. destruct Hv as [Hv Hidle].
  split_and!; [split| |].
  - intros k p. simpl. rewrite (insert_swap_list i j) by done. rewrite lookup_swap by done.
    intros Hk. rewrite !lookup_set_index.
    destruct (decide (k = i)) as [->|]; [|destruct (decide (k = j)) as [->|]].
    + simplify_eq. destruct (Hv _ _ Hb) as (it & Hit & _). rewrite Hit.
      rewrite (decide_True (P := b = b)) by done. destruct (decide (b = a)) as [->|].
      * rewrite (NoDup_lookup _ _ _ _ Hnd Ha Hb). eexists; by split.
      * eexists; by split.
    + simplify_eq. destruct (Hv _ _ Ha) as (it & Hit & _). rewrite Hit.
      rewrite (decide_True (P := a = a)) by done. case_decide; eexists; by split.
    + destruct (Hv _ _ Hk) as (it & Hit & Hi).
      rewrite !decide_False by (intros ->; eauto using NoDup_lookup). eauto.
  - intros p it Hit Hp. simpl in *. rewrite (insert_swap_list i j), swap_Permutation in Hp by done.
    rewrite !lookup_set_index in Hit.
    rewrite !decide_False in Hit by (intros ->; eauto using list_elem_of_lookup_2). eauto.
  - erewrite pq_view_keys.
    + rewrite (insert_swap_list i j) by done. apply fmap_swap_list.
    + intros x. destruct q as [l m]. simpl. by rewrite !(key_of_set_index _ l).
  - unfold pq_data. simpl. by rewrite !data_set_index.
Qed.

(** An item may be pushed when it exists and is not in the queue. *)
Definition pq_pushable (q : TimeToExpirePriorityQueue) (p : ptr) (k : Z) : Prop :=
  (p ∉ pq q) ∧ ∃ it, items q !! p = Some it ∧ k = min_expire it.

Lemma pq_law_Push q p k :
  pq_valid q → pq_pushable q p k →
  ∃ q', pq_Push p q = Ok q' ∧ pq_valid q' ∧ pq_view q' = pq_view q ++ [(p, k)] ∧
        pq_data q' = pq_data q.
Proof.
  intros [Hv Hidle] (Hp & it & Hit & ->). unfold pq_Push. rewrite Hit. eexists. split; [done|].
  split_and!; [split| |].
  - intros i x Hx. simpl in *. rewrite lookup_set_index.
    apply lookup_app_Some in Hx as [Hx|[Hl Hx]].
    + rewrite decide_False; [by apply Hv|]. intros ->. apply Hp. by eapply list_elem_of_lookup_2.
    + apply list_lookup_singleton_Some in Hx as [Hi ->]. rewrite decide_True, Hit by done.
      eexists. split; [done|]. simpl. unfold pq_Len. lia.
  - intros x itx Hx Hn. simpl in *. apply not_elem_of_app in Hn as [Hn Hne].
    rewrite lookup_set_index, decide_False in Hx by (intros ->; apply Hne; left). eauto.
  - erewrite pq_view_keys; [|intros x; destruct q as [l m]; apply (key_of_set_index _ l)].
    rewrite fmap_app. unfold pq_view, key_of. cbn [fmap list_fmap]. by rewrite Hit.
  - unfold pq_data. simpl. by rewrite data_set_index.
Qed.

Lemma pq_law_Pop q :
  pq_valid q → pq_Len q ≠ 0%nat →
  ∃ p k q', pq_Pop q = Ok (p, q') ∧ pq_valid q' ∧ pq_view q = pq_view q' ++ [(p, k)] ∧
            pq_data q' = pq_data q.
Proof.
  intros Hv Hne. pose proof (pq_valid_NoDup q Hv) as Hnd. unfold pq_Pop, pq_Len in *.
  destruct q as [l m]. simpl in *.
  destruct l as [|p l _] using rev_ind; [done|]. rewrite last_snoc, length_app. simpl.
  replace (length l + 1 - 1)%nat with (length l) by lia. rewrite take_app_length.
  destruct Hv as [Hv Hidle].
  exists p. eexists _, _. split; [done|]. split_and!; [split| |].
  - intros i x Hx. simpl in *. rewrite lookup_set_index.
    assert (Hx' : (l ++ [p]) !! i = Some x) by (rewrite lookup_app_l; eauto using lookup_lt_Some).
    rewrite decide_False; [by apply (Hv i x)|]. intros ->.
    assert (i = length l) by (eapply NoDup_lookup; [exact Hnd|exact Hx'|by rewrite lookup_app_r, Nat.sub_diag]).
    apply lookup_lt_Some in Hx. lia.
  - intros x itx Hx Hn. simpl in *. rewrite lookup_set_index in Hx.
    destruct (decide (x = p)) as [->|].
    + destruct (m !! p); simplify_eq/=. by left.
    + apply (Hidle x itx); [done|]. simpl. rewrite elem_of_app, list_elem_of_singleton. naive_solver.
  - erewrite (pq_view_keys l); [|intros x; apply (key_of_set_index _ (l ++ [p]))].
    unfold pq_view. simpl. by rewrite fmap_app.
  - unfold pq_data. simpl. by rewrite data_set_index.
Qed.

#[global] Instance pq_laws : HeapLaws TimeToExpirePriorityQueue ptr (gmap ptr ItemToExpire) := {
  hvalid := pq_valid;
  hview := pq_view;
  hdata := pq_data;
  hpushable := pq_pushable;
  law_Len := pq_law_Len;
  law_Less := pq_law_Less;
  law_Swap := pq_law_Swap;
  law_Push := pq_law_Push;
  law_Pop := pq_law_Pop;
}.

(** The invariant of the queue between calls. *)
Definition pq_inv (q : TimeToExpirePriorityQueue) : Prop :=
  pq_valid q ∧ heap_ordered (pq_view q).

Lemma pq_view_elements q : (pq_view q).*1 = pq q.
Proof. unfold pq_view. rewrite <- list_fmap_compose. apply list_fmap_id. Qed.

Lemma pq_view_perm q q' : pq_view q' ≡ₚ pq_view q → pq q' ≡ₚ pq q.
Proof. intros H. by rewrite <- !pq_view_elements, H. Qed.

(** The key in the view is the item's. *)
Lemma pq_view_lookup q p k : (p, k) ∈ pq_view q → p ∈ pq q ∧ k = key_of q p.
Proof. unfold pq_view. intros (x & [= -> ->] & Hx)%list_elem_of_fmap. done. Qed.

Lemma key_of_data q q' p : pq_data q' = pq_data q → key_of q' p = key_of q p.
Proof.
  intros Hd. apply (f_equal (lookup p)) in Hd. unfold pq_data in Hd.
  rewrite !lookup_fmap in Hd. unfold key_of.
  destruct (items q' !! p) as [[]|], (items q !! p) as [[]|]; simpl in *; by simplify_eq.
Qed.

(** What [Update] stores. *)
Definition updated (q : TimeToExpirePriorityQueue) (item : ptr) (key : FlowKey) (record : ptr)
    (active inactive : Z) (it : ItemToExpire) : TimeToExpirePriorityQueue :=
  {| pq := pq q;
     items := <[item := mkItemToExpire key record active inactive (item_index it)]> (items q) |}.

Lemma updated_valid q item key record active inactive it :
  items q !! item = Some it → pq_valid q → pq_valid (updated q item key record active inactive it).
Proof.
  intros Hit [Hv Hidle]. split.
  - intros i p Hp. simpl in *. destruct (Hv i p Hp) as (a & Ha & Hi).
    destruct (decide (p = item)) as [->|].
    + rewrite lookup_insert_eq. simplify_eq. eexists. by split.
    + rewrite lookup_insert_ne by done. eauto.
  - intros p itp Hp Hn. simpl in *. destruct (decide (p = item)) as [->|].
    + rewrite lookup_insert_eq in Hp. simplify_eq/=. eauto.
    + rewrite lookup_insert_ne in Hp by done. eauto.
Qed.

(** Only the key of the item's own position changes. *)
Lemma updated_fix_inv q item key record active inactive it i :
  items q !! item = Some it → pq_inv q → pq q !! i = Some item →
  fix_inv i (pq_Len q) (pq_view (updated q item key record active inactive it)).
Proof.
  intros Hit [Hv Ho] Hi.
  assert (Hlen : pq_Len q = length (pq_view (updated q item key record active inactive it)))
    by (unfold pq_view; by rewrite length_fmap).
  rewrite Hlen. apply (fix_inv_change i (pq_view q)); [done|unfold pq_view; by rewrite !length_fmap|].
  intros j Hj. unfold key_at, pq_view. rewrite !list_lookup_fmap. simpl.
  destruct (pq q !! j) as [p|] eqn:Hp; [|done]. simpl. unfold key_of. simpl.
  rewrite lookup_insert_ne; [done|]. intros <-. apply Hj.
  eapply NoDup_lookup; [by apply pq_valid_NoDup|done|done].
Qed.

Lemma Update_spec q item key record active inactive it i :
  pq_inv q → items q !! item = Some it → pq q !! i = Some item →
  ∃ q', Update item key record active inactive q = Ok q' ∧ pq_inv q' ∧ pq q' ≡ₚ pq q ∧
    pq_data q' = <[item := mkItemToExpire key record active inactive 0]> (pq_data q).
Proof.
  intros Hinv Hit Hi. unfold Update. rewrite Hit. fold (updated q item key record active inactive it).
  destruct Hinv as [Hv Ho]. destruct (proj1 Hv i item Hi) as (it' & Hit' & Hix). simplify_eq.
  unfold pq_Fix. rewrite decide_False by lia. rewrite Hix, Nat2Z.id.
  destruct (heap_Fix_spec (D := gmap ptr ItemToExpire) i (updated q item key record active inactive it))
    as (q' & E & Hv' & Hp & Ho' & Hd).
  - by apply updated_valid.
  - change (i < length (pq q))%nat. by eapply lookup_lt_Some.
  - exact (updated_fix_inv q item key record active inactive it i Hit (conj Hv Ho) Hi).
  - exists q'. split_and!; try done.
    + by apply (pq_view_perm (updated q item key record active inactive it)).
    + change (pq_data q' = pq_data (updated q item key record active inactive it)) in Hd.
      rewrite Hd. unfold pq_data, updated. cbn [items]. by rewrite fmap_insert.
Qed.

(** Updating an item that is not queued leaves the order alone. *)
Lemma updated_view q item key record active inactive it :
  item ∉ pq q → pq_view (updated q item key record active inactive it) = pq_view q.
Proof.
  intros Hn. unfold pq_view. simpl. apply list_fmap_ext. intros i x Hx. unfold key_of. simpl.
  rewrite lookup_insert_ne; [done|]. intros ->. apply Hn. by eapply list_elem_of_lookup_2.
Qed.

Lemma Update_idle q item key record active inactive it :
  pq_inv q → items q !! item = Some it → item ∉ pq q →
  ∃ q', Update item key record active inactive q = Ok q' ∧ pq_inv q' ∧ pq q' ≡ₚ pq q ∧
    pq_data q' = <[item := mkItemToExpire key record active inactive 0]> (pq_data q).
Proof.
  intros [Hv Ho] Hit Hn. unfold Update. rewrite Hit.
  fold (updated q item key record active inactive it). set (u := updated _ _ _ _ _ _ _).
  assert (Hu : pq_inv u) by (split; [by apply updated_valid|unfold u; by rewrite updated_view]).
  assert (Hd : pq_data u = <[item := mkItemToExpire key record active inactive 0]> (pq_data q)).
  { unfold pq_data, u, updated. cbn [items]. by rewrite fmap_insert. }
  destruct (proj2 Hv item it Hit Hn) as [-> | ->]; unfold pq_Fix.
  { exists u. rewrite decide_True by lia. by split_and!. }
  rewrite decide_False by lia. change (Z.to_nat 0) with 0%nat.
  destruct (pq q) as [|p l] eqn:Eq.
  { exists u. split_and!; [|done|by unfold u; simpl; rewrite ?Eq|done].
    unfold heap_Fix, down. simpl. unfold pq_Len, u. simpl. by rewrite ?Eq. }
  destruct (heap_Fix_spec (D := gmap ptr ItemToExpire) 0 u) as (q' & E & Hv' & Hp & Ho' & Hd').
  - apply Hu.
  - change (0 < length (pq q))%nat. rewrite Eq. simpl. lia.
  - change (fix_inv 0 (pq_Len u) (pq_view u)). rewrite (pq_law_Len u (proj1 Hu)). by apply (fix_inv_change 0 (pq_view u)); [apply Hu|..].
  - exists q'. rewrite <- Hd. split_and!; [done|by split| |exact Hd'].
    rewrite <- Eq. by apply (pq_view_perm u).
Qed.

(** [Update] works on every item. *)
Lemma Update_any q item key record active inactive it :
  pq_inv q → items q !! item = Some it →
  ∃ q', Update item key record active inactive q = Ok q' ∧ pq_inv q' ∧ pq q' ≡ₚ pq q ∧
    pq_data q' = <[item := mkItemToExpire key record active inactive 0]> (pq_data q).
Proof.
  intros Hi Hit. destruct (decide (item ∈ pq q)) as [[i Hp]%list_elem_of_lookup|Hn].
  - by eapply Update_spec.
  - by eapply Update_idle.
Qed.

Lemma Push_spec q p it :
  pq_inv q → items q !! p = Some it → p ∉ pq q →
  ∃ q', heap_Push p q = Ok q' ∧ pq_inv q' ∧ pq q' ≡ₚ p :: pq q ∧ pq_data q' = pq_data q.
Proof.
  intros [Hv Ho] Hit Hp.
  destruct (heap_Push_spec (D := gmap ptr ItemToExpire) p (min_expire it) q) as (q' & E & Hv' & Hw & Ho' & Hd);
    [done|done|by split; eauto|].
  exists q'. split_and!; try done. rewrite <- !pq_view_elements. by rewrite Hw.
Qed.

Lemma Pop_spec q :
  pq_inv q → pq q ≠ [] →
  ∃ p q', heap_Pop q = Ok (p, q') ∧ pq_inv q' ∧ Peek q = Ok p ∧ p :: pq q' ≡ₚ pq q ∧
    pq_data q' = pq_data q ∧ ∀ x, x ∈ pq q → key_of q p <= key_of q x.
Proof.
  intros [Hv Ho] Hne.
  destruct (heap_Pop_spec (D := gmap ptr ItemToExpire) q) as (p & k & q' & E & Hv' & H0 & Hp & Ho' & Hd & Hmin);
    [done|done|unfold Len; simpl; unfold pq_Len; by destruct (pq q)|].
  exists p, q'. split_and!; try done.
  - unfold Peek. change (hview q) with (pq_view q) in H0. unfold pq_view in H0.
    rewrite list_lookup_fmap in H0. destruct (pq q !! 0%nat); by simplify_eq/=.
  - rewrite <- !pq_view_elements. by rewrite <- Hp.
  - intros x Hx. assert (Hk : (p, k) ∈ pq_view q) by (rewrite <- Hp; left).
    apply pq_view_lookup in Hk as [_ <-]. apply (Hmin x). apply list_elem_of_fmap. eauto.
Qed.

(** ** The life of the queue *)

Definition empty_queue : TimeToExpirePriorityQueue := {| pq := []; items := ∅ |}.

(** A new item is allocated, or one of the operations of the aggregation process
    returns normally; an item that is updated is in the queue. *)
Inductive queue_step : TimeToExpirePriorityQueue → TimeToExpirePriorityQueue → Prop :=
| step_alloc p it q :
    items q !! p = None → item_index it = 0 → queue_step q {| pq := pq q; items := <[p := it]> (items q) |}
| step_push p q q' : p ∉ pq q → heap_Push p q = Ok q' → queue_step q q'
| step_pop p q q' : heap_Pop q = Ok (p, q') → queue_step q q'
| step_update p key record active inactive q q' :
    p ∈ pq q → Update p key record active inactive q = Ok q' → queue_step q q'.

Lemma heap_Push_stored p q q' : heap_Push p q = Ok q' → is_Some (items q !! p).
Proof.
  unfold heap_Push. simpl. unfold pq_Push. by destruct (items q !! p).
Qed.

Lemma heap_Pop_nonempty p q q' : heap_Pop q = Ok (p, q') → pq q ≠ [].
Proof. intros H Hq. revert H. unfold heap_Pop. simpl. unfold pq_Len. by rewrite Hq. Qed.

Lemma pq_inv_alloc p it q :
  items q !! p = None → item_index it = 0 → pq_inv q → pq_inv {| pq := pq q; items := <[p := it]> (items q) |}.
Proof.
  intros Hp H0 [[Hv Hidle] Ho].
  assert (Hne : ∀ i x, pq q !! i = Some x → x ≠ p).
  { intros i x Hx ->. destruct (Hv i p Hx) as (a & Ha & _). congruence. }
  split; [split|].
  - intros i x Hx. simpl in *. rewrite lookup_insert_ne by (symmetry; eauto). by apply Hv.
  - intros x itx Hx Hn. simpl in *. destruct (decide (x = p)) as [->|].
    + rewrite lookup_insert_eq in Hx. simplify_eq. by right.
    + rewrite lookup_insert_ne in Hx by done. eauto.
  - replace (pq_view _) with (pq_view q); [done|]. unfold pq_view. simpl.
    apply list_fmap_ext. intros i x Hx. unfold key_of. simpl.
    by rewrite lookup_insert_ne by (symmetry; eauto).
Qed.

Lemma pq_inv_step q q' : queue_step q q' → pq_inv q → pq_inv q'.
Proof.
  destruct 1 as [p it q Hp H0|p q q' Hp H|p q q' H|p key record active inactive q q' Hp H]; intros Hi.
  - by apply pq_inv_alloc.
  - destruct (heap_Push_stored _ _ _ H) as [it Hit].
    destruct (Push_spec q p it Hi Hit Hp) as (q1 & E & ? & _). by replace q' with q1 by congruence.
  - destruct (Pop_spec q Hi (heap_Pop_nonempty _ _ _ H)) as (p' & q1 & E & ? & _).
    by replace q' with q1 by congruence.
  - apply list_elem_of_lookup_1 in Hp as [i Hpi]. destruct Hi as [Hv Ho].
    destruct (proj1 Hv i p Hpi) as (it & Hit & _).
    destruct (Update_spec q p key record active inactive it i) as (q1 & E & ? & _);
      [by split|done|done|]. by replace q' with q1 by congruence.
Qed.

Lemma pq_inv_reachable q : rtc queue_step empty_queue q → pq_inv q.
Proof.
  intros H. assert (H0 : pq_inv empty_queue) by (split; [by split|intros j Hj; simpl in Hj; lia]).
  induction H as [|x y z Hxy _ IH]; eauto using pq_inv_step.
Qed.

(** Pop [n] items. *)
Fixpoint pop_n (n : nat) (q : TimeToExpirePriorityQueue) : go (list ptr) :=
  match n with
  | O => Ok []
  | S n => '(p, q) ← heap_Pop q; ps ← pop_n n q; Ok (p :: ps)
  end.

Lemma StronglySorted_mono {A} (R S : A → A → Prop) l :
  (∀ a b, R a b → S a b) → StronglySorted R l → StronglySorted S l.
Proof. intros HRS. induction 1; constructor; [done|]. eapply Forall_impl; eauto. Qed.

Lemma pop_n_sorted n q :
  pq_inv q → pq_Len q = n →
  ∃ ps, pop_n n q = Ok ps ∧ ps ≡ₚ pq q ∧ StronglySorted (λ a b, key_of q a <= key_of q b) ps.
Proof.
  unfold pq_Len. revert q. induction n as [|n IH]; intros q Hi Hn.
  { exists []. destruct (pq q) eqn:E; [|done]. split_and!; [done|done|constructor]. }
  destruct (Pop_spec q Hi) as (p & q' & E & Hi' & _ & Hp & Hd & Hmin);
    [by intros Hq; rewrite Hq in Hn|].
  destruct (IH q' Hi') as (ps & Eps & Hps & Hs).
  { apply Permutation_length in Hp. simpl in Hp. lia. }
  exists (p :: ps). cbn [pop_n]. rewrite E. cbn [mbind go_bind]. rewrite Eps. split_and!; [done|..].
  - by rewrite Hps.
  - constructor.
    + eapply StronglySorted_mono; [|exact Hs]. intros a b.
      cbn beta. by rewrite !(key_of_data q q' _ Hd).
    + apply list.Forall_forall. intros x Hx. apply Hmin. rewrite <- Hp, <- Hps. by right.
Qed.

(** ** Properties *)

(** C29: the expiry queue always yields the flow that expires first.  In every state
    the queue can reach by creating, pushing, popping and updating items, each queued
    item knows its own position and no item is queued twice; [heap.Pop] panics only
    on an empty queue, and otherwise returns the item [Peek] shows, whose expiry time
    (the earlier of its two) is the smallest of all, and leaves the others queued. *)
Theorem queue_pops_earliest q :
  rtc queue_step empty_queue q →
  NoDup (pq q) ∧
  (∀ i p, pq q !! i = Some p → ∃ it, items q !! p = Some it ∧ item_index it = Z.of_nat i) ∧
  match pq q with
  | [] => heap_Pop q = Panic
  | _ => ∃ p q', heap_Pop q = Ok (p, q') ∧ Peek q = Ok p ∧ p :: pq q' ≡ₚ pq q ∧
           ∀ x, x ∈ pq q → key_of q p <= key_of q x
  end.
Proof.
  intros H. pose proof (pq_inv_reachable q H) as Hi.
  split_and!; [by apply pq_valid_NoDup; destruct Hi|by destruct Hi as [[] _]|].
  destruct (pq q) eqn:E; [unfold heap_Pop; simpl; unfold pq_Len; by rewrite E|].
  destruct (Pop_spec q Hi) as (p' & q' & E' & _ & Hpk & Hp & _ & Hmin); [by rewrite E|].
  rewrite <- E. eauto 10.
Qed.

Definition example_key : FlowKey := mkFlowKey "10.0.0.1" "10.0.0.2" 6 1234 5678.
Definition example_item (t : Z) : ItemToExpire := mkItemToExpire example_key 0%nat t (t + 5) 0.
Definition example_queue : TimeToExpirePriorityQueue :=
  {| pq := []; items := <[2%nat := example_item 20]> (<[1%nat := example_item 30]> ∅) |}.
Definition example_queue1 : TimeToExpirePriorityQueue :=
  from_ok empty_queue (heap_Push 1%nat example_queue).
Definition example_queue2 : TimeToExpirePriorityQueue :=
  from_ok empty_queue (heap_Push 2%nat example_queue1).

Lemma example_queue2_reachable : rtc queue_step empty_queue example_queue2.
Proof.
  eapply rtc_l; [apply (step_alloc 1%nat (example_item 30)); reflexivity|].
  eapply rtc_l; [apply (step_alloc 2%nat (example_item 20)); reflexivity|].
  eapply rtc_l; [apply (step_push 1%nat _ example_queue1);
    [apply not_elem_of_nil|apply from_ok_eq; vm_compute; reflexivity]|].
  eapply rtc_l; [apply (step_push 2%nat _ example_queue2)|apply rtc_refl].
  - change (pq example_queue1) with [1%nat]. intros ?%list_elem_of_singleton. discriminate.
  - apply from_ok_eq. vm_compute. reflexivity.
Qed.

Lemma queue_pops_earliest_witness :
  NoDup (pq example_queue2) ∧
  ∃ p q', heap_Pop example_queue2 = Ok (p, q') ∧ Peek example_queue2 = Ok p ∧
          p :: pq q' ≡ₚ [2%nat; 1%nat] ∧ p = 2%nat.
Proof.
  destruct (queue_pops_earliest example_queue2 example_queue2_reachable) as (H1 & _ & H3).
  split; [exact H1|]. destruct H3 as (p & q' & E & Hpk & Hp & _).
  exists p, q'. split; [exact E|]. split; [exact Hpk|]. split; [exact Hp|].
  vm_compute in Hpk. congruence.
Defined.

(** Popping the queue until it is empty returns every queued item exactly once,
    in the order of their expiry times. *)
Theorem queue_drains_in_order q :
  rtc queue_step empty_queue q →
  ∃ ps, pop_n (pq_Len q) q = Ok ps ∧ ps ≡ₚ pq q ∧
        StronglySorted (λ a b, key_of q a <= key_of q b) ps.
Proof. intros H. apply pop_n_sorted; [by apply pq_inv_reachable|done]. Qed.

Lemma queue_drains_in_order_witness :
  ∃ ps, pop_n 2 example_queue2 = Ok ps ∧ ps ≡ₚ [2%nat; 1%nat] ∧
        StronglySorted (λ a b, key_of example_queue2 a <= key_of example_queue2 b) ps.
Proof. apply (queue_drains_in_order example_queue2 example_queue2_reachable). Defined.

(** [Update] gives a queued item its new flow record and times wherever it is in
    the queue and restores the order: the same items are queued, the queue is again
    a heap with coherent positions, and no other item changes. *)
Theorem Update_reorders q p key record active inactive :
  rtc queue_step empty_queue q → p ∈ pq q →
  ∃ q', Update p key record active inactive q = Ok q' ∧ rtc queue_step empty_queue q' ∧
    pq q' ≡ₚ pq q ∧ heap_ordered (pq_view q') ∧
    key_of q' p = Z.min active inactive ∧ (∀ x, x ≠ p → key_of q' x = key_of q x).
Proof.
  intros H Hp. destruct (pq_inv_reachable q H) as [Hv Ho].
  destruct (list_elem_of_lookup_1 _ _ Hp) as [i Hi]. destruct (proj1 Hv i p Hi) as (it & Hit & _).
  destruct (Update_spec q p key record active inactive it i) as (q' & E & [_ Ho'] & Hperm & Hd);
    [by split|done|done|].
  exists q'. split_and!; try done.
  - eapply rtc_r; [exact H|]. by eapply step_update.
  - apply (f_equal (lookup p)) in Hd. unfold pq_data in Hd.
    rewrite lookup_insert_eq, lookup_fmap in Hd. unfold key_of.
    destruct (items q' !! p) as [it'|]; [|done]. cbn in *. injection Hd as _ _ <- <-.
    unfold min_expire. case_decide; lia.
  - intros x Hx. apply (f_equal (lookup x)) in Hd. unfold pq_data in Hd.
    rewrite lookup_insert_ne, !lookup_fmap in Hd by done. unfold key_of.
    destruct (items q' !! x) as [[]|], (items q !! x) as [[]|]; simpl in *; by simplify_eq.
Qed.

Lemma Update_reorders_witness :
  ∃ q', Update 2%nat example_key 0%nat 50 60 example_queue2 = Ok q' ∧
    rtc queue_step empty_queue q' ∧ pq q' ≡ₚ pq example_queue2 ∧ heap_ordered (pq_view q') ∧
    key_of q' 2%nat = Z.min 50 60 ∧ (∀ x, x ≠ 2%nat → key_of q' x = key_of example_queue2 x).
Proof.
  apply (Update_reorders example_queue2 2%nat example_key 0%nat 50 60 example_queue2_reachable).
  left.
Defined.
