(* ===== verification/NetIP.v ===== *)
(** * The text form of IP addresses

    [net.IP.String] of Go's standard library, which the aggregation process uses in
    its flow keys: dotted decimal for IPv4 addresses in either form, the compressed
    form of RFC 5952 for IPv6. *)

From Stdlib Require Import ZArith Lia Ascii.
From Stdlib.Strings Require Import Byte.
From stdpp Require Import base strings list numbers.
From S2P Require Import Prelude Bytes InfoElement.

#[local] Open Scope Z_scope.

(** ** Digits *)

Definition digit (n : Z) : ascii :=
  if decide (n < 10) then ascii_of_nat (Z.to_nat (48 + n)) else ascii_of_nat (Z.to_nat (87 + n)).

(** The digits of [n] in a base, most significant first, without leading zeros;
    [fuel] is the largest number of digits. *)
Fixpoint digits (fuel : nat) (base n : Z) : string :=
  match fuel with
  | O => ""
  | S fuel =>
      if decide (n < base) then String (digit n) ""
      else digits fuel base (n / base) +:+ String (digit (n mod base)) ""
  end.

(** [%d] and [%v] of an integer of at most 64 bits. *)
Definition print_Z (n : Z) : string :=
  if decide (n < 0) then "-" +:+ digits 20 10 (- n) else digits 20 10 n.

(** A byte in decimal, a sixteen-bit group in hexadecimal. *)
Definition decimal (b : byte) : string := digits 3 10 (byte_to_Z b).
Definition hex_group (g : Z) : string := digits 4 16 g.

(** [hexString]: two digits per byte. *)
Definition hex_byte (b : byte) : string :=
  String (digit (byte_to_Z b / 16)) (String (digit (byte_to_Z b mod 16)) "").
Definition hexString (bs : list byte) : string := foldr (λ b s, hex_byte b +:+ s) "" bs.

(** ** IPv4 and IPv6 *)

Definition string4 (bs : list byte) : string :=
  match bs with
  | [a; b; c; d] => decimal a +:+ "." +:+ decimal b +:+ "." +:+ decimal c +:+ "." +:+ decimal d
  | _ => ""
  end.

Fixpoint groups (bs : list byte) : list Z :=
  match bs with
  | a :: b :: bs => be_val [a; b] :: groups bs
  | _ => []
  end.

(** The number of zero groups from here on. *)
Fixpoint zero_run (gs : list Z) : nat :=
  match gs with
  | g :: gs => if decide (g = 0) then S (zero_run gs) else O
  | [] => O
  end.

(** The first longest run of at least two zero groups: its start and length. *)
Fixpoint longest_run (i : nat) (gs : list Z) (best : nat * nat) : nat * nat :=
  match gs with
  | [] => best
  | _ :: gs' =>
      let l := zero_run gs in
      longest_run (S i) gs' (if decide (2 <= l ∧ best.2 < l)%nat then (i, l) else best)
  end.

Fixpoint join_colon (gs : list Z) : string :=
  match gs with
  | [] => ""
  | [g] => hex_group g
  | g :: gs => hex_group g +:+ ":" +:+ join_colon gs
  end.

Definition string6 (bs : list byte) : string :=
  let gs := groups bs in
  let '(start, len) := longest_run 0 gs (0%nat, 0%nat) in
  if decide (len = 0%nat) then join_colon gs
  else join_colon (take start gs) +:+ "::" +:+ join_colon (drop (start + len) gs).

(** [ip.String()]. *)
Definition IP_String (ip : slice) : string :=
  let bs := slice_bytes ip in
  if decide (length bs = 0%nat) then "<nil>"
  else if decide (length bs ≠ 4%nat ∧ length bs ≠ 16%nat) then "?" +:+ hexString bs
  else match To4 ip with
       | Some p4 => string4 p4
       | None => string6 bs
       end.

Definition ip4 (a b c d : Z) : slice := Some [byte_of_Z a; byte_of_Z b; byte_of_Z c; byte_of_Z d].

Example IP_String_4 : IP_String (ip4 10 0 0 1) = "10.0.0.1".
Proof. reflexivity. Qed.
Example IP_String_6 :
  IP_String (Some (put_be 2 0x2001 ++ put_be 2 0xdb8 ++ replicate 11 Byte.x00 ++ [Byte.x01])) =
  "2001:db8::1".
Proof. vm_compute. reflexivity. Qed.
Example IP_String_unspecified : IP_String (Some (replicate 16 Byte.x00)) = "::".
Proof. vm_compute. reflexivity. Qed.

(** ** Lemmas *)

(** An IPv4 address has the same text in its four-byte and its sixteen-byte form. *)
Lemma IP_String_To16 ip a : To4 ip = Some a → IP_String (To16 ip) = string4 a ∧ IP_String ip = string4 a.
Proof.
  intros Ha. pose proof (To4_To16 ip a Ha) as H16.
  assert (Hl : ∀ ip, To4 ip = Some a → IP_String ip = string4 a).
  { clear. intros ip Ha. unfold IP_String. rewrite Ha. unfold To4 in Ha.
    destruct (decide (length (slice_bytes ip) = 4%nat)); [|case_decide; [|done]];
      rewrite !decide_False by lia; done. }
  by split; apply Hl.
Qed.

(** All bytes. *)
Definition all_bytes : list byte := byte_of_Z ∘ Z.of_nat <$> seq 0 256.

Lemma in_all_bytes b : b ∈ all_bytes.
Proof.
  apply list_elem_of_fmap. exists (Z.to_nat (byte_to_Z b)). pose proof (byte_to_Z_range b).
  split; [|apply elem_of_seq; lia]. simpl. rewrite Z2Nat.id by lia. by rewrite byte_of_to_Z.
Qed.

Lemma decimal_no_dot b : has_char "." (decimal b) = false.
Proof.
  assert (H : forallb (λ b, negb (has_char "." (decimal b))) all_bytes = true)
    by (vm_compute; reflexivity).
  rewrite forallb_forall in H. specialize (H b). rewrite negb_true_iff in H. apply H.
  apply list_elem_of_In, in_all_bytes.
Qed.

Lemma decimal_inj a b : decimal a = decimal b → a = b.
Proof.
  intros E. 
  assert (H : forallb (λ a, forallb (λ b, implb (String.eqb (decimal a) (decimal b)) (Byte.eqb a b))
    all_bytes) all_bytes = true) by (vm_compute; reflexivity).
  rewrite forallb_forall in H. specialize (H a (proj1 (list_elem_of_In _ _) (in_all_bytes a))).
  rewrite forallb_forall in H. specialize (H b (proj1 (list_elem_of_In _ _) (in_all_bytes b))).
  rewrite E, String.eqb_refl in H. simpl in H. by apply Byte.byte_dec_bl.
Qed.

Lemma string4_inj a b :
  length a = 4%nat → length b = 4%nat → string4 a = string4 b → a = b.
Proof.
  destruct a as [|a1 [|a2 [|a3 [|a4 [|]]]]]; try done.
  destruct b as [|b1 [|b2 [|b3 [|b4 [|]]]]]; try done. intros _ _ E. cbn [string4] in E.
  apply string_cut_inj in E as [E1 E]; [|apply decimal_no_dot..].
  apply string_cut_inj in E as [E2 E]; [|apply decimal_no_dot..].
  apply string_cut_inj in E as [E3 E4]; [|apply decimal_no_dot..].
  apply decimal_inj in E1, E2, E3, E4. by subst.
Qed.

(** The text of an IPv4 address does not depend on whether it is held in four or in
    sixteen bytes, and two addresses have the same text only when they are equal. *)
Lemma ipv4_text ip ip' a a' :
  To4 ip = Some a → To4 ip' = Some a' →
  IP_String (To16 ip) = IP_String ip ∧ (IP_String ip = IP_String ip' ↔ a = a').
Proof.
  intros Ha Ha'. destruct (IP_String_To16 ip a Ha) as [-> ->].
  destruct (IP_String_To16 ip' a' Ha') as [_ ->]. split; [done|]. split; [|by intros ->].
  intros E. apply string4_inj in E; [done|by eapply To4_length|by eapply To4_length].
Qed.
