(* ===== verification/AddressText.v ===== *)
(** * Reading addresses back from their text

    The text of an IPv6 address determines the address: splitting it at the colons
    gives the groups before and after the longest run of zeros, and the run fills what
    is missing of eight groups.  With the IPv4 lemmas of NetIP.v, the text of any
    address, which the flow keys of src/pkg/intermediate hold, determines the address. *)

From Stdlib Require Import ZArith Lia Ascii.
From Stdlib.Strings Require Import Byte.
From stdpp Require Import base strings list numbers.
From S2P Require Import Prelude Bytes InfoElement NetIP.

#[local] Open Scope Z_scope.

(** ** Digits determine the number *)

Lemma digit_inj a b : 0 <= a < 16 → 0 <= b < 16 → digit a = digit b → a = b.
Proof.
  intros Ha Hb E.
  assert (H : forallb (λ a, forallb (λ b, implb (Ascii.eqb (digit (Z.of_nat a)) (digit (Z.of_nat b))) (a =? b)%nat)
    (seq 0 16)) (seq 0 16) = true) by (vm_compute; reflexivity).
  rewrite forallb_forall in H. specialize (H (Z.to_nat a) (proj2 (in_seq 16 0 (Z.to_nat a)) ltac:(lia))).
  rewrite forallb_forall in H. specialize (H (Z.to_nat b) (proj2 (in_seq 16 0 (Z.to_nat b)) ltac:(lia))).
  rewrite !Z2Nat.id, E, Ascii.eqb_refl in H by lia. simpl in H. apply Nat.eqb_eq in H. lia.
Qed.

Lemma string_snoc_inj (s t : string) a b :
  s +:+ String a "" = t +:+ String b "" → s = t ∧ a = b.
Proof.
  revert t. induction s as [|c s IH]; intros [|d t] E.
  - by injection E as ->.
  - exfalso. injection E as _ E. by destruct t.
  - exfalso. injection E as _ E. by destruct s.
  - change (String c (s +:+ String a "") = String d (t +:+ String b "")) in E.
    injection E as -> E. by destruct (IH t E) as [-> ->].
Qed.

Lemma digits_nonempty fuel base n : (0 < fuel)%nat → digits fuel base n ≠ "".
Proof.
  destruct fuel as [|fuel]; [lia|]. intros _. cbn [digits]. case_decide; [done|].
  by destruct (digits fuel base (n / base)).
Qed.

Lemma digits_inj fuel base n m :
  2 <= base <= 16 → 0 <= n < base ^ Z.of_nat fuel → 0 <= m < base ^ Z.of_nat fuel →
  digits fuel base n = digits fuel base m → n = m.
Proof.
  intros Hb. revert n m. induction fuel as [|fuel IH]; intros n m Hn Hm; [lia|].
  rewrite Nat2Z.inj_succ, Z.pow_succ_r in Hn, Hm by lia. cbn [digits].
  assert (Hq : ∀ x, 0 <= x < base * base ^ Z.of_nat fuel → 0 <= x / base < base ^ Z.of_nat fuel).
  { intros x Hx. split; [apply Z.div_pos; lia|]. apply Z.div_lt_upper_bound; lia. }
  assert (Hr : ∀ x, 0 <= x mod base < 16) by (intros x; pose proof (Z.mod_pos_bound x base); lia).
  assert (Hf : ∀ x, base <= x → 0 <= x < base * base ^ Z.of_nat fuel → digits fuel base (x / base) ≠ "").
  { intros x Hx Hx'. apply digits_nonempty. destruct fuel; [|lia]. simpl in Hx'. lia. }
  case_decide as D1; case_decide as D2; intros E.
  - injection E as E. apply digit_inj in E; lia.
  - exfalso. apply (Hf m); [lia|done|]. symmetry. by apply (string_snoc_inj "" _ _ _ E).
  - exfalso. apply (Hf n); [lia|done|]. by apply (string_snoc_inj _ "" _ _ E).
  - apply string_snoc_inj in E as [E1 E2]. apply digit_inj in E2; [|done..].
    apply IH in E1; [|by apply Hq..]. pose proof (Z.div_mod n base). pose proof (Z.div_mod m base). lia.
Qed.

Lemma hex_group_inj g h : in_u 16 g → in_u 16 h → hex_group g = hex_group h → g = h.
Proof. intros Hg Hh. by apply digits_inj. Qed.

Lemma hex_group_nonempty g : hex_group g ≠ "".
Proof. apply digits_nonempty. lia. Qed.

(** ** Characters of a text *)

Lemma digit_not c n : 0 <= n < 16 → bool_decide (digit n = c) = true → c ∈ digit ∘ Z.of_nat <$> seq 0 16.
Proof.
  intros Hn <-%bool_decide_eq_true. apply list_elem_of_fmap. exists (Z.to_nat n).
  split; [|apply elem_of_seq; lia]. simpl. by rewrite Z2Nat.id by lia.
Qed.

Lemma digits_chars c fuel base n :
  2 <= base <= 16 → 0 <= n → c ∉ digit ∘ Z.of_nat <$> seq 0 16 → has_char c (digits fuel base n) = false.
Proof.
  intros Hb Hn Hc. revert n Hn. induction fuel as [|fuel IH]; intros n Hn; [done|].
  assert (Hd : ∀ x, 0 <= x < 16 → bool_decide (digit x = c) = false).
  { intros x Hx. destruct (bool_decide (digit x = c)) eqn:E; [|done]. by apply digit_not in E. }
  cbn [digits]. case_decide; [cbn [has_char]; by rewrite Hd by lia|].
  rewrite has_char_app, IH by (apply Z.div_pos; lia). cbn [has_char].
  pose proof (Z.mod_pos_bound n base). by rewrite Hd by lia.
Qed.

Lemma hex_group_no_colon g : in_u 16 g → has_char ":" (hex_group g) = false.
Proof.
  intros [Hg _]. apply digits_chars; [lia|done|]. apply (bool_decide_unpack _). vm_compute. exact I.
Qed.

(** ** Splitting at the colons *)

Lemma split_on_nonempty c s : split_on c s ≠ [].
Proof.
  induction s as [|a s IH]; [done|]. cbn [split_on]. destruct (split_on c s); [done|]. by case_decide.
Qed.

Lemma split_on_app c s t : split_on c (s +:+ String c t) = split_on c s ++ split_on c t.
Proof.
  induction s as [|a s IH].
  - change (split_on c (String c t) = [EmptyString] ++ split_on c t). cbn [split_on].
    pose proof (split_on_nonempty c t). destruct (split_on c t); [done|]. by rewrite decide_True.
  - change (split_on c (String a (s +:+ String c t)) = split_on c (String a s) ++ split_on c t).
    cbn [split_on]. rewrite IH. pose proof (split_on_nonempty c s).
    destruct (split_on c s); [done|]. simpl. by case_decide.
Qed.

Lemma split_on_single c s : has_char c s = false → split_on c s = [s].
Proof.
  induction s as [|a s IH]; [done|]. intros [Ha Hs]%orb_false_iff. cbn [split_on].
  rewrite IH by done. apply bool_decide_eq_false in Ha. by rewrite decide_False.
Qed.

(** The pieces of some groups in a row: one empty piece when there is no group. *)
Definition pieces (gs : list Z) : list string :=
  match gs with [] => [EmptyString] | _ => hex_group <$> gs end.

Lemma split_join gs : Forall (in_u 16) gs → split_on ":" (join_colon gs) = pieces gs.
Proof.
  induction 1 as [|g gs Hg Hgs IH]; [done|]. destruct gs as [|h gs].
  - cbn. by rewrite split_on_single by (by apply hex_group_no_colon).
  - change (split_on ":" (hex_group g +:+ String ":" (join_colon (h :: gs))) = pieces (g :: h :: gs)).
    rewrite split_on_app, IH, split_on_single by (by apply hex_group_no_colon). done.
Qed.

Lemma pieces_reverse gs : reverse (pieces gs) = pieces (reverse gs).
Proof.
  destruct gs as [|g gs]; [done|]. cbn [pieces]. rewrite <- fmap_reverse, reverse_cons.
  by destruct (reverse gs ++ [g]) eqn:E; [destruct (reverse gs)|].
Qed.

(** The pieces before the first empty one. *)
Fixpoint leading (l : list string) : list string :=
  match l with
  | [] => []
  | x :: l => if decide (x = EmptyString) then [] else x :: leading l
  end.

Lemma leading_pieces gs l : leading (pieces gs ++ EmptyString :: l) = hex_group <$> gs.
Proof.
  destruct gs as [|g gs]; [done|]. cbn [pieces]. induction (g :: gs) as [|h hs IH]; [done|].
  rewrite fmap_cons. cbn [app leading]. rewrite decide_False by apply hex_group_nonempty. by rewrite IH.
Qed.

Lemma hex_groups_inj gs hs :
  Forall (in_u 16) gs → Forall (in_u 16) hs → hex_group <$> gs = hex_group <$> hs → gs = hs.
Proof.
  intros Hg. revert hs. induction Hg as [|g gs Hg _ IH]; intros [|h hs] Hh E; try done.
  apply list.Forall_cons in Hh as [Hh Hhs]. rewrite !fmap_cons in E. injection E as E1 E2.
  apply hex_group_inj in E1; [|done..]. by rewrite E1, (IH hs).
Qed.

(** ** The run of zeros *)

Lemma zero_run_spec gs : ∃ rest, gs = replicate (zero_run gs) 0 ++ rest.
Proof.
  induction gs as [|g gs [rest IH]]; [by exists []|]. cbn [zero_run]. case_decide as Hg.
  - subst g. exists rest. simpl. by rewrite <- IH.
  - by exists (g :: gs).
Qed.

Lemma longest_run_spec i gs best s l :
  longest_run i gs best = (s, l) → (s, l) = best ∨ ∃ k, s = (i + k)%nat ∧ l = zero_run (drop k gs).
Proof.
  revert i best. induction gs as [|g gs IH]; intros i best; cbn [longest_run]; [by left|].
  intros [E|(k & -> & ->)]%IH.
  - case_decide; [|by left]. injection E as -> ->. right. exists 0%nat. by rewrite Nat.add_0_r.
  - right. exists (S k). split; [lia|done].
Qed.

(** The groups are those before the run, the run and those after it. *)
Lemma longest_run_split gs s l :
  longest_run 0 gs (0, 0)%nat = (s, l) → gs = take s gs ++ replicate l 0 ++ drop (s + l) gs.
Proof.
  intros [[= -> ->]|(k & -> & ->)]%longest_run_spec; [done|].
  destruct (zero_run_spec (drop k gs)) as [rest Hr]. rewrite Nat.add_0_l in *.
  rewrite <- (take_drop k gs) at 1. f_equal. rewrite <- drop_drop.
  revert Hr. generalize (drop k gs). intros gs' Hr. rewrite Hr at 1. f_equal.
  rewrite Hr at 2. by rewrite drop_app_exact by apply length_replicate.
Qed.

(** ** The text determines the groups *)

(** The pieces of a text, from its groups. *)
Lemma string6_pieces bs :
  Forall (in_u 16) (groups bs) →
  let '(s, l) := longest_run 0 (groups bs) (0, 0)%nat in
  split_on ":" (string6 bs) =
  if decide (l = 0%nat) then pieces (groups bs)
  else pieces (take s (groups bs)) ++ EmptyString :: pieces (drop (s + l) (groups bs)).
Proof.
  intros Hg. unfold string6. destruct (longest_run 0 (groups bs) (0, 0)%nat) as [s l].
  case_decide; [by apply split_join|].
  change (join_colon (take s (groups bs)) +:+ "::" +:+ join_colon (drop (s + l) (groups bs)))
    with (join_colon (take s (groups bs)) +:+ String ":" ("" +:+ String ":" (join_colon (drop (s + l) (groups bs))))).
  rewrite !split_on_app, !split_join by (by apply Forall_take || by apply Forall_drop). done.
Qed.

(** The groups from the pieces of a text. *)
Lemma string6_groups_inj bs bs' :
  Forall (in_u 16) (groups bs) → Forall (in_u 16) (groups bs') → groups bs ≠ [] → groups bs' ≠ [] →
  length (groups bs) = length (groups bs') → string6 bs = string6 bs' → groups bs = groups bs'.
Proof.
  intros Hg Hg' Hne Hne' Hlen E.
  pose proof (string6_pieces bs Hg) as P. pose proof (string6_pieces bs' Hg') as P'.
  pose proof (longest_run_split (groups bs)) as Hs. pose proof (longest_run_split (groups bs')) as Hs'.
  destruct (longest_run 0 (groups bs) (0, 0)%nat) as [s l].
  destruct (longest_run 0 (groups bs') (0, 0)%nat) as [s' l'].
  specialize (Hs s l eq_refl). specialize (Hs' s' l' eq_refl). rewrite E, P' in P. clear E P'.
  set (gs := groups bs) in *. set (gs' := groups bs') in *.
  assert (Hno : ∀ hs l, hs ≠ [] → EmptyString ∈ l → pieces hs ≠ l).
  { intros hs k Hhs Hin <-. destruct hs as [|h hs]; [done|]. unfold pieces in Hin.
    apply list_elem_of_fmap in Hin as (x & Hx & _). by apply (hex_group_nonempty x). }
  repeat case_decide.
  - destruct gs, gs'; try done. by apply hex_groups_inj.
  - exfalso. by eapply (Hno gs'); [done| |exact P]; apply elem_of_app; right; left.
  - exfalso. by eapply (Hno gs); [done| |symmetry; exact P]; apply elem_of_app; right; left.
  - assert (E1 : take s gs = take s' gs').
    { apply hex_groups_inj; [by apply Forall_take..|]. apply (f_equal leading) in P.
      by rewrite !leading_pieces in P. }
    assert (E2 : drop (s + l) gs = drop (s' + l') gs').
    { apply (f_equal (leading ∘ reverse)) in P. cbn [compose] in P.
      rewrite !reverse_app, !reverse_cons, !pieces_reverse, <- !app_assoc in P. cbn [app] in P.
      rewrite !leading_pieces in P. apply (inj reverse).
      apply hex_groups_inj; [by apply Forall_reverse, Forall_drop..|done]. }
    rewrite Hs, Hs', E1, E2. do 2 f_equal. apply (f_equal length) in Hs, Hs'.
    rewrite !length_app, !length_replicate in Hs, Hs'. rewrite E1, E2 in Hs. f_equal. lia.
Qed.

Lemma groups_range bs : Forall (in_u 16) (groups bs).
Proof.
  remember (length bs) as n eqn:Hn. revert bs Hn. induction (lt_wf n) as [n _ IH]. intros [|a [|b bs]] Hn; try constructor.
  - exact (be_val_range [a; b]).
  - eapply IH; [|reflexivity]. subst n. simpl. lia.
Qed.

Lemma groups_inj n bs bs' :
  length bs = (2 * n)%nat → length bs' = (2 * n)%nat → groups bs = groups bs' → bs = bs'.
Proof.
  revert bs bs'. induction n as [|n IH]; intros [|a [|b bs]] [|a' [|b' bs']] H H' E; simpl in H, H'; try lia; [done|].
  cbn [groups] in E.
  assert (E1 : be_val [a; b] = be_val [a'; b']) by congruence.
  assert (E2 : groups bs = groups bs') by congruence.
  pose proof (put_be_val [a; b]) as P. pose proof (put_be_val [a'; b']) as P'.
  change (length [a; b]) with 2%nat in P. change (length [a'; b']) with 2%nat in P'. rewrite E1, P' in P.
  injection P as -> ->. do 2 f_equal. apply IH; [lia|lia|done].
Qed.

Lemma groups_length n bs : length bs = (2 * n)%nat → length (groups bs) = n.
Proof.
  revert bs. induction n as [|n IH]; intros [|a [|b bs]] H; simpl in H; try lia; [done|].
  cbn [groups length]. rewrite IH; lia.
Qed.

Lemma string6_inj bs bs' :
  length bs = 16%nat → length bs' = 16%nat → string6 bs = string6 bs' → bs = bs'.
Proof.
  intros L L' E. pose proof (groups_length 8 bs L) as G. pose proof (groups_length 8 bs' L') as G'.
  apply (groups_inj 8); [done..|]. apply string6_groups_inj; try apply groups_range; try done; [| |lia].
  - by destruct (groups bs).
  - by destruct (groups bs').
Qed.

(** ** Any address *)

Lemma decimal_no_colon b : has_char ":" (decimal b) = false.
Proof.
  pose proof (byte_to_Z_range b). apply digits_chars; [lia|lia|].
  apply (bool_decide_unpack _). vm_compute. exact I.
Qed.

Lemma string4_no_colon bs : has_char ":" (string4 bs) = false.
Proof.
  destruct bs as [|a [|b [|c [|d [|]]]]]; try done. cbn [string4].
  rewrite !has_char_app, !decimal_no_colon. done.
Qed.

Lemma string6_colon bs : length bs = 16%nat → has_char ":" (string6 bs) = true.
Proof.
  intros L. pose proof (string6_pieces bs (groups_range bs)) as P. pose proof (groups_length 8 bs L) as G.
  destruct (has_char ":" (string6 bs)) eqn:E; [done|]. rewrite split_on_single in P by done.
  destruct (longest_run _ _ _) as [s l]. apply (f_equal length) in P. case_decide.
  - destruct (groups bs) as [|g gs]; [done|]. unfold pieces in P. rewrite length_fmap, G in P. done.
  - rewrite length_app in P. simpl in P. pose proof (hex_group_nonempty 0).
    destruct (take s (groups bs)), (drop (s + l) (groups bs)); simpl in P; lia.
Qed.

(** The text of an address determines it, up to the two forms of IPv4 addresses. *)
Lemma IP_String_inj ip ip' a a' :
  To16 ip = Some a → To16 ip' = Some a' → (IP_String ip = IP_String ip' ↔ a = a').
Proof.
  assert (H : ∀ ip a, To16 ip = Some a → length a = 16%nat ∧
    match To4 ip with
    | Some p => IP_String ip = string4 p ∧ length p = 4%nat ∧ a = v4InV6Prefix ++ p
    | None => IP_String ip = string6 a ∧ take 12 a ≠ v4InV6Prefix
    end).
  { clear. intros ip a Ha. split; [by eapply To16_length|]. unfold IP_String, To16, To4 in *.
    repeat case_decide; simplify_eq; try lia; try tauto.
    - split_and!; [done|rewrite length_drop; lia|]. rewrite <- (take_drop 12 (slice_bytes ip)) at 1.
      f_equal. tauto. }
  intros Ha Ha'. destruct (H ip a Ha) as [L HA], (H ip' a' Ha') as [L' HA']. clear H.
  destruct (To4 ip) as [p|], (To4 ip') as [p'|].
  - destruct HA as (-> & Lp & ->), HA' as (-> & Lp' & ->). split.
    + intros E. by rewrite (string4_inj p p').
    + by intros ->%(inj (app v4InV6Prefix)).
  - destruct HA as (-> & Lp & ->), HA' as [-> HN]. split; [|by intros <-]. intros E. exfalso.
    pose proof (string4_no_colon p) as C. by rewrite E, string6_colon in C.
  - destruct HA as [-> HN], HA' as (-> & Lp & ->). split; [|by intros ->]. intros E. exfalso.
    pose proof (string4_no_colon p') as C. by rewrite <- E, string6_colon in C.
  - destruct HA as [-> _], HA' as [-> _]. split; [by apply string6_inj|by intros ->].
Qed.
