(* ===== verification/Generator.v ===== *)
(** * The registry generator

    src/pkg/registry/build_registry/build_registry.go: it writes the Go files that fill
    the registry from tables of comma-separated values.  It is proved to print, for every
    proper row, the registration of the element the row describes, and the Antrea table
    of the repository (registry_antrea.csv) to give the file registry_antrea.go that
    RegistryData.v transcribes. *)

From Stdlib Require Import ZArith Lia Ascii.
From stdpp Require Import base gmap strings list numbers.
From S2P Require Import Prelude Bytes InfoElement RegistryData Registry NetIP.

#[local] Open Scope Z_scope.

(** ** Reading *)

(** [strconv.ParseUint(s, 10, 16)] with its error ignored: 0 for what is not a number, and
    the largest value as soon as the digits exceed it. *)
Fixpoint ParseUint_from (acc : Z) (s : string) : Z :=
  match s with
  | EmptyString => acc
  | String c s =>
      let d := Z.of_nat (nat_of_ascii c) - 48 in
      if decide (0 <= d < 10) then
        let n := acc * 10 + d in
        if decide (65535 < n) then 65535 else ParseUint_from n s
      else 0
  end.
Definition ParseUint16 (s : string) : Z :=
  match s with EmptyString => 0 | _ => ParseUint_from 0 s end.

(** [csv.Reader.ReadAll] on a text without quotes: the lines that are not empty, cut at
    the commas, all with as many fields as the first. *)
Definition readCSV (text : string) : go (list (list string)) :=
  let lines := filter (λ l, l ≠ EmptyString) (split_on "010" text) in
  let data := split_on "," <$> lines in
  match data with
  | [] => Ok []
  | first :: _ =>
      if forallb (λ r, Nat.eqb (length r) (length first)) data then Ok data else Err ErrCSVFieldCount
  end.

(** [readCSVFromFile] and [readCSVFromURL]: reading the text, and parsing it. *)
Definition readCSVFromFile (Open : string → go string) (name : string) : go (list (list string)) :=
  text ← Open name;
  readCSV text.
Definition readCSVFromURL (Get : string → go string) (url : string) : go (list (list string)) :=
  text ← Get url;
  readCSV text.

(** ** Printing *)

Definition quote : string := String "034" EmptyString.
Definition tab : string := String "009" EmptyString.
Definition line_end : string := String "010" EmptyString.

(** [%v] of a data type: its number. *)
Definition type_number (t : IEDataType) : Z :=
  match list_find (λ u, u = t) IEDataTypes with
  | Some (i, _) => Z.of_nat i
  | None => 255
  end.

(** The parameters of [NewInfoElement], as Go source. *)
Definition print_parameters (name : string) (elementID dataType enterpriseID length : Z) : string :=
  quote +:+ name +:+ quote +:+ ", " +:+ print_Z elementID +:+ ", " +:+ print_Z dataType +:+ ", " +:+
  print_Z enterpriseID +:+ ", " +:+ print_Z length.

Definition generateIEString (name elementid datatype enterpriseid : string) : string :=
  let elementID := ParseUint16 elementid in
  let enterpriseID := ParseUint16 enterpriseid in
  let dataType := IENameToType datatype in
  let length := InfoElementLength dataType in
  print_parameters name (u16 elementID) (type_number dataType) (u16 enterpriseID) length.

Section generator.
(** What [fmt.Fprintf] makes of a format with a percent sign and no arguments. *)
Context (format_verbs : string → string).

(** [fmt.Fprintf(writer, s)]. *)
Definition Fprintf (s : string) : string := if has_char "%" s then format_verbs s else s.

(** [row[i]]; out of range panics. *)
Definition column (i : nat) (row : list string) : go string := of_option Panic (row !! i).

(** One line of a generated file; [enterprise] is the enterprise id of the row. *)
Definition generate_row (enterprise : list string → go string) (registryID : Z) (row : list string)
    : go string :=
  name ← column 1 row;
  id ← column 0 row;
  type ← column 2 row;
  ent ← enterprise row;
  Ok (tab +:+ "registerInfoElement(*entities.NewInfoElement(" +:+
      Fprintf (generateIEString name id type ent) +:+ "), " +:+ Fprintf (print_Z registryID) +:+ ")" +:+
      line_end).

Definition preamble (function : string) : string :=
  "package registry" +:+ line_end +:+ line_end +:+
  "import (" +:+ line_end +:+ tab +:+ quote +:+ "github.com/vmware/go-ipfix/pkg/entities" +:+ quote +:+ line_end +:+
  ")" +:+ line_end +:+ line_end +:+ "// AUTO GENERATED, DO NOT CHANGE" +:+ line_end +:+ line_end +:+
  "func " +:+ function +:+ "() {" +:+ line_end.

(** The text of a generated file: the license header, the preamble, a line for each row
    after the first [skipped], and the end of the function. *)
Definition generate (licenseHeader function : string) (skipped : nat)
    (enterprise : list string → go string) (registryID : Z) (data : list (list string)) : go string :=
  lines ← go_mapM (generate_row enterprise registryID) (drop skipped data);
  Ok (Fprintf (licenseHeader +:+ line_end +:+ line_end) +:+ Fprintf (preamble function) +:+
      String.concat "" lines +:+ "}" +:+ line_end).

(** The header and the reserved line of the IANA table are skipped. *)
Definition initIANARegistry (licenseHeader : string) (data : list (list string)) : go string :=
  generate licenseHeader "loadIANARegistry" 2 (λ _, Ok "0"%string) IANAEnterpriseID data.

Definition initAntreaRegistry (licenseHeader : string) (data : list (list string)) : go string :=
  generate licenseHeader "loadAntreaRegistry" 1 (column 12) AntreaEnterpriseID data.

(** *** The program *)

(** [strings.ToLower], as far as a comparison with ASCII text can see: ASCII letters, and
    the two other letters (U+0130 and U+212A) whose lower case is one. *)
Definition lower (c : ascii) : ascii :=
  let n := nat_of_ascii c in
  if decide (65 <= n <= 90)%nat then ascii_of_nat (n + 32) else c.
Fixpoint ToLower (s : string) : string :=
  match s with
  | EmptyString => EmptyString
  | String "196" (String "176" s) => String "i" (ToLower s)
  | String "226" (String "132" (String "170" s)) => String "k" (ToLower s)
  | String c s => String (lower c) (ToLower s)
  end.

(** The value of a call whose error is only logged. *)
Definition logged {A} (zero : A) (m : go A) : A := from_ok zero m.

(** [http.Get] and [os.Open] with the text they give, [ioutil.ReadFile] of the license
    header, and whether [os.Create] gives a file; writing to a nil file does nothing. *)
Context (Get Open : string → go string) (license_header : go string) (Create : string → bool).

Definition registryURL : string := "https://www.iana.org/assignments/ipfix/ipfix-information-elements.csv".

(** A generated file with its contents. *)
Definition write_file (name : string) (text : go string) : go (list (string * string)) :=
  text ← text;
  Ok (if Create name then [(name, text)] else []).

Definition writeIANARegistry : go (list (string * string)) :=
  let data := logged [] (readCSVFromURL Get registryURL) in
  write_file "registry_IANA.go" (initIANARegistry (logged EmptyString license_header) data).
Definition writeAntreaRegistry : go (list (string * string)) :=
  let data := logged [] (readCSVFromFile Open "registry_antrea.csv") in
  write_file "registry_antrea.go" (initAntreaRegistry (logged EmptyString license_header) data).

(** The files that the program writes, in order; [args] begins with its own name. *)
Definition generator_main (args : list string) : go (list (string * string)) :=
  match args with
  | [_] => iana ← writeIANARegistry; antrea ← writeAntreaRegistry; Ok (iana ++ antrea)
  | [_; name] =>
      if String.eqb (ToLower name) "antrea" then writeAntreaRegistry
      else if String.eqb (ToLower name) "iana" then writeIANARegistry
      else Ok []
  | _ => Ok []
  end.

End generator.

(** ** The Antrea table *)

Definition registry_antrea_csv : string :=
"ElementID,Name,Abstract Data Type,Data Type Semantics,Status,Description,Units,Range,References,Requester,Revision,Date,Enterprise ID,
100,sourcePodNamespace,string,,current,,,,,,,,56506,
101,sourcePodName,string,,current,,,,,,,,56506,
102,destinationPodNamespace,string,,current,,,,,,,,56506,
103,destinationPodName,string,,current,,,,,,,,56506,
104,sourceNodeName,string,,current,,,,,,,,56506,
105,destinationNodeName,string,,current,,,,,,,,56506,
106,destinationClusterIPv4,ipv4Address,,current,,,,,,,,56506,
107,destinationClusterIPv6,ipv6Address,,current,,,,,,,,56506,
108,destinationServicePort,unsigned16,,current,,,,,,,,56506,
109,destinationServicePortName,string,,current,,,,,,,,56506,
110,ingressNetworkPolicyName,string,,current,,,,,,,,56506,
111,ingressNetworkPolicyNamespace,string,,current,,,,,,,,56506,
112,egressNetworkPolicyName,string,,current,,,,,,,,56506,
113,egressNetworkPolicyNamespace,string,,current,,,,,,,,56506,
114,ingressNetworkPolicyUID,string,,current,,,,,,,,56506,
115,ingressNetworkPolicyType,unsigned8,,current,Supported Actions(uint8 value): NetworkPolicyTypeK8sNetworkPolicy(1) NetworkPolicyTypeAntreaNetworkPolicy(2) NetworkPolicyTypeAntreaClusterNetworkPolicy(3),,,,,,,56506,
116,ingressNetworkPolicyRulePriority,signed32,,current,Only applicable to Antrea Network Policy and Antrea Cluster Network Policy,,,,,,,56506,
117,egressNetworkPolicyUID,string,,current,,,,,,,,56506,
118,egressNetworkPolicyType,unsigned8,,current,Supported Actions(uint8 value): NetworkPolicyTypeK8sNetworkPolicy(1) NetworkPolicyTypeAntreaNetworkPolicy(2) NetworkPolicyTypeAntreaClusterNetworkPolicy(3),,,,,,,56506,
119,egressNetworkPolicyRulePriority,signed32,,current,Only applicable to Antrea Network Policy and Antrea Cluster Network Policy,,,,,,,56506,
120,packetTotalCountFromSourceNode,unsigned64,,current,,,,,,,,56506,
121,octetTotalCountFromSourceNode,unsigned64,,current,,,,,,,,56506,
122,packetDeltaCountFromSourceNode,unsigned64,,current,,,,,,,,56506,
123,octetDeltaCountFromSourceNode,unsigned64,,current,,,,,,,,56506,
124,reversePacketTotalCountFromSourceNode,unsigned64,,current,,,,,,,,56506,
125,reverseOctetTotalCountFromSourceNode,unsigned64,,current,,,,,,,,56506,
126,reversePacketDeltaCountFromSourceNode,unsigned64,,current,,,,,,,,56506,
127,reverseOctetDeltaCountFromSourceNode,unsigned64,,current,,,,,,,,56506,
128,packetTotalCountFromDestinationNode,unsigned64,,current,,,,,,,,56506,
129,octetTotalCountFromDestinationNode,unsigned64,,current,,,,,,,,56506,
130,packetDeltaCountFromDestinationNode,unsigned64,,current,,,,,,,,56506,
131,octetDeltaCountFromDestinationNode,unsigned64,,current,,,,,,,,56506,
132,reversePacketTotalCountFromDestinationNode,unsigned64,,current,,,,,,,,56506,
133,reverseOctetTotalCountFromDestinationNode,unsigned64,,current,,,,,,,,56506,
134,reversePacketDeltaCountFromDestinationNode,unsigned64,,current,,,,,,,,56506,
135,reverseOctetDeltaCountFromDestinationNode,unsigned64,,current,,,,,,,,56506,
136,tcpState,string,,current,,,,,,,,56506,
137,flowType,unsigned8,,current,The type of flow is based on the location of the source and destination Pods. Supported Types(uint8 value): FlowTypeIntraNode(1) FlowTypeInterNode(2) FlowTypeToExternal(3) and FlowTypeFromExternal(4),,,,,,,56506,
138,tcpStatePrevList,string,,current,,,,,,,,56506,
139,ingressNetworkPolicyRuleAction,unsigned8,,current,Supported Actions(uint8 value): NetworkPolicyRuleActionNoAction(0) NetworkPolicyRuleActionAllow(1) NetworkPolicyRuleActionDrop(2) NetworkPolicyRuleActionReject(3),,,,,,,56506,
140,egressNetworkPolicyRuleAction,unsigned8,,current,Supported Actions(uint8 value): NetworkPolicyRuleActionAllow(1) NetworkPolicyRuleActionDrop(2) NetworkPolicyRuleActionReject(3),,,,,,,56506,
141,ingressNetworkPolicyRuleName,string,,current,,,,,,,,56506,
142,egressNetworkPolicyRuleName,string,,current,,,,,,,,56506,
143,sourcePodLabels,string,,current,,,,,,,,56506,
144,destinationPodLabels,string,,current,,,,,,,,56506,
145,throughput,unsigned64,,current,,,,,,,,56506,
146,reverseThroughput,unsigned64,,current,,,,,,,,56506,
147,throughputFromSourceNode,unsigned64,,current,,,,,,,,56506,
148,throughputFromDestinationNode,unsigned64,,current,,,,,,,,56506,
149,reverseThroughputFromSourceNode,unsigned64,,current,,,,,,,,56506,
150,reverseThroughputFromDestinationNode,unsigned64,,current,,,,,,,,56506,
151,flowEndSecondsFromSourceNode,dateTimeSeconds,,current,,,,,,,,56506,
152,flowEndSecondsFromDestinationNode,dateTimeSeconds,,current,,,,,,,,56506,
153,egressName,string,,current,,,,,,,,56506,
154,egressIP,string,,current,,,,,,,,56506,
155,l7ProtocolName,string,,current,,,,,,,,56506,
156,httpVals,string,,current,,,,,,,,56506,
".

(** ** Specification: the Go source of a registration *)

(** The name of a data type in the tables. *)
Definition type_name (t : IEDataType) : string :=
  match t with
  | OctetArray => "octetArray" | Unsigned8 => "unsigned8" | Unsigned16 => "unsigned16"
  | Unsigned32 => "unsigned32" | Unsigned64 => "unsigned64" | Signed8 => "signed8"
  | Signed16 => "signed16" | Signed32 => "signed32" | Signed64 => "signed64"
  | Float32 => "float32" | Float64 => "float64" | Boolean => "boolean"
  | MacAddress => "macAddress" | StringType => "string" | DateTimeSeconds => "dateTimeSeconds"
  | DateTimeMilliseconds => "dateTimeMilliseconds" | DateTimeMicroseconds => "dateTimeMicroseconds"
  | DateTimeNanoseconds => "dateTimeNanoseconds" | Ipv4Address => "ipv4Address"
  | Ipv6Address => "ipv6Address" | BasicList => "basicList" | SubTemplateList => "subTemplateList"
  | SubTemplateMultiList => "subTemplateMultiList" | InvalidDataType => ""
  end.

(** The call that registers an element, as a line of Go. *)
Definition registration (r : InfoElement * Z) : string :=
  tab +:+ "registerInfoElement(*entities.NewInfoElement(" +:+
  print_parameters (Name r.1) (ElementId r.1) (type_number (DataType r.1)) (EnterpriseId r.1) (Len r.1) +:+
  "), " +:+ print_Z r.2 +:+ ")" +:+ line_end.

(** ** Lemmas *)

Lemma digit_value d : 0 <= d < 10 →
  Z.of_nat (nat_of_ascii (digit d)) - 48 = d ∧ bool_decide (digit d = "%"%char) = false.
Proof.
  intros Hd. assert (d = 0 ∨ d = 1 ∨ d = 2 ∨ d = 3 ∨ d = 4 ∨ d = 5 ∨ d = 6 ∨ d = 7 ∨ d = 8 ∨ d = 9) by lia.
  by destruct_or!; subst.
Qed.

(** Reading on after the digits of a number. *)
Lemma ParseUint_digits f n :
  0 <= n < 10 ^ Z.of_nat f →
  ∃ p, 0 < p ∧ ∀ acc rest, 0 <= acc → acc * p + n <= 65535 →
    ParseUint_from acc (digits f 10 n +:+ rest) = ParseUint_from (acc * p + n) rest.
Proof.
  revert n. induction f as [|f IH]; intros n Hn.
  { exists 1. split; [lia|]. intros acc rest _ _. simpl in *. f_equal. lia. }
  cbn [digits].
  assert (Hone : ∀ d acc rest, 0 <= d < 10 → 0 <= acc → acc * 10 + d <= 65535 →
    ParseUint_from acc (String (digit d) rest) = ParseUint_from (acc * 10 + d) rest).
  { intros d acc rest Hd Ha Hle. cbn [ParseUint_from]. destruct (digit_value d Hd) as [-> _].
    rewrite decide_True by lia. by rewrite decide_False by lia. }
  rewrite Nat2Z.inj_succ, Z.pow_succ_r in Hn by lia.
  case_decide as H10.
  - exists 10. split; [lia|]. intros acc rest Ha Hle. apply Hone; lia.
  - pose proof (Z.div_mod n 10 ltac:(lia)) as Hdm. pose proof (Z.mod_pos_bound n 10 ltac:(lia)).
    destruct (IH (n / 10)) as (p & Hp & Hf).
    { split; [apply Z.div_pos; lia|]. apply Z.div_lt_upper_bound; lia. }
    exists (p * 10). split; [lia|]. intros acc rest Ha Hle.
    assert (Hacc : 0 <= acc * p) by (apply Z.mul_nonneg_nonneg; lia).
    replace (acc * (p * 10) + n) with ((acc * p + n / 10) * 10 + n mod 10) in * by lia.
    assert (Hq : 0 <= n / 10) by (apply Z.div_pos; lia).
    rewrite string_app_assoc, Hf by lia. apply Hone; lia.
Qed.

(** Numbers of sixteen bits are read back as they are printed. *)
Lemma ParseUint16_print n : 0 <= n < 65536 → ParseUint16 (print_Z n) = n.
Proof.
  intros Hn. unfold print_Z. rewrite decide_False by lia.
  destruct (ParseUint_digits 20 n) as (p & Hp & H); [lia|].
  specialize (H 0 EmptyString). rewrite string_app_nil in H. cbn [ParseUint_from] in H.
  rewrite Z.mul_0_l, Z.add_0_l in H. etransitivity; [|apply H; lia].
  by destruct (digits 20 10 n).
Qed.

Lemma digits_no_percent f n : 0 <= n → has_char "%" (digits f 10 n) = false.
Proof.
  revert n. induction f as [|f IH]; intros n Hn; [done|]. cbn [digits]. case_decide.
  - cbn [has_char]. by destruct (digit_value n) as [_ ->]; [lia|].
  - rewrite has_char_app, IH by (apply Z.div_pos; lia). cbn [has_char].
    destruct (digit_value (n mod 10)) as [_ ->]; [apply Z.mod_pos_bound; lia|done].
Qed.

Lemma print_no_percent n : 0 <= n → has_char "%" (print_Z n) = false.
Proof. intros Hn. unfold print_Z. rewrite decide_False by lia. by apply digits_no_percent. Qed.

Lemma IENameToType_name t : IENameToType (type_name t) = t.
Proof. by destruct t. Qed.

Lemma type_length_range t : 0 <= InfoElementLength t < 65536.
Proof. by destruct t. Qed.

Lemma type_number_range t : 0 <= type_number t < 65536.
Proof. by destruct t. Qed.

Lemma print_parameters_no_percent name id t ent len :
  has_char "%" name = false → 0 <= id < 65536 → 0 <= t < 65536 → 0 <= ent < 65536 → 0 <= len < 65536 →
  has_char "%" (print_parameters name id t ent len) = false.
Proof.
  intros. unfold print_parameters. rewrite !has_char_app, !print_no_percent by lia.
  by rewrite H.
Qed.

(** ** Properties *)

(** The generator registers what the table says.  For a row with a name without percent
    signs, element and enterprise ids of sixteen bits printed in decimal, and the name of a
    data type, the line it writes is the Go call that registers the element with that name,
    id, data type and enterprise id and with the length of the data type. *)
Theorem generated_row_registers format_verbs enterprise registryID row name id t ent :
  row !! 0%nat = Some (print_Z id) → row !! 1%nat = Some name → row !! 2%nat = Some (type_name t) →
  enterprise row = Ok (print_Z ent) →
  has_char "%" name = false → 0 <= id < 65536 → 0 <= ent < 65536 → 0 <= registryID < 65536 →
  generate_row format_verbs enterprise registryID row =
    Ok (registration (NewInfoElement name id t ent (InfoElementLength t), registryID)).
Proof.
  intros H0 H1 H2 He Hn Hid Hent Hreg. unfold generate_row, column. rewrite H0, H1, H2.
  cbn [of_option mbind go_bind]. rewrite He. cbn [mbind go_bind]. unfold generateIEString, registration.
  cbn [fst snd Name ElementId DataType EnterpriseId Len].
  rewrite !ParseUint16_print, IENameToType_name by done. unfold u16. rewrite !Z.mod_small by done.
  unfold Fprintf. rewrite print_no_percent by lia.
  rewrite print_parameters_no_percent; [done|done|done|apply type_number_range|done|apply type_length_range].
Qed.

Lemma generated_row_registers_witness :
  generate_row id (column 12) 56506
    ["101"; "sourcePodName"; "string"; ""; "current"; ""; ""; ""; ""; ""; ""; ""; "56506"; ""]%string =
    Ok (registration (NewInfoElement "sourcePodName" 101 StringType 56506 65535, 56506)).
Proof.
  apply (generated_row_registers id (column 12) 56506 _ "sourcePodName" 101 StringType 56506);
    (reflexivity || lia).
Defined.

(** C34: the Antrea registry in the repository is the generated one.  From the table
    registry_antrea.csv the generator writes the license header, the preamble of the file
    and, line by line and in order, the registrations of [loadAntreaRegistry]. *)
Theorem antrea_registry_generated format_verbs licenseHeader Open :
  Open "registry_antrea.csv"%string = Ok registry_antrea_csv →
  has_char "%" licenseHeader = false →
  (data ← readCSVFromFile Open "registry_antrea.csv";
   initAntreaRegistry format_verbs licenseHeader data) =
  Ok ((licenseHeader +:+ line_end +:+ line_end) +:+ preamble "loadAntreaRegistry" +:+
      String.concat "" (registration <$> loadAntreaRegistry) +:+ "}" +:+ line_end).
Proof.
  intros Ho Hl. unfold readCSVFromFile. rewrite Ho. cbn [mbind go_bind].
  destruct (readCSV registry_antrea_csv) as [data| | |] eqn:Hd; [|vm_compute in Hd; discriminate..].
  cbn [mbind go_bind]. unfold initAntreaRegistry, generate.
  assert (E : go_mapM (generate_row format_verbs (column 12) AntreaEnterpriseID) (drop 1 data) =
              Ok (registration <$> loadAntreaRegistry)).
  { vm_compute in Hd. injection Hd as <-. vm_compute. reflexivity. }
  rewrite E. cbn [mbind go_bind]. unfold Fprintf. rewrite has_char_app, Hl. done.
Qed.

Lemma antrea_registry_generated_witness :
  (data ← readCSVFromFile (λ _, Ok registry_antrea_csv) "registry_antrea.csv";
   initAntreaRegistry id "// license" data) =
  Ok (("// license" +:+ line_end +:+ line_end) +:+ preamble "loadAntreaRegistry" +:+
      String.concat "" (registration <$> loadAntreaRegistry) +:+ "}" +:+ line_end).
Proof.
  apply (antrea_registry_generated id "// license" (λ _, Ok registry_antrea_csv)); reflexivity.
Defined.

(** A failed download empties the registry.  When the IANA table cannot be fetched the
    error is only logged and the generator goes on: without an argument, or with "iana"
    in any case, it writes a registry file without a single registration. *)
Theorem failed_download_empties_registry format_verbs Get Open license_header Create prog name e :
  Get registryURL = Err e → has_char "%" (logged EmptyString license_header) = false →
  ToLower name = "iana"%string → Create "registry_IANA.go"%string = true →
  generator_main format_verbs Get Open license_header Create [prog; name] =
    Ok [("registry_IANA.go"%string,
         (logged EmptyString license_header +:+ line_end +:+ line_end) +:+ preamble "loadIANARegistry" +:+
         "}" +:+ line_end)].
Proof.
  intros Hg Hl Hn Hc. unfold generator_main. rewrite Hn. cbn [String.eqb]. unfold writeIANARegistry, readCSVFromURL.
  rewrite Hg. cbn [mbind go_bind logged from_ok]. unfold write_file, initIANARegistry, generate, Fprintf.
  cbn [drop go_mapM mbind go_bind]. rewrite has_char_app, Hl, Hc. done.
Qed.

Lemma failed_download_empties_registry_witness :
  generator_main id (λ _, Err ErrEOF) (λ _, Ok registry_antrea_csv) (Ok "// license"%string) (λ _, true)
    ["build_registry"; "IANA"]%string =
    Ok [("registry_IANA.go"%string,
         ("// license" +:+ line_end +:+ line_end) +:+ preamble "loadIANARegistry" +:+ "}" +:+ line_end)].
Proof.
  apply (failed_download_empties_registry id (λ _, Err ErrEOF) (λ _, Ok registry_antrea_csv)
    (Ok "// license"%string) (λ _, true) "build_registry" "IANA" ErrEOF); reflexivity.
Defined.
