(* ===== verification/Kafka.v ===== *)
(** * Publishing flow messages to Kafka and reading them back

    src/pkg/kafka/producer/kafka.go and src/pkg/kafka/consumer/consumer.go, with the
    interface of src/pkg/kafka/producer/convertor/convertor.go.  The Kafka client
    library and the protobuf encoding are not part of the repository: they are classes
    of operations, and what the code relies on are the laws of a second class. *)

From Stdlib Require Import ZArith Lia Ascii.
From Stdlib.Strings Require Import Byte.
From stdpp Require Import base gmap strings list numbers relations.
From S2P Require Import Prelude Bytes InfoElement Records Sets.

#[local] Open Scope Z_scope.

(** ** Interfaces *)

(** [IPFIXToKafkaConvertor]: a schema, with the two conversions to its messages. *)
Class IPFIXToKafkaConvertor (FlowMsg : Type) : Type := {
  ConvertIPFIXMsgToFlowMsgs : Message → go (list FlowMsg);
  ConvertIPFIXRecordToFlowMsg : IPFIXRecord → go FlowMsg;
}.

(** The protobuf encoding of a schema's messages. *)
Class ProtoCodec (FlowMsg : Type) : Type := {
  Marshal : FlowMsg → go (list byte);
  Unmarshal : list byte → go FlowMsg;
  Sprint : FlowMsg → string;
}.

(** Decoding gives back what was encoded, and encoding returns. *)
Class ProtoCodecLaws (FlowMsg : Type) `{ProtoCodec FlowMsg} : Prop := {
  Unmarshal_Marshal m bs : Marshal m = Ok bs → Unmarshal bs = Ok m;
  Marshal_returns m : Marshal m ≠ Panic ∧ Marshal m ≠ Block;
}.

Record ProducerMessage : Type := mkProducerMessage { Topic : string; Value : list byte }.

#[global] Instance ProducerMessage_eq_dec : EqDecision ProducerMessage.
Proof. solve_decision. Defined.

(** [sarama.AsyncProducer]: sending on [Input()], receiving one message from
    [Successes()], [AsyncClose], and receiving from [Successes()] until it is closed. *)
Class AsyncProducer (P : Type) : Type := {
  Input : ProducerMessage → M P unit;
  Successes : M P unit;
  AsyncClose : M P unit;
  drain_Successes : M P unit;
}.

(** What is documented of an open producer: it takes every message, and, when it returns
    successes, a message the brokers took is answered on [Successes()] and one they
    refused is not (it goes to [Errors()] instead).  [taken_by p m] says what the brokers
    do with the next message; [reliable p] that they take every message from now on. *)
Class AsyncProducerLaws (P : Type) `{AsyncProducer P} : Type := {
  is_open : P → bool;
  accepted : P → list ProducerMessage;
  taken_by : P → ProducerMessage → bool;
  reliable : P → Prop;
  reliable_takes p m : reliable p → taken_by p m = true;
  Input_open p m : is_open p = true →
    ∃ p', Input m p = (Ok tt, p') ∧ is_open p' = true ∧ accepted p' = accepted p ++ [m] ∧
          (reliable p → reliable p') ∧
          ∃ p'', Successes p' = ((if taken_by p m then Ok tt else Block), p'') ∧
          is_open p'' = true ∧ accepted p'' = accepted p' ∧ (reliable p → reliable p'');
}.

(** ** The producer *)

Section producer.
Context {FlowMsg KafkaVersion P Certificate : Type}.
Context `{ProtoCodec FlowMsg, AsyncProducer P}.

Record ProducerInput : Type := mkProducerInput {
  KafkaBrokers : list string;
  KafkaVersion_ : KafkaVersion;
  KafkaTopic : string;
  KafkaTLSEnabled : bool;
  KafkaCAFile : string;
  KafkaTLSCertFile : string;
  KafkaTLSKeyFile : string;
  KafkaTLSSkipVerify : bool;
  KafkaLogErrors : bool;
  KafkaLogSuccesses : bool;
  EnableSaramaDebugLog : bool;
  ProtoSchemaConvertor : option (IPFIXToKafkaConvertor FlowMsg);
}.

(** [closeCh]: not made, or made and perhaps closed. *)
Record KafkaProducer : Type := mkKafkaProducer {
  producer : option P;
  kp_input : ProducerInput;
  closeCh : option bool;
}.

(** [sarama.KafkaVersion.IsAtLeast(sarama.DefaultVersion)]. *)
Context (at_least_default : KafkaVersion → bool).

Definition NewKafkaProducer (input : ProducerInput) : go KafkaProducer :=
  if negb (at_least_default (KafkaVersion_ input)) then Err ErrKafkaVersion else
  match ProtoSchemaConvertor input with
  | None => Err ErrNoConvertor
  | Some _ => Ok (mkKafkaProducer None input None)
  end.

Record KafkaTLSConfig : Type := mkKafkaTLSConfig {
  k_Certificates : list Certificate;
  k_RootCAs : list byte;
  k_MinVersion : Z;
  k_InsecureSkipVerify : bool;
}.

Record SaramaConfig : Type := mkSaramaConfig {
  Version : KafkaVersion;
  Return_Successes : bool;
  Return_Errors : bool;
  TLS : option (option KafkaTLSConfig);   (* enabled, with the configuration or none *)
}.

(** [tls.LoadX509KeyPair], [os.ReadFile] and [sarama.NewAsyncProducer]. *)
Context (LoadX509KeyPair : string → string → go Certificate).
Context (ReadFile : string → go (list byte)).
Context (NewAsyncProducer : list string → SaramaConfig → go P).

(** An error of [m] is wrapped in [f]. *)
Definition wrap_error {A} (f : error → error) (m : go A) : go A :=
  match m with Err e => Err (f e) | _ => m end.

(** The certificates of the CA file go to the pool whether they parse or not. *)
Definition setupTLSConfig (caFile tlsCertFile tlsKeyFile : string) (kafkaTLSSkipVerify : bool)
    : go (option KafkaTLSConfig) :=
  if negb (String.eqb tlsCertFile EmptyString) || negb (String.eqb tlsKeyFile EmptyString)
     || negb (String.eqb caFile EmptyString) then
    cert ← wrap_error ErrKafkaKeyPair (LoadX509KeyPair tlsCertFile tlsKeyFile);
    caCert ← wrap_error ErrKafkaCAFile (ReadFile caFile);
    Ok (Some (mkKafkaTLSConfig [cert] caCert 771 kafkaTLSSkipVerify))
  else Ok None.

Definition InitSaramaProducer : M KafkaProducer unit := fun kp =>
  let input := kp_input kp in
  match (tls ← (if KafkaTLSEnabled input
                then Some <$> setupTLSConfig (KafkaCAFile input) (KafkaTLSCertFile input)
                                (KafkaTLSKeyFile input) (KafkaTLSSkipVerify input)
                else Ok None);
         NewAsyncProducer (KafkaBrokers input)
           (mkSaramaConfig (KafkaVersion_ input) (KafkaLogSuccesses input) (KafkaLogErrors input) tls)) with
  | Ok p => (Ok tt, mkKafkaProducer (Some p) input
                      (if KafkaLogErrors input then Some false else closeCh kp))
  | Err e => (Err e, kp)
  | Panic => (Panic, kp)
  | Block => (Block, kp)
  end.

Definition GetSaramaProducer (kp : KafkaProducer) : option P := producer kp.

Definition SetSaramaProducer (p : P) (kp : KafkaProducer) : KafkaProducer :=
  mkKafkaProducer (Some p) (kp_input kp) (closeCh kp).

(** Run an operation of the client library; calling it on a nil producer panics. *)
Definition with_producer (op : M P unit) : M KafkaProducer unit := fun kp =>
  match producer kp with
  | None => (Panic, kp)
  | Some p => let '(res, p) := op p in (res, SetSaramaProducer p kp)
  end.

(** The bytes of a message, with their number in front when the message is delimited. *)
Definition delimited (kafkaDelimitMsgWithLen : bool) (bytes : list byte) : list byte :=
  if kafkaDelimitMsgWithLen then put_be 4 (Z.of_nat (length bytes)) ++ bytes else bytes.

(** A message that cannot be encoded is logged and dropped. *)
Definition SendFlowMessage (msg : FlowMsg) (kafkaDelimitMsgWithLen : bool) : M KafkaProducer unit :=
  fun kp =>
  match Marshal msg with
  | Err _ => (Ok tt, kp)
  | Panic => (Panic, kp)
  | Block => (Block, kp)
  | Ok bytes =>
      (with_producer (Input (mkProducerMessage (KafkaTopic (kp_input kp))
                               (delimited kafkaDelimitMsgWithLen bytes)));;
       if KafkaLogSuccesses (kp_input kp) then with_producer Successes else mret tt) kp
  end.

Fixpoint send_all (flowMsgs : list FlowMsg) : M KafkaProducer unit :=
  match flowMsgs with
  | [] => mret tt
  | flowMsg :: flowMsgs => SendFlowMessage flowMsg true;; send_all flowMsgs
  end.

(** A call of a method of a nil convertor panics. *)
Definition with_convertor {A} (f : IPFIXToKafkaConvertor FlowMsg → go A) : M KafkaProducer A := fun kp =>
  match ProtoSchemaConvertor (kp_input kp) with
  | None => (Panic, kp)
  | Some conv => (f conv, kp)
  end.

(** [msgCh] is the list of the messages sent on the channel before it is closed. *)
Fixpoint PublishIPFIXMessages (msgCh : list Message) : M KafkaProducer unit :=
  match msgCh with
  | [] => mret tt
  | msg :: msgCh =>
      flowMsgs ← with_convertor (λ conv, @ConvertIPFIXMsgToFlowMsgs _ conv msg);
      send_all flowMsgs;;
      PublishIPFIXMessages msgCh
  end.

Definition PublishRecord (record : IPFIXRecord) : M KafkaProducer unit :=
  flowMsg ← with_convertor (λ conv, @ConvertIPFIXRecordToFlowMsg _ conv record);
  SendFlowMessage flowMsg false.

(** [close(kp.closeCh)] when it was made; closing it again panics. *)
Definition close_closeCh : M KafkaProducer unit := fun kp =>
  match closeCh kp with
  | None => (Ok tt, kp)
  | Some true => (Panic, kp)
  | Some false => (Ok tt, mkKafkaProducer (producer kp) (kp_input kp) (Some true))
  end.

Definition CloseProducer : M KafkaProducer unit := fun kp =>
  match producer kp with
  | None => (Ok tt, kp)
  | Some _ =>
      (with_producer AsyncClose;;
       close_closeCh;;
       if KafkaLogSuccesses (kp_input kp) then with_producer drain_Successes else mret tt) kp
  end.

End producer.
Arguments ProducerInput : clear implicits.
Arguments KafkaProducer : clear implicits.
Arguments KafkaTLSConfig : clear implicits.
Arguments SaramaConfig : clear implicits.

(** ** The consumer *)

Section consumer.
Context {FlowMsg KafkaVersion : Type}.
Context `{ProtoCodec FlowMsg}.

Definition msgDelimitLen : nat := 4.

Record ConsumerInput : Type := mkConsumerInput {
  c_KafkaBrokers : list string;
  c_KafkaVersion : KafkaVersion;
  c_KafkaTopic : string;
  c_KafkaLogErrors : bool;
  MsgDelimitWithLen : bool;
}.

Record ConsumerMessage : Type := mkConsumerMessage {
  cm_Topic : string;
  cm_Partition : Z;
  cm_Value : list byte;
}.

(** [c_stopChan] is [None] while the channel has not been made, and else whether it is
    closed; [c_messageChan] is the list of the messages sent on the channel. *)
Record KafkaConsumer : Type := mkKafkaConsumer {
  c_input : ConsumerInput;
  c_stopChan : option bool;
  c_messageChan : list ConsumerMessage;
}.

Definition NewKafkaConsumer (input : ConsumerInput) : KafkaConsumer :=
  mkKafkaConsumer input None [].

(** What the [select] of the consumer's loop takes next. *)
Inductive choice : Type :=
| TakeMessage (msg : ConsumerMessage)
| TakeError (err : error)
| TakeStop.

(** The loop.  Receiving from a channel that is nil or not closed is never ready; when
    nothing is left to take, the loop waits. *)
Fixpoint consume_loop (choices : list choice) : M KafkaConsumer unit := fun kc =>
  match choices with
  | [] => (Block, kc)
  | TakeMessage msg :: choices =>
      consume_loop choices (mkKafkaConsumer (c_input kc) (c_stopChan kc) (c_messageChan kc ++ [msg]))
  | TakeError _ :: choices => consume_loop choices kc
  | TakeStop :: choices =>
      if decide (c_stopChan kc = Some true) then (Ok tt, kc) else consume_loop choices kc
  end.

(** [sarama.NewConsumer] with the version and the error setting, and
    [consumer.ConsumePartition(topic, 0, sarama.OffsetNewest)]. *)
Context (NewConsumer : list string → KafkaVersion → bool → go unit).
Context (ConsumePartition : string → go unit).

Definition InitSaramaConsumer (choices : list choice) : M KafkaConsumer unit := fun kc =>
  let input := c_input kc in
  match (NewConsumer (c_KafkaBrokers input) (c_KafkaVersion input) (c_KafkaLogErrors input);;
         wrap_error ErrPartitionConsumer (ConsumePartition (c_KafkaTopic input))) with
  | Ok _ => consume_loop choices kc
  | Err e => (Err e, kc)
  | Panic => (Panic, kc)
  | Block => (Block, kc)
  end.

Definition ConsumerGetMsgChan (kc : KafkaConsumer) : list ConsumerMessage := c_messageChan kc.

(** Closing a channel that is nil or closed panics. *)
Definition StopConsumer : M KafkaConsumer unit := fun kc =>
  match c_stopChan kc with
  | Some false => (Ok tt, mkKafkaConsumer (c_input kc) (Some true) (c_messageChan kc))
  | _ => (Panic, kc)
  end.

(** [strings.ReplaceAll(s, "  ", "\n\t")]. *)
Fixpoint replace_double_space (s : string) : string :=
  match s with
  | String " " (String " " s) => String "010" (String "009" (replace_double_space s))
  | String c s => String c (replace_double_space s)
  | EmptyString => EmptyString
  end.

(** The flow message and the text that is logged for it.  A value too short for its
    length prefix panics. *)
Definition DecodeAndPrintMsg (msg : ConsumerMessage) (kc : KafkaConsumer) : go (FlowMsg * string) :=
  value ← (if MsgDelimitWithLen (c_input kc) then
             if decide (msgDelimitLen <= length (cm_Value msg))%nat
             then Ok (drop msgDelimitLen (cm_Value msg)) else Panic
           else Ok (cm_Value msg));
  message ← wrap_error ErrInvalidMessage (Unmarshal value);
  Ok (message, replace_double_space (Sprint message)).

End consumer.
Arguments ConsumerInput : clear implicits.
Arguments KafkaConsumer : clear implicits.

(** ** Lemmas: publishing *)

Section publishing.
Context {FlowMsg KafkaVersion P : Type}.
Context `{ProtoCodec FlowMsg, !ProtoCodecLaws FlowMsg, AsyncProducer P, !AsyncProducerLaws P}.

Implicit Types (kp : KafkaProducer FlowMsg KafkaVersion P).

(** The producer is there and open, and if the code waits for successes then the brokers
    take every message. *)
Definition ready_producer (kp : KafkaProducer FlowMsg KafkaVersion P) (p : P) : Prop :=
  producer kp = Some p ∧ is_open p = true ∧
  (KafkaLogSuccesses (kp_input kp) = true → reliable p).

(** What the encoding of a flow message puts on a topic. *)
Definition on_topic (topic : string) (d : bool) (msg : FlowMsg) : list ProducerMessage :=
  match Marshal msg with Ok bytes => [mkProducerMessage topic (delimited d bytes)] | _ => [] end.

Lemma SendFlowMessage_ready msg d kp p :
  ready_producer kp p →
  ∃ p', SendFlowMessage msg d kp = (Ok tt, SetSaramaProducer p' kp) ∧
    ready_producer (SetSaramaProducer p' kp) p' ∧
    accepted p' = accepted p ++ on_topic (KafkaTopic (kp_input kp)) d msg.
Proof.
  intros (Hp & Hop & Hb). unfold SendFlowMessage, on_topic.
  destruct (Marshal_returns msg) as [Hm1 Hm2]. destruct (Marshal msg) as [bytes|e| |] eqn:Em; [|..|done|done].
  - set (m := mkProducerMessage _ _).
    destruct (Input_open p m Hop) as (p1 & E1 & Ho1 & Ha1 & Hr1 & p2 & E2 & Ho2 & Ha2 & Hr2).
    assert (W : with_producer (Input m) kp = (Ok tt, SetSaramaProducer p1 kp))
      by (unfold with_producer; by rewrite Hp, E1).
    erewrite M_bind_Ok by exact W.
    destruct (KafkaLogSuccesses (kp_input kp)) eqn:Hlog.
    + rewrite reliable_takes in E2 by auto. exists p2. unfold with_producer.
      cbn [producer SetSaramaProducer]. rewrite E2. split; [done|]. split; [|congruence].
      split_and!; [done|done|auto].
    + exists p1. split; [done|]. split; [|done]. split_and!; [done|done|]. cbn. by rewrite Hlog.
  - exists p. rewrite app_nil_r. destruct kp as [? input ch]. cbn in Hp. subst. by split_and!.
Qed.

Lemma send_all_ready msgs kp p :
  ready_producer kp p →
  ∃ p', send_all msgs kp = (Ok tt, SetSaramaProducer p' kp) ∧
    ready_producer (SetSaramaProducer p' kp) p' ∧
    accepted p' = accepted p ++ (msgs ≫= on_topic (KafkaTopic (kp_input kp)) true).
Proof.
  revert kp p. induction msgs as [|msg msgs IH]; intros kp p Hr; cbn [send_all mbind list_bind].
  - exists p. rewrite app_nil_r. destruct kp as [? input ch]. destruct Hr as (Hp & Hop & Hb).
    cbn in Hp. subst. by split_and!.
  - destruct (SendFlowMessage_ready msg true kp p Hr) as (p1 & E1 & Hr1 & Ha1).
    destruct (IH _ _ Hr1) as (p2 & E2 & Hr2 & Ha2). exists p2.
    erewrite M_bind_Ok by exact E1. rewrite E2. split; [done|]. split; [done|].
    rewrite Ha2, Ha1, <- app_assoc. done.
Qed.

Lemma Publish_ready conv msgs fss kp p :
  ready_producer kp p → ProtoSchemaConvertor (kp_input kp) = Some conv →
  Forall2 (λ msg fs, @ConvertIPFIXMsgToFlowMsgs _ conv msg = Ok fs) msgs fss →
  ∃ p', PublishIPFIXMessages msgs kp = (Ok tt, SetSaramaProducer p' kp) ∧
    accepted p' = accepted p ++ (concat fss ≫= on_topic (KafkaTopic (kp_input kp)) true).
Proof.
  intros Hr Hc Hf. revert kp p Hr Hc.
  induction Hf as [|msg fs msgs fss Hfs Hf IH]; intros kp p Hr Hc; cbn [PublishIPFIXMessages concat].
  - exists p. rewrite app_nil_r. destruct kp as [? input ch]. destruct Hr as (Hp & Hop & Hb).
    cbn in Hp. by subst.
  - assert (W : with_convertor (λ conv, @ConvertIPFIXMsgToFlowMsgs _ conv msg) kp = (Ok fs, kp))
      by (unfold with_convertor; by rewrite Hc, Hfs).
    erewrite M_bind_Ok by exact W.
    destruct (send_all_ready fs kp p Hr) as (p1 & E1 & Hr1 & Ha1). erewrite M_bind_Ok by exact E1.
    destruct (IH _ _ Hr1 Hc) as (p2 & E2 & Ha2). exists p2. rewrite E2. split; [done|].
    rewrite Ha2, Ha1, bind_app, <- app_assoc. done.
Qed.

(** A delimited message is read back by a consumer that expects the length. *)
Lemma decode_on_topic topic msg bytes partition (kc : KafkaConsumer KafkaVersion) :
  MsgDelimitWithLen (c_input kc) = true → Marshal msg = Ok bytes →
  DecodeAndPrintMsg (mkConsumerMessage topic partition (delimited true bytes)) kc =
    Ok (msg, replace_double_space (Sprint msg)).
Proof.
  intros Hd Hm. unfold DecodeAndPrintMsg. rewrite Hd. cbn [cm_Value].
  rewrite decide_True by (unfold delimited, msgDelimitLen; rewrite length_app, length_put_be; lia).
  cbn [mbind go_bind]. change (drop msgDelimitLen (delimited true bytes)) with bytes.
  by rewrite (Unmarshal_Marshal _ _ Hm).
Qed.

(** What is on the topic is read back: the messages that could be encoded, in order. *)
Lemma read_back topic partition (kc : KafkaConsumer KafkaVersion) fs :
  MsgDelimitWithLen (c_input kc) = true →
  Forall2 (λ f m, Topic m = topic ∧
             DecodeAndPrintMsg (mkConsumerMessage (Topic m) partition (Value m)) kc =
               Ok (f, replace_double_space (Sprint f)))
    (filter (λ f, is_okb (Marshal f) = true) fs) (fs ≫= on_topic topic true).
Proof.
  intros Hd. induction fs as [|f fs IH]; [constructor|]. cbn [mbind list_bind]. rewrite filter_cons.
  unfold on_topic at 1. destruct (Marshal f) as [bytes|e| |] eqn:Em; cbn [is_okb app]; [|by rewrite decide_False..].
  rewrite decide_True by done. constructor; [|exact IH]. split; [done|]. by apply decode_on_topic.
Qed.

End publishing.

(** ** Properties *)

(** What is published can be consumed.  With an open producer whose brokers take the
    messages, [PublishIPFIXMessages] returns and puts on the topic, after what was there,
    one message for each flow message the schema's convertor makes of the IPFIX messages,
    in order; and a consumer that expects delimited messages decodes them to exactly
    these flow messages. *)
Theorem published_flows_consumed {FlowMsg KafkaVersion P} `{ProtoCodec FlowMsg, !ProtoCodecLaws FlowMsg,
    AsyncProducer P, !AsyncProducerLaws P}
    conv msgs fss (kp : KafkaProducer FlowMsg KafkaVersion P) p (kc : KafkaConsumer KafkaVersion) partition :
  ready_producer kp p → ProtoSchemaConvertor (kp_input kp) = Some conv →
  Forall2 (λ msg fs, @ConvertIPFIXMsgToFlowMsgs _ conv msg = Ok fs) msgs fss →
  Forall (λ f, is_ok (Marshal f)) (concat fss) → MsgDelimitWithLen (c_input kc) = true →
  ∃ p' published,
    PublishIPFIXMessages msgs kp = (Ok tt, SetSaramaProducer p' kp) ∧
    accepted p' = accepted p ++ published ∧
    Forall2 (λ f m, Topic m = KafkaTopic (kp_input kp) ∧
               DecodeAndPrintMsg (mkConsumerMessage (Topic m) partition (Value m)) kc =
                 Ok (f, replace_double_space (Sprint f))) (concat fss) published.
Proof.
  intros Hr Hc Hf Hm Hd. destruct (Publish_ready conv msgs fss kp p Hr Hc Hf) as (p' & E & Ha).
  exists p'. eexists. split_and!; [done|exact Ha|].
  pose proof (read_back (KafkaTopic (kp_input kp)) partition kc (concat fss) Hd) as Hb.
  rewrite filter_all in Hb; [exact Hb|]. eapply list.Forall_impl; [exact Hm|]. by intros f [bytes ->].
Qed.

(** A producer that keeps its messages in a list, with brokers that take those that
    satisfy a predicate. *)
Record mock_producer : Type := mkMockProducer {
  mock_open : bool;
  mock_log : list ProducerMessage;
  mock_takes : ProducerMessage → bool;
}.

#[global] Instance mock_async : AsyncProducer mock_producer := {|
  Input m p :=
    if mock_open p then (Ok tt, mkMockProducer true (mock_log p ++ [m]) (mock_takes p)) else (Panic, p);
  Successes p :=
    match list.last (mock_log p) with
    | Some m => (if mock_takes p m then Ok tt else Block, p)
    | None => (Block, p)
    end;
  AsyncClose p := (Ok tt, mkMockProducer false (mock_log p) (mock_takes p));
  drain_Successes p := (Ok tt, p);
|}.

#[global] Instance mock_async_laws : AsyncProducerLaws mock_producer.
Proof.
  refine {| is_open := mock_open; accepted := mock_log; taken_by := mock_takes;
            reliable p := ∀ m, mock_takes p m = true |}; [auto|].
  intros p m Ho. exists (mkMockProducer true (mock_log p ++ [m]) (mock_takes p)).
  cbn. rewrite Ho, last_snoc. split_and!; try done. by eexists.
Defined.

(** A schema whose messages are the encoded records. *)
#[global] Instance raw_codec : ProtoCodec (list byte) :=
  {| Marshal bs := Ok bs; Unmarshal bs := Ok bs; Sprint _ := "raw"%string |}.
#[global] Instance raw_codec_laws : ProtoCodecLaws (list byte).
Proof. split; [by intros m bs [= ->]|done]. Qed.

Definition raw_convertor : IPFIXToKafkaConvertor (list byte) := {|
  ConvertIPFIXMsgToFlowMsgs msg :=
    match msg_set msg with
    | Some s => if decide (setType s = Template) then Ok []
                else go_mapM (λ r, fst <$> GetBuffer r) (records s)
    | None => Panic
    end;
  ConvertIPFIXRecordToFlowMsg r := fst <$> GetBuffer r;
|}.

Definition example_data_msg : Message :=
  AddSet (from_ok (NewSet false)
    (s ← PrepareSet Data 256 (NewSet false);
     s ← AddRecord [example_octets; example_pod] 256 s;
     AddRecord [example_octets] 256 s)) (NewMessage true).
Definition example_kinput (successes : bool) : ProducerInput (list byte) unit :=
  mkProducerInput ["kafka:9092"%string] tt "AntreaTopic" false "" "" "" false false successes false
    (Some raw_convertor).
Definition example_kp (takes : bool) : KafkaProducer (list byte) unit mock_producer :=
  mkKafkaProducer (Some (mkMockProducer true [] (λ _, takes))) (example_kinput true) None.
Definition example_kc : KafkaConsumer unit :=
  NewKafkaConsumer (mkConsumerInput ["kafka:9092"%string] tt "AntreaTopic" true true).

Definition example_flows : list (list byte) :=
  [wire example_octets ++ wire example_pod; wire example_octets].

Lemma published_flows_consumed_witness :
  ∃ p' published,
    PublishIPFIXMessages [example_data_msg; example_data_msg] (example_kp true) =
      (Ok tt, SetSaramaProducer p' (example_kp true)) ∧
    mock_log p' = published ∧
    Forall2 (λ f m, Topic m = "AntreaTopic"%string ∧
               DecodeAndPrintMsg (mkConsumerMessage (Topic m) 0 (Value m)) example_kc =
                 Ok (f, replace_double_space (Sprint f)))
      (concat [example_flows; example_flows]) published.
Proof.
  refine (published_flows_consumed raw_convertor [example_data_msg; example_data_msg]
    [example_flows; example_flows] (example_kp true) (mkMockProducer true [] (λ _, true)) example_kc 0
    _ eq_refl _ _ eq_refl).
  - split_and!; [reflexivity|reflexivity|intros _ m; reflexivity].
  - repeat constructor; vm_compute; reflexivity.
  - repeat constructor; by eexists.
Defined.

(** A message the brokers refuse stops the producer for ever.  When it logs successes,
    [SendFlowMessage] waits for the success of its message, which goes to the errors
    instead: the call does not return, and neither does [PublishIPFIXMessages], whose
    further messages are not sent. *)
Theorem refused_message_blocks {FlowMsg KafkaVersion P} `{ProtoCodec FlowMsg, AsyncProducer P,
    !AsyncProducerLaws P} conv msg msgs f fs bytes (kp : KafkaProducer FlowMsg KafkaVersion P) p :
  producer kp = Some p → is_open p = true → KafkaLogSuccesses (kp_input kp) = true →
  Marshal f = Ok bytes →
  taken_by p (mkProducerMessage (KafkaTopic (kp_input kp)) (delimited true bytes)) = false →
  ProtoSchemaConvertor (kp_input kp) = Some conv →
  @ConvertIPFIXMsgToFlowMsgs _ conv msg = Ok (f :: fs) →
  ∃ kp', SendFlowMessage f true kp = (Block, kp') ∧
    PublishIPFIXMessages (msg :: msgs) kp = (Block, kp') ∧
    accepted <$> producer kp' =
      Some (accepted p ++ [mkProducerMessage (KafkaTopic (kp_input kp)) (delimited true bytes)]).
Proof.
  intros Hp Hop Hlog Hm Ht Hc Hf. set (m := mkProducerMessage _ _) in *.
  destruct (Input_open p m Hop) as (p1 & E1 & _ & Ha1 & _ & p2 & E2 & _ & Ha2 & _). rewrite Ht in E2.
  assert (HS : SendFlowMessage f true kp = (Block, SetSaramaProducer p2 kp)).
  { unfold SendFlowMessage. rewrite Hm. fold m.
    assert (W : with_producer (Input m) kp = (Ok tt, SetSaramaProducer p1 kp))
      by (unfold with_producer; by rewrite Hp, E1).
    erewrite M_bind_Ok by exact W. rewrite Hlog. unfold with_producer. cbn. by rewrite E2. }
  exists (SetSaramaProducer p2 kp). split_and!; [done| |cbn; congruence].
  cbn [PublishIPFIXMessages]. unfold mbind, M_bind, with_convertor. rewrite Hc, Hf. cbn [send_all].
  unfold mbind, M_bind. by rewrite HS.
Qed.

Lemma refused_message_blocks_witness :
  ∃ kp', SendFlowMessage (wire example_octets ++ wire example_pod) true (example_kp false) = (Block, kp') ∧
    PublishIPFIXMessages [example_data_msg] (example_kp false) = (Block, kp') ∧
    accepted <$> producer kp' = Some ([] ++ [mkProducerMessage "AntreaTopic"
      (delimited true (wire example_octets ++ wire example_pod))]).
Proof.
  refine (refused_message_blocks raw_convertor example_data_msg [] _ [wire example_octets] _
    (example_kp false) (mkMockProducer true [] (λ _, false)) eq_refl eq_refl eq_refl eq_refl eq_refl
    eq_refl _).
  vm_compute. reflexivity.
Defined.

(** ** Lemmas: consuming *)

Section consuming.
Context {KafkaVersion : Type}.
Implicit Types (kc : KafkaConsumer KafkaVersion).

(** The messages among what was taken. *)
Definition taken_messages (choices : list choice) : list ConsumerMessage :=
  omap (λ c, match c with TakeMessage m => Some m | _ => None end) choices.

(** While the stop channel is not closed the loop goes on. *)
Lemma consume_loop_forwards choices kc :
  c_stopChan kc ≠ Some true →
  consume_loop choices kc =
    (Block, mkKafkaConsumer (c_input kc) (c_stopChan kc) (c_messageChan kc ++ taken_messages choices)).
Proof.
  revert kc. induction choices as [|c choices IH]; intros kc Hs; cbn [consume_loop].
  - rewrite app_nil_r. by destruct kc.
  - destruct c as [msg|err|]; cbn [taken_messages omap list_omap].
    + rewrite IH by done. cbn. by rewrite <- app_assoc.
    + by rewrite IH.
    + rewrite decide_False by done. by rewrite IH.
Qed.

End consuming.

(** A consumer forwards every message and cannot be stopped.  [NewKafkaConsumer] does
    not make the stop channel: once the consumer has its partition, it puts the messages
    it takes on its channel, in order, and [InitSaramaConsumer] never returns, whatever
    else it takes; and [Stop] panics, before and after. *)
Theorem consumer_cannot_stop {KafkaVersion} (NewConsumer : list string → KafkaVersion → bool → go unit)
    ConsumePartition input choices :
  NewConsumer (c_KafkaBrokers input) (c_KafkaVersion input) (c_KafkaLogErrors input) = Ok tt →
  ConsumePartition (c_KafkaTopic input) = Ok tt →
  let '(res, kc) := InitSaramaConsumer NewConsumer ConsumePartition choices (NewKafkaConsumer input) in
  res = Block ∧ ConsumerGetMsgChan kc = taken_messages choices ∧
  (StopConsumer (NewKafkaConsumer input)).1 = Panic ∧ (StopConsumer kc).1 = Panic.
Proof.
  intros H1 H2. unfold InitSaramaConsumer. cbn [c_input NewKafkaConsumer]. rewrite H1, H2. cbn [mbind go_bind wrap_error].
  by rewrite consume_loop_forwards.
Qed.

Lemma consumer_cannot_stop_witness :
  (InitSaramaConsumer (λ _ _ _, Ok tt) (λ _, Ok tt)
     [TakeMessage (mkConsumerMessage "AntreaTopic" 0 [x00]); TakeStop; TakeError ErrEOF] example_kc).1 = Block.
Proof.
  exact (proj1 (consumer_cannot_stop (λ _ _ _, Ok tt) (λ _, Ok tt) (c_input example_kc)
    [TakeMessage (mkConsumerMessage "AntreaTopic" 0 [x00]); TakeStop; TakeError ErrEOF] eq_refl eq_refl)).
Defined.
