(* ===== verification/Convertor.v ===== *)
(** * From flow records to protobuf messages

    src/pkg/kafka/producer/convertor/test/flowtype1.go, the convertor for the schema
    [FlowType1] of src/pkg/kafka/producer/protobuf/flow.proto ([FlowType2] is a schema with
    the same fields as far as its convertor, flowtype2.go, goes).  It is an instance of the
    interface of Kafka.v; it is proved to give every field the value of the last element
    that is for it, and never to panic on what a collector delivers. *)

From Stdlib Require Import ZArith Lia Ascii.
From Stdlib.Strings Require Import Byte.
From stdpp Require Import base gmap strings list numbers relations.
From S2P Require Import Prelude Bytes InfoElement Records Sets Wire RegistryData Registry Collector Typing NetIP Kafka.

#[local] Open Scope Z_scope.

(** ** Messages of the schema *)

(** A value of a field. *)
Inductive proto_value : Type :=
| Uint32 (z : Z)
| Uint64 (z : Z)
| Text (s : string).

#[global] Instance proto_value_eq_dec : EqDecision proto_value.
Proof. solve_decision. Defined.

(** The zero value, which a field has that is not set. *)
Definition proto_zero (v : proto_value) : bool :=
  match v with Uint32 z | Uint64 z => bool_decide (z = 0) | Text s => bool_decide (s = EmptyString) end.

(** A struct [FlowType1]: its fields, by their names, that are not zero. *)
Abbreviation FlowType1 := (gmap string proto_value).

(** [flowMsg.Field = v]. *)
Definition set_field (field : string) (v : proto_value) (flowMsg : FlowType1) : FlowType1 :=
  if proto_zero v then delete field flowMsg else <[field := v]> flowMsg.

(** The schema: the fields with their numbers and types. *)
Inductive proto_type : Type := TUint32 | TUint64 | TString.

#[global] Instance proto_type_eq_dec : EqDecision proto_type.
Proof. solve_decision. Defined.

Definition FlowType1_schema : list (string * (Z * proto_type)) :=
  [("TimeReceived", (1, TUint32)); ("SequenceNumber", (2, TUint32)); ("ObsDomainID", (3, TUint32));
   ("ExportAddress", (33, TString)); ("TimeFlowStartInSecs", (4, TUint32));
   ("TimeFlowEndInSecs", (5, TUint32)); ("TimeFlowStartInMilliSecs", (27, TUint64));
   ("TimeFlowEndInMilliSecs", (28, TUint32)); ("SrcIP", (6, TString)); ("DstIP", (7, TString));
   ("SrcPort", (8, TUint32)); ("DstPort", (9, TUint32)); ("Proto", (10, TUint32));
   ("PacketsTotal", (11, TUint64)); ("BytesTotal", (12, TUint64)); ("PacketsDelta", (13, TUint64));
   ("BytesDelta", (14, TUint64)); ("ReversePacketsTotal", (15, TUint64));
   ("ReverseBytesTotal", (16, TUint64)); ("ReversePacketsDelta", (17, TUint64));
   ("ReverseBytesDelta", (18, TUint64)); ("SrcPodName", (19, TString));
   ("SrcPodNamespace", (20, TString)); ("SrcNodeName", (21, TString)); ("DstPodName", (22, TString));
   ("DstPodNamespace", (23, TString)); ("DstNodeName", (24, TString));
   ("DstClusterIP", (25, TString)); ("DstServicePort", (34, TUint32));
   ("DstServicePortName", (26, TString)); ("IngressPolicyName", (29, TString));
   ("IngressPolicyNamespace", (30, TString)); ("EgressPolicyName", (31, TString));
   ("EgressPolicyNamespace", (32, TString))]%string.

Definition type_of (v : proto_value) : proto_type :=
  match v with Uint32 _ => TUint32 | Uint64 _ => TUint64 | Text _ => TString end.

Definition field_type (field : string) : option proto_type :=
  (λ c, c.2.2) <$> find (λ c, String.eqb c.1 field) FlowType1_schema.

(** ** Conversion *)

(** The accessors of the cases of the [switch], with the conversion of their value. *)
Inductive getter : Type := AsUint32 | AsUint64 | AsUint16 | AsUint8 | AsIP | AsString.

Definition read (a : getter) (ie : InfoElementWithValue) : go proto_value :=
  match a with
  | AsUint32 => Uint32 <$> GetUnsigned32Value ie
  | AsUint64 => Uint64 <$> GetUnsigned64Value ie
  | AsUint16 => Uint32 <$> GetUnsigned16Value ie
  | AsUint8 => Uint32 <$> GetUnsigned8Value ie
  | AsIP => (λ ip, Text (IP_String ip)) <$> GetIPAddressValue ie
  | AsString => Text <$> GetStringValue ie
  end.

(** The cases: the name of the element, the field that is set, and how it is read. *)
Definition flow_cases : list (string * (string * getter)) :=
  [("flowStartSeconds", ("TimeFlowStartInSecs", AsUint32));
   ("flowEndSeconds", ("TimeFlowEndInSecs", AsUint32));
   ("sourceIPv4Address", ("SrcIP", AsIP)); ("sourceIPv6Address", ("SrcIP", AsIP));
   ("destinationIPv4Address", ("DstIP", AsIP)); ("destinationIPv6Address", ("DstIP", AsIP));
   ("sourceTransportPort", ("SrcPort", AsUint16));
   ("destinationTransportPort", ("DstPort", AsUint16));
   ("protocolIdentifier", ("Proto", AsUint8));
   ("packetTotalCount", ("PacketsTotal", AsUint64));
   ("octetTotalCount", ("BytesTotal", AsUint64));
   ("packetDeltaCount", ("PacketsDelta", AsUint64));
   ("octetDeltaCount", ("BytesDelta", AsUint64));
   ("reversePacketTotalCount", ("ReversePacketsTotal", AsUint64));
   ("reverseOctetTotalCount", ("ReverseBytesTotal", AsUint64));
   ("reversePacketDeltaCount", ("ReversePacketsDelta", AsUint64));
   ("reverseOctetDeltaCount", ("ReverseBytesDelta", AsUint64));
   ("sourcePodNamespace", ("SrcPodNamespace", AsString));
   ("sourcePodName", ("SrcPodName", AsString));
   ("sourceNodeName", ("SrcNodeName", AsString));
   ("destinationPodNamespace", ("DstPodNamespace", AsString));
   ("destinationPodName", ("DstPodName", AsString));
   ("destinationNodeName", ("DstNodeName", AsString));
   ("destinationClusterIPv4", ("DstClusterIP", AsIP)); ("destinationClusterIPv6", ("DstClusterIP", AsIP));
   ("destinationServicePort", ("DstServicePort", AsUint16));
   ("destinationServicePortName", ("DstServicePortName", AsString));
   ("ingressNetworkPolicyName", ("IngressPolicyName", AsString));
   ("ingressNetworkPolicyNamespace", ("IngressPolicyNamespace", AsString));
   ("egressNetworkPolicyName", ("EgressPolicyName", AsString));
   ("egressNetworkPolicyNamespace", ("EgressPolicyNamespace", AsString))]%string.

Definition flow_case (name : string) : option (string * getter) :=
  snd <$> find (λ c, String.eqb c.1 name) flow_cases.

(** The body of the loop: an element without a case is only logged; a nil element
    panics. *)
Definition add_field (flowMsg : FlowType1) (ie : option InfoElementWithValue) : go FlowType1 :=
  match ie with
  | None => Panic
  | Some ie =>
      match flow_case (GetName ie) with
      | Some (field, a) => v ← read a ie; Ok (set_field field v flowMsg)
      | None => Ok flowMsg
      end
  end.

Definition addAllFieldsToFlowType1 (flowMsg : FlowType1) (record : IPFIXRecord) : go FlowType1 :=
  go_foldM add_field flowMsg (GetOrderedElementList record).

(** The fields that come from the header of the message. *)
Definition flow_header (msg : Message) : FlowType1 :=
  set_field "ExportAddress" (Text (exportAddress msg))
    (set_field "ObsDomainID" (Uint32 (obsDomainID msg))
       (set_field "SequenceNumber" (Uint32 (seqNumber msg))
          (set_field "TimeReceived" (Uint32 (exportTime msg)) ∅))).

Definition convertRecordToFlowMsg (msg : Message) (record : IPFIXRecord) : go FlowType1 :=
  addAllFieldsToFlowType1 (flow_header msg) record.

(** A message without a set panics. *)
Definition FlowType1_ConvertMsg (msg : Message) : go (list FlowType1) :=
  match msg_set msg with
  | None => Panic
  | Some set =>
      if decide (setType set = Template) then Ok []
      else go_mapM (convertRecordToFlowMsg msg) (records set)
  end.

Definition NewFlowType1Convertor : IPFIXToKafkaConvertor FlowType1 := {|
  ConvertIPFIXMsgToFlowMsgs := FlowType1_ConvertMsg;
  ConvertIPFIXRecordToFlowMsg := addAllFieldsToFlowType1 ∅;
|}.

(** ** Specification *)

(** The field that an element is for, with the element's value. *)
Definition element_field (e : InfoElementWithValue) : option (string * proto_value) :=
  match flow_case (GetName e) with
  | Some (field, a) => match read a e with Ok v => Some (field, v) | _ => None end
  | None => None
  end.

(** The value of a field in a record: that of the last element that is for it. *)
Definition flow_value (field : string) (es : list InfoElementWithValue) : option proto_value :=
  list.last (omap (λ e, p ← element_field e; if decide (p.1 = field) then Some p.2 else None) es).

(** The fields of a message that has these fields of the header. *)
Definition header_value (t seq obs : Z) (addr : string) (field : string) : option proto_value :=
  if String.eqb field "TimeReceived" then Some (Uint32 t)
  else if String.eqb field "SequenceNumber" then Some (Uint32 seq)
  else if String.eqb field "ObsDomainID" then Some (Uint32 obs)
  else if String.eqb field "ExportAddress" then Some (Text addr)
  else None.

Definition not_zero (v : option proto_value) : option proto_value :=
  v ← v; if proto_zero v then None else Some v.

(** The message of a record with these elements that came with this header. *)
Definition is_flow (t seq obs : Z) (addr : string) (es : list InfoElementWithValue) (f : FlowType1) : Prop :=
  ∀ field, f !! field =
    match flow_value field es with
    | Some v => not_zero (Some v)
    | None => not_zero (header_value t seq obs addr field)
    end.

(** The data types a getter reads. *)
Definition reads (a : getter) (t : IEDataType) : bool :=
  match a, t with
  | AsUint32, (Unsigned32 | DateTimeSeconds) | AsUint64, (Unsigned64 | DateTimeMilliseconds)
  | AsUint16, Unsigned16 | AsUint8, Unsigned8 | AsIP, (Ipv4Address | Ipv6Address) | AsString, StringType => true
  | _, _ => false
  end.

(** An element of the registry that the schema has a case for has a type that is read. *)
Definition in_schema (ie : InfoElement) : bool :=
  match flow_case (Name ie) with Some (_, a) => reads a (DataType ie) | None => true end.

(** All fields of a message are fields of the schema with values of their types. *)
Definition well_typed (f : FlowType1) : Prop :=
  map_Forall (λ field v, field_type field = Some (type_of v)) f.

(** ** Lemmas *)

Lemma set_field_well_typed field v f :
  field_type field = Some (type_of v) → well_typed f → well_typed (set_field field v f).
Proof.
  intros Hv Hf. unfold set_field. destruct (proto_zero v); [by apply map_Forall_delete|by apply map_Forall_insert_2].
Qed.

(** The type of the values a getter reads. *)
Definition getter_type (a : getter) : proto_type :=
  match a with AsUint64 => TUint64 | AsIP | AsString => TString | _ => TUint32 end.

Lemma read_type a ie v : read a ie = Ok v → type_of v = getter_type a.
Proof.
  destruct a; cbn [read]; intros H;
    match type of H with (_ <$> ?m = _) => destruct m; [|discriminate H..] end; by injection H as <-.
Qed.

Lemma flow_cases_typed name field a : flow_case name = Some (field, a) → field_type field = Some (getter_type a).
Proof.
  assert (H : forallb (λ c, bool_decide (field_type c.2.1 = Some (getter_type c.2.2))) flow_cases = true)
    by (vm_compute; reflexivity).
  unfold flow_case. intros E. destruct (find _ flow_cases) as [[name' [field' a']]|] eqn:Ef; [|done].
  injection E as -> ->. apply find_some in Ef as [Hin _]. rewrite forallb_forall in H. specialize (H _ Hin).
  by apply bool_decide_eq_true in H.
Qed.

Lemma add_field_well_typed f ie f' : add_field f ie = Ok f' → well_typed f → well_typed f'.
Proof.
  unfold add_field. destruct ie as [ie|]; [|done].
  destruct (flow_case (GetName ie)) as [[field a]|] eqn:E; [|by intros [= <-]].
  intros (v & Hv & [= <-])%go_bind_Ok. apply set_field_well_typed. rewrite (flow_cases_typed _ _ _ E).
  by rewrite (read_type _ _ _ Hv).
Qed.

Lemma addAllFields_well_typed f r f' : addAllFieldsToFlowType1 f r = Ok f' → well_typed f → well_typed f'.
Proof.
  unfold addAllFieldsToFlowType1. generalize (GetOrderedElementList r) as es. intros es. revert f.
  induction es as [|ie es IH]; intros f; [by intros [= <-]|]. cbn [go_foldM].
  intros (f1 & E & H)%go_bind_Ok Hf. eapply IH; [exact H|]. by eapply add_field_well_typed.
Qed.

Lemma flow_header_well_typed msg : well_typed (flow_header msg).
Proof. repeat (apply set_field_well_typed; [reflexivity|]). apply map_Forall_empty. Qed.

Lemma read_typed a e : typed e = true → reads a (GetDataType e) = true → is_ok (read a e).
Proof.
  unfold typed, GetDataType. destruct e; cbn [GetInfoElement];
    match goal with |- context [DataType ?ie] => destruct (DataType ie), a end; try discriminate;
    intros _ _; by eexists.
Qed.

Lemma add_element_typed m e :
  typed e = true → in_schema (GetInfoElement e) = true →
  add_field m (Some e) = Ok (from_option (λ p, set_field p.1 p.2 m) m (element_field e)).
Proof.
  intros Ht Hs. unfold add_field, element_field, in_schema, GetName in *.
  destruct (flow_case (Name (GetInfoElement e))) as [[field a]|]; [|done].
  destruct (read_typed a e Ht Hs) as [v ->]. done.
Qed.

Lemma lookup_set_field field v m field' :
  set_field field v m !! field' = if decide (field = field') then not_zero (Some v) else m !! field'.
Proof.
  unfold set_field, not_zero. cbn [mbind option_bind].
  destruct (proto_zero v); [rewrite lookup_delete|rewrite lookup_insert]; by case_decide.
Qed.

(** All elements of a record: each field has the value of the last element for it. *)
Lemma add_elements es m :
  Forall (λ e, typed e = true ∧ in_schema (GetInfoElement e) = true) es →
  ∃ m', go_foldM add_field m (Some <$> es) = Ok m' ∧
    ∀ field, m' !! field = match flow_value field es with Some v => not_zero (Some v) | None => m !! field end.
Proof.
  induction es as [|e es IH] using rev_ind; intros H.
  { by exists m. }
  apply list.Forall_app in H as [H [[Ht Hs] _]%list.Forall_cons]. destruct (IH H) as (m1 & E & Hm1).
  exists (from_option (λ p, set_field p.1 p.2 m1) m1 (element_field e)). split.
  - rewrite fmap_app, go_foldM_app, E. cbn [mbind go_bind fmap list_fmap go_foldM]. by rewrite add_element_typed.
  - intros field. unfold flow_value. rewrite omap_app. cbn [omap list_omap].
    destruct (element_field e) as [[g v]|]; cbn [mbind option_bind from_option fst snd].
    + rewrite lookup_set_field. case_decide; [by rewrite last_snoc|]. rewrite app_nil_r. apply Hm1.
    + rewrite app_nil_r. apply Hm1.
Qed.

Lemma lookup_flow_header msg field :
  flow_header msg !! field =
    not_zero (header_value (exportTime msg) (seqNumber msg) (obsDomainID msg) (exportAddress msg) field).
Proof.
  unfold flow_header, header_value. rewrite !lookup_set_field, lookup_empty.
  repeat (match goal with |- context [String.eqb ?a ?b] => destruct (String.eqb_spec a b) end);
    repeat case_decide; try congruence; done.
Qed.

(** The conversion of a record. *)
Lemma convert_record msg r es :
  GetOrderedElementList r = Some <$> es →
  Forall (λ e, typed e = true ∧ in_schema (GetInfoElement e) = true) es →
  ∃ f, convertRecordToFlowMsg msg r = Ok f ∧
    is_flow (exportTime msg) (seqNumber msg) (obsDomainID msg) (exportAddress msg) es f.
Proof.
  intros Hr H. destruct (add_elements es (flow_header msg) H) as (f & E & Hf). exists f.
  unfold convertRecordToFlowMsg, addAllFieldsToFlowType1. rewrite Hr. split; [done|].
  intros field. by rewrite Hf, lookup_flow_header.
Qed.

(** Every record of a data set is converted, in order. *)
Definition in_schema_record (r : IPFIXRecord) (es : list InfoElementWithValue) : Prop :=
  GetOrderedElementList r = Some <$> es ∧
  Forall (λ e, typed e = true ∧ in_schema (GetInfoElement e) = true) es.

Lemma convert_records msg rs ess :
  Forall2 in_schema_record rs ess →
  ∃ fs, go_mapM (convertRecordToFlowMsg msg) rs = Ok fs ∧
    Forall2 (is_flow (exportTime msg) (seqNumber msg) (obsDomainID msg) (exportAddress msg)) ess fs.
Proof.
  induction 1 as [|r es rs ess [Hr He] _ (fs & E & Hfs)]; [by exists []|].
  destruct (convert_record msg r es Hr He) as (f & Ef & Hf). exists (f :: fs). cbn [go_mapM].
  rewrite Ef. cbn [mbind go_bind]. rewrite E. split; [done|by constructor].
Qed.

(** The registry has the types that the schema reads. *)
Definition schema_registry (reg : Registry) : Prop :=
  ∀ ie, registered reg ie → in_schema ie = true.

Lemma registered_in_schema reg :
  map_Forall (λ _ inner, map_Forall (λ _ ie, in_schema ie = true) inner) (default ∅ (globalRegistryByID reg)) →
  schema_registry reg.
Proof.
  intros H ie. unfold registered, GetInfoElementFromID, lookup2.
  destruct (default ∅ (globalRegistryByID reg) !! EnterpriseId ie) as [inner|] eqn:E1; [|done].
  destruct (inner !! ElementId ie) as [ie'|] eqn:E2; [|done]. intros [= <-]. by eapply H.
Qed.

Lemma loaded_schema : schema_registry loaded_registry.
Proof. apply registered_in_schema. apply (bool_decide_unpack _). vm_compute. exact I. Qed.

(** ** Properties *)

(** C31: a message of the collector converts.  With a registry whose elements have the types
    that the schema reads, such as the loaded one, every message that a collecting process
    can deliver is converted without a panic: to nothing when it holds templates, and else
    to one flow message for each record, in order, whose fields are those of the message's
    header and, for every field, the value of the last element of the record that is for
    it; a field is unset when there is none or its value is zero. *)
Theorem delivered_message_converts reg input cp msg :
  registry_ok reg → schema_registry reg → rtc (collector_step reg) (InitCollectingProcess input) cp →
  msg ∈ messageChan cp →
  ∃ s fs, msg_set msg = Some s ∧ FlowType1_ConvertMsg msg = Ok fs ∧
    (setType s = Template → fs = []) ∧
    (setType s = Data → Forall2 (λ r f, ∃ es, GetOrderedElementList r = Some <$> es ∧
       is_flow (exportTime msg) (seqNumber msg) (obsDomainID msg) (exportAddress msg) es f) (records s) fs).
Proof.
  intros Hreg Hsch Hrun Hin. pose proof (delivered_typed _ _ _ Hreg Hrun) as Hm.
  rewrite list.Forall_forall in Hm. destruct (Hm msg Hin) as (s & Hs & Hr). exists s.
  unfold FlowType1_ConvertMsg. rewrite Hs. destruct Hr as [[Ht _]|[Ht Hr]]; rewrite Ht; cbn [decide].
  { exists []. by rewrite decide_True. }
  rewrite decide_False by done.
  assert (Hess : ∃ ess, Forall2 in_schema_record (records s) ess).
  { clear -Hr Hsch. induction Hr as [|r rs (ies & (es & H1 & H2 & H3) & H4) _ [ess IH]]; [by exists []|].
    exists (es :: ess). constructor; [|done]. split; [done|]. apply list.Forall_forall. intros e He.
    rewrite list.Forall_forall in H3. split; [by apply H3|]. apply Hsch. rewrite list.Forall_forall in H4. apply H4.
    rewrite <- H2. by apply list_elem_of_fmap_2. }
  destruct Hess as [ess Hess]. destruct (convert_records msg (records s) ess Hess) as (fs & E & Hfs).
  exists fs. split_and!; [done|done|done|]. intros _. clear -Hess Hfs. revert fs Hfs.
  induction Hess as [|r es rs ess [Hr _] _ IH]; intros fs Hfs; inversion Hfs; subst; constructor; eauto.
Qed.

(** The collector of Typing.v after its data message. *)
Definition example_cp2 : CollectingProcess :=
  (decodePacket loaded_registry 0 example_data "10.0.0.7:41000" example_cp1).2.

Lemma delivered_message_converts_witness :
  map_to_list (hd ∅ (from_ok [] (FlowType1_ConvertMsg example_decoded))) =
    [("ObsDomainID", Uint32 1); ("SequenceNumber", Uint32 5); ("SrcPodName", Text "pod1");
     ("ExportAddress", Text "10.0.0.7"); ("BytesDelta", Uint64 1000); ("TimeReceived", Uint32 1000)]%string ∧
  ∃ s fs, msg_set example_decoded = Some s ∧ FlowType1_ConvertMsg example_decoded = Ok fs ∧
    (setType s = Template → fs = []) ∧
    (setType s = Data → Forall2 (λ r f, ∃ es, GetOrderedElementList r = Some <$> es ∧
       is_flow (exportTime example_decoded) (seqNumber example_decoded) (obsDomainID example_decoded)
         (exportAddress example_decoded) es f) (records s) fs).
Proof.
  split.
  - vm_compute. reflexivity.
  - apply (delivered_message_converts loaded_registry (example_input_collector "tcp") example_cp2).
    + apply LoadRegistry_registry_ok, LoadRegistry_loaded.
    + exact loaded_schema.
    + eapply rtc_r; [exact example_cp1_reachable|]. eapply step_packet. apply surjective_pairing.
    + pose proof (decodePacket_messages loaded_registry 0 example_data "10.0.0.7:41000" example_cp1) as H.
      rewrite (f_equal fst example_decoded_eq) in H. unfold example_cp2. rewrite H.
      apply elem_of_app. right. apply list_elem_of_here.
Defined.

(** Every flow message fits the schema.  Whatever a message or a record holds, if the
    convertor returns then all fields that it has set are fields of the schema, with
    values of their types. *)
Theorem flow_messages_fit_schema msg r :
  (∀ fs, FlowType1_ConvertMsg msg = Ok fs → Forall well_typed fs) ∧
  (∀ f, @ConvertIPFIXRecordToFlowMsg _ NewFlowType1Convertor r = Ok f → well_typed f) ∧
  NoDup (fst <$> FlowType1_schema) ∧ NoDup ((λ c, c.2.1) <$> FlowType1_schema).
Proof.
  split_and!; [| |apply (bool_decide_unpack _); vm_compute; exact I..].
  - intros fs. unfold FlowType1_ConvertMsg. destruct (msg_set msg) as [s|]; [|done].
    case_decide; [by intros [= <-]; constructor|]. intros E%go_mapM_Ok. apply list.Forall_forall. intros f Hf.
    apply list_elem_of_lookup in Hf as [i Hi]. destruct (Forall2_lookup_r _ _ _ _ _ E Hi) as (x & _ & Hx).
    eapply addAllFields_well_typed; [exact Hx|apply flow_header_well_typed].
  - intros f H. eapply addAllFields_well_typed; [exact H|apply map_Forall_empty].
Qed.
