(* ===== verification/Publishing.v ===== *)
(** * From the exporter to Kafka

    The exporter, the TCP handler and the collector of EndToEnd.v, the producer of Kafka.v
    with the convertor of Convertor.v, and a consumer that reads the topic: what is exported
    on one side is what the consumer decodes on the other. *)

From Stdlib Require Import ZArith Lia.
From Stdlib.Strings Require Import Byte.
From stdpp Require Import base gmap strings list numbers relations.
From S2P Require Import Prelude Bytes InfoElement Records Sets Wire Registry Exporter Collector Tcp EndToEnd Typing Kafka Convertor.

#[local] Open Scope Z_scope.

(** The data records of a session, in canonical form, with the sequence number of the
    message each is in. *)
Fixpoint exported_flows (st : export_spec) (ops : list export_op) : list (Z * list InfoElementWithValue) :=
  match ops with
  | [] => []
  | o :: ops =>
      match o with
      | ExportTemplate _ _ => []
      | ExportData _ recs => (λ es, (spec_seq (spec_step st o), canonical_all es)) <$> recs
      end ++ exported_flows (spec_step st o) ops
  end.

(** ** Lemmas *)

Section flows.
Context (reg : Registry) (now obs : Z) (host : string).
Hypothesis Hschema : schema_registry reg.

Definition known_registered (st : export_spec) : Prop :=
  map_Forall (λ _ ies, Forall (registered reg) ies) (known st).

Lemma known_registered_step st o : allowed reg st o → known_registered st → known_registered (spec_step st o).
Proof.
  destruct o as [tid es|tid recs]; [|done]. intros (_ & _ & _ & _ & Hr & _) H. by apply map_Forall_insert_2.
Qed.

Lemma canonical_typed e : wf_element e → typed (canonical e) = true.
Proof.
  intros Hwf. unfold canonical, typed. wf_cases; unfold GetDataType; cbn [GetInfoElement]; rewrite ?Htype;
    unfold GetDataType; cbn [GetInfoElement]; by rewrite ?Htype.
Qed.

(** The records of a data export are read by the schema. *)
Lemma export_in_schema st tid recs :
  known_registered st → allowed reg st (ExportData tid recs) →
  Forall2 in_schema_record
    ((λ es, DataRecord (data_record_of tid true (canonical <$> es))) <$> recs) (canonical_all <$> recs).
Proof.
  intros Hk Ha. simpl in Ha. destruct (known st !! tid) as [ies|] eqn:E; [|done]. destruct Ha as [Hfit _].
  specialize (Hk tid ies E). cbn beta in Hk. rewrite Forall2_fmap. apply Forall_Forall2_diag.
  eapply list.Forall_impl; [exact Hfit|]. intros es [Hes Hwf]. split; [done|]. apply Forall_fmap.
  rewrite <- Hes, Forall_fmap in Hk.
  eapply list.Forall_impl; [exact (proj2 (list.Forall_and _ _) (conj Hwf Hk))|].
  intros e [He Hr]. cbn. split; [by apply canonical_typed|]. apply Hschema. by rewrite canonical_element.
Qed.

(** The convertor on all messages of a session. *)
Lemma session_flows st ops ms :
  known_registered st → all_allowed reg st ops → all_reported now obs host st ops ms →
  ∃ fss, Forall2 (λ m fs, FlowType1_ConvertMsg m = Ok fs) ms fss ∧
    Forall2 (λ p, is_flow (u32 now) p.1 obs host p.2) (exported_flows st ops) (concat fss).
Proof.
  revert st ms. induction ops as [|o ops IH]; intros st [|m ms] Hk Ha Hr; try done.
  { exists []. by split. }
  destruct Ha as [Ha Hs], Hr as [(Et & Eo & Eh & Eseq & s & Hset & Hm) Hr].
  destruct (IH _ _ (known_registered_step _ _ Ha Hk) Hs Hr) as (fss & H1 & H2).
  assert (Hfs : ∃ fs, FlowType1_ConvertMsg m = Ok fs ∧
    Forall2 (λ p, is_flow (u32 now) p.1 obs host p.2)
      (match o with
       | ExportTemplate _ _ => []
       | ExportData _ recs => (λ es, (spec_seq (spec_step st o), canonical_all es)) <$> recs
       end) fs).
  { unfold FlowType1_ConvertMsg. rewrite Hset. destruct o as [tid es|tid recs].
    - destruct Hm as [-> _]. exists []. by rewrite decide_True.
    - destruct Hm as [-> Hrec]. rewrite decide_False by done.
      destruct (convert_records m _ _ (export_in_schema st tid recs Hk Ha)) as (fs & E & Hf).
      exists fs. rewrite Hrec. split; [done|]. rewrite Et, Eo, Eh, Eseq in Hf.
      rewrite Forall2_fmap_l in Hf. rewrite Forall2_fmap_l. exact Hf. }
  destruct Hfs as (fs & E & Hf). exists (fs :: fss). split; [by constructor|]. by apply Forall2_app.
Qed.

End flows.

(** ** Properties *)

(** C3: what is exported is what Kafka's consumers read.  A new exporting process, the TCP
    handler of a new collecting process, a producer whose brokers take the messages, with
    the convertor for [FlowType1], and a consumer that expects delimited messages: for any
    sequence of allowed exports every send succeeds, the handler ends with the stream,
    [PublishIPFIXMessages] takes all messages off the collector's channel and returns, and
    the consumer decodes, in order, one flow message for each exported data record (of
    those that protobuf can encode): its header fields are the time of the export, the
    sequence number of the record's message, the observation domain and the exporter's
    host, and every other field has the value that the record has for it. *)
Theorem exported_flows_published {KafkaVersion P} `{ProtoCodec FlowType1, !ProtoCodecLaws FlowType1,
    AsyncProducer P, !AsyncProducerLaws P}
    Write json_encode reg now cnow obs addr host input c ops jbl
    (kp : KafkaProducer FlowType1 KafkaVersion P) p (kc : KafkaConsumer KafkaVersion) partition :
  (∀ c bs, Write c bs = (Z.of_nat (length bs), None)) → export_host addr = Ok host →
  in_u 32 obs → all_allowed reg (mkExportSpec ∅ 0) ops → schema_registry reg →
  ready_producer kp p → ProtoSchemaConvertor (kp_input kp) = Some NewFlowType1Convertor →
  MsgDelimitWithLen (c_input kc) = true →
  let ep := mkExportingProcess (Some c) obs 0 startTemplateID ∅ false false false jbl in
  ∃ pkts ep' cp' p' published flows,
    export_all Write json_encode now ops ep = (Ok tt, ep') ∧
    connToCollector ep' = Some (mkConn (conn_sent c ++ pkts) (conn_closed c)) ∧
    handleTCPClient reg cnow addr (mkStream (concat pkts) (Some ErrEOF))
      (InitCollectingProcess input) = (Ok tt, cp') ∧
    PublishIPFIXMessages (messageChan cp') kp = (Ok tt, SetSaramaProducer p' kp) ∧
    accepted p' = accepted p ++ published ∧
    Forall2 (λ r, is_flow (u32 now) r.1 obs host r.2) (exported_flows (mkExportSpec ∅ 0) ops) flows ∧
    Forall2 (λ f m, Topic m = KafkaTopic (kp_input kp) ∧
               DecodeAndPrintMsg (mkConsumerMessage (Topic m) partition (Value m)) kc =
                 Ok (f, replace_double_space (Sprint f)))
      (filter (λ f, is_okb (Marshal f) = true) flows) published.
Proof.
  intros HW Hh Hobs Hops Hsch Hp Hconv Hd ep.
  destruct (session_delivered Write json_encode reg now cnow obs addr host input c ops jbl HW Hh Hobs Hops)
    as (pkts & ep' & cp' & E1 & E2 & E3 & Hrep).
  destruct (session_flows reg now obs host Hsch _ _ _ (map_Forall_empty _) Hops Hrep) as (fss & Hf1 & Hf2).
  destruct (Publish_ready NewFlowType1Convertor _ fss kp p Hp Hconv Hf1) as (p' & E4 & Ha).
  eexists pkts, ep', cp', p', _, (concat fss). split_and!; [done..|exact Ha|done|]. by apply read_back.
Qed.

(** An encoding of the messages: the bits of their number among all finite maps. *)
#[global] Instance proto_value_countable : Countable proto_value.
Proof.
  refine (inj_countable' (λ v, match v with Uint32 z => inl (inl z) | Uint64 z => inl (inr z) | Text s => inr s end)
            (λ v, match v with inl (inl z) => Uint32 z | inl (inr z) => Uint64 z | inr s => Text s end) _).
  by intros [].
Defined.

Fixpoint bits (p : positive) : list byte :=
  match p with xH => [] | xO p => x00 :: bits p | xI p => x01 :: bits p end.
Fixpoint of_bits (bs : list byte) : positive :=
  match bs with [] => xH | x00 :: bs => xO (of_bits bs) | _ :: bs => xI (of_bits bs) end.

#[local] Instance flow_codec : ProtoCodec FlowType1 := {|
  Marshal f := Ok (bits (encode f));
  Unmarshal bs := of_option (Err ErrUnexpectedEOF) (decode (of_bits bs));
  Sprint _ := "flow"%string;
|}.

#[local] Instance flow_codec_laws : ProtoCodecLaws FlowType1.
Proof.
  assert (Hb : ∀ p, of_bits (bits p) = p) by (induction p; simpl; congruence).
  split; [|done]. intros f bs [= <-]. cbn. by rewrite Hb, decode_encode.
Qed.

Definition example_flow_input : ProducerInput FlowType1 unit :=
  mkProducerInput ["kafka:9092"%string] tt "AntreaTopic" false "" "" "" false false true false
    (Some NewFlowType1Convertor).
Definition example_flow_kp : KafkaProducer FlowType1 unit mock_producer :=
  mkKafkaProducer (Some (mkMockProducer true [] (λ _, true))) example_flow_input None.

Lemma exported_flows_published_witness :
  (exported_flows (mkExportSpec ∅ 0) example_ops).*1 = [2; 2; 3; 4] ∧
  ∃ pkts ep' cp' p' published flows,
    export_all write_all json_none 1000 example_ops
      (mkExportingProcess (Some (mkConn [] false)) 1 0 startTemplateID ∅ false false false 0) = (Ok tt, ep') ∧
    connToCollector ep' = Some (mkConn ([] ++ pkts) false) ∧
    handleTCPClient loaded_registry 1001 "10.0.0.7:41000" (mkStream (concat pkts) (Some ErrEOF))
      (example_cp "tcp") = (Ok tt, cp') ∧
    PublishIPFIXMessages (messageChan cp') example_flow_kp = (Ok tt, SetSaramaProducer p' example_flow_kp) ∧
    mock_log p' = [] ++ published ∧
    Forall2 (λ r, is_flow 1000 r.1 1 "10.0.0.7" r.2) (exported_flows (mkExportSpec ∅ 0) example_ops) flows ∧
    Forall2 (λ f m, Topic m = "AntreaTopic"%string ∧
               DecodeAndPrintMsg (mkConsumerMessage (Topic m) 0 (Value m)) example_kc =
                 Ok (f, replace_double_space (Sprint f)))
      (filter (λ f, is_okb (Marshal f) = true) flows) published.
Proof.
  split; [vm_compute; reflexivity|].
  change 1000 with (u32 1000) at 2.
  refine (exported_flows_published write_all json_none loaded_registry 1000 1001 1 "10.0.0.7:41000" "10.0.0.7"
    (example_input_collector "tcp") (mkConn [] false) example_ops 0 example_flow_kp
    (mkMockProducer true [] (λ _, true)) example_kc 0 _ _ _ _ _ _ _ _).
  - reflexivity.
  - reflexivity.
  - apply (bool_decide_unpack _). vm_compute. exact I.
  - apply (bool_decide_unpack _). vm_compute. exact I.
  - exact loaded_schema.
  - split_and!; [reflexivity|reflexivity|intros _ m; reflexivity].
  - reflexivity.
  - reflexivity.
Defined.
