(* ===== verification/Cmd.v ===== *)
(** * The command line programs

    src/cmd/collector/collector.go, the collector that prints every message it receives:
    its print function is proved never to panic on a message of the collecting process,
    and its goroutines are a transition system.  src/cmd/consumer/consumer.go: what the
    Kafka consumer is run with. *)

From Stdlib Require Import ZArith Lia Ascii.
From Stdlib.Strings Require Import Byte.
From stdpp Require Import base gmap strings list numbers relations.
From S2P Require Import Prelude Bytes InfoElement Records Sets Wire Registry Collector Typing NetIP Kafka.

#[local] Open Scope Z_scope.

(** ** Printing *)

Definition print_bool (b : bool) : string := if b then "true" else "false".

(** [net.HardwareAddr.String]. *)
Fixpoint print_mac (bs : list byte) : string :=
  match bs with
  | [] => EmptyString
  | [b] => hex_byte b
  | b :: bs => hex_byte b +:+ ":" +:+ print_mac bs
  end.

Definition newline : string := String "010" EmptyString.

Section print.
(** The texts of floating point numbers, given by their bits, and of a time in
    seconds. *)
Context (print_float32 print_float64 : Z → string) (print_time : Z → string).

Definition print_field (name value : string) : string :=
  "    " +:+ name +:+ ": " +:+ value +:+ " " +:+ newline.

(** One element of a data record; a nil element panics. *)
Definition print_element (ie : option InfoElementWithValue) : go string :=
  match ie with
  | None => Panic
  | Some ie =>
      let elem := GetInfoElement ie in
      print_field (Name elem) <$>
        match DataType elem with
        | Unsigned8 => print_Z <$> GetUnsigned8Value ie
        | Unsigned16 => print_Z <$> GetUnsigned16Value ie
        | Unsigned32 => print_Z <$> GetUnsigned32Value ie
        | Unsigned64 => print_Z <$> GetUnsigned64Value ie
        | Signed8 => print_Z <$> GetSigned8Value ie
        | Signed16 => print_Z <$> GetSigned16Value ie
        | Signed32 => print_Z <$> GetSigned32Value ie
        | Signed64 => print_Z <$> GetSigned64Value ie
        | Float32 => print_float32 <$> GetFloat32Value ie
        | Float64 => print_float64 <$> GetFloat64Value ie
        | Boolean => print_bool <$> GetBooleanValue ie
        | DateTimeSeconds => print_Z <$> GetUnsigned32Value ie
        | DateTimeMilliseconds => print_Z <$> GetUnsigned64Value ie
        | DateTimeMicroseconds | DateTimeNanoseconds =>
            Ok "API does not support micro and nano seconds types yet"
        | MacAddress => print_mac ∘ slice_bytes <$> GetMacAddressValue ie
        | Ipv4Address | Ipv6Address => IP_String <$> GetIPAddressValue ie
        | StringType => GetStringValue ie
        | _ => Ok "API supports only valid information elements with datatypes given in RFC7011"
        end
  end.

(** One field of a template record. *)
Definition print_template_field (ie : option InfoElementWithValue) : go string :=
  match ie with
  | None => Panic
  | Some ie =>
      let elem := GetInfoElement ie in
      Ok ("    " +:+ Name elem +:+ ": len=" +:+ print_Z (Len elem) +:+ " (enterprise ID = " +:+
          print_Z (EnterpriseId elem) +:+ ") " +:+ newline)
  end.

(** The records of a set, numbered from [i], each with a heading. *)
Fixpoint print_records (heading : string) (print_one : option InfoElementWithValue → go string)
    (i : nat) (rs : list IPFIXRecord) : go string :=
  match rs with
  | [] => Ok EmptyString
  | record :: rs =>
      fields ← go_mapM print_one (GetOrderedElementList record);
      rest ← print_records heading print_one (S i) rs;
      Ok ("  " +:+ heading +:+ " RECORD-" +:+ print_Z (Z.of_nat i) +:+ ":" +:+ newline +:+
          String.concat "" fields +:+ rest)
  end.

Definition print_header (msg : Message) : string :=
  newline +:+ "IPFIX-HDR:" +:+ newline +:+
  "  version: " +:+ print_Z (version msg) +:+ ",  Message Length: " +:+ print_Z (msg_length msg) +:+ newline +:+
  "  Exported Time: " +:+ print_Z (exportTime msg) +:+ " (" +:+ print_time (exportTime msg) +:+ ")" +:+ newline +:+
  "  Sequence No.: " +:+ print_Z (seqNumber msg) +:+ ",  Observation Domain ID: " +:+
  print_Z (obsDomainID msg) +:+ newline.

(** The text that is logged for a message; a message without a set panics. *)
Definition printIPFIXMessage (msg : Message) : go string :=
  match msg_set msg with
  | None => Panic
  | Some set =>
      if decide (setType set = Template) then
        body ← print_records "TEMPLATE" print_template_field 0 (records set);
        Ok (print_header msg +:+ "TEMPLATE SET:" +:+ newline +:+ body)
      else
        body ← print_records "DATA" print_element 0 (records set);
        Ok (print_header msg +:+ "DATA SET:" +:+ newline +:+ body)
  end.

End print.

(** ** The flags and the collecting process of the program *)

Record collector_flags : Type := mkCollectorFlags {
  IPFIXAddr : string;
  IPFIXPort : Z;
  IPFIXTransport : string;
}.

(** The defaults [addIPFIXFlags] gives. *)
Definition addIPFIXFlags : collector_flags := mkCollectorFlags "0.0.0.0" 4739 "tcp".

(** The input [run] makes of the flags. *)
Definition cpInput (flags : collector_flags) : CollectorInput :=
  {| in_IsIPv6 := false; in_IsEncrypted := false;
     in_Address := IPFIXAddr flags +:+ ":" +:+ print_Z (IPFIXPort flags);
     in_Protocol := IPFIXTransport flags; in_MaxBufferSize := 65535; in_TemplateTTL := 0;
     in_CACert := None; in_ServerCert := None; in_ServerKey := None; in_NumExtraElements := 0 |}.

(** What the [select] of the signal handler takes: a message or a signal. *)
Inductive handler_event : Type := MessageReceived (msg : Message) | SignalReceived.

(** The texts it logs until a signal ends it; without a signal it waits. *)
Fixpoint signalHandler (print : Message → go string) (events : list handler_event)
    : go (list string) :=
  match events with
  | [] => Block
  | SignalReceived :: _ => Ok []
  | MessageReceived msg :: events =>
      text ← print msg;
      texts ← signalHandler print events;
      Ok (text :: texts)
  end.

(** ** The goroutines of the program *)

(** Where the goroutine of a UDP client is: in its [select], sending a decoded message on
    the collecting process's message channel, or returned. *)
Inductive client_pc : Type := InSelect | Delivering | Returned.

(** The main goroutine: waiting for [stopCh], in [cp.Stop()], or returned from [run]. *)
Inductive main_pc : Type := AwaitingStop | InStop | RunReturned.

(** [holding]: the forwarding goroutine has a message it sends on [messageReceived];
    [signalled]: the signal handler has returned. *)
Record program : Type := mkProgram {
  client_pcs : list client_pc;
  holding : bool;
  signalled : bool;
  main_at : main_pc;
}.

(** A client is added; one decodes a message; the forwarder takes it; the signal handler
    takes it from the forwarder and prints it; the signal comes; [run] calls [Stop];
    clients in their [select] return; and [Stop], which waits for all of them, returns. *)
Inductive program_step : program → program → Prop :=
| client_added s :
    program_step s (mkProgram (client_pcs s ++ [InSelect]) (holding s) (signalled s) (main_at s))
| client_decodes i s :
    client_pcs s !! i = Some InSelect →
    program_step s (mkProgram (<[i := Delivering]> (client_pcs s)) (holding s) (signalled s) (main_at s))
| forwarder_takes i s :
    client_pcs s !! i = Some Delivering → holding s = false →
    program_step s (mkProgram (<[i := InSelect]> (client_pcs s)) true (signalled s) (main_at s))
| handler_prints s :
    holding s = true → signalled s = false →
    program_step s (mkProgram (client_pcs s) false (signalled s) (main_at s))
| signal_comes s :
    signalled s = false →
    program_step s (mkProgram (client_pcs s) (holding s) true (main_at s))
| main_stops s :
    signalled s = true → main_at s = AwaitingStop →
    program_step s (mkProgram (client_pcs s) (holding s) (signalled s) InStop)
| client_returns i s :
    client_pcs s !! i = Some InSelect → main_at s ≠ AwaitingStop →
    program_step s (mkProgram (<[i := Returned]> (client_pcs s)) (holding s) (signalled s) (main_at s))
| main_returns s :
    main_at s = InStop → Forall (λ c, c = Returned) (client_pcs s) →
    program_step s (mkProgram (client_pcs s) (holding s) (signalled s) RunReturned).

(** ** The consumer program *)

Record consumer_flags : Type := mkConsumerFlags {
  Brokers : string;
  f_MsgDelimitWithLen : bool;
  f_KafkaTopic : string;
}.

(** The defaults [addKafkaConsumerFlags] gives. *)
Definition addKafkaConsumerFlags : consumer_flags :=
  mkConsumerFlags "kafka-service:9092" false "AntreaTopic".

(** The input [run] makes of the flags, for the default version of the client library. *)
Definition consumerInput {KafkaVersion} (DefaultVersion : KafkaVersion) (flags : consumer_flags)
    : ConsumerInput KafkaVersion :=
  mkConsumerInput (split_on "," (Brokers flags)) DefaultVersion (f_KafkaTopic flags) true
    (f_MsgDelimitWithLen flags).

Inductive consumer_event : Type := ConsumerReceived (msg : ConsumerMessage) | ConsumerSignal.

(** The signal handler of the consumer program: an error of [DecodeAndPrintMsg] is
    ignored. *)
Fixpoint consumerSignalHandler {FlowMsg KafkaVersion} `{ProtoCodec FlowMsg}
    (kc : KafkaConsumer KafkaVersion) (events : list consumer_event) : go (list (FlowMsg * string)) :=
  match events with
  | [] => Block
  | ConsumerSignal :: _ => Ok []
  | ConsumerReceived msg :: events =>
      match DecodeAndPrintMsg msg kc with
      | Ok printed => rest ← consumerSignalHandler kc events; Ok (printed :: rest)
      | Err _ => consumerSignalHandler kc events
      | Panic => Panic
      | Block => Block
      end
  end.

(** [run]: the messages come from [InitSaramaConsumer], which a goroutine of its own calls
    until it succeeds; when the signal handler has closed [stopCh], the consumer is
    stopped. *)
Definition consumer_run {FlowMsg KafkaVersion} `{ProtoCodec FlowMsg} (DefaultVersion : KafkaVersion)
    (flags : consumer_flags) (events : list consumer_event) : go unit :=
  let kc := NewKafkaConsumer (consumerInput DefaultVersion flags) in
  _ ← consumerSignalHandler (FlowMsg := FlowMsg) kc events;
  (StopConsumer kc).1.

(** ** Lemmas: printing well-typed records *)

Lemma go_mapM_is_ok {A B} (f : A → go B) l : Forall (λ x, is_ok (f x)) l → is_ok (go_mapM f l).
Proof.
  induction 1 as [|x l [y Hy] _ [ys Hys]]; [by exists []|]. exists (y :: ys). cbn. by rewrite Hy, Hys.
Qed.

Lemma is_ok_fmap {A B} (f : A → B) (m : go A) : is_ok m → is_ok (f <$> m).
Proof. intros [a ->]. by exists (f a). Qed.

Section printing.
Context (pf32 pf64 pt : Z → string).

Lemma print_typed e : typed e = true → is_ok (print_element pf32 pf64 (Some e)).
Proof.
  intros Ht. unfold print_element. apply is_ok_fmap. revert Ht.
  destruct e as [ie v|ie v|ie v|ie v|ie v|ie v|ie v|ie v|ie v|ie v|ie v|ie v|ie v|ie v|ie v|ie v];
    unfold typed, GetDataType; cbn [GetInfoElement]; destruct (DataType ie); intros; (discriminate || by eexists).
Qed.

Lemma print_records_ok heading print_one i rs :
  Forall (λ r, ∃ es, GetOrderedElementList r = Some <$> es ∧ Forall (λ e, is_ok (print_one (Some e))) es) rs →
  is_ok (print_records heading print_one i rs).
Proof.
  intros H. revert i. induction H as [|r rs (es & Hr & He) _ IH]; intros i; [by eexists|].
  cbn [print_records]. rewrite Hr.
  destruct (go_mapM_is_ok print_one (Some <$> es)) as [fs ->]; [by apply Forall_fmap|].
  destruct (IH (S i)) as [rest E]. cbn [mbind go_bind]. rewrite E. by eexists.
Qed.

Lemma print_typed_message reg m : typed_message reg m → is_ok (printIPFIXMessage pf32 pf64 pt m).
Proof.
  intros (s & Hs & Hr). unfold printIPFIXMessage. rewrite Hs.
  assert (Hall : Forall (λ r, ∃ es, GetOrderedElementList r = Some <$> es ∧ Forall (λ e, typed e = true) es) (records s)).
  { destruct Hr as [[_ Hr]|[_ Hr]]; refine (list.Forall_impl _ _ _ Hr _).
    - intros r (ies & es & H1 & _ & H2). eauto.
    - intros r (ies & (es & H1 & _ & H2) & _). eauto. }
  case_decide.
  - destruct (print_records_ok "TEMPLATE" print_template_field 0 (records s)) as [body E].
    + refine (list.Forall_impl _ _ _ Hall _). intros r (es & H1 & _). exists es. split; [done|].
      apply Forall_true. intros e. by eexists.
    + rewrite E. by eexists.
  - destruct (print_records_ok "DATA" (print_element pf32 pf64) 0 (records s)) as [body E].
    + refine (list.Forall_impl _ _ _ Hall _). intros r (es & H1 & H2). exists es. split; [done|].
      refine (list.Forall_impl _ _ _ H2 _). apply print_typed.
    + rewrite E. by eexists.
Qed.

End printing.

(** ** Properties *)

(** C32: the collector program prints whatever it receives.  Whatever packets the collecting
    process of the program has been sent, every message it has delivered is printed
    without a panic: the signal handler logs one text for each message until the signal
    comes, and then returns. *)
Theorem collector_prints_every_message pf32 pf64 pt reg flags cp msgs :
  registry_ok reg → rtc (collector_step reg) (InitCollectingProcess (cpInput flags)) cp →
  Forall (λ m, m ∈ messageChan cp) msgs →
  ∃ texts,
    signalHandler (printIPFIXMessage pf32 pf64 pt) ((MessageReceived <$> msgs) ++ [SignalReceived]) = Ok texts ∧
    Forall2 (λ m text, printIPFIXMessage pf32 pf64 pt m = Ok text) msgs texts.
Proof.
  intros Hreg Hrun Hin. pose proof (delivered_typed _ _ _ Hreg Hrun) as Hp. rewrite list.Forall_forall in Hp.
  induction Hin as [|m msgs Hm _ (texts & E & H2)]; [by exists []|].
  destruct (print_typed_message pf32 pf64 pt reg m (Hp m Hm)) as [text Ht]. exists (text :: texts). split; [|by constructor].
  rewrite fmap_cons. cbn [app signalHandler]. rewrite Ht. cbn [mbind go_bind]. by rewrite E.
Qed.

(** A collector of the program that has been sent a template. *)
Definition example_cmd_cp : CollectingProcess :=
  (decodePacket loaded_registry 0 example_packet "10.0.0.7:41000"
    (InitCollectingProcess (cpInput addIPFIXFlags))).2.

Lemma collector_prints_every_message_witness :
  ∃ texts,
    signalHandler (printIPFIXMessage (λ _, "0"%string) (λ _, "0"%string) (λ _, EmptyString))
      ((MessageReceived <$> messageChan example_cmd_cp) ++ [SignalReceived]) = Ok texts ∧
    Forall2 (λ m text, printIPFIXMessage (λ _, "0"%string) (λ _, "0"%string) (λ _, EmptyString) m = Ok text)
      (messageChan example_cmd_cp) texts.
Proof.
  refine (collector_prints_every_message (λ _, "0"%string) (λ _, "0"%string) (λ _, EmptyString)
    loaded_registry addIPFIXFlags example_cmd_cp (messageChan example_cmd_cp) _ _ _).
  - apply LoadRegistry_registry_ok, LoadRegistry_loaded.
  - apply rtc_once. eapply step_packet. apply surjective_pairing.
  - apply list.Forall_forall. auto.
Defined.

(** The forwarder holds a message nobody will take, and a client waits for it. *)
Definition wedged (i : nat) (s : program) : Prop :=
  signalled s = true ∧ holding s = true ∧ client_pcs s !! i = Some Delivering ∧ main_at s ≠ RunReturned.

Lemma wedged_step i s s' : program_step s s' → wedged i s → wedged i s'.
Proof.
  intros Hst (Hs & Hh & Hc & Hm).
  assert (Hi : ∀ j c, client_pcs s !! j = Some InSelect → <[j := c]> (client_pcs s) !! i = Some Delivering).
  { intros j c Hj. rewrite list_lookup_insert_ne; [done|]. intros ->. congruence. }
  destruct Hst as [s|j s Hj|j s Hj Hf|s H1 H2|s H1|s H1 H2|j s Hj H1|s H1 H2];
    try congruence; split_and!; cbn; auto.
  - by apply lookup_app_l_Some.
  - rewrite list.Forall_lookup in H2. by specialize (H2 _ _ Hc).
Qed.

(** The collector program can hang when it is told to stop.  Over UDP [Stop] waits for
    the goroutines of the clients.  When the signal comes while the forwarder holds a
    message and a client is about to deliver another one, nobody takes the first, the
    client never gets rid of the second, and [run] never returns. *)
Theorem collector_shutdown_hangs i s s' :
  signalled s = true → holding s = true → client_pcs s !! i = Some Delivering →
  main_at s ≠ RunReturned → rtc program_step s s' →
  main_at s' ≠ RunReturned ∧ client_pcs s' !! i = Some Delivering.
Proof.
  intros H1 H2 H3 H4 H.
  destruct (rtc_invariant program_step (wedged i) s s' (wedged_step i) H) as (_ & _ & ? & ?); done.
Qed.

(** The program as it starts. *)
Definition program_started : program := mkProgram [] false false AwaitingStop.
Definition example_wedged : program := mkProgram [Delivering] true true AwaitingStop.

(** One client sends two packets and the signal comes before the first is printed. *)
Lemma example_wedged_reachable : rtc program_step program_started example_wedged.
Proof.
  eapply rtc_l; [apply client_added|].
  eapply rtc_l; [by apply (client_decodes 0)|].
  eapply rtc_l; [by apply (forwarder_takes 0)|].
  eapply rtc_l; [by apply (client_decodes 0)|].
  eapply rtc_l; [by apply signal_comes|]. apply rtc_refl.
Qed.

Lemma collector_shutdown_hangs_witness :
  rtc program_step program_started example_wedged ∧
  main_at (mkProgram [Delivering] true true InStop) ≠ RunReturned ∧
  client_pcs (mkProgram [Delivering] true true InStop) !! 0%nat = Some Delivering.
Proof.
  split; [exact example_wedged_reachable|].
  apply (collector_shutdown_hangs 0 example_wedged); [reflexivity|reflexivity|reflexivity|discriminate|].
  apply rtc_once. by apply (main_stops example_wedged).
Defined.

(** Without a message in flight the program does stop: the clients return one by one. *)
Theorem collector_shutdown_returns s :
  signalled s = true → main_at s = AwaitingStop → Forall (λ c, c ≠ Delivering) (client_pcs s) →
  ∃ s', rtc program_step s s' ∧ main_at s' = RunReturned.
Proof.
  intros Hs Hm Hc.
  assert (Hall : ∀ todo done h, Forall (λ c, c = Returned) done → Forall (λ c, c ≠ Delivering) todo →
    ∃ cs, Forall (λ c, c = Returned) cs ∧
      rtc program_step (mkProgram (done ++ todo) h true InStop) (mkProgram cs h true InStop)).
  { intros todo. induction todo as [|c todo IH]; intros dn h Hd Ht.
    - exists dn. rewrite app_nil_r. split; [done|apply rtc_refl].
    - apply list.Forall_cons in Ht as [Hc1 Ht].
      destruct (IH (dn ++ [Returned]) h) as (cs & H1 & H2); [by apply list.Forall_app; repeat constructor|done|].
      exists cs. split; [done|]. rewrite <- app_assoc in H2. destruct c; [|done|exact H2].
      eapply rtc_l; [|exact H2].
      pose proof (client_returns (length dn) (mkProgram (dn ++ InSelect :: todo) h true InStop)) as Hst.
      cbn in Hst. rewrite list_lookup_middle in Hst by done. specialize (Hst eq_refl ltac:(done)).
      by rewrite insert_app_r_alt, Nat.sub_diag in Hst by done. }
  destruct (Hall (client_pcs s) [] (holding s)) as (cs & H1 & H2); [constructor|done|].
  exists (mkProgram cs (holding s) true RunReturned). split; [|done].
  eapply rtc_l; [by apply main_stops|]. rewrite Hs.
  eapply rtc_r; [exact H2|]. by apply (main_returns (mkProgram cs (holding s) true InStop)).
Qed.
