(* ===== verification/Aggregate.v ===== *)
(** * Aggregating data records

    src/pkg/intermediate/aggregate.go, the part that reads and writes data records:
    the flow key of a record, where it comes from, correlation of the records of two
    nodes, aggregation of statistics, and the fields that are added to the first
    record of a flow.  The process that keeps the flows is in AggregationProcess.v.

    The record that arrives and the one that is stored are different objects, since
    the collector decodes every packet into new records; the functions that change
    the stored record are in the state monad of that record and take the incoming
    one as an argument. *)

From Stdlib Require Import ZArith Lia.
From stdpp Require Import base gmap strings list numbers.
From S2P Require Import Prelude Bytes InfoElement Records Registry NetIP PriorityQueue.

#[local] Open Scope Z_scope.

(** ** types.go *)

Record AggregationElements : Type := mkAggregationElements {
  NonStatsElements : list string;
  StatsElements : list string;
  AggregatedSourceStatsElements : list string;
  AggregatedDestinationStatsElements : list string;
  AntreaFlowEndSecondsElements : list string;
  ThroughputElements : list string;
  SourceThroughputElements : list string;
  DestinationThroughputElements : list string;
}.

(** ** Reading and writing the elements of a record *)

(** [strings.Contains]. *)
Fixpoint Contains (s sub : string) : bool :=
  String.prefix sub s ||
  match s with
  | EmptyString => false
  | String _ s => Contains s sub
  end.

(** [record.GetInfoElementWithValue(name)] without the index. *)
Definition element_of (name : string) (r : IPFIXRecord) : go (option InfoElementWithValue) :=
  match GetInfoElementWithValue name (base_of r) with
  | Ok o => Ok (fst <$> o)
  | Err e => Err e
  | Panic => Panic
  | Block => Block
  end.

(** The element when the code does not check that it exists: a nil interface, on
    which the next method call panics. *)
Definition must_element (name : string) (r : IPFIXRecord) : go InfoElementWithValue :=
  e ← element_of name r; of_option Panic e.

Definition with_elements (l : list (option InfoElementWithValue)) (b : baseRecord) : baseRecord :=
  {| buffer := buffer b; fieldCount := fieldCount b; templateID := templateID b;
     orderedElementList := l; isDecoding := isDecoding b; len := len b |}.

Definition on_base (f : baseRecord → baseRecord) (r : IPFIXRecord) : IPFIXRecord :=
  match r with
  | DataRecord d => DataRecord (f d)
  | TemplateRecord t =>
      TemplateRecord {| t_base := f (t_base t); minDataRecLength := minDataRecLength t; index := index t |}
  end.

Abbreviation Rec := (M IPFIXRecord).

(** A setter called on the element of that name, in place. *)
Definition set_element (name : string) (f : InfoElementWithValue → go InfoElementWithValue)
    : Rec unit := fun r =>
  match GetInfoElementWithValue name (base_of r) with
  | Ok (Some (e, i)) =>
      match f e with
      | Ok e => (Ok tt, on_base (λ b, with_elements (<[i := Some e]> (orderedElementList b)) b) r)
      | _ => (Panic, r)
      end
  | _ => (Panic, r)
  end.

(** Read the stored record. *)
Definition ask {A} (f : IPFIXRecord → go A) : Rec A := fun r => (f r, r).

(** [record.AddInfoElement(element)]. *)
Definition add_element (e : InfoElementWithValue) : Rec unit := fun r =>
  match AddInfoElement r e with
  | Ok r => (Ok tt, r)
  | Err err => (Err err, r)
  | Panic => (Panic, r)
  | Block => (Block, r)
  end.

(** [for i, x := range l] with a loop state. *)
Fixpoint rec_fold {A B} (f : nat → A → B → Rec B) (i : nat) (l : list A) (acc : B) : Rec B :=
  match l with
  | [] => mret acc
  | x :: l => acc ← f i x acc; rec_fold f (S i) l acc
  end.

Definition rec_iter {A} (f : nat → A → Rec unit) (l : list A) : Rec unit :=
  rec_fold (λ i x _, f i x) 0 l tt.

(** [l[i]], which panics out of range. *)
Definition at_index {A} (l : list A) (i : nat) : go A := of_option Panic (l !! i).

Definition getUnsigned64ValueByIeName (ieName : string) (r : IPFIXRecord) : go Z :=
  e ← element_of ieName r;
  match (e : option InfoElementWithValue) with
  | Some e => GetUnsigned64Value e
  | None => Err (ErrNotInIncoming ieName)
  end.

Definition getUnsigned32ValueByIeName (ieName : string) (r : IPFIXRecord) : go Z :=
  e ← element_of ieName r;
  match (e : option InfoElementWithValue) with
  | Some e => GetUnsigned32Value e
  | None => Err (ErrNotInIncoming ieName)
  end.

(** ** Where a record comes from *)

(** The named string of the record, if it is there. *)
Definition string_of (name : string) (r : IPFIXRecord) : go (option string) :=
  e ← element_of name r;
  match (e : option InfoElementWithValue) with
  | Some e => Some <$> GetStringValue e
  | None => Ok None
  end.

(** [isRecordFromSrc] and [isRecordFromDst] are the same code with the two names
    exchanged. *)
Definition is_record_from (here there : string) (r : IPFIXRecord) : go bool :=
  s ← string_of here r;
  match (s : option string) with
  | None => Ok false
  | Some s =>
      if decide (s = "") then Ok false
      else
        d ← string_of there r;
        match (d : option string) with
        | Some d => Ok (bool_decide (d = ""))
        | None => Ok true
        end
  end.

Definition isRecordFromSrc : IPFIXRecord → go bool := is_record_from "sourcePodName" "destinationPodName".
Definition isRecordFromDst : IPFIXRecord → go bool := is_record_from "destinationPodName" "sourcePodName".

(** [&&] evaluates its second operand only when the first is true. *)
Definition go_and (a b : go bool) : go bool := x ← a; if (x : bool) then b else Ok false.

Definition areRecordsFromSameNode (record1 record2 : IPFIXRecord) : go bool :=
  src ← go_and (isRecordFromSrc record1) (isRecordFromSrc record2);
  if (src : bool) then Ok true
  else go_and (isRecordFromDst record1) (isRecordFromDst record2).

(** An unsigned 8-bit element, if it is there. *)
Definition u8_of (name : string) (r : IPFIXRecord) : go (option Z) :=
  e ← element_of name r;
  match (e : option InfoElementWithValue) with
  | Some e => Some <$> GetUnsigned8Value e
  | None => Ok None
  end.

Definition isCorrelationRequired (flowType : Z) (record : IPFIXRecord) : go bool :=
  if decide (flowType = FlowTypeInterNode) then
    egress ← u8_of "egressNetworkPolicyRuleAction" record;
    if decide (egress = Some NetworkPolicyRuleActionDrop ∨ egress = Some NetworkPolicyRuleActionReject)
    then Ok false
    else
      ingress ← u8_of "ingressNetworkPolicyRuleAction" record;
      Ok (negb (bool_decide (ingress = Some NetworkPolicyRuleActionReject)))
  else Ok false.

Definition validateDataRecord (record : IPFIXRecord) : bool :=
  bool_decide (GetFieldCount record = u16 (Z.of_nat (length (GetOrderedElementList record)))).

(** ** Flow keys *)

(** The port, or the protocol, which must be there. *)
Definition required {A} (name : string) (get : InfoElementWithValue → go A) (r : IPFIXRecord) : go A :=
  e ← element_of name r;
  match (e : option InfoElementWithValue) with
  | Some e => get e
  | None => Err (ErrFieldMissing name)
  end.

(** One end of the flow: the IPv4 address if there is one ... *)
Definition address_of (v4 : string) (r : IPFIXRecord) : go (option string) :=
  e ← element_of v4 r;
  match (e : option InfoElementWithValue) with
  | Some e => (λ ip, Some (IP_String ip)) <$> GetIPAddressValue e
  | None => Ok None
  end.

(** ... and else the IPv6 address, which must be there. *)
Definition address6_of (v6 : string) (addr4 : option string) (r : IPFIXRecord) : go string :=
  match addr4 with
  | Some s => _ ← element_of v6 r; Ok s
  | None => required v6 (λ e, IP_String <$> GetIPAddressValue e) r
  end.

Definition getFlowKeyFromRecord (record : IPFIXRecord) : go (FlowKey * bool) :=
  sport ← required "sourceTransportPort" GetUnsigned16Value record;
  dport ← required "destinationTransportPort" GetUnsigned16Value record;
  proto ← required "protocolIdentifier" GetUnsigned8Value record;
  src4 ← address_of "sourceIPv4Address" record;
  dst4 ← address_of "destinationIPv4Address" record;
  src ← address6_of "sourceIPv6Address" src4 record;
  dst ← address6_of "destinationIPv6Address" dst4 record;
  Ok (mkFlowKey src dst proto sport dport, bool_decide (is_Some src4 ∧ is_Some dst4)).

(** ** Correlation *)

(** [net.ParseIP("::0")]. *)
Definition unspecified_ip6 : slice := Some (replicate 16 Byte.x00).

(** One field of [correlateRecords]: a value that is not the zero of its type replaces
    the value of the stored record, which must have the field. *)
Definition correlate_element (field : string) (e : InfoElementWithValue) : Rec unit :=
  match GetDataType e with
  | StringType =>
      val ← M_lift (GetStringValue e);
      if decide (val = "") then mret tt else set_element field (SetStringValue val)
  | Unsigned8 =>
      val ← M_lift (GetUnsigned8Value e);
      if decide (val = 0) then mret tt else set_element field (SetUnsigned8Value val)
  | Unsigned16 =>
      val ← M_lift (GetUnsigned16Value e);
      if decide (val = 0) then mret tt else set_element field (SetUnsigned16Value val)
  | Signed32 =>
      val ← M_lift (GetSigned32Value e);
      if decide (val = 0) then mret tt else set_element field (SetSigned32Value val)
  | Ipv4Address =>
      val ← M_lift (GetIPAddressValue e);
      if decide (IP_String (To4 val) = "0.0.0.0") then mret tt
      else set_element field (SetIPAddressValue val)
  | Ipv6Address =>
      val ← M_lift (GetIPAddressValue e);
      if decide (IP_String (To16 val) = IP_String (To16 unspecified_ip6)) then mret tt
      else set_element field (SetIPAddressValue val)
  | _ => mret tt
  end.

Definition correlateRecords (correlateFields : list string) (incomingRecord : IPFIXRecord)
    : Rec unit :=
  rec_iter (λ _ field,
    e ← M_lift (element_of field incomingRecord);
    match (e : option InfoElementWithValue) with
    | Some e => correlate_element field e
    | None => mret tt
    end) correlateFields.

(** ** Aggregation *)

(** The previous value is the start of the flow when no record of that node has come
    yet. *)
Definition updateFlowEndSecondsFromNodes (incomingRecord : IPFIXRecord) (isSrc : bool)
    (incomingVal : Z) : Rec Z :=
  let ieName := if isSrc then "flowEndSecondsFromSourceNode"
                else "flowEndSecondsFromDestinationNode" in
  existingIe ← ask (must_element ieName);
  existingVal ← M_lift (GetUnsigned32Value existingIe);
  existingVal ← (if decide (existingVal = 0) then
                   incomingIe ← M_lift (must_element "flowStartSeconds" incomingRecord);
                   M_lift (GetUnsigned32Value incomingIe)
                 else mret existingVal);
  set_element ieName (SetUnsigned32Value incomingVal);;
  mret (existingVal : Z).

(** The first part of [aggregateRecords]: whether the incoming record is the latest,
    and [flowEndSecondsDiff]; nothing when the aggregation is skipped. *)
Definition update_times (incomingRecord : IPFIXRecord) (fillSrcStats fillDstStats : bool)
    : Rec (option (bool * Z)) :=
  e ← M_lift (element_of "flowEndSeconds" incomingRecord);
  match (e : option InfoElementWithValue) with
  | None => mret (Some (false, 0))
  | Some e =>
      e2 ← ask (element_of "flowEndSeconds");
      match (e2 : option InfoElementWithValue) with
      | None => mret (Some (false, 0))
      | Some e2 =>
          incomingVal ← M_lift (GetUnsigned32Value e);
          existingVal ← M_lift (GetUnsigned32Value e2);
          let isLatest := bool_decide (existingVal <= incomingVal) in
          (if isLatest then set_element "flowEndSeconds" (SetUnsigned32Value incomingVal)
           else mret tt);;
          prev ← (if fillSrcStats then updateFlowEndSecondsFromNodes incomingRecord true incomingVal
                  else mret 0);
          prev ← (if fillDstStats then updateFlowEndSecondsFromNodes incomingRecord false incomingVal
                  else mret prev);
          if decide (incomingVal <= prev) then mret None
          else mret (Some (isLatest, u32 (incomingVal - prev)))
      end
  end.

(** One element of [NonStatsElements]. *)
Definition aggregate_non_stats (incomingRecord : IPFIXRecord) (isLatest : bool) (element : string)
    : Rec unit :=
  e ← M_lift (element_of element incomingRecord);
  match (e : option InfoElementWithValue) with
  | None => M_lift (Err (ErrNotInIncoming element))
  | Some e =>
      _ ← ask (element_of element);
      switch (GetName e)
        [("flowEndSeconds", mret tt);
         ("flowEndReason",
          existing ← ask (must_element element);
          existingVal ← M_lift (GetUnsigned8Value existing);
          incomingVal ← M_lift (GetUnsigned8Value e);
          if decide (existingVal = EndOfFlowReason) then mret tt
          else set_element element (SetUnsigned8Value incomingVal));
         ("tcpState",
          if isLatest then
            incomingVal ← M_lift (GetStringValue e);
            set_element element (SetStringValue incomingVal)
          else mret tt)]%string
        (mret tt)
  end.

(** The statistics of one node: a delta is added up, a total is replaced and its
    growth kept for the throughput. *)
Definition fill_stats (name totalName reverseName : string) (isDelta : bool) (incomingVal : Z)
    (diffs : Z * Z) : Rec (Z * Z) :=
  e ← ask (element_of name);
  match (e : option InfoElementWithValue) with
  | None => M_lift (Err (ErrNotInRecord name))
  | Some e =>
      existingVal ← M_lift (GetUnsigned64Value e);
      if isDelta then
        set_element name (SetUnsigned64Value (u64 (incomingVal + existingVal)));; mret diffs
      else
        set_element name (SetUnsigned64Value incomingVal);;
        mret (switch name
                [(totalName, (u64 (incomingVal - existingVal), diffs.2));
                 (reverseName, (diffs.1, u64 (incomingVal - existingVal)))]
                diffs)
  end.

(** The value of another element of the record is copied to [element]. *)
Definition copy_u64 (element from : string) : Rec unit :=
  ie ← ask (must_element from);
  val ← M_lift (GetUnsigned64Value ie);
  set_element element (SetUnsigned64Value val).

(** The common element of the statistics. *)
Definition fill_common (element src dst : string) (isDelta isLatest fillSrcStats fillDstStats : bool)
    (incomingVal : Z) : Rec unit :=
  if isLatest then
    if isDelta then
      (if fillSrcStats then copy_u64 element src else mret tt);;
      (if fillDstStats then copy_u64 element dst else mret tt)
    else
      common ← ask (must_element element);
      val ← M_lift (GetUnsigned64Value common);
      if decide (val < incomingVal) then set_element element (SetUnsigned64Value incomingVal)
      else mret tt
  else mret tt.

(** One element of [StatsElements]. *)
Definition aggregate_stats (incomingRecord : IPFIXRecord) (els : AggregationElements)
    (isLatest fillSrcStats fillDstStats : bool) (i : nat) (element : string) (diffs : Z * Z)
    : Rec (Z * Z) :=
  let isDelta := Contains element "Delta" in
  e ← M_lift (element_of element incomingRecord);
  match (e : option InfoElementWithValue) with
  | None => M_lift (Err (ErrNotInIncoming element))
  | Some e =>
      incomingVal ← M_lift (GetUnsigned64Value e);
      diffs ← (if fillSrcStats then
                 src ← M_lift (at_index (AggregatedSourceStatsElements els) i);
                 fill_stats src "octetTotalCountFromSourceNode"
                   "reverseOctetTotalCountFromSourceNode" isDelta incomingVal diffs
               else mret diffs);
      diffs ← (if fillDstStats then
                 dst ← M_lift (at_index (AggregatedDestinationStatsElements els) i);
                 fill_stats dst "octetTotalCountFromDestinationNode"
                   "reverseOctetTotalCountFromDestinationNode" isDelta incomingVal diffs
               else mret diffs);
      _ ← ask (element_of element);
      src ← M_lift (if fillSrcStats then at_index (AggregatedSourceStatsElements els) i else Ok "");
      dst ← M_lift (if fillDstStats then at_index (AggregatedDestinationStatsElements els) i else Ok "");
      fill_common element src dst isDelta isLatest fillSrcStats fillDstStats incomingVal;;
      mret (diffs : Z * Z)
  end.

(** [name] is given the throughput value of index [i]. *)
Definition set_throughput (name : string) (vals : list Z) (i : nat) : Rec unit :=
  _ ← ask (must_element name);
  v ← M_lift (at_index vals i);
  set_element name (SetUnsigned64Value v).

Definition aggregate_throughput (els : AggregationElements) (vals : list Z)
    (isLatest fillSrcStats fillDstStats : bool) (i : nat) (element : string) : Rec unit :=
  (if fillSrcStats then
     src ← M_lift (at_index (SourceThroughputElements els) i); set_throughput src vals i
   else mret tt);;
  (if fillDstStats then
     dst ← M_lift (at_index (DestinationThroughputElements els) i); set_throughput dst vals i
   else mret tt);;
  (if isLatest then set_throughput element vals i else mret tt).

(** [count * 8 / uint64(seconds)]. *)
Definition bits_per_second (count seconds : Z) : go Z :=
  if decide (seconds = 0) then Panic else Ok (u64 (count * 8) / seconds).

Definition aggregateRecords (aggregateElements : option AggregationElements)
    (incomingRecord : IPFIXRecord) (fillSrcStats fillDstStats : bool) : Rec unit :=
  match aggregateElements with
  | None => mret tt
  | Some els =>
      times ← update_times incomingRecord fillSrcStats fillDstStats;
      match (times : option (bool * Z)) with
      | None => mret tt
      | Some (isLatest, flowEndSecondsDiff) =>
          rec_iter (λ _, aggregate_non_stats incomingRecord isLatest) (NonStatsElements els);;
          diffs ← rec_fold (aggregate_stats incomingRecord els isLatest fillSrcStats fillDstStats)
                    0 (StatsElements els) (0, 0);
          throughput ← M_lift (bits_per_second (fst (diffs : Z * Z)) flowEndSecondsDiff);
          reverseThroughput ← M_lift (bits_per_second (snd (diffs : Z * Z)) flowEndSecondsDiff);
          rec_iter (aggregate_throughput els [throughput; reverseThroughput] isLatest fillSrcStats
                      fillDstStats) (ThroughputElements els)
      end
  end.

(** ** Resetting *)

(** [ResetValue] on the [i]-th name of each list. *)
Definition reset_elements (arrays : list (list string)) (i : nat) : Rec unit :=
  rec_iter (λ _ array,
    name ← M_lift (at_index array i);
    e ← ask (element_of name);
    match (e : option InfoElementWithValue) with
    | Some _ => set_element name (λ e, Ok (ResetValue e))
    | None => M_lift (Err (ErrNotInRecord name))
    end) arrays.

(** [a.aggregateElements] is not checked for nil. *)
Definition ResetStatAndThroughputElementsInRecord (aggregateElements : option AggregationElements)
    : Rec unit :=
  els ← M_lift (of_option Panic aggregateElements);
  rec_iter (λ i element,
    if Contains element "Delta" then
      reset_elements [StatsElements els; AggregatedSourceStatsElements els;
                      AggregatedDestinationStatsElements els] i
    else mret tt) (StatsElements els);;
  rec_iter (λ i _,
    reset_elements [ThroughputElements els; SourceThroughputElements els;
                    DestinationThroughputElements els] i) (ThroughputElements els).

(** ** The fields of the first record of a flow *)

Section fields.
Variable reg : Registry.

(** Look an Antrea element up and add it with this value. *)
Definition add_antrea (new : InfoElement → Z → InfoElementWithValue) (name : string) (value : Z)
    : Rec unit :=
  ie ← M_lift (RegistryGetInfoElement name AntreaEnterpriseID reg);
  add_element (new ie value).

Definition add_stats_element (els : AggregationElements) (fillSrcStats fillDstStats : bool) (i : nat)
    (element : string) : Rec unit :=
  e ← ask (element_of element);
  match (e : option InfoElementWithValue) with
  | None => mret tt
  | Some e =>
      src ← M_lift (at_index (AggregatedSourceStatsElements els) i);
      ie ← M_lift (RegistryGetInfoElement src AntreaEnterpriseID reg);
      value ← M_lift (if fillSrcStats then GetUnsigned64Value e else Ok 0);
      add_element (Unsigned64InfoElement ie value);;
      dst ← M_lift (at_index (AggregatedDestinationStatsElements els) i);
      ie ← M_lift (RegistryGetInfoElement dst AntreaEnterpriseID reg);
      value ← M_lift (if fillDstStats then GetUnsigned64Value e else Ok 0);
      add_element (Unsigned64InfoElement ie value)
  end.

Definition addFieldsForStatsAggregation (aggregateElements : option AggregationElements)
    (fillSrcStats fillDstStats : bool) : Rec unit :=
  match aggregateElements with
  | None => mret tt
  | Some els => rec_iter (add_stats_element els fillSrcStats fillDstStats) (StatsElements els)
  end.

(** One element of [AntreaFlowEndSecondsElements]. *)
Definition add_end_seconds (fillSrcStats fillDstStats : bool) (timeEnd : Z) (ieName : string)
    : Rec unit :=
  add_antrea Unsigned32InfoElement ieName
    (if (fillSrcStats && Contains ieName "Source") || (fillDstStats && Contains ieName "Destination")
     then timeEnd else 0).

(** One element of [ThroughputElements] and the two of the nodes. *)
Definition add_throughput (els : AggregationElements) (vals : list Z)
    (fillSrcStats fillDstStats : bool) (i : nat) (element : string) : Rec unit :=
  value ← M_lift (at_index vals i);
  add_antrea Unsigned64InfoElement element value;;
  src ← M_lift (at_index (SourceThroughputElements els) i);
  add_antrea Unsigned64InfoElement src (if fillSrcStats then value else 0);;
  dst ← M_lift (at_index (DestinationThroughputElements els) i);
  add_antrea Unsigned64InfoElement dst (if fillDstStats then value else 0).

Definition addFieldsForThroughputCalculation (aggregateElements : option AggregationElements)
    (fillSrcStats fillDstStats : bool) : Rec unit :=
  match aggregateElements with
  | None => mret tt
  | Some els =>
      timeStart ← ask (getUnsigned32ValueByIeName "flowStartSeconds");
      timeEnd ← ask (getUnsigned32ValueByIeName "flowEndSeconds");
      byteCount ← ask (getUnsigned64ValueByIeName "octetTotalCount");
      reverseByteCount ← ask (getUnsigned64ValueByIeName "reverseOctetTotalCount");
      rec_iter (λ _, add_end_seconds fillSrcStats fillDstStats timeEnd)
        (AntreaFlowEndSecondsElements els);;
      let seconds := timeEnd - timeStart in
      let vals := if decide (timeStart < timeEnd)
                  then [u64 (byteCount * 8) / seconds; u64 (reverseByteCount * 8) / seconds]
                  else [0; 0] in
      rec_iter (add_throughput els vals fillSrcStats fillDstStats) (ThroughputElements els)
  end.

End fields.

(** ** Lemmas: a record as a map from names to elements *)

(** The record has no empty slot. *)
Definition full (r : IPFIXRecord) : Prop := ∃ es, GetOrderedElementList r = Some <$> es.

(** The element of a name, and its value as one of the types. *)
Definition lookup_rec (r : IPFIXRecord) (name : string) : option InfoElementWithValue :=
  match element_of name r with Ok o => o | _ => None end.

Definition value_at {A} (get : InfoElementWithValue → go A) (r : IPFIXRecord) (name : string)
    : option A :=
  lookup_rec r name ≫= λ e, match get e with Ok v => Some v | _ => None end.

Abbreviation u8_at := (value_at GetUnsigned8Value).
Abbreviation u32_at := (value_at GetUnsigned32Value).
Abbreviation u64_at := (value_at GetUnsigned64Value).
Abbreviation string_at := (value_at GetStringValue).

(** The two records agree on these names; they agree on all other names. *)
Definition agree (W : list string) (r r' : IPFIXRecord) : Prop :=
  ∀ n, n ∈ W → lookup_rec r' n = lookup_rec r n.
Definition frame (W : list string) (r r' : IPFIXRecord) : Prop :=
  ∀ n, n ∉ W → lookup_rec r' n = lookup_rec r n.

Fixpoint find_named (name : string) (es : list InfoElementWithValue) : option InfoElementWithValue :=
  match es with
  | [] => None
  | e :: es => if decide (GetName e = name) then Some e else find_named name es
  end.

(** What the search returns, and what replacing the element it found does. *)
Lemma find_element_named name k es :
  match find_element name k (Some <$> es) with
  | Ok None => find_named name es = None
  | Ok (Some (e, i)) =>
      find_named name es = Some e ∧ (k <= i)%nat ∧
      ∀ e', GetName e' = GetName e →
        ∃ es', <[(i - k)%nat := Some e']> (Some <$> es) = Some <$> es' ∧
          ∀ n, find_named n es' = if decide (n = name) then Some e' else find_named n es
  | _ => False
  end.
Proof.
  revert k. induction es as [|e es IH]; intros k; [done|].
  rewrite fmap_cons. cbn [find_element find_named].
  destruct (String.eqb_spec (GetName e) name) as [E|E].
  - rewrite decide_True by done. split_and!; [done|lia|]. intros e' He'. exists (e' :: es).
    rewrite Nat.sub_diag. split; [done|]. intros n. simpl. rewrite He', E.
    repeat case_decide; congruence.
  - rewrite decide_False by done. specialize (IH (S k)).
    destruct (find_element name (S k) (Some <$> es)) as [[[e0 i]|]| | |]; try done.
    destruct IH as (-> & Hi & IH). split_and!; [done|lia|]. intros e' He'.
    destruct (IH e' He') as (es' & H1 & H2). exists (e :: es').
    replace (i - k)%nat with (S (i - S k)) by lia. simpl. rewrite H1. split; [done|].
    intros n. simpl. rewrite H2. repeat case_decide; congruence.
Qed.

Lemma full_element_of name r : full r → element_of name r = Ok (lookup_rec r name).
Proof.
  intros [es Hes]. unfold lookup_rec, element_of, GetInfoElementWithValue.
  change (orderedElementList (base_of r)) with (GetOrderedElementList r). rewrite Hes.
  pose proof (find_element_named name 0 es). by destruct (find_element name 0 (Some <$> es)).
Qed.

Lemma lookup_rec_named name r es :
  GetOrderedElementList r = Some <$> es → lookup_rec r name = find_named name es.
Proof.
  intros Hes. unfold lookup_rec, element_of, GetInfoElementWithValue.
  change (orderedElementList (base_of r)) with (GetOrderedElementList r). rewrite Hes.
  pose proof (find_element_named name 0 es) as H.
  destruct (find_element name 0 (Some <$> es)) as [[[e i]|]| | |]; try done. by destruct H as [-> _].
Qed.

Lemma find_named_name name es e : find_named name es = Some e → GetName e = name.
Proof. induction es as [|e0 es IH]; simpl; [done|]. case_decide; [by intros [= ->]|done]. Qed.

Lemma lookup_rec_name r name e : full r → lookup_rec r name = Some e → GetName e = name.
Proof. intros [es Hes]. rewrite (lookup_rec_named _ _ es) by done. apply find_named_name. Qed.

Lemma full_must_element name r e : full r → lookup_rec r name = Some e → must_element name r = Ok e.
Proof. intros Hf He. unfold must_element. by rewrite full_element_of, He. Qed.

Lemma elements_on_base l r :
  GetOrderedElementList (on_base (with_elements l) r) = l.
Proof. by destruct r. Qed.

(** A setter changes the element of its name and nothing else. *)
Lemma set_element_spec name f r e e' :
  full r → lookup_rec r name = Some e → f e = Ok e' → GetInfoElement e' = GetInfoElement e →
  ∃ r', set_element name f r = (Ok tt, r') ∧ full r' ∧ lookup_rec r' name = Some e' ∧ frame [name] r r'.
Proof.
  intros [es Hes] He Hf Hi. rewrite (lookup_rec_named _ _ es) in He by done.
  unfold set_element, GetInfoElementWithValue.
  change (orderedElementList (base_of r)) with (GetOrderedElementList r). rewrite Hes.
  pose proof (find_element_named name 0 es) as H.
  destruct (find_element name 0 (Some <$> es)) as [[[e0 i]|]| | |]; try done; [|congruence].
  destruct H as (E0 & _ & H). rewrite Nat.sub_0_r in H. simplify_eq. rewrite Hf.
  destruct (H e') as (es' & H1 & H2); [by unfold GetName; rewrite Hi|].
  eexists. split; [done|].
  assert (Hl : GetOrderedElementList (on_base
    (λ b, with_elements (<[i := Some e']> (orderedElementList b)) b) r) = Some <$> es').
  { rewrite <- H1, <- Hes. by destruct r. }
  split_and!; [by exists es'| |].
  - rewrite (lookup_rec_named _ _ es') by done. by rewrite H2, decide_True.
  - intros n Hn. rewrite (lookup_rec_named _ _ es'), (lookup_rec_named _ _ es) by done.
    rewrite H2, decide_False; [done|]. intros ->. apply Hn. left.
Qed.

Lemma value_at_Some {A} (get : InfoElementWithValue → go A) r name v :
  value_at get r name = Some v ↔ ∃ e, lookup_rec r name = Some e ∧ get e = Ok v.
Proof.
  unfold value_at. rewrite bind_Some. split; intros (e & He & Hv); exists e; (split; [done|]).
  - by destruct (get e); simplify_eq.
  - by rewrite Hv.
Qed.

Lemma value_at_lookup {A} (get : InfoElementWithValue → go A) r r' name :
  lookup_rec r' name = lookup_rec r name → value_at get r' name = value_at get r name.
Proof. unfold value_at. by intros ->. Qed.

Lemma frame_value {A} (get : InfoElementWithValue → go A) W r r' name :
  frame W r r' → name ∉ W → value_at get r' name = value_at get r name.
Proof. intros Hf Hn. by apply value_at_lookup, Hf. Qed.

(** The setter of a lawful accessor gives the element its value. *)
Lemma set_value_spec {A} (get : InfoElementWithValue → go A) set name (v old : A) r :
  accessor_law (mkAccessor get set) →
  full r → value_at get r name = Some old →
  ∃ r', set_element name (set v) r = (Ok tt, r') ∧ full r' ∧ value_at get r' name = Some v ∧
        frame [name] r r'.
Proof.
  intros Hlaw Hf (e & He & Hv)%value_at_Some. specialize (Hlaw e v). simpl in Hlaw. rewrite Hv in Hlaw.
  destruct Hlaw as (e' & Hs & Hg & Hi).
  destruct (set_element_spec name (set v) r e e') as (r' & E & Hf' & Hl & Hfr); [done..|].
  exists r'. split_and!; try done. apply value_at_Some. eauto.
Qed.

Lemma law_u8 : accessor_law (mkAccessor GetUnsigned8Value SetUnsigned8Value).
Proof. accessor_cases. Qed.
Lemma law_u32 : accessor_law (mkAccessor GetUnsigned32Value SetUnsigned32Value).
Proof. accessor_cases. Qed.
Lemma law_u64 : accessor_law (mkAccessor GetUnsigned64Value SetUnsigned64Value).
Proof. accessor_cases. Qed.
Lemma law_string : accessor_law (mkAccessor GetStringValue SetStringValue).
Proof. accessor_cases. Qed.
Lemma law_ip : accessor_law (mkAccessor GetIPAddressValue SetIPAddressValue).
Proof. accessor_cases. Qed.

(** ** Lemmas: running the record monad *)

Lemma bind_lift {A B} (m : go A) (f : A → Rec B) r a : m = Ok a → (M_lift m ≫= f) r = f a r.
Proof. by intros ->. Qed.

Lemma bind_ask {A B} (g : IPFIXRecord → go A) (f : A → Rec B) r a :
  g r = Ok a → (ask g ≫= f) r = f a r.
Proof. intros E. apply M_bind_Ok. unfold ask. by rewrite E. Qed.

Lemma bind_ret {A B} (a : A) (f : A → Rec B) r : (mret a ≫= f) r = f a r.
Proof. done. Qed.

(** One step of a sequence: a read, a pure call, or a call whose run is known. *)
Ltac rec_step :=
  match goal with
  | E : ?m ?r = (Ok _, _) |- context [(?m ≫= _) ?r] => rewrite (M_bind_Ok _ _ _ _ _ E)
  | |- context [(M_lift _ ≫= _) _] => erewrite bind_lift by (first [eassumption|reflexivity])
  | |- context [(ask _ ≫= _) _] =>
      erewrite bind_ask by (first [eassumption|reflexivity|by apply full_element_of|
                                   eapply full_must_element; eassumption])
  | |- context [(mret _ ≫= _) _] => rewrite bind_ret
  end; cbv beta zeta iota.

Lemma frame_trans W1 W2 W r1 r2 r3 :
  frame W1 r1 r2 → frame W2 r2 r3 → W1 ⊆ W → W2 ⊆ W → frame W r1 r3.
Proof.
  intros H1 H2 Hs1 Hs2 n Hn. rewrite H2 by (intros ?; apply Hn; by apply Hs2).
  apply H1. intros ?. apply Hn. by apply Hs1.
Qed.

Lemma frame_refl W r : frame W r r.
Proof. by intros n _. Qed.

Lemma frame_agree W V r r' : frame W r r' → (∀ n, n ∈ V → n ∉ W) → agree V r r'.
Proof. intros Hf Hd n Hn. apply Hf. by apply Hd. Qed.

Lemma agree_value {A} (get : InfoElementWithValue → go A) W r r' n :
  agree W r r' → n ∈ W → value_at get r' n = value_at get r n.
Proof. intros Ha Hn. by apply value_at_lookup, Ha. Qed.

(** The loop state of a loop whose body computes it with [g]. *)
Fixpoint fold_at {A B} (g : nat → A → B → B) (i : nat) (l : list A) (acc : B) : B :=
  match l with
  | [] => acc
  | x :: l => fold_at g (S i) l (g i x acc)
  end.

Section loop.
Context {A B : Type}.
Variables (f : nat → A → B → Rec B) (g : nat → A → B → B).
(** The names an iteration reads and writes, and what it achieves. *)
Variables (W : nat → A → list string) (Post : nat → A → IPFIXRecord → Prop).
Variables (l : list A) (r0 : IPFIXRecord).
Hypothesis Hstep : ∀ i x acc r,
  l !! i = Some x → full r → agree (W i x) r0 r →
  ∃ r', f i x acc r = (Ok (g i x acc), r') ∧ full r' ∧ frame (W i x) r r' ∧ Post i x r'.
Hypothesis Hpost : ∀ i x r r', Post i x r → agree (W i x) r r' → Post i x r'.
Hypothesis Hdisj : ∀ i j x y n,
  l !! i = Some x → l !! j = Some y → i ≠ j → n ∈ W i x → n ∉ W j y.

Lemma rec_fold_from k acc r :
  full r → (∀ i x, (k <= i)%nat → l !! i = Some x → agree (W i x) r0 r) →
  ∃ r', rec_fold f k (drop k l) acc r = (Ok (fold_at g k (drop k l) acc), r') ∧ full r' ∧
    (∀ n, (∀ i x, (k <= i)%nat → l !! i = Some x → n ∉ W i x) → lookup_rec r' n = lookup_rec r n) ∧
    ∀ i x, (k <= i)%nat → l !! i = Some x → Post i x r'.
Proof.
  remember (length l - k)%nat as m eqn:Hm. revert k Hm acc r.
  induction m as [|m IH]; intros k Hm acc r Hf Ha.
  { rewrite drop_ge by lia. exists r. split_and!; try done.
    intros i x Hi Hx. apply lookup_lt_Some in Hx. lia. }
  destruct (lookup_lt_is_Some_2 l k) as [x Hx]; [lia|].
  rewrite (drop_S _ x k) by done. cbn [rec_fold fold_at].
  destruct (Hstep k x acc r) as (r1 & E & Hf1 & Hfr & HP); [done..|by apply Ha|].
  rewrite (M_bind_Ok _ _ _ _ _ E).
  destruct (IH (S k) ltac:(lia) (g k x acc) r1) as (r' & E' & Hf' & Hfr' & HP'); [done| |].
  { intros i y Hi Hy n Hn. rewrite Hfr; [apply (Ha i y); [lia|done|done]|].
    eapply (Hdisj i k y x); [done|done|lia|done]. }
  exists r'. split_and!; [done|done| |].
  - intros n Hn. rewrite Hfr' by (intros i y Hi; apply Hn; lia). by apply Hfr, Hn.
  - intros i y Hi Hy. destruct (decide (i = k)) as [->|]; [|apply HP'; [lia|done]].
    simplify_eq. eapply Hpost; [done|]. intros n Hn. apply Hfr'. intros j z Hj Hz.
    eapply (Hdisj k j); [done|done|lia|done].
Qed.

Lemma rec_fold_spec acc r :
  full r → (∀ i x, l !! i = Some x → agree (W i x) r0 r) →
  ∃ r', rec_fold f 0 l acc r = (Ok (fold_at g 0 l acc), r') ∧ full r' ∧
    frame (mjoin (imap W l)) r r' ∧ ∀ i x, l !! i = Some x → Post i x r'.
Proof.
  intros Hf Ha. destruct (rec_fold_from 0 acc r) as (r' & E & Hf' & Hfr & HP); [done|by intros i x _; apply Ha|].
  rewrite drop_0 in E. exists r'. split_and!; [done|done| |].
  - intros n Hn. apply Hfr. intros i x _ Hx Hw. apply Hn. apply list_elem_of_join.
    exists (W i x). split; [done|]. apply elem_of_lookup_imap. eauto.
  - intros i x. apply HP. lia.
Qed.

End loop.

(** ** Lemmas: statistics *)

(** The value of a node's statistics after a record, and of the common one. *)
Definition node_value (isDelta : bool) (incoming old : Z) : Z :=
  if isDelta then u64 (incoming + old) else incoming.

Definition common_value (isDelta isLatest fillSrc fillDst : bool) (incoming old src dst : Z) : Z :=
  if isLatest then
    if isDelta then if fillDst then dst else if fillSrc then src else old
    else Z.max old incoming
  else old.

(** The growth of the totals after one node's statistics. *)
Definition diffs_after (name totalName reverseName : string) (isDelta : bool) (incoming old : Z)
    (diffs : Z * Z) : Z * Z :=
  if isDelta then diffs
  else switch name [(totalName, (u64 (incoming - old), diffs.2));
                    (reverseName, (diffs.1, u64 (incoming - old)))] diffs.

Lemma fill_stats_spec name tn rn isDelta v old diffs r :
  full r → u64_at r name = Some old →
  ∃ r', fill_stats name tn rn isDelta v diffs r =
          (Ok (diffs_after name tn rn isDelta v old diffs), r') ∧
    full r' ∧ frame [name] r r' ∧ u64_at r' name = Some (node_value isDelta v old).
Proof.
  intros Hf Hold. pose proof Hold as (e & He & Hv)%value_at_Some.
  destruct (set_value_spec GetUnsigned64Value SetUnsigned64Value name (node_value isDelta v old) old r)
    as (r' & E & Hf' & Hn & Hfr); [exact law_u64|done..|].
  exists r'. split_and!; try done. unfold fill_stats. rec_step. rewrite He. rec_step.
  unfold diffs_after, node_value in *. by destruct isDelta; rec_step.
Qed.

Lemma copy_u64_spec element from old v r :
  full r → u64_at r element = Some old → u64_at r from = Some v →
  ∃ r', copy_u64 element from r = (Ok tt, r') ∧ full r' ∧ frame [element] r r' ∧
    u64_at r' element = Some v.
Proof.
  intros Hf Hold (e & He & Hv)%value_at_Some.
  destruct (set_value_spec GetUnsigned64Value SetUnsigned64Value element v old r)
    as (r' & E & Hf' & Hn & Hfr); [exact law_u64|done..|].
  exists r'. split_and!; try done. unfold copy_u64. by repeat rec_step.
Qed.

(** An optional step that, when it is taken, gives [name] a value. *)
Lemma optional_spec (b : bool) (m : Rec unit) name old v r :
  full r → u64_at r name = Some old →
  (b = true → ∃ r', m r = (Ok tt, r') ∧ full r' ∧ frame [name] r r' ∧ u64_at r' name = Some v) →
  ∃ r', (if b then m else mret tt) r = (Ok tt, r') ∧ full r' ∧ frame [name] r r' ∧
    u64_at r' name = Some (if b then v else old).
Proof.
  intros Hf Hold Hm. destruct b; [by apply Hm|]. exists r. split_and!; auto using frame_refl.
Qed.

Lemma fill_common_spec element src dst isDelta isLatest fs fd v old s d r :
  full r → u64_at r element = Some old →
  (fs = true → u64_at r src = Some s) → (fd = true → u64_at r dst = Some d ∧ dst ≠ element) →
  ∃ r', fill_common element src dst isDelta isLatest fs fd v r = (Ok tt, r') ∧ full r' ∧
    frame [element] r r' ∧
    u64_at r' element = Some (common_value isDelta isLatest fs fd v old s d).
Proof.
  intros Hf Hold Hs Hd. unfold fill_common, common_value.
  destruct isLatest; [|exists r; split_and!; auto using frame_refl].
  destruct isDelta.
  - destruct (optional_spec fs (copy_u64 element src) element old s r) as (r1 & E1 & Hf1 & Hfr1 & H1);
      [done..|by intros Hfs; eapply copy_u64_spec; eauto|].
    destruct (optional_spec fd (copy_u64 element dst) element (if fs then s else old) d r1)
      as (r2 & E2 & Hf2 & Hfr2 & H2); [done..| |].
    { intros Hfd. destruct (Hd Hfd) as [Hdst Hne]. eapply copy_u64_spec; [done|done|].
      erewrite frame_value; [done|exact Hfr1|]. by intros ->%list_elem_of_singleton. }
    exists r2. rec_step. split_and!; [done|done| |done]. by eapply frame_trans.
  - pose proof Hold as (e & He & Hv)%value_at_Some. repeat rec_step.
    destruct (decide (old < v)).
    + destruct (set_value_spec GetUnsigned64Value SetUnsigned64Value element v old r)
        as (r' & E & Hf' & Hn & Hfr); [exact law_u64|done..|].
      exists r'. by rewrite Z.max_r by lia.
    + exists r. rewrite Z.max_l by lia. split_and!; auto using frame_refl.
Qed.

(** A name's value in the record, 0 when it has none. *)
Definition u64_or_0 (r : IPFIXRecord) (name : string) : Z := default 0 (u64_at r name).

(** The names of the [i]-th statistics: common, source and destination. *)
Definition stats_names (els : AggregationElements) (i : nat) (element : string) : list string :=
  [element; default "" (AggregatedSourceStatsElements els !! i);
   default "" (AggregatedDestinationStatsElements els !! i)].

(** What one iteration does to [diffs], from the values before the loop. *)
Definition stats_diffs (inc r : IPFIXRecord) (els : AggregationElements) (fs fd : bool) (i : nat)
    (element : string) (diffs : Z * Z) : Z * Z :=
  let isDelta := Contains element "Delta" in
  let src := default "" (AggregatedSourceStatsElements els !! i) in
  let dst := default "" (AggregatedDestinationStatsElements els !! i) in
  let v := u64_or_0 inc element in
  let diffs :=
    if fs then diffs_after src "octetTotalCountFromSourceNode" "reverseOctetTotalCountFromSourceNode"
                 isDelta v (u64_or_0 r src) diffs
    else diffs in
  if fd then diffs_after dst "octetTotalCountFromDestinationNode"
               "reverseOctetTotalCountFromDestinationNode" isDelta v (u64_or_0 r dst) diffs
  else diffs.

(** The statistics of index [i] after the loop. *)
Definition stats_post (inc r : IPFIXRecord) (els : AggregationElements) (isLatest fs fd : bool)
    (i : nat) (element : string) (r' : IPFIXRecord) : Prop :=
  let isDelta := Contains element "Delta" in
  let src := default "" (AggregatedSourceStatsElements els !! i) in
  let dst := default "" (AggregatedDestinationStatsElements els !! i) in
  let v := u64_or_0 inc element in
  let vs := if fs then node_value isDelta v (u64_or_0 r src) else u64_or_0 r src in
  let vd := if fd then node_value isDelta v (u64_or_0 r dst) else u64_or_0 r dst in
  u64_at r' src = Some vs ∧ u64_at r' dst = Some vd ∧
  u64_at r' element = Some (common_value isDelta isLatest fs fd v (u64_or_0 r element) vs vd).

Lemma optional_fill_spec (b : bool) names i name tn rn isDelta v old diffs r :
  full r → u64_at r name = Some old → names !! i = Some name →
  ∃ r', (if b then n ← M_lift (at_index names i); fill_stats n tn rn isDelta v diffs
         else mret diffs) r =
          (Ok (if b then diffs_after name tn rn isDelta v old diffs else diffs), r') ∧
    full r' ∧ frame [name] r r' ∧
    u64_at r' name = Some (if b then node_value isDelta v old else old).
Proof.
  intros Hf Hold Hn. destruct b; [|exists r; split_and!; auto using frame_refl].
  assert (E : at_index names i = Ok name) by (unfold at_index; by rewrite Hn).
  rec_step. by apply fill_stats_spec.
Qed.

Lemma aggregate_stats_spec inc els isLatest fs fd i element src dst diffs r r0 :
  full inc → is_Some (u64_at inc element) →
  AggregatedSourceStatsElements els !! i = Some src →
  AggregatedDestinationStatsElements els !! i = Some dst →
  NoDup [element; src; dst] →
  (∀ n, n ∈ [element; src; dst] → is_Some (u64_at r0 n)) →
  full r → agree [element; src; dst] r0 r →
  ∃ r', aggregate_stats inc els isLatest fs fd i element diffs r =
          (Ok (stats_diffs inc r0 els fs fd i element diffs), r') ∧
    full r' ∧ frame (stats_names els i element) r r' ∧
    stats_post inc r0 els isLatest fs fd i element r'.
Proof.
  intros Hinc [v Hv] Hsrc Hdst Hnd Hu Hf Ha.
  assert (Hold : ∀ n, n ∈ [element; src; dst] → u64_at r n = Some (u64_or_0 r0 n)).
  { intros n Hn. rewrite (agree_value _ _ _ _ _ Ha Hn). unfold u64_or_0.
    by destruct (Hu n Hn) as [? ->]. }
  inversion_clear Hnd as [|? ? H1 Hnd']. inversion_clear Hnd' as [|? ? H2 _].
  rewrite !not_elem_of_cons in H1. rewrite list_elem_of_singleton in H2. destruct H1 as (N1 & N2 & _).
  unfold stats_diffs, stats_post, stats_names. rewrite Hsrc, Hdst. cbn [default from_option id].
  assert (Hv' : u64_or_0 inc element = v) by (unfold u64_or_0; by rewrite Hv). rewrite Hv'.
  pose proof Hv as (e & He & Hev)%value_at_Some.
  assert (Hei : element_of element inc = Ok (Some e)) by (rewrite full_element_of, He; done).
  unfold aggregate_stats. rec_step. rec_step.
  destruct (optional_fill_spec fs (AggregatedSourceStatsElements els) i src "octetTotalCountFromSourceNode"
    "reverseOctetTotalCountFromSourceNode" (Contains element "Delta") v (u64_or_0 r0 src) diffs r)
    as (r1 & E1 & Hf1 & Hfr1 & V1); [done|apply Hold; set_solver|done|].
  rec_step.
  destruct (optional_fill_spec fd (AggregatedDestinationStatsElements els) i dst
    "octetTotalCountFromDestinationNode" "reverseOctetTotalCountFromDestinationNode"
    (Contains element "Delta") v (u64_or_0 r0 dst)
    (if fs then diffs_after src "octetTotalCountFromSourceNode" "reverseOctetTotalCountFromSourceNode"
       (Contains element "Delta") v (u64_or_0 r0 src) diffs else diffs) r1) as (r2 & E2 & Hf2 & Hfr2 & V2);
    [exact Hf1|rewrite (frame_value _ _ _ _ _ Hfr1) by set_solver; apply Hold; set_solver|done|].
  rec_step. rec_step.
  rewrite (bind_lift _ _ _ (if fs then src else "")) by (unfold at_index; rewrite Hsrc; by destruct fs).
  rewrite (bind_lift _ _ _ (if fd then dst else "")) by (unfold at_index; rewrite Hdst; by destruct fd).
  rewrite <- (frame_value _ _ _ _ src Hfr2) in V1 by set_solver.
  destruct (fill_common_spec element (if fs then src else "") (if fd then dst else "")
    (Contains element "Delta") isLatest fs fd v (u64_or_0 r0 element)
    (if fs then node_value (Contains element "Delta") v (u64_or_0 r0 src) else u64_or_0 r0 src)
    (if fd then node_value (Contains element "Delta") v (u64_or_0 r0 dst) else u64_or_0 r0 dst) r2)
    as (r3 & E3 & Hf3 & Hfr3 & V3); [done| |by destruct fs|by destruct fd|].
  { rewrite (frame_value _ _ _ _ _ Hfr2), (frame_value _ _ _ _ _ Hfr1) by set_solver. apply Hold. left. }
  exists r3. rec_step. split_and!; [done|done| | | |done].
  - eapply frame_trans; [exact Hfr1| |set_solver|reflexivity].
    eapply frame_trans; [exact Hfr2|exact Hfr3|set_solver|set_solver].
  - by rewrite (frame_value _ _ _ _ _ Hfr3) by set_solver.
  - by rewrite (frame_value _ _ _ _ _ Hfr3) by set_solver.
Qed.

(** ** Lemmas: throughput *)

Definition throughput_names (els : AggregationElements) (i : nat) (element : string) : list string :=
  [element; default "" (SourceThroughputElements els !! i);
   default "" (DestinationThroughputElements els !! i)].

(** The throughput of index [i] after the loop. *)
Definition throughput_post (r : IPFIXRecord) (els : AggregationElements) (vals : list Z)
    (isLatest fs fd : bool) (i : nat) (element : string) (r' : IPFIXRecord) : Prop :=
  let src := default "" (SourceThroughputElements els !! i) in
  let dst := default "" (DestinationThroughputElements els !! i) in
  let v := default 0 (vals !! i) in
  u64_at r' src = Some (if fs then v else u64_or_0 r src) ∧
  u64_at r' dst = Some (if fd then v else u64_or_0 r dst) ∧
  u64_at r' element = Some (if isLatest then v else u64_or_0 r element).

Lemma set_throughput_spec name vals i v old r :
  full r → u64_at r name = Some old → vals !! i = Some v →
  ∃ r', set_throughput name vals i r = (Ok tt, r') ∧ full r' ∧ frame [name] r r' ∧
    u64_at r' name = Some v.
Proof.
  intros Hf Hold Hv. pose proof Hold as (e & He & _)%value_at_Some.
  destruct (set_value_spec GetUnsigned64Value SetUnsigned64Value name v old r)
    as (r' & E & Hf' & Hn & Hfr); [exact law_u64|done..|].
  assert (Ei : at_index vals i = Ok v) by (unfold at_index; by rewrite Hv).
  exists r'. unfold set_throughput. by repeat rec_step.
Qed.

Lemma optional_throughput_spec (b : bool) names name vals i v old r :
  full r → u64_at r name = Some old → names !! i = Some name → vals !! i = Some v →
  ∃ r', (if b then n ← M_lift (at_index names i); set_throughput n vals i else mret tt) r =
          (Ok tt, r') ∧ full r' ∧ frame [name] r r' ∧
    u64_at r' name = Some (if b then v else old).
Proof.
  intros Hf Hold Hn Hv. apply optional_spec; [done..|]. intros _.
  assert (E : at_index names i = Ok name) by (unfold at_index; by rewrite Hn).
  rec_step. by eapply set_throughput_spec.
Qed.

Lemma aggregate_throughput_spec els vals isLatest fs fd i element src dst r r0 :
  SourceThroughputElements els !! i = Some src →
  DestinationThroughputElements els !! i = Some dst →
  is_Some (vals !! i) → NoDup [element; src; dst] →
  (∀ n, n ∈ [element; src; dst] → is_Some (u64_at r0 n)) →
  full r → agree [element; src; dst] r0 r →
  ∃ r', aggregate_throughput els vals isLatest fs fd i element r = (Ok tt, r') ∧
    full r' ∧ frame (throughput_names els i element) r r' ∧
    throughput_post r0 els vals isLatest fs fd i element r'.
Proof.
  intros Hsrc Hdst [v Hv] Hnd Hu Hf Ha.
  assert (Hold : ∀ n, n ∈ [element; src; dst] → u64_at r n = Some (u64_or_0 r0 n)).
  { intros n Hn. rewrite (agree_value _ _ _ _ _ Ha Hn). unfold u64_or_0.
    by destruct (Hu n Hn) as [? ->]. }
  inversion_clear Hnd as [|? ? H1 Hnd']. inversion_clear Hnd' as [|? ? H2 _].
  rewrite !not_elem_of_cons in H1. rewrite list_elem_of_singleton in H2. destruct H1 as (N1 & N2 & _).
  unfold throughput_post, throughput_names. rewrite Hsrc, Hdst, Hv. cbn [default from_option id].
  destruct (optional_throughput_spec fs (SourceThroughputElements els) src vals i v (u64_or_0 r0 src) r)
    as (r1 & E1 & Hf1 & Hfr1 & V1); [done|apply Hold; set_solver|done|done|].
  destruct (optional_throughput_spec fd (DestinationThroughputElements els) dst vals i v
    (u64_or_0 r0 dst) r1) as (r2 & E2 & Hf2 & Hfr2 & V2);
    [done|rewrite (frame_value _ _ _ _ _ Hfr1) by set_solver; apply Hold; set_solver|done|done|].
  assert (Hc : u64_at r2 element = Some (u64_or_0 r0 element)).
  { rewrite (frame_value _ _ _ _ _ Hfr2), (frame_value _ _ _ _ _ Hfr1) by set_solver. apply Hold. left. }
  destruct (optional_spec isLatest (set_throughput element vals i) element (u64_or_0 r0 element) v r2)
    as (r3 & E3 & Hf3 & Hfr3 & V3); [done|done|intros _; by eapply set_throughput_spec|].
  exists r3. unfold aggregate_throughput. rec_step. rec_step. split_and!; [done|done| | | |done].
  - eapply frame_trans; [exact Hfr1| |set_solver|reflexivity].
    eapply frame_trans; [exact Hfr2|exact Hfr3|set_solver|set_solver].
  - rewrite (frame_value _ _ _ _ _ Hfr3) by set_solver.
    by rewrite (frame_value _ _ _ _ _ Hfr2) by set_solver.
  - by rewrite (frame_value _ _ _ _ _ Hfr3) by set_solver.
Qed.

(** ** Lemmas: three lists of names side by side *)

Definition row (l2 l3 : list string) (i : nat) (x : string) : list string :=
  [x; default "" (l2 !! i); default "" (l3 !! i)].

(** Where the names of a row are in the three lists. *)
Lemma row_position l1 l2 l3 i x n :
  length l2 = length l1 → length l3 = length l1 → l1 !! i = Some x → n ∈ row l2 l3 i x →
  ∃ k, (l1 ++ l2 ++ l3) !! (k * length l1 + i)%nat = Some n ∧ (k < 3)%nat ∧ (i < length l1)%nat.
Proof.
  intros H2 H3 Hx Hn. pose proof (lookup_lt_Some _ _ _ Hx) as Hi.
  destruct (lookup_lt_is_Some_2 l2 i) as [y Hy]; [lia|].
  destruct (lookup_lt_is_Some_2 l3 i) as [z Hz]; [lia|].
  unfold row in Hn. rewrite Hy, Hz in Hn. simpl in Hn. rewrite !elem_of_cons, elem_of_nil in Hn.
  destruct Hn as [->|[->|[->|[]]]]; [exists 0%nat|exists 1%nat|exists 2%nat];
    (split; [|by split; [lia|]]).
  - by rewrite lookup_app_l by lia.
  - rewrite lookup_app_r, lookup_app_l by lia. by replace (1 * length l1 + i - length l1)%nat with i by lia.
  - rewrite !lookup_app_r by lia.
    by replace (2 * length l1 + i - length l1 - length l2)%nat with i by lia.
Qed.

Lemma rows_disjoint l1 l2 l3 i j x y n :
  NoDup (l1 ++ l2 ++ l3) → length l2 = length l1 → length l3 = length l1 →
  l1 !! i = Some x → l1 !! j = Some y → i ≠ j → n ∈ row l2 l3 i x → n ∉ row l2 l3 j y.
Proof.
  intros Hnd H2 H3 Hx Hy Hij Hn Hn'.
  destruct (row_position l1 l2 l3 i x n) as (k & Hk & ? & ?); [done..|].
  destruct (row_position l1 l2 l3 j y n) as (k' & Hk' & ? & ?); [done..|].
  pose proof (NoDup_lookup _ _ _ _ Hnd Hk Hk'). destruct k as [|[|[|]]], k' as [|[|[|]]]; lia.
Qed.

Lemma row_in l1 l2 l3 i x n :
  length l2 = length l1 → length l3 = length l1 → l1 !! i = Some x → n ∈ row l2 l3 i x →
  n ∈ l1 ++ l2 ++ l3.
Proof.
  intros H2 H3 Hx Hn. destruct (row_position l1 l2 l3 i x n) as (k & Hk & _); [done..|].
  by eapply list_elem_of_lookup_2.
Qed.

Lemma row_NoDup (l1 l2 l3 : list string) i x y z :
  NoDup (l1 ++ l2 ++ l3) → l1 !! i = Some x → l2 !! i = Some y → l3 !! i = Some z →
  NoDup [x; y; z].
Proof.
  intros Hnd Hx Hy Hz. apply list.NoDup_app in Hnd as (_ & D1 & (_ & D2 & _)%list.NoDup_app).
  apply list_elem_of_lookup_2 in Hx, Hy, Hz. specialize (D1 x Hx). specialize (D2 y Hy).
  rewrite elem_of_app in D1.
  repeat constructor; rewrite ?elem_of_cons, ?elem_of_nil; naive_solver.
Qed.

(** ** Lemmas: times and the elements that are not statistics *)

Definition u32_or_0 (r : IPFIXRecord) (name : string) : Z := default 0 (u32_at r name).
Definition has_u32 (r : IPFIXRecord) (name : string) : Prop :=
  is_Some (u32_at r name) ∧ in_u 32 (u32_or_0 r name).

Lemma has_u32_at r name : has_u32 r name → u32_at r name = Some (u32_or_0 r name).
Proof. unfold u32_or_0. by intros [[v ->] _]. Qed.

Definition time_names : list string :=
  ["flowEndSeconds"; "flowEndSecondsFromSourceNode"; "flowEndSecondsFromDestinationNode"].

Definition node_time (isSrc : bool) : string :=
  if isSrc then "flowEndSecondsFromSourceNode" else "flowEndSecondsFromDestinationNode".

(** The time of the previous record of a node. *)
Definition prev_time (inc r : IPFIXRecord) (isSrc : bool) : Z :=
  if decide (u32_or_0 r (node_time isSrc) = 0) then u32_or_0 inc "flowStartSeconds"
  else u32_or_0 r (node_time isSrc).

(** [prevFlowEndSeconds]: when both nodes are filled, the destination's. *)
Definition prevFlowEndSeconds (inc r : IPFIXRecord) (fs fd : bool) : Z :=
  if fd then prev_time inc r false else if fs then prev_time inc r true else 0.

Lemma updateFlowEndSeconds_spec inc r0 r isSrc v :
  full inc → full r → has_u32 inc "flowStartSeconds" → has_u32 r0 (node_time isSrc) →
  u32_at r (node_time isSrc) = u32_at r0 (node_time isSrc) →
  ∃ r', updateFlowEndSecondsFromNodes inc isSrc v r = (Ok (prev_time inc r0 isSrc), r') ∧ full r' ∧
    frame [node_time isSrc] r r' ∧ u32_at r' (node_time isSrc) = Some v.
Proof.
  intros Hinc Hf Hst Hn Hr. rewrite (has_u32_at _ _ Hn) in Hr.
  pose proof Hr as (e & He & Hv)%value_at_Some.
  pose proof (has_u32_at _ _ Hst) as (s & Hs & Hsv)%value_at_Some.
  assert (Hsi : must_element "flowStartSeconds" inc = Ok s) by (by apply full_must_element).
  destruct (set_value_spec GetUnsigned32Value SetUnsigned32Value (node_time isSrc) v
    (u32_or_0 r0 (node_time isSrc)) r) as (r' & E & Hf' & Hn' & Hfr); [exact law_u32|done..|].
  exists r'. split_and!; try done. unfold updateFlowEndSecondsFromNodes. fold (node_time isSrc).
  rec_step. rec_step. unfold prev_time.
  destruct (decide (u32_or_0 r0 (node_time isSrc) = 0)).
  - erewrite M_bind_Ok by (rec_step; unfold M_lift; by rewrite Hsv). by rec_step.
  - rec_step. by rec_step.
Qed.

Lemma optional_update_spec (b : bool) inc r0 r isSrc v prev :
  full inc → full r → has_u32 inc "flowStartSeconds" → has_u32 r0 (node_time isSrc) →
  u32_at r (node_time isSrc) = u32_at r0 (node_time isSrc) →
  ∃ r', (if b then updateFlowEndSecondsFromNodes inc isSrc v else mret prev) r =
          (Ok (if b then prev_time inc r0 isSrc else prev), r') ∧ full r' ∧
    frame [node_time isSrc] r r' ∧
    u32_at r' (node_time isSrc) = Some (if b then v else u32_or_0 r0 (node_time isSrc)).
Proof.
  intros. destruct b; [by apply updateFlowEndSeconds_spec|].
  exists r. split_and!; auto using frame_refl. by rewrite <- has_u32_at.
Qed.

(** The times of the stored record after an incoming one. *)
Definition times_post (inc r : IPFIXRecord) (fs fd : bool) (r' : IPFIXRecord) : Prop :=
  let v := u32_or_0 inc "flowEndSeconds" in
  u32_at r' "flowEndSeconds" = Some (Z.max (u32_or_0 r "flowEndSeconds") v) ∧
  u32_at r' (node_time true) = Some (if fs then v else u32_or_0 r (node_time true)) ∧
  u32_at r' (node_time false) = Some (if fd then v else u32_or_0 r (node_time false)).

Lemma update_times_spec inc r fs fd :
  full inc → full r → has_u32 inc "flowStartSeconds" → has_u32 inc "flowEndSeconds" →
  Forall (has_u32 r) time_names →
  let v := u32_or_0 inc "flowEndSeconds" in
  let prev := prevFlowEndSeconds inc r fs fd in
  ∃ r', update_times inc fs fd r =
          (Ok (if decide (v <= prev) then None
               else Some (bool_decide (u32_or_0 r "flowEndSeconds" <= v), u32 (v - prev))), r') ∧
    full r' ∧ frame time_names r r' ∧ times_post inc r fs fd r'.
Proof.
  intros Hinc Hf Hst Hend Ht v prev. unfold time_names in Ht.
  apply list.Forall_cons in Ht as (H1 & (H2 & (H3 & _)%list.Forall_cons)%list.Forall_cons).
  pose proof (has_u32_at _ _ Hend) as (e & He & Hv)%value_at_Some.
  pose proof (has_u32_at _ _ H1) as Hold. pose proof Hold as (e2 & He2 & Hv2)%value_at_Some.
  assert (Hei : element_of "flowEndSeconds" inc = Ok (Some e)) by (rewrite full_element_of, He; done).
  assert (Her : element_of "flowEndSeconds" r = Ok (Some e2)) by (rewrite full_element_of, He2; done).
  unfold update_times. rec_step. rec_step. rec_step. rec_step. fold v.
  assert (S1 : ∃ r1, (if bool_decide (u32_or_0 r "flowEndSeconds" <= v)
      then set_element "flowEndSeconds" (SetUnsigned32Value v) else mret tt) r = (Ok tt, r1) ∧ full r1 ∧
      frame ["flowEndSeconds"] r r1 ∧
      u32_at r1 "flowEndSeconds" = Some (Z.max (u32_or_0 r "flowEndSeconds") v)).
  { case_bool_decide; [|exists r; rewrite Z.max_l by lia; split_and!; auto using frame_refl].
    rewrite Z.max_r by done.
    destruct (set_value_spec GetUnsigned32Value SetUnsigned32Value "flowEndSeconds" v
      (u32_or_0 r "flowEndSeconds") r) as (r1 & E & ? & ? & ?); [exact law_u32|done..|]. eauto. }
  destruct S1 as (r1 & E1 & Hf1 & Hfr1 & V1). rec_step.
  destruct (optional_update_spec fs inc r r1 true v 0) as (r2 & E2 & Hf2 & Hfr2 & V2);
    [done..|apply (frame_value _ _ _ _ _ Hfr1); set_solver|]. rec_step.
  destruct (optional_update_spec fd inc r r2 false v (if fs then prev_time inc r true else 0))
    as (r3 & E3 & Hf3 & Hfr3 & V3); [done..| |].
  { rewrite (frame_value _ _ _ _ _ Hfr2), (frame_value _ _ _ _ _ Hfr1) by set_solver. done. }
  rec_step. change (if fd then _ else _) with prev.
  exists r3. split_and!; [by destruct (decide (v <= prev))|done| |split_and!; [..|done]].
  - eapply frame_trans; [exact Hfr1| |set_solver|reflexivity].
    eapply frame_trans; [exact Hfr2|exact Hfr3|set_solver|set_solver].
  - by rewrite (frame_value _ _ _ _ _ Hfr3), (frame_value _ _ _ _ _ Hfr2) by set_solver.
  - by rewrite (frame_value _ _ _ _ _ Hfr3) by set_solver.
Qed.

(** The names outside the statistics that aggregation writes. *)
Definition other_names (element : string) : list string :=
  if decide (element = "flowEndReason" ∨ element = "tcpState") then [element] else [].

(** The records have what one of [NonStatsElements] needs. *)
Definition non_stats_ok (inc r : IPFIXRecord) (element : string) : Prop :=
  is_Some (lookup_rec inc element) ∧
  (element = "flowEndReason" → is_Some (u8_at inc element) ∧ is_Some (u8_at r element)) ∧
  (element = "tcpState" → is_Some (string_at inc element) ∧ is_Some (string_at r element)).

(** The end reason stays when the flow has ended, the TCP state is the latest. *)
Definition non_stats_post (inc r : IPFIXRecord) (isLatest : bool) (element : string)
    (r' : IPFIXRecord) : Prop :=
  (element = "flowEndReason" →
   u8_at r' element = if decide (u8_at r element = Some EndOfFlowReason) then u8_at r element
                      else u8_at inc element) ∧
  (element = "tcpState" →
   string_at r' element = if isLatest then string_at inc element else string_at r element).

Lemma aggregate_non_stats_spec inc r0 r isLatest element :
  full inc → full r → non_stats_ok inc r0 element → agree (other_names element) r0 r →
  ∃ r', aggregate_non_stats inc isLatest element r = (Ok tt, r') ∧ full r' ∧
    frame (other_names element) r r' ∧ non_stats_post inc r0 isLatest element r'.
Proof.
  intros Hinc Hf (He & Hreason & Htcp) Ha. destruct He as [e He].
  assert (Hei : element_of element inc = Ok (Some e)) by (rewrite full_element_of, He; done).
  pose proof (lookup_rec_name _ _ _ Hinc He) as Hname.
  unfold aggregate_non_stats, non_stats_post. rec_step. rec_step. rewrite Hname.
  destruct (decide (element = "flowEndReason")) as [->|N1]; [|destruct (decide (element = "tcpState")) as [->|N2]].
  - change (other_names "flowEndReason") with ["flowEndReason"] in *. destruct (Hreason eq_refl) as [[v Hv] [old Hold]].
    rewrite <- (agree_value _ _ _ _ _ Ha) in Hold by left. rewrite <- !(agree_value _ _ _ _ _ Ha) by left.
    rewrite Hv, Hold. apply value_at_Some in Hv as (e' & He' & Hv). simplify_eq.
    pose proof Hold as (e0 & He0 & Hv0)%value_at_Some. cbn [switch String.eqb Ascii.eqb Bool.eqb].
    repeat rec_step.
    destruct (decide (old = EndOfFlowReason)) as [->|].
    + exists r. rewrite decide_True by done. split_and!; auto using frame_refl. intros [=].
    + destruct (set_value_spec GetUnsigned8Value SetUnsigned8Value "flowEndReason" v old r)
        as (r' & E & ? & ? & ?); [exact law_u8|done..|].
      exists r'. rewrite decide_False by congruence. split_and!; auto. intros [=].
  - change (other_names "tcpState") with ["tcpState"] in *. destruct (Htcp eq_refl) as [[v Hv] [old Hold]].
    rewrite <- (agree_value _ _ _ _ _ Ha) in Hold by left. rewrite <- !(agree_value _ _ _ _ _ Ha) by left.
    rewrite Hv, Hold. apply value_at_Some in Hv as (e' & He' & Hv). simplify_eq.
    cbn [switch String.eqb Ascii.eqb Bool.eqb].
    destruct isLatest; [|exists r; split_and!; auto using frame_refl; intros [=]].
    rec_step. destruct (set_value_spec GetStringValue SetStringValue "tcpState" v old r)
      as (r' & E & ? & ? & ?); [exact law_string|done..|].
    exists r'. split_and!; auto. intros [=].
  - exists r. cbn [switch]. rewrite (proj2 (String.eqb_neq _ _) N1), (proj2 (String.eqb_neq _ _) N2).
    split_and!; auto using frame_refl; [by destruct (String.eqb _ _)|done|done].
Qed.

(** ** Lemmas: the loops of [aggregateRecords] *)

Definition stats_list (els : AggregationElements) : list string :=
  StatsElements els ++ AggregatedSourceStatsElements els ++ AggregatedDestinationStatsElements els.
Definition throughput_list (els : AggregationElements) : list string :=
  ThroughputElements els ++ SourceThroughputElements els ++ DestinationThroughputElements els.
Definition reason_names : list string := ["flowEndReason"; "tcpState"].

(** A configuration: the lists correspond to each other, at most two throughputs
    are computed, and no name is used twice. *)
Definition wf_elements (els : AggregationElements) : Prop :=
  length (AggregatedSourceStatsElements els) = length (StatsElements els) ∧
  length (AggregatedDestinationStatsElements els) = length (StatsElements els) ∧
  length (SourceThroughputElements els) = length (ThroughputElements els) ∧
  length (DestinationThroughputElements els) = length (ThroughputElements els) ∧
  (length (ThroughputElements els) <= 2)%nat ∧
  NoDup (NonStatsElements els) ∧
  NoDup (time_names ++ reason_names ++ stats_list els ++ throughput_list els).

(** The records have the elements of the configuration, with the right types. *)
Definition aggregatable (inc r : IPFIXRecord) (els : AggregationElements) : Prop :=
  full inc ∧ full r ∧ has_u32 inc "flowStartSeconds" ∧ has_u32 inc "flowEndSeconds" ∧
  Forall (has_u32 r) time_names ∧ Forall (non_stats_ok inc r) (NonStatsElements els) ∧
  Forall (λ n, is_Some (u64_at inc n)) (StatsElements els) ∧
  Forall (λ n, is_Some (u64_at r n)) (stats_list els ++ throughput_list els).

Lemma mjoin_imap_subset (W : nat → string → list string) l V :
  (∀ i x n, l !! i = Some x → n ∈ W i x → n ∈ V) → mjoin (imap W l) ⊆ V.
Proof.
  intros H n (w & Hn & (i & x & -> & Hx)%elem_of_lookup_imap)%list_elem_of_join. eauto.
Qed.

Lemma frame_subset W V r r' : frame W r r' → W ⊆ V → frame V r r'.
Proof. intros Hf Hs n Hn. apply Hf. intros ?. by apply Hn, Hs. Qed.

Section loops.
Variables (inc r0 : IPFIXRecord) (els : AggregationElements) (isLatest fs fd : bool).
Hypotheses (Hwf : wf_elements els) (Hok : aggregatable inc r0 els).

Lemma non_stats_loop r :
  full r → agree reason_names r0 r →
  ∃ r', rec_iter (λ _, aggregate_non_stats inc isLatest) (NonStatsElements els) r = (Ok tt, r') ∧
    full r' ∧ frame reason_names r r' ∧
    ∀ x, x ∈ NonStatsElements els → non_stats_post inc r0 isLatest x r'.
Proof.
  intros Hf Ha. destruct Hok as (Hinc & _ & _ & _ & _ & Hns & _).
  destruct Hwf as (_ & _ & _ & _ & _ & Hnd & _).
  assert (Hsub : ∀ x, other_names x ⊆ reason_names).
  { intros x n. unfold other_names, reason_names. case_decide as Hx; [|by intros ?%not_elem_of_nil].
    intros ->%list_elem_of_singleton. destruct Hx as [->| ->]; set_solver. }
  destruct (rec_fold_spec (λ _ x _, aggregate_non_stats inc isLatest x) (λ _ _ _, tt)
    (λ _, other_names) (λ _, non_stats_post inc r0 isLatest) (NonStatsElements els) r0)
    with (acc := tt) (r := r) as (r' & E & Hf' & Hfr & HP).
  - intros i x [] r1 Hx Hf1 Ha1. eapply Forall_lookup_1 in Hns; [|done].
    by apply aggregate_non_stats_spec.
  - intros i x r1 r2 [P1 P2] Ha1. unfold other_names in Ha1.
    split; intros ->; rewrite (agree_value _ _ _ _ _ Ha1) by left; auto.
  - intros i j x y n Hx Hy Hij Hn Hn'. unfold other_names in Hn, Hn'.
    assert (x = n ∧ y = n) as [-> ->] by (revert Hn Hn'; repeat case_decide; set_solver).
    apply Hij. by eapply NoDup_lookup.
  - done.
  - intros i x Hx n Hn. apply Ha. by apply (Hsub x).
  - exists r'. assert (Ht : fold_at (λ (_ : nat) (_ : string) (_ : unit), tt) 0 (NonStatsElements els) tt = tt)
      by (by destruct (fold_at _ _ _ _)).
    rewrite Ht in E. split_and!; [done|done| |].
    + eapply frame_subset; [done|]. apply mjoin_imap_subset. intros i x n _. apply Hsub.
    + intros x [i Hx]%list_elem_of_lookup. by apply (HP i).
Qed.

Lemma stats_loop r :
  full r → agree (stats_list els) r0 r →
  ∃ r', rec_fold (aggregate_stats inc els isLatest fs fd) 0 (StatsElements els) (0, 0) r =
          (Ok (fold_at (stats_diffs inc r0 els fs fd) 0 (StatsElements els) (0, 0)), r') ∧
    full r' ∧ frame (stats_list els) r r' ∧
    ∀ i x, StatsElements els !! i = Some x → stats_post inc r0 els isLatest fs fd i x r'.
Proof.
  intros Hf Ha. destruct Hok as (Hinc & _ & _ & _ & _ & _ & Hi & Hr). apply Forall_app in Hr as [Hr _].
  destruct Hwf as (L1 & L2 & _ & _ & _ & _ & Hnd).
  do 2 apply list.NoDup_app in Hnd as (_ & _ & Hnd). apply list.NoDup_app in Hnd as (Hnd & _).
  assert (Hin : ∀ i x n, StatsElements els !! i = Some x → n ∈ stats_names els i x → n ∈ stats_list els)
    by (intros i x n; by apply row_in).
  destruct (rec_fold_spec (aggregate_stats inc els isLatest fs fd) (stats_diffs inc r0 els fs fd)
    (stats_names els) (stats_post inc r0 els isLatest fs fd) (StatsElements els) r0)
    with (acc := (0, 0)) (r := r) as (r' & E & Hf' & Hfr & HP).
  - intros i x acc r1 Hx Hf1 Ha1. pose proof (lookup_lt_Some _ _ _ Hx) as Hlt.
    destruct (lookup_lt_is_Some_2 (AggregatedSourceStatsElements els) i) as [src Hs]; [lia|].
    destruct (lookup_lt_is_Some_2 (AggregatedDestinationStatsElements els) i) as [dst Hd]; [lia|].
    pose proof (Hin i x) as Hin'. unfold stats_names in Ha1, Hin'. rewrite Hs, Hd in Ha1, Hin'.
    apply (aggregate_stats_spec inc els isLatest fs fd i x src dst); try done.
    + by eapply (Forall_lookup_1 _ _ _ _ Hi).
    + by eapply row_NoDup.
    + intros n Hn. rewrite list.Forall_forall in Hr. apply Hr, Hin'; done.
  - intros i x r1 r2 (P1 & P2 & P3) Ha1. unfold stats_names in Ha1. split_and!;
      (rewrite (agree_value _ _ _ _ _ Ha1); [done|set_solver]).
  - intros i j x y n. by apply rows_disjoint.
  - done.
  - intros i x Hx n Hn. apply Ha. eauto.
  - exists r'. split_and!; [done..| |done]. eapply frame_subset; [done|]. by apply mjoin_imap_subset.
Qed.

Lemma throughput_loop vals r :
  length vals = 2%nat → full r → agree (throughput_list els) r0 r →
  ∃ r', rec_iter (aggregate_throughput els vals isLatest fs fd) (ThroughputElements els) r =
          (Ok tt, r') ∧
    full r' ∧ frame (throughput_list els) r r' ∧
    ∀ i x, ThroughputElements els !! i = Some x → throughput_post r0 els vals isLatest fs fd i x r'.
Proof.
  intros Hvals Hf Ha. destruct Hok as (_ & _ & _ & _ & _ & _ & _ & Hr). apply Forall_app in Hr as [_ Hr].
  destruct Hwf as (_ & _ & L1 & L2 & L3 & _ & Hnd). do 3 apply list.NoDup_app in Hnd as (_ & _ & Hnd).
  assert (Hin : ∀ i x n, ThroughputElements els !! i = Some x → n ∈ throughput_names els i x →
    n ∈ throughput_list els) by (intros i x n; by apply row_in).
  destruct (rec_fold_spec (λ i x _, aggregate_throughput els vals isLatest fs fd i x) (λ _ _ _, tt)
    (throughput_names els) (throughput_post r0 els vals isLatest fs fd) (ThroughputElements els) r0)
    with (acc := tt) (r := r) as (r' & E & Hf' & Hfr & HP).
  - intros i x [] r1 Hx Hf1 Ha1. pose proof (lookup_lt_Some _ _ _ Hx) as Hlt.
    destruct (lookup_lt_is_Some_2 (SourceThroughputElements els) i) as [src Hs]; [lia|].
    destruct (lookup_lt_is_Some_2 (DestinationThroughputElements els) i) as [dst Hd]; [lia|].
    pose proof (Hin i x) as Hin'. unfold throughput_names in Ha1, Hin'. rewrite Hs, Hd in Ha1, Hin'.
    apply (aggregate_throughput_spec els vals isLatest fs fd i x src dst); try done.
    + apply lookup_lt_is_Some_2. lia.
    + by eapply row_NoDup.
    + intros n Hn. rewrite list.Forall_forall in Hr. apply Hr, Hin'; done.
  - intros i x r1 r2 (P1 & P2 & P3) Ha1. unfold throughput_names in Ha1. split_and!;
      (rewrite (agree_value _ _ _ _ _ Ha1); [done|set_solver]).
  - intros i j x y n. by apply rows_disjoint.
  - done.
  - intros i x Hx n Hn. apply Ha. eauto.
  - exists r'. assert (Ht : fold_at (λ (_ : nat) (_ : string) (_ : unit), tt) 0 (ThroughputElements els) tt = tt)
      by (by destruct (fold_at _ _ _ _)).
    rewrite Ht in E. split_and!; [done..| |done]. eapply frame_subset; [done|]. by apply mjoin_imap_subset.
Qed.

End loops.

Lemma prev_time_range inc r isSrc :
  has_u32 inc "flowStartSeconds" → Forall (has_u32 r) time_names → in_u 32 (prev_time inc r isSrc).
Proof.
  intros [_ H1] H2. unfold time_names in H2.
  apply list.Forall_cons in H2 as (_ & ([_ H2] & ([_ H3] & _)%list.Forall_cons)%list.Forall_cons).
  unfold prev_time. case_decide; [done|]. by destruct isSrc.
Qed.

Lemma prevFlowEndSeconds_range inc r fs fd :
  has_u32 inc "flowStartSeconds" → Forall (has_u32 r) time_names →
  in_u 32 (prevFlowEndSeconds inc r fs fd).
Proof.
  intros. unfold prevFlowEndSeconds.
  destruct fd; [by apply prev_time_range|]. destruct fs; [by apply prev_time_range|done].
Qed.

Lemma time_diff inc r els fs fd :
  aggregatable inc r els →
  let v := u32_or_0 inc "flowEndSeconds" in
  let prev := prevFlowEndSeconds inc r fs fd in
  ¬ v <= prev → u32 (v - prev) = v - prev ∧ 0 < v - prev.
Proof.
  intros (_ & _ & Hst & [_ [? ?]] & Ht & _) v prev Hv.
  destruct (prevFlowEndSeconds_range inc r fs fd Hst Ht). split; [|lia].
  unfold u32. apply Z.mod_small. subst v prev. lia.
Qed.

(** The values of [throughputVals], from the growth of the totals and the time. *)
Definition throughput_values (inc r : IPFIXRecord) (els : AggregationElements) (fs fd : bool)
    : list Z :=
  let diffs := fold_at (stats_diffs inc r els fs fd) 0 (StatsElements els) (0, 0) in
  let seconds := u32_or_0 inc "flowEndSeconds" - prevFlowEndSeconds inc r fs fd in
  [u64 (diffs.1 * 8) / seconds; u64 (diffs.2 * 8) / seconds].

(** The specification of [aggregateRecords]. *)
Definition aggregated (inc r : IPFIXRecord) (els : AggregationElements) (fs fd : bool)
    (r' : IPFIXRecord) : Prop :=
  let isLatest := bool_decide (u32_or_0 r "flowEndSeconds" <= u32_or_0 inc "flowEndSeconds") in
  full r' ∧ times_post inc r fs fd r' ∧
  (if decide (u32_or_0 inc "flowEndSeconds" <= prevFlowEndSeconds inc r fs fd)
  then frame time_names r r'
  else
    frame (time_names ++ reason_names ++ stats_list els ++ throughput_list els) r r' ∧
    (∀ x, x ∈ NonStatsElements els → non_stats_post inc r isLatest x r') ∧
    (∀ i x, StatsElements els !! i = Some x → stats_post inc r els isLatest fs fd i x r') ∧
    (∀ i x, ThroughputElements els !! i = Some x →
       throughput_post r els (throughput_values inc r els fs fd) isLatest fs fd i x r')).

(** The names of the four parts of the record are different. *)
Lemma disjoint_parts els :
  wf_elements els →
  (∀ n, n ∈ reason_names → n ∉ time_names) ∧
  (∀ n, n ∈ stats_list els → (n ∉ time_names) ∧ (n ∉ reason_names)) ∧
  (∀ n, n ∈ throughput_list els →
     (n ∉ time_names) ∧ (n ∉ reason_names) ∧ (n ∉ stats_list els)).
Proof.
  intros (_ & _ & _ & _ & _ & _ & H).
  apply list.NoDup_app in H as (_ & H1 & H). apply list.NoDup_app in H as (_ & H2 & H).
  apply list.NoDup_app in H as (_ & H3 & _).
  setoid_rewrite elem_of_app in H1. setoid_rewrite elem_of_app in H1.
  setoid_rewrite elem_of_app in H2. naive_solver.
Qed.

Lemma stats_post_agree inc r els isLatest fs fd i x r1 r2 :
  wf_elements els → StatsElements els !! i = Some x → agree (stats_list els) r1 r2 →
  stats_post inc r els isLatest fs fd i x r1 → stats_post inc r els isLatest fs fd i x r2.
Proof.
  intros (L1 & L2 & _) Hx Ha (P1 & P2 & P3).
  split_and!; (rewrite (agree_value _ _ _ _ _ Ha); [done|]);
    (eapply (row_in _ _ _ i x); [done..|unfold row; set_solver]).
Qed.

Lemma non_stats_post_agree inc r isLatest x r1 r2 :
  agree reason_names r1 r2 → non_stats_post inc r isLatest x r1 → non_stats_post inc r isLatest x r2.
Proof.
  intros Ha [P1 P2]. split; intros ->; (rewrite (agree_value _ _ _ _ _ Ha); [auto|]);
    unfold reason_names; set_solver.
Qed.

Lemma times_post_agree inc r fs fd r1 r2 :
  agree time_names r1 r2 → times_post inc r fs fd r1 → times_post inc r fs fd r2.
Proof.
  intros Ha (P1 & P2 & P3). split_and!; (rewrite (agree_value _ _ _ _ _ Ha); [done|]);
    unfold time_names; set_solver.
Qed.

Lemma aggregateRecords_spec inc r els fs fd :
  wf_elements els → aggregatable inc r els →
  ∃ r', aggregateRecords (Some els) inc fs fd r = (Ok tt, r') ∧ aggregated inc r els fs fd r'.
Proof.
  intros Hwf Hok. destruct (disjoint_parts els Hwf) as (D1 & D2 & D3).
  pose proof Hok as (Hinc & Hf & Hst & Hend & Ht & _).
  destruct (update_times_spec inc r fs fd Hinc Hf Hst Hend Ht) as (r1 & E1 & Hf1 & Hfr1 & HT).
  pose proof (time_diff inc r els fs fd Hok) as Hdiff. cbv zeta in Hdiff.
  unfold aggregateRecords, aggregated. rec_step.
  set (isLatest := bool_decide _). destruct (decide (_ <= _)) as [Hle|Hgt]; [by exists r1|].
  destruct (Hdiff Hgt) as [-> Hpos].
  destruct (non_stats_loop inc r els isLatest Hwf Hok r1 Hf1) as (r2 & E2 & Hf2 & Hfr2 & P2).
  { by eapply frame_agree. }
  rec_step. destruct (stats_loop inc r els isLatest fs fd Hwf Hok r2 Hf2) as (r3 & E3 & Hf3 & Hfr3 & P3).
  { intros n [N1 N2]%D2. by rewrite Hfr2, Hfr1. }
  rec_step. unfold bits_per_second. rewrite !decide_False by lia. rec_step. rec_step.
  destruct (throughput_loop inc r els isLatest fs fd Hwf Hok (throughput_values inc r els fs fd) r3
    eq_refl Hf3) as (r4 & E4 & Hf4 & Hfr4 & P4).
  { intros n (N1 & N2 & N3)%D3. by rewrite Hfr3, Hfr2, Hfr1. }
  exists r4. split; [exact E4|]. split_and!; [done| | | | |done].
  - eapply times_post_agree; [|exact HT]. intros n Hn.
    rewrite Hfr4, Hfr3, Hfr2; [done|intros ?..]; naive_solver.
  - intros n. rewrite !not_elem_of_app. intros (N1 & N2 & N3 & N4). by rewrite Hfr4, Hfr3, Hfr2, Hfr1.
  - intros x Hx. eapply non_stats_post_agree; [|by apply P2]. intros n Hn.
    rewrite Hfr4, Hfr3; [done|intros ?..]; naive_solver.
  - intros i x Hx. eapply stats_post_agree; [done|done| |by apply P3]. intros n Hn.
    apply Hfr4. naive_solver.
Qed.

(** ** Lemmas: one record after the other *)

Lemma max_in_u w a b : in_u w a → in_u w b → in_u w (Z.max a b).
Proof. unfold in_u. lia. Qed.

Lemma has_u32_value r n v : u32_at r n = Some v → in_u 32 v → has_u32 r n.
Proof. intros Hv Hr. unfold has_u32, u32_or_0. rewrite Hv. split; [eauto|done]. Qed.

Lemma times_kept inc r fs fd r' :
  has_u32 inc "flowEndSeconds" → Forall (has_u32 r) time_names → times_post inc r fs fd r' →
  Forall (has_u32 r') time_names.
Proof.
  intros [_ Hi] Ht (P1 & P2 & P3). unfold time_names in Ht.
  apply list.Forall_cons in Ht as ([_ H1] & ([_ H2] & ([_ H3] & _)%list.Forall_cons)%list.Forall_cons).
  repeat apply list.Forall_cons_2; [..|constructor].
  - eapply has_u32_value; [done|by apply max_in_u].
  - eapply has_u32_value; [exact P2|by destruct fs].
  - eapply has_u32_value; [exact P3|by destruct fd].
Qed.

(** Every name of three lists side by side is in a row. *)
Lemma in_row (l1 l2 l3 : list string) n :
  length l2 = length l1 → length l3 = length l1 → n ∈ l1 ++ l2 ++ l3 →
  ∃ i x, l1 !! i = Some x ∧ n ∈ row l2 l3 i x.
Proof.
  intros H2 H3 Hn. rewrite !elem_of_app in Hn. unfold row.
  destruct Hn as [Hn|[Hn|Hn]]; apply list_elem_of_lookup in Hn as [i Hi].
  - exists i, n. split; [done|left].
  - destruct (lookup_lt_is_Some_2 l1 i) as [x Hx]; [rewrite <- H2; by eapply lookup_lt_Some|].
    exists i, x. split; [done|]. rewrite Hi. simpl. set_solver.
  - destruct (lookup_lt_is_Some_2 l1 i) as [x Hx]; [rewrite <- H3; by eapply lookup_lt_Some|].
    exists i, x. split; [done|]. rewrite Hi. simpl. set_solver.
Qed.

Lemma stats_kept inc r els fs fd r' n :
  wf_elements els → aggregated inc r els fs fd r' → n ∈ stats_list els ++ throughput_list els →
  is_Some (u64_at r n) → is_Some (u64_at r' n).
Proof.
  intros Hwf (_ & _ & H) Hn Hr. destruct (disjoint_parts els Hwf) as (_ & D2 & D3).
  destruct (decide (_ <= _)).
  - rewrite (frame_value _ _ _ _ _ H); [done|]. apply elem_of_app in Hn. naive_solver.
  - destruct H as (_ & _ & H1 & H2). destruct Hwf as (L1 & L2 & L3 & L4 & _).
    apply elem_of_app in Hn as [Hn|Hn].
    + apply in_row in Hn as (i & x & Hx & Hn); [|done|done].
      destruct (H1 i x Hx) as (P1 & P2 & P3). unfold row in Hn. rewrite !elem_of_cons, elem_of_nil in Hn.
      destruct Hn as [->|[->|[->|[]]]]; rewrite ?P1, ?P2, ?P3; eauto.
    + apply in_row in Hn as (i & x & Hx & Hn); [|done|done].
      destruct (H2 i x Hx) as (P1 & P2 & P3). unfold row in Hn. rewrite !elem_of_cons, elem_of_nil in Hn.
      destruct Hn as [->|[->|[->|[]]]]; rewrite ?P1, ?P2, ?P3; eauto.
Qed.

Lemma non_stats_kept inc r els fs fd r' inc' n :
  wf_elements els → aggregatable inc r els → aggregated inc r els fs fd r' →
  n ∈ NonStatsElements els → non_stats_ok inc' r n → non_stats_ok inc' r' n.
Proof.
  intros Hwf Hok (_ & _ & H) Hn (O1 & O2 & O3). destruct (disjoint_parts els Hwf) as (D1 & _).
  destruct Hok as (_ & _ & _ & _ & _ & Hns & _). rewrite list.Forall_forall in Hns.
  destruct (Hns n Hn) as (_ & N2 & N3). split; [done|].
  destruct (decide (_ <= _)).
  - split; intros ->; (rewrite (frame_value _ _ _ _ _ H); [auto|]); apply D1; unfold reason_names; set_solver.
  - destruct H as (_ & HP & _). destruct (HP n Hn) as [P1 P2]. split; intros ->.
    + rewrite P1 by done. destruct (N2 eq_refl), (O2 eq_refl). split; [done|]. by case_decide.
    + rewrite P2 by done. destruct (N3 eq_refl), (O3 eq_refl). split; [done|]. by destruct (bool_decide _).
Qed.

(** A stored record that later records could be aggregated with still can be. *)
Lemma aggregatable_kept inc r els fs fd r' inc' :
  wf_elements els → aggregatable inc r els → aggregated inc r els fs fd r' →
  aggregatable inc' r els → aggregatable inc' r' els.
Proof.
  intros Hwf Hok Hag (O1 & O2 & O3 & O4 & O5 & O6 & O7 & O8).
  pose proof Hag as (Hf & Ht & _). pose proof Hok as (_ & _ & _ & Hend & _).
  split_and!; try done.
  - by eapply times_kept.
  - rewrite list.Forall_forall in O6 |- *. intros n Hn. eapply non_stats_kept; eauto.
  - rewrite list.Forall_forall in O8 |- *. intros n Hn. eapply stats_kept; eauto.
Qed.

(** The records of a node, aggregated one after the other. *)
Definition aggregate_run (els : AggregationElements) (fs fd : bool) (incs : list IPFIXRecord)
    : Rec unit :=
  rec_iter (λ _ inc, aggregateRecords (Some els) inc fs fd) incs.

(** Every record ends later than the one before it. *)
Fixpoint in_order (prev : Z) (incs : list IPFIXRecord) : Prop :=
  match incs with
  | [] => True
  | inc :: incs =>
      prev < u32_or_0 inc "flowEndSeconds" ∧ in_order (u32_or_0 inc "flowEndSeconds") incs
  end.

Lemma prev_after inc inc' r els fs fd r' :
  fs || fd = true → aggregatable inc r els → aggregated inc r els fs fd r' →
  0 < u32_or_0 inc "flowEndSeconds" →
  prevFlowEndSeconds inc' r' fs fd = u32_or_0 inc "flowEndSeconds".
Proof.
  intros Hfl _ (_ & (_ & T2 & T3) & _) Hpos. unfold prevFlowEndSeconds, prev_time.
  assert (Hval : ∀ n v, u32_at r' n = Some v → u32_or_0 r' n = v) by (intros n v Hv; unfold u32_or_0; by rewrite Hv).
  destruct fd; [|destruct fs; [|done]].
  - rewrite (Hval _ _ T3). by rewrite decide_False by lia.
  - rewrite (Hval _ _ T2). by rewrite decide_False by lia.
Qed.

(** The node's value after a sequence of records. *)
Definition node_values (isDelta : bool) (old : Z) (vs : list Z) : Z :=
  foldl (λ old v, node_value isDelta v old) old vs.

Lemma run_spec els fs fd incs r prev i :
  wf_elements els → fs || fd = true → full r → Forall (λ inc, aggregatable inc r els) incs →
  (∀ inc, inc ∈ incs → prevFlowEndSeconds inc r fs fd <= prev) → in_order prev incs → 0 <= prev →
  ∃ r', rec_fold (λ _ inc _, aggregateRecords (Some els) inc fs fd) i incs tt r = (Ok tt, r') ∧
    ∀ k n src dst, StatsElements els !! k = Some n →
      AggregatedSourceStatsElements els !! k = Some src →
      AggregatedDestinationStatsElements els !! k = Some dst →
      let vs := (λ inc, u64_or_0 inc n) <$> incs in
      (fs = true → u64_or_0 r' src = node_values (Contains n "Delta") (u64_or_0 r src) vs) ∧
      (fd = true → u64_or_0 r' dst = node_values (Contains n "Delta") (u64_or_0 r dst) vs).
Proof.
  intros Hwf Hfl. revert r prev i. induction incs as [|inc incs IH]; intros r prev i Hf Hok Hprev Ho Hp0.
  { exists r. by split. }
  apply list.Forall_cons in Hok as [Hok Hoks]. destruct Ho as [Hv Ho].
  destruct (aggregateRecords_spec inc r els fs fd Hwf Hok) as (r1 & E & Hag).
  pose proof Hag as (Hf1 & _ & Hpost).
  pose proof (Hprev inc ltac:(left)) as Hle. rewrite decide_False in Hpost by lia.
  destruct Hpost as (_ & _ & HS & _).
  destruct (IH r1 (u32_or_0 inc "flowEndSeconds") (S i)) as (r' & E' & HP); [done|..].
  { apply list.Forall_forall. intros inc' Hi. rewrite list.Forall_forall in Hoks.
    eapply aggregatable_kept; eauto. }
  { intros inc' _. erewrite prev_after by (eauto; lia). done. }
  { done. }
  { lia. }
  exists r'. cbn [rec_fold]. rewrite (M_bind_Ok _ _ _ _ _ E). split; [exact E'|].
  intros k n src dst Hn Hs Hd. destruct (HP k n src dst Hn Hs Hd) as [P1 P2].
  destruct (HS k n Hn) as (Q1 & Q2 & _). rewrite Hs in Q1. rewrite Hd in Q2. simpl in Q1, Q2.
  split; intros ->.
  - rewrite P1 by done. unfold u64_or_0 at 1. by rewrite Q1.
  - rewrite P2 by done. unfold u64_or_0 at 1. by rewrite Q2.
Qed.

(** A delta is the sum of what was received, a total the last value. *)
Lemma node_values_delta old vs v :
  node_values true old (v :: vs) = u64 (old + foldr Z.add 0 (v :: vs)).
Proof.
  unfold node_values. revert old v. induction vs as [|w vs IH]; intros old v.
  - simpl. unfold node_value. f_equal. lia.
  - change (foldl (λ old v, node_value true v old) (node_value true v old) (w :: vs) =
            u64 (old + foldr Z.add 0 (v :: w :: vs))).
    rewrite IH. unfold node_value, u64. rewrite Zplus_mod_idemp_l. f_equal. simpl. lia.
Qed.

Lemma node_values_total old vs : node_values false old vs = default old (list.last vs).
Proof.
  unfold node_values. revert old. induction vs as [|v vs IH]; intros old; [done|].
  cbn [foldl]. rewrite IH. rewrite last_cons. by destruct (list.last vs).
Qed.

(** ** Lemmas: flow keys *)

(** The addresses, protocol and ports of an IPv4 record. *)
Definition five_tuple (r : IPFIXRecord) : option (list byte * list byte * Z * Z * Z) :=
  sport ← value_at GetUnsigned16Value r "sourceTransportPort";
  dport ← value_at GetUnsigned16Value r "destinationTransportPort";
  proto ← value_at GetUnsigned8Value r "protocolIdentifier";
  src ← value_at GetIPAddressValue r "sourceIPv4Address";
  dst ← value_at GetIPAddressValue r "destinationIPv4Address";
  a ← To4 src; b ← To4 dst; Some (a, b, proto, sport, dport).

Lemma required_value {A} (get : InfoElementWithValue → go A) name r v :
  full r → value_at get r name = Some v → required name get r = Ok v.
Proof.
  intros Hf (e & He & Hv)%value_at_Some. unfold required. rewrite full_element_of, He by done.
  cbn [mbind go_bind]. done.
Qed.

Lemma address_of_value name r ip :
  full r → value_at GetIPAddressValue r name = Some ip → address_of name r = Ok (Some (IP_String ip)).
Proof.
  intros Hf (e & He & Hv)%value_at_Some. unfold address_of. rewrite full_element_of, He by done.
  cbn [mbind go_bind]. by rewrite Hv.
Qed.

Lemma flow_key_of_tuple r a b proto sport dport :
  full r → five_tuple r = Some (a, b, proto, sport, dport) →
  length a = 4%nat ∧ length b = 4%nat ∧
  getFlowKeyFromRecord r = Ok (mkFlowKey (string4 a) (string4 b) proto sport dport, true).
Proof.
  intros Hf H. unfold five_tuple in H.
  repeat (apply bind_Some in H as (? & ? & H)). simplify_eq.
  split_and!; [by eapply To4_length|by eapply To4_length|].
  unfold getFlowKeyFromRecord.
  repeat (erewrite required_value by done; cbn [mbind go_bind]).
  repeat (erewrite address_of_value by done; cbn [mbind go_bind]).
  unfold address6_of. rewrite !full_element_of by done. cbn [mbind go_bind].
  destruct (IP_String_To16 _ _ H5) as [_ ->]. destruct (IP_String_To16 _ _ H6) as [_ ->]. done.
Qed.

(** ** Example: the configuration of Antrea *)

Definition antrea_elements : AggregationElements := {|
  NonStatsElements := ["flowEndSeconds"; "flowEndReason"; "tcpState"];
  StatsElements := ["packetTotalCount"; "packetDeltaCount"; "octetTotalCount";
                    "reverseOctetTotalCount"];
  AggregatedSourceStatsElements :=
    ["packetTotalCountFromSourceNode"; "packetDeltaCountFromSourceNode";
     "octetTotalCountFromSourceNode"; "reverseOctetTotalCountFromSourceNode"];
  AggregatedDestinationStatsElements :=
    ["packetTotalCountFromDestinationNode"; "packetDeltaCountFromDestinationNode";
     "octetTotalCountFromDestinationNode"; "reverseOctetTotalCountFromDestinationNode"];
  AntreaFlowEndSecondsElements :=
    ["flowEndSecondsFromSourceNode"; "flowEndSecondsFromDestinationNode"];
  ThroughputElements := ["throughput"; "reverseThroughput"];
  SourceThroughputElements := ["throughputFromSourceNode"; "reverseThroughputFromSourceNode"];
  DestinationThroughputElements :=
    ["throughputFromDestinationNode"; "reverseThroughputFromDestinationNode"] |}.

Definition ex_ie (name : string) (t : IEDataType) : InfoElement := NewInfoElement name 1 t 0 8.
Definition ex_u64 (name : string) (v : Z) : InfoElementWithValue :=
  Unsigned64InfoElement (ex_ie name Unsigned64) v.

(** A flow record of an exporter: source port, times and counts are arguments. *)
Definition ex_elements (sport start last packets octets : Z) (src dst : string)
    : list InfoElementWithValue :=
  [IPAddressInfoElement (ex_ie "sourceIPv4Address" Ipv4Address) (ip4 10 0 0 1);
   IPAddressInfoElement (ex_ie "destinationIPv4Address" Ipv4Address) (ip4 10 0 0 2);
   Unsigned16InfoElement (ex_ie "sourceTransportPort" Unsigned16) sport;
   Unsigned16InfoElement (ex_ie "destinationTransportPort" Unsigned16) 5678;
   Unsigned8InfoElement (ex_ie "protocolIdentifier" Unsigned8) 6;
   DateTimeSecondsInfoElement (ex_ie "flowStartSeconds" DateTimeSeconds) start;
   DateTimeSecondsInfoElement (ex_ie "flowEndSeconds" DateTimeSeconds) last;
   Unsigned8InfoElement (ex_ie "flowEndReason" Unsigned8) 2;
   StringInfoElement (ex_ie "tcpState" StringType) "ESTABLISHED";
   StringInfoElement (ex_ie "sourcePodName" StringType) src;
   StringInfoElement (ex_ie "destinationPodName" StringType) dst;
   ex_u64 "packetTotalCount" packets; ex_u64 "packetDeltaCount" 500;
   ex_u64 "octetTotalCount" octets; ex_u64 "reverseOctetTotalCount" octets].

Definition ex_record (sport start last packets octets : Z) (src dst : string) : IPFIXRecord :=
  DataRecord (data_record_of 256 true (ex_elements sport start last packets octets src dst)).

(** The first record of the flow as it is stored. *)
Definition ex_stored : IPFIXRecord :=
  (addFieldsForThroughputCalculation loaded_registry (Some antrea_elements) true true
     (addFieldsForStatsAggregation loaded_registry (Some antrea_elements) true true
        (ex_record 1234 10 20 1000 8000 "pod1" "pod2")).2).2.

(** A record without [flowEndSeconds] is never aggregated: the call fails with an
    element that is missing, or, when the configuration does not ask for one, divides
    by a time difference that is still zero. *)
Theorem aggregate_without_end inc r els fs fd r' :
  element_of "flowEndSeconds" inc = Ok None →
  aggregateRecords (Some els) inc fs fd r ≠ (Ok tt, r').
Proof.
  intros He Hr. unfold aggregateRecords in Hr.
  apply M_bind_inv in Hr as (times & r1 & Ht & Hr).
  unfold update_times in Ht. rewrite (bind_lift _ _ _ _ He) in Ht. injection Ht as <- <-.
  apply M_bind_inv in Hr as (? & r2 & _ & Hr).
  apply M_bind_inv in Hr as (diffs & r3 & _ & Hr).
  by apply M_bind_inv in Hr as (throughput & r4 & Hb & _).
Qed.

Lemma aggregate_without_end_panics :
  let els := mkAggregationElements [] [] [] [] [] [] [] [] in
  aggregateRecords (Some els) (DataRecord (data_record_of 256 true [])) true true ex_stored =
    (Panic, ex_stored).
Proof. vm_compute. reflexivity. Qed.

(** ** Properties *)

(** C20: aggregating a record into the stored record of its flow.  For a configuration
    without repeated names and records that have its elements, the call returns
    normally; the flow's end times become the latest; a record that is not later than
    the previous one of its node changes nothing else; and otherwise, for every
    element of the configuration, the statistics of the filled nodes and the common
    ones (a delta is added up, a total replaced), the throughput (growth of the octets
    times eight over the time since the previous record), the end reason and the TCP
    state are the specified ones, and every other element keeps its value. *)
Theorem aggregate_record_correct inc r els fs fd :
  wf_elements els → aggregatable inc r els →
  ∃ r', aggregateRecords (Some els) inc fs fd r = (Ok tt, r') ∧ aggregated inc r els fs fd r'.
Proof. apply aggregateRecords_spec. Qed.

Lemma antrea_wf : wf_elements antrea_elements.
Proof. unfold wf_elements. split_and!; try reflexivity; try (simpl; lia); apply (bool_decide_unpack _); vm_compute; exact I. Qed.

Lemma full_filled r : Forall is_Some (GetOrderedElementList r) → full r.
Proof.
  intros H. exists (omap id (GetOrderedElementList r)).
  induction H as [|o l [e ->] _ IH]; [done|]. simpl. by rewrite IH at 1.
Qed.

#[global] Instance has_u32_dec r n : Decision (has_u32 r n).
Proof. unfold has_u32. apply _. Defined.
#[global] Instance non_stats_ok_dec inc r n : Decision (non_stats_ok inc r n).
Proof. unfold non_stats_ok. apply _. Defined.

(** Evaluate a decidable proposition. *)
Ltac evaluate := apply (bool_decide_unpack _); vm_compute; exact I.

Definition ex_second : IPFIXRecord := ex_record 1234 10 30 1500 12000 "pod1" "pod2".
Definition ex_third : IPFIXRecord := ex_record 1234 10 50 1900 22000 "pod1" "pod2".

Lemma ex_aggregatable inc :
  inc ∈ [ex_second; ex_third] → aggregatable inc ex_stored antrea_elements.
Proof.
  rewrite !elem_of_cons, elem_of_nil. intros [->|[->|[]]];
    (split_and!; [apply full_filled; evaluate|apply full_filled; evaluate|evaluate..]).
Qed.

Lemma aggregate_record_correct_witness :
  ∃ r', aggregateRecords (Some antrea_elements) ex_second true true ex_stored = (Ok tt, r') ∧
    u64_at r' "packetDeltaCountFromSourceNode" = Some 1000 ∧
    u64_at r' "throughput" = Some ((12000 - 8000) * 8 / (30 - 20)).
Proof.
  destruct (aggregate_record_correct ex_second ex_stored antrea_elements true true) as (r' & E & _);
    [exact antrea_wf|apply ex_aggregatable; left|].
  exists r'. split; [exact E|].
  assert (Hr : r' = (aggregateRecords (Some antrea_elements) ex_second true true ex_stored).2)
    by (rewrite E; reflexivity).
  rewrite Hr. split; vm_compute; reflexivity.
Defined.

(** The counts of a node over any sequence of its records.  When each record of a
    flow ends later than the one before it, aggregating them all returns normally, and
    for every statistics element of the configuration the stored element of each
    filled node is the sum, modulo 2^64, of the stored delta and the received deltas,
    or the last received total. *)
Theorem counts_accumulate els fs fd incs r prev :
  wf_elements els → fs || fd = true → incs ≠ [] →
  Forall (λ inc, aggregatable inc r els) incs →
  (∀ inc, inc ∈ incs → prevFlowEndSeconds inc r fs fd <= prev) → in_order prev incs → 0 <= prev →
  ∃ r', aggregate_run els fs fd incs r = (Ok tt, r') ∧
    ∀ k n src dst, StatsElements els !! k = Some n →
      AggregatedSourceStatsElements els !! k = Some src →
      AggregatedDestinationStatsElements els !! k = Some dst →
      let vs := (λ inc, u64_or_0 inc n) <$> incs in
      let after old := if Contains n "Delta" then u64 (old + foldr Z.add 0 vs)
                       else default old (list.last vs) in
      (fs = true → u64_or_0 r' src = after (u64_or_0 r src)) ∧
      (fd = true → u64_or_0 r' dst = after (u64_or_0 r dst)).
Proof.
  intros Hwf Hfl Hne Hok Hprev Ho H0. destruct incs as [|inc incs]; [done|].
  pose proof Hok as [(_ & Hf & _) _]%list.Forall_cons.
  destruct (run_spec els fs fd (inc :: incs) r prev 0) as (r' & E & HP); [done..|].
  exists r'. split; [exact E|]. intros k n src dst Hn Hs Hd. destruct (HP k n src dst Hn Hs Hd) as [P1 P2].
  rewrite fmap_cons in *. cbv zeta in *.
  destruct (Contains n "Delta"); rewrite <- ?node_values_delta, <- ?node_values_total; auto.
Qed.

Lemma counts_accumulate_witness :
  ∃ r', aggregate_run antrea_elements true true [ex_second; ex_third] ex_stored = (Ok tt, r') ∧
    u64_or_0 r' "packetDeltaCountFromDestinationNode" = 1500 ∧
    u64_or_0 r' "packetTotalCountFromSourceNode" = 1900.
Proof.
  destruct (counts_accumulate antrea_elements true true [ex_second; ex_third] ex_stored 20)
    as (r' & E & HP).
  - exact antrea_wf.
  - reflexivity.
  - discriminate.
  - apply list.Forall_forall. exact ex_aggregatable.
  - intros inc. rewrite !elem_of_cons, elem_of_nil. intros [->|[->|[]]]; vm_compute; discriminate.
  - split; [vm_compute; reflexivity|]. split; [vm_compute; reflexivity|exact I].
  - lia.
  - exists r'. split; [exact E|]. split.
    + destruct (HP 1%nat "packetDeltaCount" "packetDeltaCountFromSourceNode"
        "packetDeltaCountFromDestinationNode" eq_refl eq_refl eq_refl) as [_ H].
      rewrite H by reflexivity. vm_compute. reflexivity.
    + destruct (HP 0%nat "packetTotalCount" "packetTotalCountFromSourceNode"
        "packetTotalCountFromDestinationNode" eq_refl eq_refl eq_refl) as [H _].
      rewrite H by reflexivity. vm_compute. reflexivity.
Defined.

(** Two IPv4 records belong to the same flow exactly when their addresses,
    protocols and ports are equal, whichever form the addresses are held in; the flow
    is then marked as an IPv4 flow. *)
Theorem flow_key_identifies r r' t t' :
  full r → full r' → five_tuple r = Some t → five_tuple r' = Some t' →
  ∃ k k', getFlowKeyFromRecord r = Ok (k, true) ∧ getFlowKeyFromRecord r' = Ok (k', true) ∧
          (k = k' ↔ t = t').
Proof.
  destruct t as [[[[a b] p] s] d], t' as [[[[a' b'] p'] s'] d']. intros Hf Hf' Ht Ht'.
  destruct (flow_key_of_tuple _ _ _ _ _ _ Hf Ht) as (La & Lb & ->).
  destruct (flow_key_of_tuple _ _ _ _ _ _ Hf' Ht') as (La' & Lb' & ->).
  eexists _, _. split_and!; [done|done|]. split; [|by intros [= -> -> -> -> ->]].
  intros [= Ea Eb -> -> ->]. apply string4_inj in Ea, Eb; [|done..]. by subst.
Qed.

Lemma flow_key_identifies_witness :
  ∃ k k', getFlowKeyFromRecord ex_second = Ok (k, true) ∧
    getFlowKeyFromRecord (ex_record 4321 10 30 1500 12000 "pod1" "pod2") = Ok (k', true) ∧ k ≠ k'.
Proof.
  destruct (flow_key_identifies ex_second (ex_record 4321 10 30 1500 12000 "pod1" "pod2")
    ([byte_of_Z 10; byte_of_Z 0; byte_of_Z 0; byte_of_Z 1], [byte_of_Z 10; byte_of_Z 0; byte_of_Z 0; byte_of_Z 2], 6, 1234, 5678)
    ([byte_of_Z 10; byte_of_Z 0; byte_of_Z 0; byte_of_Z 1], [byte_of_Z 10; byte_of_Z 0; byte_of_Z 0; byte_of_Z 2], 6, 4321, 5678)) as (k & k' & E & E' & H).
  - apply full_filled. evaluate.
  - apply full_filled. evaluate.
  - vm_compute. reflexivity.
  - vm_compute. reflexivity.
  - exists k, k'. split; [exact E|]. split; [exact E'|]. intros Hk. apply H in Hk. discriminate Hk.
Defined.
