(* ===== verification/Correlate.v ===== *)
(** * Correlating the records of the two nodes of a flow

    [correlateRecords] of src/pkg/intermediate/aggregate.go: a theorem that says field by
    field what it does to the stored record, with the model and the lemmas of
    Aggregate.v. *)

From Stdlib Require Import ZArith Lia.
From Stdlib.Strings Require Import Byte.
From stdpp Require Import base gmap strings list numbers.
From S2P Require Import Prelude Bytes InfoElement Records NetIP Aggregate.

#[local] Open Scope Z_scope.

(** ** Specification *)

(** A value that is not correlated: the zero of its type, or one of a type that the
    correlation does not know. *)
Definition blank (e : InfoElementWithValue) : bool :=
  match GetDataType e, e with
  | StringType, StringInfoElement _ v => String.eqb v ""
  | Unsigned8, Unsigned8InfoElement _ v => v =? 0
  | Unsigned16, Unsigned16InfoElement _ v => v =? 0
  | Signed32, Signed32InfoElement _ v => v =? 0
  | Ipv4Address, IPAddressInfoElement _ v => String.eqb (IP_String (To4 v)) "0.0.0.0"
  | Ipv6Address, IPAddressInfoElement _ v =>
      String.eqb (IP_String (To16 v)) (IP_String (To16 unspecified_ip6))
  | _, _ => true
  end.

(** The two elements are of the same struct type, among those that are correlated. *)
Definition same_struct (e s : InfoElementWithValue) : bool :=
  match e, s with
  | StringInfoElement _ _, StringInfoElement _ _
  | Unsigned8InfoElement _ _, Unsigned8InfoElement _ _
  | Unsigned16InfoElement _ _, Unsigned16InfoElement _ _
  | Signed32InfoElement _ _, Signed32InfoElement _ _
  | IPAddressInfoElement _ _, IPAddressInfoElement _ _ => true
  | _, _ => false
  end.

(** The stored element with the value of the incoming one. *)
Definition takes_value (e s : InfoElementWithValue) : InfoElementWithValue :=
  BaseAddInfoElement e (GetInfoElement s).

(** What becomes of a field. *)
Definition merged (incoming stored : option InfoElementWithValue) : option InfoElementWithValue :=
  match incoming with
  | Some e => if blank e then stored else takes_value e <$> stored
  | None => stored
  end.

(** The incoming element can be correlated with the stored one: it is well typed, and
    unless it is blank the stored record has an element of its struct type. *)
Definition correlatable (inc r : IPFIXRecord) (field : string) : Prop :=
  match lookup_rec inc field with
  | Some e => typed e = true ∧
      (blank e = false → from_option (same_struct e) false (lookup_rec r field) = true)
  | None => True
  end.

#[global] Instance correlatable_dec inc r field : Decision (correlatable inc r field).
Proof. unfold correlatable. destruct (lookup_rec inc field); apply _. Defined.

(** ** Lemmas: one field *)

Lemma law_u16 : accessor_law (mkAccessor GetUnsigned16Value SetUnsigned16Value).
Proof. accessor_cases. Qed.
Lemma law_i32 : accessor_law (mkAccessor GetSigned32Value SetSigned32Value).
Proof. accessor_cases. Qed.

(** The body of the loop as one conditional update. *)
Lemma correlate_element_cases field e r :
  typed e = true →
  correlate_element field e r =
  if blank e then (Ok tt, r)
  else set_element field (λ s, if same_struct e s then Ok (takes_value e s) else Panic) r.
Proof.
  intros Ht. unfold correlate_element, blank, typed, mbind, M_bind, M_lift in *.
  destruct e; destruct (GetDataType _) eqn:Hd; try discriminate Ht; cbn;
    try (case_decide as Hc; [by rewrite Hc, ?Z.eqb_refl, ?String.eqb_refl|]);
    try (apply Z.eqb_neq in Hc as ->); try (apply String.eqb_neq in Hc as ->); try done.
  all: unfold set_element; destruct (GetInfoElementWithValue field _) as [[[s i]|]| | |]; try done; by destruct s.
Qed.

Lemma takes_value_info e s : GetInfoElement (takes_value e s) = GetInfoElement s.
Proof. by destruct e. Qed.

(** One iteration: the field is merged, and no other changes. *)
Lemma correlate_field field inc r0 r :
  full inc → full r → correlatable inc r0 field → agree [field] r0 r →
  ∃ r', (e ← M_lift (element_of field inc);
         match (e : option InfoElementWithValue) with
         | Some e => correlate_element field e
         | None => mret tt
         end) r = (Ok tt, r') ∧
    full r' ∧ frame [field] r r' ∧
    lookup_rec r' field = merged (lookup_rec inc field) (lookup_rec r0 field).
Proof.
  intros Hi Hf Hc Ha. rewrite (bind_lift _ _ _ (lookup_rec inc field)) by (by apply full_element_of).
  assert (Hr : lookup_rec r field = lookup_rec r0 field) by (apply Ha; left).
  unfold correlatable in Hc. destruct (lookup_rec inc field) as [e|]; cbn [merged].
  2:{ exists r. split_and!; [done|done|apply frame_refl|done]. }
  destruct Hc as [Ht Hs]. rewrite correlate_element_cases by done.
  destruct (blank e); [exists r; split_and!; [done|done|apply frame_refl|done]|].
  specialize (Hs eq_refl). rewrite <- Hr in *.
  destruct (lookup_rec r field) as [s|] eqn:El; [|done]. cbn in Hs.
  destruct (set_element_spec field (λ s, if same_struct e s then Ok (takes_value e s) else Panic)
    r s (takes_value e s)) as (r' & E & Hf' & Hl & Hfr); [done|done|by rewrite Hs|apply takes_value_info|].
  by exists r'.
Qed.

(** All fields, one after the other. *)
Lemma correlateRecords_spec fields inc r :
  NoDup fields → full inc → full r → Forall (correlatable inc r) fields →
  ∃ r', correlateRecords fields inc r = (Ok tt, r') ∧ full r' ∧
    ∀ n, lookup_rec r' n =
      if decide (n ∈ fields) then merged (lookup_rec inc n) (lookup_rec r n) else lookup_rec r n.
Proof.
  intros Hnd Hi Hf Hc. rewrite list.Forall_forall in Hc. unfold correlateRecords, rec_iter.
  destruct (rec_fold_spec (λ (_ : nat) field (_ : unit),
      e ← M_lift (element_of field inc);
      match (e : option InfoElementWithValue) with
      | Some e => correlate_element field e
      | None => mret tt
      end) (λ _ _ _, tt) (λ _ field, [field])
    (λ _ field r', lookup_rec r' field = merged (lookup_rec inc field) (lookup_rec r field))
    fields r) with (acc := tt) (r := r) as (r' & E & Hf' & Hfr & HP).
  - intros i field acc r1 Hl Hf1 Ha. apply correlate_field; try done.
    apply Hc. by eapply list_elem_of_lookup_2.
  - intros i field r1 r2 H1 Ha. rewrite Ha by left. done.
  - intros i j x y n Hx Hy Hij Hn. rewrite list_elem_of_singleton in *. subst n. intros ->.
    by eapply Hij, NoDup_lookup.
  - done.
  - by intros i x _ n _.
  - exists r'. split; [by destruct (fold_at _ _ _ _)|]. split; [done|].
    intros n. case_decide as Hn.
    + apply list_elem_of_lookup_1 in Hn as [i Hn]. by apply (HP i).
    + apply Hfr. intros (l & Hin & Hl)%list_elem_of_join. apply Hn.
      apply elem_of_lookup_imap_1 in Hl as (i & x & -> & Hx).
      apply list_elem_of_singleton in Hin as ->. by eapply list_elem_of_lookup_2.
Qed.

(** ** Properties *)

(** Correlation fills the stored record from the incoming one.  With well-typed
    incoming fields for which the stored record has elements of the same kind,
    [correlateRecords] succeeds; every correlated field that the incoming record has with
    a value other than the zero of its type takes that value and keeps its own element;
    every other correlated field, and every field that is not correlated, is as before. *)
Theorem correlate_records_correct fields inc r :
  NoDup fields → full inc → full r → Forall (correlatable inc r) fields →
  ∃ r', correlateRecords fields inc r = (Ok tt, r') ∧ full r' ∧
    ∀ n, lookup_rec r' n =
      if decide (n ∈ fields) then merged (lookup_rec inc n) (lookup_rec r n) else lookup_rec r n.
Proof. apply correlateRecords_spec. Qed.

(** The record of the source node knows the source Pod, that of the destination node the
    destination Pod. *)
Definition ex_from_src : IPFIXRecord := ex_record 1234 10 30 1500 12000 "pod1" "".
Definition ex_from_dst : IPFIXRecord := ex_record 1234 10 30 1500 12000 "" "pod2".

Lemma correlate_records_correct_witness :
  ∃ r', correlateRecords ["sourcePodName"; "destinationPodName"]%string ex_from_dst ex_from_src = (Ok tt, r') ∧
    string_at r' "sourcePodName" = Some "pod1"%string ∧ string_at r' "destinationPodName" = Some "pod2"%string.
Proof.
  destruct (correlate_records_correct ["sourcePodName"; "destinationPodName"]%string ex_from_dst ex_from_src)
    as (r' & E & _ & H).
  - apply (bool_decide_unpack _). vm_compute. exact I.
  - apply full_filled. evaluate.
  - apply full_filled. evaluate.
  - apply (bool_decide_unpack _). vm_compute. exact I.
  - exists r'. split; [exact E|]. unfold value_at. rewrite !H. split; vm_compute; reflexivity.
Defined.
