(* ===== verification/FlowKeys.v ===== *)
(** * Which records are of the same flow

    [getFlowKeyFromRecord] of src/pkg/intermediate/aggregate.go for records with IPv4
    addresses, IPv6 addresses or one of each: the key, which holds the addresses as
    text, determines the addresses, the protocol and the ports. *)

From Stdlib Require Import ZArith Lia.
From Stdlib.Strings Require Import Byte.
From stdpp Require Import base gmap strings list numbers.
From S2P Require Import Prelude Bytes InfoElement Records NetIP Heap PriorityQueue AddressText Aggregate.

#[local] Open Scope Z_scope.

(** The address of one end of a flow: the IPv4 element if there is one, else the IPv6
    element. *)
Definition end_address (r : IPFIXRecord) (v4 v6 : string) : option slice :=
  match lookup_rec r v4 with
  | Some _ => value_at GetIPAddressValue r v4
  | None => value_at GetIPAddressValue r v6
  end.

(** Both addresses in sixteen bytes, the protocol and the ports. *)
Definition flow_tuple (r : IPFIXRecord) : option (list byte * list byte * Z * Z * Z) :=
  sport ← value_at GetUnsigned16Value r "sourceTransportPort";
  dport ← value_at GetUnsigned16Value r "destinationTransportPort";
  proto ← value_at GetUnsigned8Value r "protocolIdentifier";
  src ← end_address r "sourceIPv4Address" "sourceIPv6Address";
  dst ← end_address r "destinationIPv4Address" "destinationIPv6Address";
  a ← To16 src; b ← To16 dst; Some (a, b, proto, sport, dport).

Lemma address_text v4 v6 r ip :
  full r → end_address r v4 v6 = Some ip →
  ∃ o, address_of v4 r = Ok o ∧ address6_of v6 o r = Ok (IP_String ip) ∧ (is_Some o ↔ is_Some (lookup_rec r v4)).
Proof.
  intros Hf H. unfold end_address in H. destruct (lookup_rec r v4) as [e|] eqn:E4.
  - exists (Some (IP_String ip)). rewrite (address_of_value v4 r ip) by done.
    unfold address6_of. rewrite full_element_of by done. split_and!; [done|done|by split; eauto].
  - exists None. unfold address_of, address6_of. rewrite full_element_of, E4 by done. cbn [mbind go_bind].
    split_and!; [done| |by split; intros [? ?]].
    apply value_at_Some in H as (e & He & Hv). unfold required. rewrite full_element_of, He by done.
    cbn [mbind go_bind]. by rewrite Hv.
Qed.

Lemma flow_key_of_flow_tuple r a b proto sport dport :
  full r → flow_tuple r = Some (a, b, proto, sport, dport) →
  ∃ src dst is4, To16 src = Some a ∧ To16 dst = Some b ∧
    getFlowKeyFromRecord r = Ok (mkFlowKey (IP_String src) (IP_String dst) proto sport dport, is4) ∧
    (is4 = true ↔ is_Some (lookup_rec r "sourceIPv4Address") ∧ is_Some (lookup_rec r "destinationIPv4Address")).
Proof.
  intros Hf H. unfold flow_tuple in H.
  apply bind_Some in H as (sp & Hsp & H). apply bind_Some in H as (dp & Hdp & H).
  apply bind_Some in H as (pr & Hpr & H). apply bind_Some in H as (src & Hs & H).
  apply bind_Some in H as (dst & Hd & H). apply bind_Some in H as (a' & Ha & H).
  apply bind_Some in H as (b' & Hb & H). simplify_eq.
  destruct (address_text _ _ _ _ Hf Hs) as (o1 & A1 & B1 & I1).
  destruct (address_text _ _ _ _ Hf Hd) as (o2 & A2 & B2 & I2).
  exists src, dst, (bool_decide (is_Some o1 ∧ is_Some o2)). split_and!; [done|done| |].
  - unfold getFlowKeyFromRecord. rewrite !(required_value _ _ _ _ Hf Hsp), !(required_value _ _ _ _ Hf Hdp),
      !(required_value _ _ _ _ Hf Hpr). cbn [mbind go_bind]. rewrite A1, A2. cbn [mbind go_bind].
    rewrite B1, B2. done.
  - rewrite bool_decide_eq_true. by rewrite I1, I2.
Qed.

(** ** Properties *)

(** C24: two records belong to the same flow exactly when their addresses, protocols and
    ports are equal - for IPv4, IPv6 and mixed records, the addresses compared in their
    sixteen-byte form; a flow is marked as an IPv4 flow exactly when both of its IPv4
    elements are there. *)
Theorem flow_keys_identify r r' t t' :
  full r → full r' → flow_tuple r = Some t → flow_tuple r' = Some t' →
  ∃ k is4 k' is4', getFlowKeyFromRecord r = Ok (k, is4) ∧ getFlowKeyFromRecord r' = Ok (k', is4') ∧
    (k = k' ↔ t = t') ∧
    (is4 = true ↔ is_Some (lookup_rec r "sourceIPv4Address") ∧ is_Some (lookup_rec r "destinationIPv4Address")).
Proof.
  destruct t as [[[[a b] p] s] d], t' as [[[[a' b'] p'] s'] d']. intros Hf Hf' Ht Ht'.
  destruct (flow_key_of_flow_tuple _ _ _ _ _ _ Hf Ht) as (src & dst & is4 & Ha & Hb & -> & H4).
  destruct (flow_key_of_flow_tuple _ _ _ _ _ _ Hf' Ht') as (src' & dst' & is4' & Ha' & Hb' & -> & _).
  pose proof (IP_String_inj _ _ _ _ Ha Ha') as E1. pose proof (IP_String_inj _ _ _ _ Hb Hb') as E2.
  eexists _, _, _, _. split; [done|]. split; [done|]. split; [|done]. split.
  - intros [= S1 S2 -> -> ->]. apply E1 in S1. apply E2 in S2. by subst.
  - intros [= Ea Eb -> -> ->]. apply E1 in Ea. apply E2 in Eb. by rewrite Ea, Eb.
Qed.

(** A record of an IPv6 flow; [last] is the last byte of the source address. *)
Definition ex_record6 (last : Z) : IPFIXRecord :=
  DataRecord (data_record_of 257 true
    [IPAddressInfoElement (ex_ie "sourceIPv6Address" Ipv6Address)
       (Some (put_be 2 0x2001 ++ replicate 13 Byte.x00 ++ [byte_of_Z last]));
     IPAddressInfoElement (ex_ie "destinationIPv6Address" Ipv6Address)
       (Some (put_be 2 0x2001 ++ replicate 13 Byte.x00 ++ [byte_of_Z 2]));
     Unsigned16InfoElement (ex_ie "sourceTransportPort" Unsigned16) 1234;
     Unsigned16InfoElement (ex_ie "destinationTransportPort" Unsigned16) 5678;
     Unsigned8InfoElement (ex_ie "protocolIdentifier" Unsigned8) 6]).

Lemma flow_keys_identify_witness :
  ∃ k k', getFlowKeyFromRecord (ex_record6 1) = Ok (k, false) ∧
    getFlowKeyFromRecord (ex_record6 3) = Ok (k', false) ∧ k ≠ k'.
Proof.
  destruct (flow_tuple (ex_record6 1)) as [t|] eqn:T; [|vm_compute in T; discriminate T].
  destruct (flow_tuple (ex_record6 3)) as [t'|] eqn:T'; [|vm_compute in T'; discriminate T'].
  destruct (flow_keys_identify (ex_record6 1) (ex_record6 3) t t') as (k & v & k' & v' & E & E' & H & _).
  - apply full_filled. evaluate.
  - apply full_filled. evaluate.
  - exact T.
  - exact T'.
  - assert (Hv : v = false) by (vm_compute in E; congruence).
    assert (Hv' : v' = false) by (vm_compute in E'; congruence).
    subst v v'. exists k, k'. split; [exact E|]. split; [exact E'|]. intros Hk. apply H in Hk.
    vm_compute in T, T'. congruence.
Defined.
