(* ===== verification/AggregationProcess.v ===== *)
(** * The aggregation process

    src/pkg/intermediate/aggregate.go and types.go: the flows, their correlation and
    their expiry.  Flow records and queue items point to each other: both are in
    stores that only grow, and a pointer is a key.  Every exported method takes the
    mutex and releases it on return, so a method is one step of the process; the
    workers that call them are in Workers.v.

    A callback is a parameter.  It gets the calls made before in the same run, the
    flow key and the flow record, and may change the record as code outside the
    package can: everything but the unexported fields and the queue item. *)

From Stdlib Require Import ZArith Lia.
From stdpp Require Import base gmap strings list numbers.
From S2P Require Import Prelude Bytes InfoElement Records Sets Registry NetIP Heap PriorityQueue.
From S2P Require Import Aggregate.

#[local] Open Scope Z_scope.

Definition MaxRetries : Z := 2.
Definition MinExpiryTime : Z := 100 * 1000000.

Record AggregationFlowRecord : Type := mkAggregationFlowRecord {
  Record_ : IPFIXRecord;
  PriorityQueueItem : ptr;
  ReadyToSend : bool;
  waitForReadyToSendRetries : Z;
  areCorrelatedFieldsFilled : bool;
  areExternalFieldsFilled : bool;
  isIPv4 : bool;
}.

Record AggregationProcess : Type := mkAggregationProcess {
  flowKeyRecordMap : gmap FlowKey ptr;
  flowRecords : gmap ptr AggregationFlowRecord;
  expirePriorityQueue : TimeToExpirePriorityQueue;
  workerNum : Z;
  correlateFields : list string;
  aggregateElements : option AggregationElements;
  activeExpiryTimeout : Z;
  inactiveExpiryTimeout : Z;
}.

(** A message channel is a handle, absent when it is nil. *)
Record AggregationInput : Type := mkAggregationInput {
  MessageChan : option nat;
  in_WorkerNum : Z;
  in_CorrelateFields : list string;
  in_AggregateElements : option AggregationElements;
  in_ActiveExpiryTimeout : Z;
  in_InactiveExpiryTimeout : Z;
}.

Definition stats_lengths_differ (els : AggregationElements) : bool :=
  bool_decide (length (StatsElements els) ≠ length (AggregatedSourceStatsElements els)) ||
  bool_decide (length (StatsElements els) ≠ length (AggregatedDestinationStatsElements els)).
Definition throughput_lengths_differ (els : AggregationElements) : bool :=
  bool_decide (length (ThroughputElements els) ≠ length (SourceThroughputElements els)) ||
  bool_decide (length (ThroughputElements els) ≠ length (DestinationThroughputElements els)).

Definition check_elements (o : option AggregationElements) : go unit :=
  match o with
  | None => Ok tt
  | Some els =>
      guard_err (stats_lengths_differ els) ErrStatsLength
        (guard_err (throughput_lengths_differ els) ErrThroughputLength (Ok tt))
  end.

Definition InitAggregationProcess (input : AggregationInput) : go AggregationProcess :=
  match MessageChan input with
  | None => Err ErrNoMessageChan
  | Some _ =>
      if decide (in_WorkerNum input <= 0) then Err ErrWorkerNum
      else
        _ ← check_elements (in_AggregateElements input);
        Ok {| flowKeyRecordMap := ∅; flowRecords := ∅; expirePriorityQueue := empty_queue;
              workerNum := in_WorkerNum input; correlateFields := in_CorrelateFields input;
              aggregateElements := in_AggregateElements input;
              activeExpiryTimeout := in_ActiveExpiryTimeout input;
              inactiveExpiryTimeout := in_InactiveExpiryTimeout input |}
  end.

Abbreviation AP := (M AggregationProcess).

Definition with_flows (m : gmap FlowKey ptr) (a : AggregationProcess) : AggregationProcess :=
  mkAggregationProcess m (flowRecords a) (expirePriorityQueue a) (workerNum a) (correlateFields a)
    (aggregateElements a) (activeExpiryTimeout a) (inactiveExpiryTimeout a).
Definition with_flowRecords (m : gmap ptr AggregationFlowRecord) (a : AggregationProcess)
    : AggregationProcess :=
  mkAggregationProcess (flowKeyRecordMap a) m (expirePriorityQueue a) (workerNum a)
    (correlateFields a) (aggregateElements a) (activeExpiryTimeout a) (inactiveExpiryTimeout a).
Definition with_queue (q : TimeToExpirePriorityQueue) (a : AggregationProcess) : AggregationProcess :=
  mkAggregationProcess (flowKeyRecordMap a) (flowRecords a) q (workerNum a) (correlateFields a)
    (aggregateElements a) (activeExpiryTimeout a) (inactiveExpiryTimeout a).

Definition with_record (r : IPFIXRecord) (f : AggregationFlowRecord) : AggregationFlowRecord :=
  mkAggregationFlowRecord r (PriorityQueueItem f) (ReadyToSend f) (waitForReadyToSendRetries f)
    (areCorrelatedFieldsFilled f) (areExternalFieldsFilled f) (isIPv4 f).
Definition with_retries (n : Z) (f : AggregationFlowRecord) : AggregationFlowRecord :=
  mkAggregationFlowRecord (Record_ f) (PriorityQueueItem f) (ReadyToSend f) n
    (areCorrelatedFieldsFilled f) (areExternalFieldsFilled f) (isIPv4 f).
(** [ReadyToSend = true; areCorrelatedFieldsFilled = true]. *)
Definition correlated (f : AggregationFlowRecord) : AggregationFlowRecord :=
  mkAggregationFlowRecord (Record_ f) (PriorityQueueItem f) true (waitForReadyToSendRetries f)
    true (areExternalFieldsFilled f) (isIPv4 f).

(** A flow record through its pointer. *)
Definition get_flow (p : ptr) : AP AggregationFlowRecord := fun a =>
  (of_option Panic (flowRecords a !! p), a).
Definition set_flow (p : ptr) (f : AggregationFlowRecord) : AP unit :=
  M_modify (λ a, with_flowRecords (<[p := f]> (flowRecords a)) a).

(** A call on the data record of a flow, in place. *)
Definition run_record {A} (p : ptr) (m : Rec A) : AP A := fun a =>
  match flowRecords a !! p with
  | None => (Panic, a)
  | Some f =>
      let '(res, r) := m (Record_ f) in
      (res, with_flowRecords (<[p := with_record r f]> (flowRecords a)) a)
  end.

(** A call on the queue. *)
Definition run_queue (f : TimeToExpirePriorityQueue → go TimeToExpirePriorityQueue) : AP unit :=
  fun a =>
  match f (expirePriorityQueue a) with
  | Ok q => (Ok tt, with_queue q a)
  | Err e => (Err e, a)
  | Panic => (Panic, a)
  | Block => (Block, a)
  end.

Definition get_item (p : ptr) : AP ItemToExpire := fun a =>
  (of_option Panic (items (expirePriorityQueue a) !! p), a).
Definition set_item (p : ptr) (it : ItemToExpire) : AP unit :=
  M_modify (λ a, with_queue {| pq := pq (expirePriorityQueue a);
                               items := <[p := it]> (items (expirePriorityQueue a)) |} a).

Definition GetNumFlows (a : AggregationProcess) : Z := Z.of_nat (size (flowKeyRecordMap a)).

(** ** Adding and updating flows *)

(** Correlation and aggregation of a record with the flow record at [p]. *)
Definition update_flow (p : ptr) (record : IPFIXRecord) (correlationRequired : bool) : AP unit :=
  a ← M_get;
  if correlationRequired then
    f ← get_flow p;
    correlate ← M_lift (if ReadyToSend f then Ok false
                        else negb <$> areRecordsFromSameNode record (Record_ f));
    (if (correlate : bool) then
       run_record p (correlateRecords (correlateFields a) record);;
       f ← get_flow p; set_flow p (correlated f)
     else mret tt);;
    fromSrc ← M_lift (isRecordFromSrc record);
    run_record p (aggregateRecords (aggregateElements a) record fromSrc (negb fromSrc))
  else run_record p (aggregateRecords (aggregateElements a) record true true).

Section process.
Variable reg : Registry.

(** The fields of the first record of a flow; the record is not stored when this
    fails. *)
Definition add_fields (correlationRequired : bool) (record : IPFIXRecord) : AP IPFIXRecord :=
  a ← M_get;
  fromSrc ← M_lift (if correlationRequired then isRecordFromSrc record else Ok true);
  let fillDst := if correlationRequired then negb fromSrc else true in
  match (addFieldsForStatsAggregation reg (aggregateElements a) fromSrc fillDst;;
         addFieldsForThroughputCalculation reg (aggregateElements a) fromSrc fillDst) record with
  | (Ok _, record) => mret record
  | (Err e, _) => M_lift (Err e)
  | (Panic, _) => M_lift Panic
  | (Block, _) => M_lift Block
  end.

(** A new flow: a flow record and a queue item that point to each other. *)
Definition create_flow (now : Z) (key : FlowKey) (record : IPFIXRecord) (ipv4 : bool)
    (flowType : Z) (correlationRequired : bool) : AP ptr :=
  record ← add_fields correlationRequired record;
  a ← M_get;
  let p := fresh (dom (flowRecords a)) in
  let item := fresh (dom (items (expirePriorityQueue a))) in
  set_flow p {| Record_ := record; PriorityQueueItem := item;
                ReadyToSend := negb correlationRequired; waitForReadyToSendRetries := 0;
                areCorrelatedFieldsFilled :=
                  negb correlationRequired && negb (bool_decide (flowType = FlowTypeInterNode));
                areExternalFieldsFilled := false; isIPv4 := ipv4 |};;
  set_item item (mkItemToExpire key p (now + activeExpiryTimeout a)
                   (now + inactiveExpiryTimeout a) 0);;
  run_queue (heap_Push item);;
  mret p.

Definition addOrUpdateRecordInMap (now : Z) (key : FlowKey) (record : IPFIXRecord) (ipv4 : bool)
    : AP unit :=
  flowType ← M_lift (u8_of "flowType" record);
  let flowType := default 0 flowType in
  correlationRequired ← M_lift (isCorrelationRequired flowType record);
  a ← M_get;
  p ← (match flowKeyRecordMap a !! key with
       | Some p =>
           update_flow p record correlationRequired;;
           f ← get_flow p;
           it ← get_item (PriorityQueueItem f);
           run_queue (Update (PriorityQueueItem f) key p (activeExpireTime it)
                        (now + inactiveExpiryTimeout a));;
           mret p
       | None => create_flow now key record ipv4 flowType correlationRequired
       end);
  M_modify (λ a, with_flows (<[key := p]> (flowKeyRecordMap a)) a).

(** The records of a message; the clock is read for each of them. *)
Fixpoint aggregate_records (clock : nat → Z) (i : nat) (rs : list IPFIXRecord) (invalid : nat)
    : AP nat :=
  match rs with
  | [] => mret invalid
  | record :: rs =>
      if validateDataRecord record then
        '(key, ipv4) ← M_lift (getFlowKeyFromRecord record);
        addOrUpdateRecordInMap (clock i) key record ipv4;;
        aggregate_records clock (S i) rs invalid
      else aggregate_records clock (S i) rs (S invalid)
  end.

Definition AggregateMsgByFlowKey (clock : nat → Z) (message : Message) : AP unit :=
  set ← M_lift (of_option Panic (msg_set message));
  if decide (setType set = Data) then
    invalidRecs ← aggregate_records clock 0 (records set) 0;
    if decide (invalidRecs = length (records set)) then M_lift (Err ErrAllRecordsInvalid)
    else mret tt
  else mret tt.

End process.

Definition deleteFlowKeyFromMapWithoutLock (key : FlowKey) : AP unit := fun a =>
  match flowKeyRecordMap a !! key with
  | None => (Err ErrFlowKeyMissing, a)
  | Some _ => (Ok tt, with_flows (delete key (flowKeyRecordMap a)) a)
  end.

Definition deleteFlowKeyFromMap (key : FlowKey) : AP unit := deleteFlowKeyFromMapWithoutLock key.

(** ** Reading the flows *)

(** [time.Time.Sub], which saturates. *)
Definition time_sub (t u : Z) : Z := Z.max (- 2 ^ 63) (Z.min (2 ^ 63 - 1) (t - u)).

Definition GetExpiryFromExpirePriorityQueue (now : Z) (a : AggregationProcess) : go Z :=
  if decide (0 < pq_Len (expirePriorityQueue a))%nat then
    t ← minExpireTime (expirePriorityQueue a) 0;
    let expiryDuration := i64 (MinExpiryTime + time_sub t now) in
    Ok (if decide (expiryDuration < 0) then MinExpiryTime else expiryDuration)
  else Ok (if decide (activeExpiryTimeout a < inactiveExpiryTimeout a) then activeExpiryTimeout a
           else inactiveExpiryTimeout a).

(** The filter of [GetRecords]: an empty or zero field matches everything. *)
Definition complete_filter (k : FlowKey) : bool :=
  bool_decide (SourceAddress k ≠ "") && bool_decide (DestinationAddress k ≠ "") &&
  bool_decide (Protocol k ≠ 0) && bool_decide (SourcePort k ≠ 0) &&
  bool_decide (DestinationPort k ≠ 0).

Definition mismatch {A} `{EqDecision A} (empty wanted current : A) : bool :=
  bool_decide (wanted ≠ empty) && bool_decide (wanted ≠ current).

Definition filtered_out (k current : FlowKey) : bool :=
  mismatch "" (SourceAddress k) (SourceAddress current) ||
  mismatch "" (DestinationAddress k) (DestinationAddress current) ||
  mismatch 0 (Protocol k) (Protocol current) ||
  mismatch 0 (SourcePort k) (SourcePort current) ||
  mismatch 0 (DestinationPort k) (DestinationPort current).

Definition element_map (a : AggregationProcess) (p : ptr) : go (gmap string GoVal) :=
  f ← of_option Panic (flowRecords a !! p); GetElementMap (base_of (Record_ f)).

(** Go ranges over a map in an unspecified order; the model takes one. *)
Definition GetRecords (key : option FlowKey) (a : AggregationProcess)
    : go (list (gmap string GoVal)) :=
  match key with
  | Some k =>
      if complete_filter k then
        match flowKeyRecordMap a !! k with
        | Some p => m ← element_map a p; Ok [m]
        | None => Ok []
        end
      else go_mapM (λ '(_, p), element_map a p)
             (filter (λ kp, filtered_out k kp.1 = false) (map_to_list (flowKeyRecordMap a)))
  | None => go_mapM (λ '(_, p), element_map a p) (map_to_list (flowKeyRecordMap a))
  end.

(** ** Callbacks *)

Abbreviation call := (FlowKey * AggregationFlowRecord)%type.

Definition FlowKeyRecordMapCallBack : Type :=
  list call → FlowKey → AggregationFlowRecord → go unit * AggregationFlowRecord.

(** What a callback can change of the flow record it is given. *)
Definition by_callback (old new : AggregationFlowRecord) : AggregationFlowRecord :=
  mkAggregationFlowRecord (Record_ new) (PriorityQueueItem old) (ReadyToSend new)
    (waitForReadyToSendRetries old) (areCorrelatedFieldsFilled new) (areExternalFieldsFilled new)
    (isIPv4 old).

(** The process and the calls made so far. *)
Abbreviation Run := (M (AggregationProcess * list call)).

Definition in_process {A} (m : AP A) : Run A := fun s =>
  let '(res, a) := m s.1 in (res, (a, s.2)).

Definition run_callback (callback : FlowKeyRecordMapCallBack) (key : FlowKey) (p : ptr)
    (f : AggregationFlowRecord) : Run unit := fun s =>
  let '(res, f') := callback s.2 key f in
  (res, (with_flowRecords (<[p := by_callback f f']> (flowRecords s.1)) s.1, s.2 ++ [(key, f)])).

Fixpoint for_all_flows (callback : FlowKeyRecordMapCallBack) (l : list (FlowKey * ptr)) : Run unit :=
  match l with
  | [] => mret tt
  | (key, p) :: l =>
      f ← in_process (get_flow p);
      run_callback callback key p f;;
      for_all_flows callback l
  end.

Definition ForAllRecordsDo (callback : FlowKeyRecordMapCallBack) : Run unit := fun s =>
  for_all_flows callback (map_to_list (flowKeyRecordMap s.1)) s.

(** ** Expiry *)

(** [with_err] for a stateful call. *)
Definition M_with_err {S A} (f : error → error) (m : M S A) : M S A := fun s =>
  let '(res, s) := m s in (with_err f res, s).

(** The popped flow was not ready: wait again, or give up after [MaxRetries]. *)
Definition retry_flow (now : Z) (item : ptr) (it : ItemToExpire) (f : AggregationFlowRecord)
    : AP unit :=
  a ← M_get;
  let retries := waitForReadyToSendRetries f + 1 in
  set_flow (flowRecord it) (with_retries retries f);;
  if decide (MaxRetries < retries) then
    M_with_err ErrDeleteFlow (deleteFlowKeyFromMapWithoutLock (flowKey it))
  else
    set_item item (mkItemToExpire (flowKey it) (flowRecord it) (now + activeExpiryTimeout a)
                     (now + inactiveExpiryTimeout a) (item_index it));;
    run_queue (heap_Push item).

(** The callback has run on the popped flow: delete it, queue it again, or neither. *)
Definition requeue_flow (now : Z) (item : ptr) (it : ItemToExpire) : AP unit :=
  a ← M_get;
  if decide (inactiveExpireTime it < now) then
    M_with_err ErrDeleteFlow (deleteFlowKeyFromMapWithoutLock (flowKey it))
  else if decide (activeExpireTime it < now) then
    set_item item (mkItemToExpire (flowKey it) (flowRecord it) (now + activeExpiryTimeout a)
                     (inactiveExpireTime it) (item_index it));;
    run_queue (heap_Push item)
  else mret tt.

Definition pop_item : AP ptr := fun a =>
  match heap_Pop (expirePriorityQueue a) with
  | Ok (p, q) => (Ok p, with_queue q a)
  | Err e => (Err e, a)
  | Panic => (Panic, a)
  | Block => (Block, a)
  end.

(** One iteration of the loop; false is [break]. *)
Definition expire_one (now : Z) (callback : FlowKeyRecordMapCallBack) : Run bool :=
  s ← M_get;
  let q := expirePriorityQueue s.1 in
  if decide (pq_Len q = 0%nat) then mret false
  else
    top ← M_lift (Peek q);
    topItem ← in_process (get_item top);
    if decide (now < activeExpireTime topItem ∧ now < inactiveExpireTime topItem) then mret false
    else
      item ← in_process pop_item;
      it ← in_process (get_item item);
      f ← in_process (get_flow (flowRecord it));
      (if ReadyToSend f then
         M_with_err ErrCallback (run_callback callback (flowKey it) (flowRecord it) f);;
         in_process (requeue_flow now item it)
       else in_process (retry_flow now item it f));;
      mret true.

Fixpoint expire_loop (fuel : nat) (now : Z) (callback : FlowKeyRecordMapCallBack) : Run unit :=
  match fuel with
  | O => M_lift Block
  | S fuel =>
      continue ← expire_one now callback;
      if (continue : bool) then expire_loop fuel now callback else mret tt
  end.

(** A flow is popped at most four times when the active timeout is not negative: three
    times while it is not ready and once more because of its active timeout. *)
Definition expire_fuel (a : AggregationProcess) : nat :=
  (4 * pq_Len (expirePriorityQueue a) + 1)%nat.

Definition ForAllExpiredFlowRecordsDo (now : Z) (callback : FlowKeyRecordMapCallBack) : Run unit :=
  fun s => expire_loop (expire_fuel s.1) now callback s.

(** ** Flags of a flow record *)

Definition SetCorrelatedFieldsFilled (isFilled : bool) (f : AggregationFlowRecord)
    : AggregationFlowRecord :=
  mkAggregationFlowRecord (Record_ f) (PriorityQueueItem f) (ReadyToSend f)
    (waitForReadyToSendRetries f) isFilled (areExternalFieldsFilled f) (isIPv4 f).
Definition SetExternalFieldsFilled (isFilled : bool) (f : AggregationFlowRecord)
    : AggregationFlowRecord :=
  mkAggregationFlowRecord (Record_ f) (PriorityQueueItem f) (ReadyToSend f)
    (waitForReadyToSendRetries f) (areCorrelatedFieldsFilled f) isFilled (isIPv4 f).
Definition AreCorrelatedFieldsFilled (f : AggregationFlowRecord) : bool := areCorrelatedFieldsFilled f.
Definition AreExternalFieldsFilled (f : AggregationFlowRecord) : bool := areExternalFieldsFilled f.
Definition IsAggregatedRecordIPv4 (f : AggregationFlowRecord) : bool := isIPv4 f.

(** ** The invariant

    Every flow in the map has a flow record and a queue item that point to each other,
    and every queued item is the item of a flow in the map. *)

Abbreviation queue_of a := (expirePriorityQueue a).
Abbreviation data_of a := (pq_data (expirePriorityQueue a)).

Definition flow_linked (recs : gmap ptr AggregationFlowRecord) (d : gmap ptr ItemToExpire)
    (k : FlowKey) (p : ptr) : Prop :=
  ∃ f it, recs !! p = Some f ∧ 0 <= waitForReadyToSendRetries f <= MaxRetries ∧
    d !! PriorityQueueItem f = Some it ∧ flowKey it = k ∧ flowRecord it = p.

Definition item_linked (m : gmap FlowKey ptr) (recs : gmap ptr AggregationFlowRecord)
    (d : gmap ptr ItemToExpire) (ip : ptr) : Prop :=
  ∃ it f, d !! ip = Some it ∧ m !! flowKey it = Some (flowRecord it) ∧
    recs !! flowRecord it = Some f ∧ PriorityQueueItem f = ip.

Definition links (m : gmap FlowKey ptr) (recs : gmap ptr AggregationFlowRecord) (l : list ptr)
    (d : gmap ptr ItemToExpire) : Prop :=
  (∀ k p, m !! k = Some p → flow_linked recs d k p) ∧ (∀ ip, ip ∈ l → item_linked m recs d ip).

Definition agg_inv (a : AggregationProcess) : Prop :=
  pq_inv (queue_of a) ∧ links (flowKeyRecordMap a) (flowRecords a) (pq (queue_of a)) (data_of a).

(** *** What keeps the links *)

Lemma links_perm m recs l l' d : l' ≡ₚ l → links m recs l d → links m recs l' d.
Proof. intros Hp [H1 H2]. split; [done|]. intros ip. rewrite Hp. apply H2. Qed.

Lemma links_record m recs l d p f f' :
  recs !! p = Some f → PriorityQueueItem f' = PriorityQueueItem f →
  0 <= waitForReadyToSendRetries f' <= MaxRetries →
  links m recs l d → links m (<[p := f']> recs) l d.
Proof.
  intros Hp Hq Hr [H1 H2]. split.
  - intros k x Hx. destruct (H1 k x Hx) as (g & it & Hg & ? & ? & ? & ?).
    destruct (decide (x = p)) as [->|].
    + exists f', it. rewrite lookup_insert_eq. simplify_eq. by rewrite Hq.
    + exists g, it. by rewrite lookup_insert_ne.
  - intros ip Hip. destruct (H2 ip Hip) as (it & g & ? & ? & Hg & ?).
    destruct (decide (flowRecord it = p)) as [<-|].
    + exists it, f'. rewrite lookup_insert_eq. simplify_eq. by rewrite Hq.
    + exists it, g. by rewrite lookup_insert_ne.
Qed.

Lemma links_item m recs l d ip it it' :
  d !! ip = Some it → flowKey it' = flowKey it → flowRecord it' = flowRecord it →
  links m recs l d → links m recs l (<[ip := it']> d).
Proof.
  intros Hip Hk Hr [H1 H2]. split.
  - intros k x Hx. destruct (H1 k x Hx) as (g & itg & Hg & ? & Hd & ? & ?).
    destruct (decide (PriorityQueueItem g = ip)) as [<-|].
    + exists g, it'. rewrite lookup_insert_eq. simplify_eq. by rewrite Hk, Hr.
    + exists g, itg. by rewrite lookup_insert_ne.
  - intros x Hx. destruct (H2 x Hx) as (itx & g & ? & ? & Hg & ?).
    destruct (decide (x = ip)) as [->|].
    + exists it', g. rewrite lookup_insert_eq. simplify_eq. by rewrite Hk, Hr.
    + exists itx, g. by rewrite lookup_insert_ne.
Qed.

Lemma links_pop m recs l d ip : links m recs (ip :: l) d → links m recs l d.
Proof. intros [H1 H2]. split; [done|]. intros x Hx. apply H2. by right. Qed.

Lemma links_push m recs l d ip : item_linked m recs d ip → links m recs l d → links m recs (ip :: l) d.
Proof. intros Hi [H1 H2]. split; [done|]. intros x [->|Hx]%elem_of_cons; auto. Qed.

(** The popped item is the only one of its flow. *)
Lemma links_delete m recs l d ip it p f' :
  d !! ip = Some it → ip ∉ l → p = flowRecord it →
  links m recs (ip :: l) d → links (delete (flowKey it) m) (<[p := f']> recs) l d.
Proof.
  intros Hip Hn -> [H1 H2].
  destruct (H2 ip) as (it0 & f & ? & Hm & Hf & Hpi); [left|]. simplify_eq.
  split.
  - intros k x [Hk Hx]%lookup_delete_Some. destruct (H1 k x Hx) as (g & itg & Hg & ? & Hd & ? & ?).
    exists g, itg. rewrite lookup_insert_ne; [done|]. intros <-. simplify_eq.
  - intros x Hx. destruct (H2 x) as (itx & g & Hdx & Hmx & Hg & ?); [by right|].
    assert (Hr : flowRecord itx ≠ flowRecord it0) by (intros E; rewrite E in Hg; by simplify_eq).
    assert (flowKey itx ≠ flowKey it0) by (intros E; rewrite E in Hmx; congruence).
    exists itx, g. by rewrite lookup_delete_ne, lookup_insert_ne.
Qed.

Lemma links_new m recs l d k p f ip it :
  m !! k = None → recs !! p = None → d !! ip = None →
  PriorityQueueItem f = ip → waitForReadyToSendRetries f = 0 → flowKey it = k → flowRecord it = p →
  links m recs l d → links (<[k := p]> m) (<[p := f]> recs) (ip :: l) (<[ip := it]> d).
Proof.
  intros Hk Hp Hip Hf Hr Hik Hir [H1 H2]. split.
  - intros k' x Hx. destruct (decide (k' = k)) as [->|].
    + rewrite lookup_insert_eq in Hx. simplify_eq. exists f, it. rewrite Hr, !lookup_insert_eq.
      split_and!; done.
    + rewrite lookup_insert_ne in Hx by done. destruct (H1 k' x Hx) as (g & itg & Hg & ? & ? & ? & ?).
      exists g, itg. rewrite !lookup_insert_ne; [done|congruence|congruence].
  - intros x [->|Hx]%elem_of_cons.
    + exists it, f. rewrite Hik, Hir, !lookup_insert_eq. done.
    + destruct (H2 x Hx) as (itx & g & ? & ? & ? & ?).
      exists itx, g. rewrite !lookup_insert_ne; [done|congruence..].
Qed.

(** ** Lemmas: queue operations of the process *)

Lemma data_lookup q ip : pq_data q !! ip = with_index 0 <$> items q !! ip.
Proof. unfold pq_data. by rewrite lookup_fmap. Qed.

Lemma run_queue_Ok f a q : f (queue_of a) = Ok q → run_queue f a = (Ok tt, with_queue q a).
Proof. unfold run_queue. by intros ->. Qed.

(** Setting the times of an item that is not queued, and queueing it. *)
Lemma push_item_spec a ip it key rec act inact :
  pq_inv (queue_of a) → items (queue_of a) !! ip = Some it → ip ∉ pq (queue_of a) →
  ∃ q, (set_item ip (mkItemToExpire key rec act inact (item_index it));; run_queue (heap_Push ip)) a =
         (Ok tt, with_queue q a) ∧
    pq_inv q ∧ pq q ≡ₚ ip :: pq (queue_of a) ∧
    pq_data q = <[ip := mkItemToExpire key rec act inact 0]> (data_of a).
Proof.
  intros [Hv Ho] Hit Hn. set (u := updated (queue_of a) ip key rec act inact it).
  assert (Hu : pq_inv u) by (split; [by apply updated_valid|unfold u; by rewrite updated_view]).
  destruct (Push_spec u ip (mkItemToExpire key rec act inact (item_index it)) Hu) as (q & E & Hq & Hp & Hd);
    [apply lookup_insert_eq|done|].
  exists q. split_and!; [|done|done|].
  - change (run_queue (heap_Push ip) (with_queue u a) = (Ok tt, with_queue q a)).
    by rewrite (run_queue_Ok _ _ q).
  - rewrite Hd. unfold pq_data, u, updated. cbn [items]. by rewrite fmap_insert.
Qed.

Lemma pop_item_spec a :
  pq_inv (queue_of a) → pq (queue_of a) ≠ [] →
  ∃ ip q, pop_item a = (Ok ip, with_queue q a) ∧ Peek (queue_of a) = Ok ip ∧ pq_inv q ∧
    ip :: pq q ≡ₚ pq (queue_of a) ∧ pq_data q = data_of a ∧
    ∀ x, x ∈ pq (queue_of a) → key_of (queue_of a) ip <= key_of (queue_of a) x.
Proof.
  intros Hi Hne. destruct (Pop_spec _ Hi Hne) as (p & q & E & ? & ? & ? & ? & ?).
  exists p, q. unfold pop_item. by rewrite E.
Qed.

(** ** What one iteration of the expiry loop does

    The specification keeps the queue as a bag of items. *)

Definition same_config (a a' : AggregationProcess) : Prop :=
  activeExpiryTimeout a' = activeExpiryTimeout a ∧ inactiveExpiryTimeout a' = inactiveExpiryTimeout a ∧
  correlateFields a' = correlateFields a ∧ aggregateElements a' = aggregateElements a.

(** The process [a'] has these flows, records, queued items and items. *)
Definition becomes (a : AggregationProcess) (m : gmap FlowKey ptr)
    (recs : gmap ptr AggregationFlowRecord) (l : list ptr) (d : gmap ptr ItemToExpire)
    (a' : AggregationProcess) : Prop :=
  same_config a a' ∧ flowKeyRecordMap a' = m ∧ flowRecords a' = recs ∧
  pq (queue_of a') ≡ₚ l ∧ data_of a' = d.

(** [ip] is the queued item that expires first, and it is due; the others are [rest]. *)
Definition due (now : Z) (a : AggregationProcess) (ip : ptr) (it : ItemToExpire)
    (f : AggregationFlowRecord) (rest : list ptr) : Prop :=
  ip :: rest ≡ₚ pq (queue_of a) ∧ (ip ∉ rest) ∧ data_of a !! ip = Some it ∧ min_expire it <= now ∧
  flowKeyRecordMap a !! flowKey it = Some (flowRecord it) ∧
  flowRecords a !! flowRecord it = Some f ∧ PriorityQueueItem f = ip ∧
  0 <= waitForReadyToSendRetries f <= MaxRetries.

Inductive expired (now : Z) (cb : FlowKeyRecordMapCallBack) (a : AggregationProcess)
    (calls : list call) : go bool → AggregationProcess → list call → Prop :=
| expired_none :
    (∀ x, x ∈ pq (queue_of a) → now < key_of (queue_of a) x) → expired now cb a calls (Ok false) a calls
| expired_give_up ip it f rest a' :
    due now a ip it f rest → ReadyToSend f = false → waitForReadyToSendRetries f = MaxRetries →
    becomes a (delete (flowKey it) (flowKeyRecordMap a))
      (<[flowRecord it := with_retries (waitForReadyToSendRetries f + 1) f]> (flowRecords a))
      rest (data_of a) a' →
    expired now cb a calls (Ok true) a' calls
| expired_retry ip it f rest a' :
    due now a ip it f rest → ReadyToSend f = false → waitForReadyToSendRetries f < MaxRetries →
    becomes a (flowKeyRecordMap a)
      (<[flowRecord it := with_retries (waitForReadyToSendRetries f + 1) f]> (flowRecords a))
      (ip :: rest)
      (<[ip := mkItemToExpire (flowKey it) (flowRecord it) (now + activeExpiryTimeout a)
                 (now + inactiveExpiryTimeout a) 0]> (data_of a)) a' →
    expired now cb a calls (Ok true) a' calls
| expired_failed ip it f rest res f' a' :
    due now a ip it f rest → ReadyToSend f = true → cb calls (flowKey it) f = (res, f') → res ≠ Ok tt →
    becomes a (flowKeyRecordMap a) (<[flowRecord it := by_callback f f']> (flowRecords a))
      rest (data_of a) a' →
    expired now cb a calls (with_err ErrCallback ((λ _, true) <$> res)) a' (calls ++ [(flowKey it, f)])
| expired_deleted ip it f rest f' a' :
    due now a ip it f rest → ReadyToSend f = true → cb calls (flowKey it) f = (Ok tt, f') →
    inactiveExpireTime it < now →
    becomes a (delete (flowKey it) (flowKeyRecordMap a))
      (<[flowRecord it := by_callback f f']> (flowRecords a)) rest (data_of a) a' →
    expired now cb a calls (Ok true) a' (calls ++ [(flowKey it, f)])
| expired_requeued ip it f rest f' a' :
    due now a ip it f rest → ReadyToSend f = true → cb calls (flowKey it) f = (Ok tt, f') →
    now <= inactiveExpireTime it → activeExpireTime it < now →
    becomes a (flowKeyRecordMap a) (<[flowRecord it := by_callback f f']> (flowRecords a)) (ip :: rest)
      (<[ip := mkItemToExpire (flowKey it) (flowRecord it) (now + activeExpiryTimeout a)
                 (inactiveExpireTime it) 0]> (data_of a)) a' →
    expired now cb a calls (Ok true) a' (calls ++ [(flowKey it, f)])
| expired_dropped ip it f rest f' a' :
    due now a ip it f rest → ReadyToSend f = true → cb calls (flowKey it) f = (Ok tt, f') →
    now <= inactiveExpireTime it → now <= activeExpireTime it →
    becomes a (flowKeyRecordMap a) (<[flowRecord it := by_callback f f']> (flowRecords a))
      rest (data_of a) a' →
    expired now cb a calls (Ok true) a' (calls ++ [(flowKey it, f)]).

(** The process after [pop_item] returned [ip]: its flow is still linked. *)
Definition popped (a : AggregationProcess) (ip : ptr) (it : ItemToExpire) (f : AggregationFlowRecord)
    : Prop :=
  pq_inv (queue_of a) ∧
  links (flowKeyRecordMap a) (flowRecords a) (ip :: pq (queue_of a)) (data_of a) ∧
  items (queue_of a) !! ip = Some it ∧ (ip ∉ pq (queue_of a)) ∧
  flowRecords a !! flowRecord it = Some f ∧
  flowKeyRecordMap a !! flowKey it = Some (flowRecord it) ∧ PriorityQueueItem f = ip.

Lemma delete_key_spec key p a :
  flowKeyRecordMap a !! key = Some p →
  deleteFlowKeyFromMapWithoutLock key a = (Ok tt, with_flows (delete key (flowKeyRecordMap a)) a).
Proof. unfold deleteFlowKeyFromMapWithoutLock. by intros ->. Qed.

(** Deleting the flow of the popped item. *)
Lemma delete_popped a ip it f f' :
  popped a ip it f →
  ∃ a', M_with_err ErrDeleteFlow (deleteFlowKeyFromMapWithoutLock (flowKey it))
          (with_flowRecords (<[flowRecord it := f']> (flowRecords a)) a) = (Ok tt, a') ∧ agg_inv a' ∧
    becomes a (delete (flowKey it) (flowKeyRecordMap a)) (<[flowRecord it := f']> (flowRecords a))
      (pq (queue_of a)) (data_of a) a'.
Proof.
  intros (Hi & Hl & Hit & Hn & Hf & Hm & Hp). unfold M_with_err.
  rewrite (delete_key_spec _ (flowRecord it)) by done. eexists. split; [done|]. split.
  - split; [done|]. apply (links_delete _ _ _ _ ip (with_index 0 it) (flowRecord it) f'); try done.
    simpl. by rewrite data_lookup, Hit.
  - by split_and!.
Qed.

(** Queueing the popped item again with new times. *)
Lemma requeue_popped a ip it f f' act inact :
  popped a ip it f → PriorityQueueItem f' = ip → 0 <= waitForReadyToSendRetries f' <= MaxRetries →
  ∃ a', (set_item ip (mkItemToExpire (flowKey it) (flowRecord it) act inact (item_index it));;
         run_queue (heap_Push ip))
          (with_flowRecords (<[flowRecord it := f']> (flowRecords a)) a) = (Ok tt, a') ∧ agg_inv a' ∧
    becomes a (flowKeyRecordMap a) (<[flowRecord it := f']> (flowRecords a))
      (ip :: pq (queue_of a))
      (<[ip := mkItemToExpire (flowKey it) (flowRecord it) act inact 0]> (data_of a)) a'.
Proof.
  intros (Hi & Hl & Hit & Hn & Hf & Hm & Hp) Hp' Hr'.
  destruct (push_item_spec (with_flowRecords (<[flowRecord it := f']> (flowRecords a)) a) ip it
    (flowKey it) (flowRecord it) act inact) as (q & E & Hq & Hpq & Hd); [done..|].
  eexists. split; [exact E|]. split; [|by split_and!].
  split; [done|]. simpl. apply (links_perm _ _ (ip :: pq (queue_of a))); [done|]. rewrite Hd.
  apply (links_item _ _ _ _ ip (with_index 0 it)); [|done|done|].
  - simpl. by rewrite data_lookup, Hit.
  - apply (links_record _ _ _ _ _ f); [done|by rewrite Hp, Hp'|done|done].
Qed.

(** Leaving the popped item out of the queue. *)
Lemma drop_popped a ip it f f' :
  popped a ip it f → PriorityQueueItem f' = ip → 0 <= waitForReadyToSendRetries f' <= MaxRetries →
  let a' := with_flowRecords (<[flowRecord it := f']> (flowRecords a)) a in
  agg_inv a' ∧
  becomes a (flowKeyRecordMap a) (<[flowRecord it := f']> (flowRecords a))
    (pq (queue_of a)) (data_of a) a'.
Proof.
  intros (Hi & Hl & Hit & Hn & Hf & Hm & Hp) Hp' Hr' a'. split; [|by split_and!].
  split; [done|]. apply (links_record _ _ _ _ _ f); [done|by rewrite Hp, Hp'|done|].
  by eapply links_pop.
Qed.

(** A flow in the map has at most [MaxRetries] retries. *)
Lemma links_retries m recs l d k p f :
  links m recs l d → m !! k = Some p → recs !! p = Some f →
  0 <= waitForReadyToSendRetries f <= MaxRetries.
Proof. intros [H _] Hk Hp. destruct (H k p Hk) as (f' & it & ? & ? & _). by simplify_eq. Qed.

(** The first item of the queue, when it is due. *)
Lemma pop_due now a :
  agg_inv a → pq (queue_of a) ≠ [] →
  ∃ ip q it1 f, Peek (queue_of a) = Ok ip ∧ pop_item a = (Ok ip, with_queue q a) ∧
    popped (with_queue q a) ip it1 f ∧ pq_data q = data_of a ∧
    (∃ top, items (queue_of a) !! ip = Some top ∧ with_index 0 top = with_index 0 it1) ∧
    (∀ x, x ∈ pq (queue_of a) → min_expire it1 <= key_of (queue_of a) x) ∧
    (min_expire it1 <= now → due now a ip (with_index 0 it1) f (pq q)).
Proof.
  intros [Hi Hl] Hne. destruct (pop_item_spec a Hi Hne) as (ip & q & E & Hpk & Hq & Hperm & Hd & Hmin).
  assert (Hn : ip ∉ pq q).
  { destruct Hi as [Hv _]. apply pq_valid_NoDup in Hv. rewrite <- Hperm in Hv. by inversion Hv. }
  assert (Hl' := links_perm _ _ _ _ _ Hperm Hl).
  destruct (proj2 Hl' ip) as (it & f & Hit & Hm & Hf & Hpi); [left|].
  pose proof Hit as Hit1. rewrite <- Hd, data_lookup in Hit1.
  destruct (items q !! ip) as [it1|] eqn:E1; [|done]. injection Hit1 as <-.
  pose proof Hit as Hit0. rewrite data_lookup in Hit0.
  destruct (items (queue_of a) !! ip) as [top|] eqn:E0; [|done]. injection Hit0 as Ht1 Ht2 Ht3 Ht4.
  exists ip, q, it1, f. split_and!; try done.
  - split_and!; try done. simpl. by rewrite Hd.
  - exists top. split; [done|]. unfold with_index. by rewrite Ht1, Ht2, Ht3, Ht4.
  - intros x Hx. specialize (Hmin x Hx). revert Hmin. unfold key_of at 1. rewrite E0. simpl.
    unfold min_expire. by rewrite Ht3, Ht4.
  - intros Hdue. split_and!; try done.
    + by destruct (links_retries _ _ _ _ _ _ _ Hl Hm Hf).
    + by destruct (links_retries _ _ _ _ _ _ _ Hl Hm Hf).
Qed.

Lemma in_process_run {A} (m : AP A) a calls res a' :
  m a = (res, a') → in_process m (a, calls) = (res, (a', calls)).
Proof. unfold in_process. simpl. by intros ->. Qed.

Lemma due_retries now a ip it f rest : due now a ip it f rest → 0 <= waitForReadyToSendRetries f <= MaxRetries.
Proof. intros (_ & _ & _ & _ & _ & _ & _ & H). done. Qed.

(** The specification says nothing of the index. *)
Lemma becomes_from q a m recs l d a' :
  becomes (with_queue q a) m recs l d a' → becomes a m recs l d a'.
Proof. intros (Hc & ? & ? & ? & ?). by split_and!. Qed.

Lemma retry_flow_spec now cb a calls q ip it f :
  popped (with_queue q a) ip it f → pq_data q = data_of a → due now a ip (with_index 0 it) f (pq q) →
  ReadyToSend f = false →
  ∃ a', retry_flow now ip it f (with_queue q a) = (Ok tt, a') ∧ agg_inv a' ∧
        expired now cb a calls (Ok true) a' calls.
Proof.
  intros Hpop Hd Hdue Hready. pose proof (due_retries _ _ _ _ _ _ Hdue) as Hr.
  assert (Hpi : PriorityQueueItem f = ip) by apply Hpop.
  unfold retry_flow. rewrite (M_bind_Ok _ _ _ (with_queue q a) (with_queue q a)) by done.
  erewrite M_bind_Ok by done. cbv zeta.
  destruct (decide (MaxRetries < waitForReadyToSendRetries f + 1)).
  - destruct (delete_popped _ _ _ _ (with_retries (waitForReadyToSendRetries f + 1) f) Hpop)
      as (a' & E & Hinv & Hb).
    exists a'. split_and!; [exact E|done|]. cbn in Hb. rewrite Hd in Hb. apply becomes_from in Hb.
    eapply expired_give_up; [exact Hdue|done|lia|exact Hb].
  - destruct (requeue_popped _ _ _ _ (with_retries (waitForReadyToSendRetries f + 1) f)
      (now + activeExpiryTimeout a) (now + inactiveExpiryTimeout a) Hpop) as (a' & E & Hinv & Hb);
      [done|simpl; lia|].
    exists a'. split_and!; [exact E|done|]. cbn in Hb. rewrite Hd in Hb. apply becomes_from in Hb.
    eapply expired_retry; [exact Hdue|done|lia|exact Hb].
Qed.

(** The ready flow, after its callback returned normally. *)
Lemma requeue_flow_spec now cb a calls q ip it f f' :
  popped (with_queue q a) ip it f → pq_data q = data_of a → due now a ip (with_index 0 it) f (pq q) →
  ReadyToSend f = true → cb calls (flowKey it) f = (Ok tt, f') →
  ∃ a', requeue_flow now ip it
          (with_flowRecords (<[flowRecord it := by_callback f f']> (flowRecords a)) (with_queue q a)) =
          (Ok tt, a') ∧ agg_inv a' ∧
        expired now cb a calls (Ok true) a' (calls ++ [(flowKey it, f)]).
Proof.
  intros Hpop Hd Hdue Hready Hcb. pose proof (due_retries _ _ _ _ _ _ Hdue) as Hr.
  assert (Hpi : PriorityQueueItem f = ip) by apply Hpop.
  unfold requeue_flow. erewrite M_bind_Ok by done. cbv beta.
  destruct (decide (inactiveExpireTime it < now)); [|destruct (decide (activeExpireTime it < now))].
  - destruct (delete_popped _ _ _ _ (by_callback f f') Hpop) as (a' & E & Hinv & Hb).
    exists a'. split_and!; [exact E|done|]. cbn in Hb. rewrite Hd in Hb. apply becomes_from in Hb.
    apply (expired_deleted now cb a calls ip (with_index 0 it) f (pq q) f' a'); [exact Hdue|done|exact Hcb|done|exact Hb].
  - destruct (requeue_popped _ _ _ _ (by_callback f f') (now + activeExpiryTimeout a)
      (inactiveExpireTime it) Hpop) as (a' & E & Hinv & Hb); [done|done|].
    exists a'. split_and!; [exact E|done|]. cbn in Hb. rewrite Hd in Hb. apply becomes_from in Hb.
    apply (expired_requeued now cb a calls ip (with_index 0 it) f (pq q) f' a'); [exact Hdue|done|exact Hcb|simpl; lia|done|exact Hb].
  - destruct (drop_popped _ _ _ _ (by_callback f f') Hpop) as [Hinv Hb]; [done|done|].
    eexists. split_and!; [reflexivity|done|]. cbn in Hb. rewrite Hd in Hb. apply becomes_from in Hb.
    eapply (expired_dropped now cb a calls ip (with_index 0 it) f (pq q) f'); [exact Hdue|done|exact Hcb|simpl; lia|simpl; lia|exact Hb].
Qed.

Lemma M_bind_run {S A B} (m : M S A) (f : A → M S B) s res s' :
  m s = (res, s') → is_okb res = false →
  (m ≫= f) s = (match res with Ok _ => Block | Err e => Err e | Panic => Panic | Block => Block end, s').
Proof. unfold mbind, M_bind. intros ->. by destruct res. Qed.

(** One iteration implements the specification and keeps the invariant. *)
Lemma expire_one_spec now cb a calls :
  agg_inv a →
  ∃ res a' calls', expire_one now cb (a, calls) = (res, (a', calls')) ∧ agg_inv a' ∧
    expired now cb a calls res a' calls'.
Proof.
  intros Hinv. unfold expire_one. rewrite (M_bind_Ok _ _ _ (a, calls) (a, calls)) by done. cbn [fst].
  destruct (decide (pq_Len (queue_of a) = 0%nat)) as [H0|H0].
  { exists (Ok false), a, calls. split_and!; [done|done|]. apply expired_none. intros x Hx.
    unfold pq_Len in H0. destruct (pq (queue_of a)); [by apply not_elem_of_nil in Hx|done]. }
  destruct (pop_due now a Hinv) as (ip & q & it & f & Hpk & Hpop & Hp & Hd & (top & Htop & Heq) & Hmin & Hdue);
    [by intros E; apply H0; unfold pq_Len; rewrite E|].
  rewrite Hpk. erewrite M_bind_Ok by done.
  erewrite M_bind_Ok by (apply in_process_run; unfold get_item; by rewrite Htop).
  injection Heq as Ht1 Ht2 Ht3 Ht4. rewrite Ht3, Ht4.
  destruct (decide (now < activeExpireTime it ∧ now < inactiveExpireTime it)) as [Hlate|Hnow].
  { exists (Ok false), a, calls. split_and!; [done|done|]. apply expired_none. intros x Hx.
    specialize (Hmin x Hx). revert Hmin. unfold min_expire. case_decide; lia. }
  assert (Hdue' : due now a ip (with_index 0 it) f (pq q)).
  { apply Hdue. unfold min_expire. case_decide; lia. }
  erewrite M_bind_Ok by (apply in_process_run; exact Hpop).
  pose proof Hp as (_ & _ & Hit & _ & Hf & _ & _).
  erewrite M_bind_Ok by (apply in_process_run; unfold get_item; by rewrite Hit).
  erewrite M_bind_Ok by (apply in_process_run; unfold get_flow; by rewrite Hf).
  destruct (ReadyToSend f) eqn:Hr.
  - destruct (cb calls (flowKey it) f) as [res f'] eqn:Hcb.
    assert (Erun : M_with_err ErrCallback (run_callback cb (flowKey it) (flowRecord it) f)
      (with_queue q a, calls) = (with_err ErrCallback res,
        (with_flowRecords (<[flowRecord it := by_callback f f']> (flowRecords a)) (with_queue q a),
         calls ++ [(flowKey it, f)]))).
    { unfold M_with_err, run_callback. simpl. by rewrite Hcb. }
    destruct (decide (res = Ok tt)) as [->|Hne].
    + destruct (requeue_flow_spec now cb a calls q ip it f f' Hp Hd Hdue' Hr Hcb) as (a' & E & Hi & Hx).
      exists (Ok true), a', (calls ++ [(flowKey it, f)]). split_and!; [|done|done].
      erewrite M_bind_Ok; [done|]. rewrite (M_bind_Ok _ _ _ _ _ Erun). by apply in_process_run.
    + destruct (drop_popped _ _ _ _ (by_callback f f') Hp) as [Hi Hb];
        [by destruct Hp as (_ & _ & _ & _ & _ & _ & ?)|exact (due_retries _ _ _ _ _ _ Hdue')|].
      eexists _, _, _. split_and!; [|exact Hi|].
      * erewrite M_bind_run; [reflexivity| |];
          [erewrite M_bind_run; [reflexivity|exact Erun|by destruct res as [[]| | |]]|by destruct res as [[]| | |]].
      * cbn in Hb. rewrite Hd in Hb. apply becomes_from in Hb.
        pose proof (expired_failed now cb a calls ip (with_index 0 it) f (pq q) res f' _ Hdue' Hr Hcb Hne Hb) as Hx.
        by destruct res as [[]| | |].
  - destruct (retry_flow_spec now cb a calls q ip it f Hp Hd Hdue' Hr) as (a' & E & Hi & Hx).
    exists (Ok true), a', calls. split_and!; [|done|done].
    erewrite M_bind_Ok; [done|]. by apply in_process_run.
Qed.

(** ** The expiry loop *)

(** A run of the loop, as a sequence of specified iterations between which the
    invariant holds. *)
Inductive expiry_run (now : Z) (cb : FlowKeyRecordMapCallBack)
    : AggregationProcess → list call → go unit → AggregationProcess → list call → Prop :=
| run_stop a calls :
    expired now cb a calls (Ok false) a calls → expiry_run now cb a calls (Ok tt) a calls
| run_fail a calls res a' calls' :
    expired now cb a calls res a' calls' → is_okb res = false →
    expiry_run now cb a calls ((λ _, tt) <$> res) a' calls'
| run_more a calls a1 calls1 res a' calls' :
    expired now cb a calls (Ok true) a1 calls1 → agg_inv a1 →
    expiry_run now cb a1 calls1 res a' calls' →
    expiry_run now cb a calls res a' calls'.

(** How often an item can still be popped in this run. *)
Definition weight (now : Z) (a : AggregationProcess) (ip : ptr) : nat :=
  match data_of a !! ip with
  | None => 0
  | Some it =>
      match flowRecords a !! flowRecord it with
      | None => 0
      | Some f =>
          Z.to_nat (MaxRetries - waitForReadyToSendRetries f) +
          (if decide (activeExpireTime it < now) then 1 else 0) + 1
      end
  end.

Definition total_weight (now : Z) (a : AggregationProcess) : nat :=
  sum_list_with (weight now a) (pq (queue_of a)).

Lemma sum_list_with_perm {A} (g : A → nat) l l' : l ≡ₚ l' → sum_list_with g l = sum_list_with g l'.
Proof. induction 1; simpl; lia. Qed.

Lemma sum_list_with_ext {A} (g h : A → nat) l :
  (∀ x, x ∈ l → g x = h x) → sum_list_with g l = sum_list_with h l.
Proof.
  induction l as [|x l IH]; intros H; [done|]. simpl. rewrite H, IH; [done| |left].
  intros y Hy. apply H. by right.
Qed.

(** The other queued items belong to other flows. *)
Lemma due_others now a ip it f rest x :
  agg_inv a → due now a ip it f rest → x ∈ rest →
  ∃ itx, data_of a !! x = Some itx ∧ flowRecord itx ≠ flowRecord it ∧ flowKey itx ≠ flowKey it ∧ x ≠ ip.
Proof.
  intros [_ [_ Hl]] (Hp & Hn & Hit & _ & Hm & Hf & Hpi & _) Hx.
  assert (Hne : x ≠ ip) by (by intros ->).
  destruct (Hl x) as (itx & fx & Hdx & Hmx & Hfx & Hpx); [rewrite <- Hp; by right|].
  exists itx. split_and!; [done| |..|done].
  - intros E. rewrite E in Hfx. congruence.
  - intros E. rewrite E in Hmx. congruence.
Qed.

Lemma rest_weight now a ip it f rest m f' l d a' :
  agg_inv a → due now a ip it f rest →
  becomes a m (<[flowRecord it := f']> (flowRecords a)) l d a' →
  (∀ x, x ≠ ip → d !! x = data_of a !! x) →
  sum_list_with (weight now a') rest = sum_list_with (weight now a) rest.
Proof.
  intros Hi Hdue (_ & _ & Hr & _ & Hd) Hother. apply sum_list_with_ext. intros x Hx.
  destruct (due_others _ _ _ _ _ _ _ Hi Hdue Hx) as (itx & Hdx & Hne & _ & Hxip).
  unfold weight. rewrite Hd, Hother, Hdx, Hr by done. by rewrite lookup_insert_ne by done.
Qed.

Lemma total_due now a ip it f rest :
  due now a ip it f rest →
  total_weight now a = (weight now a ip + sum_list_with (weight now a) rest)%nat.
Proof. intros (Hp & _). unfold total_weight. by rewrite <- (sum_list_with_perm _ _ _ Hp). Qed.

Lemma weight_due now a ip it f rest :
  due now a ip it f rest →
  weight now a ip = (Z.to_nat (MaxRetries - waitForReadyToSendRetries f) +
                     (if decide (activeExpireTime it < now)%Z then 1 else 0) + 1)%nat.
Proof. intros (_ & _ & Hit & _ & _ & Hf & _). unfold weight. by rewrite Hit, Hf. Qed.

(** Every iteration that continues pops an item for good or makes it lighter. *)
Lemma expired_lighter now cb a calls a' calls' :
  agg_inv a → 0 <= activeExpiryTimeout a → expired now cb a calls (Ok true) a' calls' →
  (total_weight now a' < total_weight now a)%nat.
Proof.
  intros Hi HT H. remember (Ok true) as res eqn:Hres.
  assert (Hgone : ∀ ip it f rest m f',
    due now a ip it f rest → becomes a m (<[flowRecord it := f']> (flowRecords a)) rest (data_of a) a' →
    (total_weight now a' < total_weight now a)%nat).
  { intros ip it f rest m f' Hdue Hb. rewrite (total_due _ _ _ _ _ _ Hdue), (weight_due _ _ _ _ _ _ Hdue).
    rewrite <- (rest_weight _ _ _ _ _ _ _ _ _ _ _ Hi Hdue Hb) by done.
    destruct Hb as (_ & _ & _ & Hp & _). unfold total_weight.
    rewrite (sum_list_with_perm _ _ _ Hp). lia. }
  assert (Hback : ∀ ip it f rest m f' act inact,
    due now a ip it f rest →
    becomes a m (<[flowRecord it := f']> (flowRecords a)) (ip :: rest)
      (<[ip := mkItemToExpire (flowKey it) (flowRecord it) act inact 0]> (data_of a)) a' → now <= act →
    (Z.to_nat (MaxRetries - waitForReadyToSendRetries f') <
     Z.to_nat (MaxRetries - waitForReadyToSendRetries f) +
     (if decide (activeExpireTime it < now)%Z then 1 else 0))%nat →
    (total_weight now a' < total_weight now a)%nat).
  { intros ip it f rest m f' act inact Hdue Hb Hact Hlt.
    rewrite (total_due _ _ _ _ _ _ Hdue), (weight_due _ _ _ _ _ _ Hdue).
    rewrite <- (rest_weight _ _ _ _ _ _ _ _ _ _ _ Hi Hdue Hb) by (intros; by rewrite lookup_insert_ne).
    destruct Hb as (_ & _ & Hr & Hp & Hd). unfold total_weight.
    rewrite (sum_list_with_perm _ _ _ Hp). simpl. unfold weight at 1. rewrite Hd, lookup_insert_eq.
    simpl. rewrite Hr, lookup_insert_eq. rewrite (decide_False (P := act < now)) by lia. lia. }
  destruct H; simplify_eq; eauto.
  - eapply Hback; [done|done|lia|]. simpl. pose proof (due_retries _ _ _ _ _ _ H). lia.
  - eapply Hback; [done|done|lia|]. rewrite decide_True by done. simpl. lia.
Qed.

Lemma expired_config now cb a calls res a' calls' :
  expired now cb a calls res a' calls' → same_config a a'.
Proof.
  destruct 1; try done;
    match goal with H : becomes _ _ _ _ _ _ |- _ => apply H end.
Qed.

Lemma expire_loop_spec fuel now cb a calls :
  agg_inv a → 0 <= activeExpiryTimeout a → (total_weight now a < fuel)%nat →
  ∃ res a' calls', expire_loop fuel now cb (a, calls) = (res, (a', calls')) ∧ agg_inv a' ∧
    expiry_run now cb a calls res a' calls'.
Proof.
  revert a calls. induction fuel as [|fuel IH]; intros a calls Hi HT Hw; [lia|].
  destruct (expire_one_spec now cb a calls Hi) as (res & a1 & calls1 & E & Hi1 & Hx).
  cbn [expire_loop]. destruct (is_okb res) eqn:Hok.
  - destruct res as [[]| | |]; try done; rewrite (M_bind_Ok _ _ _ _ _ E).
    + destruct (expired_config _ _ _ _ _ _ _ Hx) as [Hc _].
      destruct (IH a1 calls1) as (res & a' & calls' & E' & Hi' & Hrun); [done|by rewrite Hc| |].
      { pose proof (expired_lighter _ _ _ _ _ _ Hi HT Hx). lia. }
      exists res, a', calls'. split_and!; [done|done|]. by eapply run_more.
    + exists (Ok tt), a1, calls1. split_and!; [done|done|].
      remember (Ok false) as res eqn:Hres. destruct Hx; simplify_eq; [by constructor; constructor|].
      by match goal with x : go unit |- _ => destruct x as [[]| | |] end.
  - rewrite (M_bind_run _ _ _ _ _ E Hok).
    eexists _, a1, calls1. split_and!; [reflexivity|done|].
    pose proof (run_fail now cb a calls res a1 calls1 Hx Hok) as Hf. by destruct res.
Qed.

Lemma weight_bound now a ip : agg_inv a → ip ∈ pq (queue_of a) → (weight now a ip <= 4)%nat.
Proof.
  intros [_ Hl] Hip. destruct (proj2 Hl ip Hip) as (it & f & Hd & Hm & Hf & _).
  pose proof (links_retries _ _ _ _ _ _ _ Hl Hm Hf). unfold weight. rewrite Hd, Hf.
  unfold MaxRetries in *. case_decide; lia.
Qed.

Lemma total_weight_bound now a : agg_inv a → (total_weight now a < expire_fuel a)%nat.
Proof.
  intros Hi. unfold total_weight, expire_fuel, pq_Len.
  assert (Hb : ∀ x, x ∈ pq (queue_of a) → (weight now a x <= 4)%nat) by (intros; by apply weight_bound).
  revert Hb. generalize (pq (queue_of a)). intros l. induction l as [|x l IH]; intros Hb; simpl; [lia|].
  pose proof (Hb x ltac:(left)). specialize (IH (λ y Hy, Hb y (list_elem_of_further _ _ _ Hy))). lia.
Qed.

(** The heap-based loop ends and is a run of the specification. *)
Lemma expire_refines now cb a calls :
  agg_inv a → 0 <= activeExpiryTimeout a →
  ∃ res a' calls', ForAllExpiredFlowRecordsDo now cb (a, calls) = (res, (a', calls')) ∧ agg_inv a' ∧
    expiry_run now cb a calls res a' calls'.
Proof.
  intros Hi HT. unfold ForAllExpiredFlowRecordsDo. cbn [fst].
  apply expire_loop_spec; [done|done|by apply total_weight_bound].
Qed.

(** ** Lemmas: adding and updating flows *)

(** What messages do to the flows: none is lost or gets another item, and no item
    enters or leaves the queue except with a new flow. *)
Definition grows (a a' : AggregationProcess) : Prop :=
  agg_inv a' ∧ same_config a a' ∧
  (∀ k p, flowKeyRecordMap a !! k = Some p → flowKeyRecordMap a' !! k = Some p) ∧
  (∀ p f, flowRecords a !! p = Some f →
     ∃ f', flowRecords a' !! p = Some f' ∧ PriorityQueueItem f' = PriorityQueueItem f ∧
           (ReadyToSend f = true → ReadyToSend f' = true)) ∧
  (∀ ip, is_Some (data_of a !! ip) →
     is_Some (data_of a' !! ip) ∧ (ip ∈ pq (queue_of a') ↔ ip ∈ pq (queue_of a))).

Lemma grows_refl a : agg_inv a → grows a a.
Proof. intros Hi. split; [done|]. split; [done|]. split_and!; eauto. Qed.

Lemma grows_trans a b c : grows a b → grows b c → grows a c.
Proof.
  intros (_ & (? & ? & ? & ?) & M1 & R1 & D1) (Hi & (? & ? & ? & ?) & M2 & R2 & D2).
  split; [done|]. split; [split_and!; congruence|]. split_and!; [by auto| |].
  - intros p f Hf. destruct (R1 p f Hf) as (f1 & Hf1 & P1 & Q1).
    destruct (R2 p f1 Hf1) as (f2 & Hf2 & P2 & Q2). exists f2. split_and!; [done|congruence|auto].
  - intros ip Hip. destruct (D1 ip Hip) as [HD1 E1]. destruct (D2 ip HD1) as [HD2 E2].
    split; [done|]. by rewrite E2.
Qed.

(** Replacing one flow record by one with the same item. *)
Lemma grows_record a p f f' :
  agg_inv a → flowRecords a !! p = Some f → PriorityQueueItem f' = PriorityQueueItem f →
  waitForReadyToSendRetries f' = waitForReadyToSendRetries f →
  (ReadyToSend f = true → ReadyToSend f' = true) →
  (∃ k, flowKeyRecordMap a !! k = Some p) →
  grows a (with_flowRecords (<[p := f']> (flowRecords a)) a).
Proof.
  intros [Hq Hl] Hp Hi Hr Hs [k Hk]. pose proof (links_retries _ _ _ _ _ _ _ Hl Hk Hp) as Hret.
  split; [split; [done|eapply links_record; [done|done|by rewrite Hr|done]]|].
  split; [done|]. split_and!; [done| |done].
  intros x g Hg. simpl. destruct (decide (x = p)) as [->|].
  - exists f'. rewrite lookup_insert_eq. by simplify_eq.
  - exists g. by rewrite lookup_insert_ne.
Qed.

(** The flows are the same. *)
Definition stays (a a' : AggregationProcess) : Prop :=
  grows a a' ∧ flowKeyRecordMap a' = flowKeyRecordMap a.

Lemma stays_refl a : agg_inv a → stays a a.
Proof. split; [by apply grows_refl|done]. Qed.

Lemma stays_trans a b c : stays a b → stays b c → stays a c.
Proof. intros [H1 E1] [H2 E2]. split; [by eapply grows_trans|congruence]. Qed.

(** A call that keeps the flows, on states that have the flow [p]. *)
Definition flow_call {A} (p : ptr) (m : AP A) : Prop :=
  ∀ a, agg_inv a → (∃ k, flowKeyRecordMap a !! k = Some p) → stays a (m a).2.

Lemma flow_call_bind {A B} p (m : AP A) (f : A → AP B) :
  flow_call p m → (∀ x, flow_call p (f x)) → flow_call p (m ≫= f).
Proof.
  intros Hm Hf a Hi Hp. unfold mbind, M_bind. specialize (Hm a Hi Hp).
  destruct (m a) as [[x| | |] a1] eqn:E; simpl in Hm; try exact Hm.
  eapply stays_trans; [exact Hm|]. apply Hf; [apply Hm|]. by rewrite (proj2 Hm).
Qed.

Lemma flow_call_lift {A} p (m : go A) : flow_call p (M_lift m).
Proof. intros a Hi _. by apply stays_refl. Qed.

Lemma flow_call_ret {A} p (x : A) : flow_call p (mret x).
Proof. intros a Hi _. by apply stays_refl. Qed.

Lemma flow_call_get p : flow_call p M_get.
Proof. intros a Hi _. by apply stays_refl. Qed.

Lemma flow_call_get_flow p q : flow_call p (get_flow q).
Proof. intros a Hi _. by apply stays_refl. Qed.

Lemma flow_call_get_item p q : flow_call p (get_item q).
Proof. intros a Hi _. by apply stays_refl. Qed.

Lemma flow_call_record {A} p (m : Rec A) : flow_call p (run_record p m).
Proof.
  intros a Hi Hp. unfold run_record. destruct (flowRecords a !! p) as [f|] eqn:E; [|by apply stays_refl].
  destruct (m (Record_ f)) as [res r]. simpl. split; [by eapply grows_record|done].
Qed.

Lemma flow_call_correlated p : flow_call p (f ← get_flow p; set_flow p (correlated f)).
Proof.
  intros a Hi Hp. unfold mbind, M_bind, get_flow.
  destruct (flowRecords a !! p) as [f|] eqn:E; simpl; [|by apply stays_refl].
  split; [by eapply grows_record|done].
Qed.

Create HintDb flow discriminated.
#[local] Hint Resolve flow_call_bind flow_call_lift flow_call_ret flow_call_get flow_call_get_flow
  flow_call_get_item flow_call_record flow_call_correlated : flow.

Lemma update_flow_grows p record c : flow_call p (update_flow p record c).
Proof.
  unfold update_flow. apply flow_call_bind; [auto with flow|]. intros a. destruct c; [|auto with flow].
  apply flow_call_bind; [auto with flow|]. intros f.
  apply flow_call_bind; [auto with flow|]. intros b.
  apply flow_call_bind; [|intros ?; apply flow_call_bind; auto with flow].
  destruct b; [|auto with flow]. apply flow_call_bind; auto with flow.
Qed.

(** The item of a flow in the map gets new times. *)
Lemma update_item_grows key p now_inactive :
  ∀ a, agg_inv a → flowKeyRecordMap a !! key = Some p →
  ∃ a', (f ← get_flow p; it ← get_item (PriorityQueueItem f);
         run_queue (Update (PriorityQueueItem f) key p (activeExpireTime it) now_inactive);;
         mret p) a = (Ok p, a') ∧ stays a a'.
Proof.
  intros a Hi Hk. pose proof Hi as [Hq Hl]. destruct (proj1 Hl key p Hk) as (f & it & Hf & _ & Hit & Hik & Hip).
  pose proof Hit as Hit'. rewrite data_lookup in Hit'.
  destruct (items (queue_of a) !! PriorityQueueItem f) as [it1|] eqn:E1; [|done]. injection Hit' as <-.
  erewrite M_bind_Ok by (unfold get_flow; by rewrite Hf).
  erewrite M_bind_Ok by (unfold get_item; by rewrite E1).
  destruct (Update_any (queue_of a) (PriorityQueueItem f) key p (activeExpireTime it1) now_inactive it1 Hq E1)
    as (q & E & Hq' & Hp & Hd).
  rewrite (M_bind_Ok _ _ _ _ _ (run_queue_Ok _ _ _ E)). eexists. split; [done|]. split; [|done]. split; [split; [done|]|split; [done|split_and!]]; simpl.
  - rewrite Hd. eapply links_perm; [exact Hp|].
    by apply (links_item _ _ _ _ _ (with_index 0 it1)).
  - done.
  - eauto.
  - intros ip Hs. rewrite Hd, Hp. split; [|done]. apply lookup_insert_is_Some'. by right.
Qed.

(** Adding the fields does not touch the process. *)
Lemma add_fields_state reg c record a : (add_fields reg c record a).2 = a.
Proof.
  unfold add_fields. rewrite (M_bind_Ok _ _ _ a a) by done.
  destruct (if c then isRecordFromSrc record else Ok true) as [b| | |]; [|done..].
  rewrite (M_bind_Ok _ _ _ b a) by done. cbv zeta.
  by repeat case_match.
Qed.

(** A new flow is stored and queued with both timeouts. *)
Lemma create_flow_spec reg now key record ipv4 ft c a :
  agg_inv a → flowKeyRecordMap a !! key = None →
  match create_flow reg now key record ipv4 ft c a with
  | (Ok p, a') =>
      grows a (with_flows (<[key := p]> (flowKeyRecordMap a')) a') ∧
      flowKeyRecordMap a' = flowKeyRecordMap a ∧ flowRecords a !! p = None ∧
      ∃ f, flowRecords a' !! p = Some f ∧ ReadyToSend f = negb c ∧
        PriorityQueueItem f ∈ pq (queue_of a') ∧
        data_of a' !! PriorityQueueItem f =
          Some (mkItemToExpire key p (now + activeExpiryTimeout a) (now + inactiveExpiryTimeout a) 0)
  | (_, a') => a' = a
  end.
Proof.
  intros [Hq Hl] Hk. unfold create_flow. pose proof (add_fields_state reg c record a) as Hs.
  destruct (add_fields reg c record a) as [[record'| | |] a0] eqn:E; simpl in Hs; subst a0;
    [|by unfold mbind at 1, M_bind at 1; rewrite E..].
  rewrite (M_bind_Ok _ _ _ _ _ E). rewrite (M_bind_Ok _ _ _ a a) by done. cbv zeta.
  set (p := fresh (dom (flowRecords a))). set (item := fresh (dom (items (queue_of a)))).
  set (f := mkAggregationFlowRecord _ _ _ _ _ _ _). set (it := mkItemToExpire _ _ _ _ _).
  assert (Hp : flowRecords a !! p = None) by (apply not_elem_of_dom, is_fresh).
  assert (Hit : items (queue_of a) !! item = None) by (apply not_elem_of_dom, is_fresh).
  set (q0 := {| pq := pq (queue_of a); items := <[item := it]> (items (queue_of a)) |}).
  assert (Hq0 : pq_inv q0) by (by apply pq_inv_alloc).
  assert (Hni : item ∉ pq q0).
  { intros Hin. destruct (proj2 Hl item Hin) as (x & _ & Hx & _). rewrite data_lookup, Hit in Hx. done. }
  destruct (Push_spec q0 item it Hq0) as (q & Eq & Hq' & Hpq & Hd); [apply lookup_insert_eq|done|].
  set (a1 := with_queue q (with_flowRecords (<[p := f]> (flowRecords a)) a)).
  rewrite (M_bind_Ok _ _ _ tt (with_flowRecords (<[p := f]> (flowRecords a)) a)) by done.
  rewrite (M_bind_Ok _ _ _ tt (with_queue q0 (with_flowRecords (<[p := f]> (flowRecords a)) a))) by done.
  rewrite (M_bind_Ok _ _ _ tt a1) by (unfold run_queue; simpl; by rewrite Eq).
  assert (Hd' : pq_data q = <[item := it]> (data_of a)).
  { rewrite Hd. unfold pq_data, q0. cbn [items]. by rewrite fmap_insert. }
  assert (Hdn : data_of a !! item = None) by (by rewrite data_lookup, Hit).
  cbn [mret M_ret]. split_and!; [|done|done|].
  - split; [split; [done|]|split; [done|split_and!]]; simpl.
    + apply (links_perm _ _ (item :: pq q0)); [done|]. rewrite Hd'. by apply links_new.
    + intros k x Hx. rewrite lookup_insert_ne; [done|congruence].
    + intros x g Hg. exists g. rewrite lookup_insert_ne; [done|congruence].
    + intros ip Hip. rewrite Hd', Hpq. destruct Hip as [y Hy].
      assert (ip ≠ item) by congruence. rewrite lookup_insert_ne by done.
      split; [eauto|]. rewrite elem_of_cons. simpl. naive_solver.
  - exists f. simpl. rewrite lookup_insert_eq. split_and!; [done|done| |].
    + rewrite Hpq. left.
    + rewrite Hd'. apply lookup_insert_eq.
Qed.

(** ** Lemmas: messages *)

(** What a record does to the process, whatever its outcome. *)
Lemma addOrUpdate_spec reg now key record ipv4 a :
  agg_inv a →
  match addOrUpdateRecordInMap reg now key record ipv4 a with
  | (Ok _, a') => grows a a' ∧ ∃ p, flowKeyRecordMap a' = <[key := p]> (flowKeyRecordMap a)
  | (_, a') => stays a a'
  end.
Proof.
  intros Hi. unfold addOrUpdateRecordInMap.
  destruct (u8_of "flowType" record) as [ft| | |]; [|by apply stays_refl..].
  rewrite (M_bind_Ok _ _ _ ft a) by done. cbv zeta.
  destruct (isCorrelationRequired (default 0 ft) record) as [c| | |]; [|by apply stays_refl..].
  rewrite (M_bind_Ok _ _ _ c a) by done. rewrite (M_bind_Ok _ _ _ a a) by done.
  destruct (flowKeyRecordMap a !! key) as [p|] eqn:Hk.
  - pose proof (update_flow_grows p record c a Hi (ex_intro _ key Hk)) as Hu.
    unfold mbind at 1, M_bind at 1. unfold mbind at 1, M_bind at 1.
    destruct (update_flow p record c a) as [[[]| | |] a1] eqn:E; simpl in Hu; [|exact Hu..].
    destruct (update_item_grows key p (now + inactiveExpiryTimeout a) a1) as (a2 & E2 & H2);
      [apply Hu|by rewrite (proj2 Hu)|].
    rewrite E2. cbn. destruct (stays_trans _ _ _ Hu H2) as [Hg Hm]. rewrite Hm.
    assert (Hid : <[key := p]> (flowKeyRecordMap a) = flowKeyRecordMap a) by (by apply insert_id).
    rewrite Hid. split; [|exists p; by rewrite Hid].
    replace (with_flows (flowKeyRecordMap a) a2) with a2; [done|].
    rewrite <- Hm. by destruct a2.
  - pose proof (create_flow_spec reg now key record ipv4 (default 0 ft) c a Hi Hk) as Hc.
    unfold mbind at 1, M_bind at 1.
    destruct (create_flow reg now key record ipv4 (default 0 ft) c a) as [[p| | |] a1]; 
      [|subst; by apply stays_refl..].
    destruct Hc as (Hg & Hm & _). cbn. rewrite Hm in *. split; [done|]. by exists p.
Qed.

(** The keys of the valid records, in order; nothing when one has no key. *)
Definition valid_key (record : IPFIXRecord) : option FlowKey :=
  if validateDataRecord record then
    match getFlowKeyFromRecord record with Ok (k, _) => Some k | _ => None end
  else None.

Lemma aggregate_records_spec reg clock i rs n a :
  agg_inv a →
  match aggregate_records reg clock i rs n a with
  | (Ok n', a') =>
      grows a a' ∧ dom (flowKeyRecordMap a') = dom (flowKeyRecordMap a) ∪ list_to_set (omap valid_key rs) ∧
      n' = (n + length (filter (λ r, validateDataRecord r = false) rs))%nat
  | (_, a') => grows a a' ∧ dom (flowKeyRecordMap a') ⊆ dom (flowKeyRecordMap a) ∪ list_to_set (omap valid_key rs)
  end.
Proof.
  revert i n a. induction rs as [|record rs IH]; intros i n a Hi; cbn [aggregate_records].
  { split_and!; [by apply grows_refl|set_solver|simpl; lia]. }
  rewrite filter_cons. cbn [omap list_omap].
  destruct (validateDataRecord record) eqn:Hv.
  - rewrite decide_False by done. unfold mbind at 1, M_bind at 1.
    destruct (getFlowKeyFromRecord record) as [[k ipv4]| | |] eqn:Hkey; cbn;
      [|by split; [apply grows_refl|apply union_subseteq_l]..].
    assert (Hvk : valid_key record = Some k) by (unfold valid_key; by rewrite Hv, Hkey). rewrite Hvk.
    pose proof (addOrUpdate_spec reg (clock i) k record ipv4 a Hi) as Ha.
    unfold mbind, M_bind. destruct (addOrUpdateRecordInMap reg (clock i) k record ipv4 a) as [[[]| | |] a1];
      [|destruct Ha as [Hg Hm]; rewrite Hm; split; [done|apply union_subseteq_l]..].
    destruct Ha as (Hg & p & Hm). specialize (IH (S i) n a1 (proj1 Hg)).
    assert (Hdom : dom (flowKeyRecordMap a1) = {[k]} ∪ dom (flowKeyRecordMap a)) by (by rewrite Hm, dom_insert_L).
    destruct (aggregate_records reg clock (S i) rs n a1) as [[n'| | |] a']; destruct IH as (Hg' & IH);
      (split; [by eapply grows_trans|]).
    + destruct IH as [-> ->]. split; [set_solver|done].
    + set_solver.
    + set_solver.
    + set_solver.
  - assert (Hvk : valid_key record = None) by (unfold valid_key; by rewrite Hv). rewrite Hvk.
    rewrite decide_True by done. specialize (IH (S i) (S n) a Hi).
    destruct (aggregate_records reg clock (S i) rs (S n) a) as [[n'| | |] a']; try done.
    destruct IH as (? & ? & ->). split_and!; [done|done|]. simpl. lia.
Qed.

(** ** Lemmas: what a run of the expiry loop achieves *)

Lemma key_of_item a x it : data_of a !! x = Some it → key_of (queue_of a) x = min_expire it.
Proof.
  rewrite data_lookup. unfold key_of. destruct (items (queue_of a) !! x); [|done]. by intros [= <-].
Qed.

(** An item other than the popped one, its flow and its record stay. *)
Lemma others_kept now a ip it0 f0 rest m f' l d a' x it :
  agg_inv a → due now a ip it0 f0 rest →
  becomes a m (<[flowRecord it0 := f']> (flowRecords a)) l d a' →
  (l = rest ∨ l = ip :: rest) → (m = flowKeyRecordMap a ∨ m = delete (flowKey it0) (flowKeyRecordMap a)) →
  (∀ y, y ≠ ip → d !! y = data_of a !! y) →
  x ∈ rest → data_of a !! x = Some it →
  x ∈ pq (queue_of a') ∧ data_of a' !! x = Some it ∧
  flowRecords a' !! flowRecord it = flowRecords a !! flowRecord it ∧
  flowKeyRecordMap a' !! flowKey it = flowKeyRecordMap a !! flowKey it.
Proof.
  intros Hi Hdue (_ & Hm & Hr & Hp & Hd) Hl Hmap Hother Hx Hit.
  destruct (due_others _ _ _ _ _ _ _ Hi Hdue Hx) as (itx & Hdx & N1 & N2 & N3).
  rewrite Hit in Hdx. injection Hdx as <-.
  rewrite Hm, Hr, Hp, Hd, Hother, lookup_insert_ne by done. split_and!; try done.
  - destruct Hl as [-> | ->]; [done|by right].
  - destruct Hmap as [-> | ->]; [done|by rewrite lookup_delete_ne].
Qed.

(** A queued item is the one popped or one of the others. *)
Lemma due_split now a ip it0 f0 rest x it f :
  due now a ip it0 f0 rest → x ∈ pq (queue_of a) → data_of a !! x = Some it →
  flowRecords a !! flowRecord it = Some f → (x = ip ∧ it0 = it ∧ f0 = f) ∨ x ∈ rest.
Proof.
  intros (Hp & _ & Hit0 & _ & _ & Hf0 & _) Hx Hit Hf.
  rewrite <- Hp in Hx. apply elem_of_cons in Hx as [->|Hx]; [left|by right]. by simplify_eq.
Qed.

(** In one iteration an item is the one popped, or nothing happens to it. *)
Lemma expired_cases now cb a calls res a' calls' x it f :
  agg_inv a → expired now cb a calls res a' calls' →
  x ∈ pq (queue_of a) → data_of a !! x = Some it → flowRecords a !! flowRecord it = Some f →
  (∃ rest, due now a x it f rest ∧
     (ReadyToSend f = true → calls' = calls ++ [(flowKey it, f)]) ∧ res ≠ Ok false) ∨
  (x ∈ pq (queue_of a') ∧ data_of a' !! x = Some it ∧
   flowRecords a' !! flowRecord it = Some f ∧
   flowKeyRecordMap a' !! flowKey it = flowKeyRecordMap a !! flowKey it).
Proof.
  intros Hi H Hx Hit Hf.
  destruct H as [|ip it0 f0 rest a' Hdue|ip it0 f0 rest a' Hdue|ip it0 f0 rest r f' a' Hdue ? ? Hne
    |ip it0 f0 rest f' a' Hdue|ip it0 f0 rest f' a' Hdue|ip it0 f0 rest f' a' Hdue];
    [by right|..];
    (destruct (due_split _ _ _ _ _ _ _ _ _ Hdue Hx Hit Hf) as [(-> & -> & ->)|Hr]; rewrite <- ?Hf;
     [left; exists rest; split_and!; [done|try congruence; done|try done]
     |right; eapply others_kept; eauto]).
  all: try (intros; by rewrite lookup_insert_ne by done).
  by destruct r as [[]| | |].
Qed.

(** After a run that returns normally, nothing in the queue is due. *)
Lemma run_quiet now cb a calls res a' calls' :
  expiry_run now cb a calls res a' calls' → res = Ok tt →
  ∀ x, x ∈ pq (queue_of a') → now < key_of (queue_of a') x.
Proof.
  induction 1 as [a calls H|a calls res a' calls' H Hok|]; [| |done].
  - intros _. remember (Ok false) as r eqn:Hr. destruct H; simplify_eq; [done|].
    by match goal with x : go unit |- _ => destruct x as [[]| | |] end.
  - by destruct res.
Qed.

(** Only flows that are ready are given to the callback. *)
Lemma run_calls now cb a calls res a' calls' :
  expiry_run now cb a calls res a' calls' →
  ∃ new, calls' = calls ++ new ∧ Forall (λ c, ReadyToSend c.2 = true) new.
Proof.
  assert (Hone : ∀ a calls res a' calls', expired now cb a calls res a' calls' →
    ∃ new, calls' = calls ++ new ∧ Forall (λ c, ReadyToSend c.2 = true) new).
  { destruct 1; first [exists []; rewrite app_nil_r; by split|eexists; split; [done|by repeat constructor]]. }
  induction 1 as [| |a calls a1 calls1 res a' calls' H _ _ (new & -> & Hn)]; [eauto..|].
  destruct (Hone _ _ _ _ _ H) as (new0 & -> & Hn0). exists (new0 ++ new).
  rewrite app_assoc. split; [done|]. by apply Forall_app.
Qed.

(** Every due flow that is ready has been given to the callback. *)
Lemma run_covers now cb a calls res a' calls' x it f :
  expiry_run now cb a calls res a' calls' → res = Ok tt → agg_inv a →
  x ∈ pq (queue_of a) → data_of a !! x = Some it → flowRecords a !! flowRecord it = Some f →
  min_expire it <= now → ReadyToSend f = true → (flowKey it, f) ∈ calls'.
Proof.
  intros H. revert x it f. induction H as [a calls H|a calls res a' calls' H Hok|a calls a1 calls1 res a' calls' H Hi1 Hrun IH];
    intros x it f Hres Hi Hx Hit Hf Hdue Hready.
  - pose proof (run_quiet now cb a calls (Ok tt) a calls (run_stop _ _ _ _ H) eq_refl x Hx) as Hq.
    rewrite (key_of_item a x it) in Hq by done. lia.
  - by destruct res.
  - destruct (expired_cases _ _ _ _ _ _ _ _ _ _ Hi H Hx Hit Hf) as [(rest & _ & Hc & _)|(? & ? & ? & _)]; [|eauto].
    destruct (run_calls _ _ _ _ _ _ _ Hrun) as (new & -> & _). rewrite Hc by done. set_solver.
Qed.

(** A flow that is not due keeps its place, its item and its record. *)
Lemma run_untouched now cb a calls res a' calls' x it f :
  expiry_run now cb a calls res a' calls' → agg_inv a →
  x ∈ pq (queue_of a) → data_of a !! x = Some it → flowRecords a !! flowRecord it = Some f →
  now < min_expire it →
  x ∈ pq (queue_of a') ∧ data_of a' !! x = Some it ∧ flowRecords a' !! flowRecord it = Some f ∧
  flowKeyRecordMap a' !! flowKey it = flowKeyRecordMap a !! flowKey it.
Proof.
  intros H Hi Hx Hit Hf Hlate.
  assert (Hone : ∀ a calls res a' calls', expired now cb a calls res a' calls' → agg_inv a →
    x ∈ pq (queue_of a) → data_of a !! x = Some it → flowRecords a !! flowRecord it = Some f →
    x ∈ pq (queue_of a') ∧ data_of a' !! x = Some it ∧ flowRecords a' !! flowRecord it = Some f ∧
    flowKeyRecordMap a' !! flowKey it = flowKeyRecordMap a !! flowKey it).
  { clear -Hlate. intros a calls res a' calls' H Hi Hx Hit Hf.
    destruct (expired_cases _ _ _ _ _ _ _ _ _ _ Hi H Hx Hit Hf)
      as [(rest & (_ & _ & _ & Hle & _) & _)|?]; [lia|done]. }
  induction H as [| |a calls a1 calls1 res a' calls' H Hi1 Hrun IH]; [done|eauto|].
  destruct (Hone _ _ _ _ _ H Hi Hx Hit Hf) as (H1 & H2 & H3 & H4).
  destruct (IH Hi1 H1 H2 H3) as (? & ? & ? & ?). split_and!; try done. congruence.
Qed.

(** The loop fails only with what the callback returned. *)
Lemma run_errors now cb a calls res a' calls' :
  expiry_run now cb a calls res a' calls' →
  res = Ok tt ∨ ∃ calls0 k f r f', cb calls0 k f = (r, f') ∧ r ≠ Ok tt ∧ res = with_err ErrCallback r.
Proof.
  induction 1 as [|a calls res a' calls' H Hok|]; [by left| |done].
  right. destruct H; try done.
  match goal with H : cb _ _ _ = (?r, _) |- _ => exists calls, (flowKey it), f, r, f' end.
  split_and!; [done..|]. by match goal with x : go unit |- _ => destruct x as [[]| | |] end.
Qed.

(** ** The life of the process *)

Inductive agg_step : AggregationProcess → AggregationProcess → Prop :=
| step_message reg clock message a :
    agg_step a (AggregateMsgByFlowKey reg clock message a).2
| step_expire now cb a : agg_step a (ForAllExpiredFlowRecordsDo now cb (a, [])).2.1
| step_records cb a : agg_step a (ForAllRecordsDo cb (a, [])).2.1.

Definition agg_reachable (a : AggregationProcess) : Prop :=
  ∃ input a0, InitAggregationProcess input = Ok a0 ∧ rtc agg_step a0 a.

(** A flow that is in the map and whose item is not queued. *)
Definition lost (k : FlowKey) (a : AggregationProcess) : Prop :=
  ∃ p f, flowKeyRecordMap a !! k = Some p ∧ flowRecords a !! p = Some f ∧
         PriorityQueueItem f ∉ pq (queue_of a).

Lemma grows_lost k a a' : agg_inv a → grows a a' → lost k a → lost k a'.
Proof.
  intros [_ [Hl _]] (_ & _ & HM & HR & HD) (p & f & Hk & Hf & Hn).
  destruct (HR p f Hf) as (f' & Hf' & Hp & _).
  destruct (Hl k p Hk) as (g & it & Hg & _ & Hd & _).
  replace g with f in Hd by congruence.
  exists p, f'. split_and!; [auto|done|]. rewrite Hp. destruct (HD (PriorityQueueItem f)) as [_ ->]; eauto.
Qed.

Lemma message_grows reg clock message a :
  agg_inv a → grows a (AggregateMsgByFlowKey reg clock message a).2.
Proof.
  intros Hi. unfold AggregateMsgByFlowKey.
  destruct (msg_set message) as [set|]; [|by apply grows_refl].
  rewrite (M_bind_Ok _ _ _ set a) by done. case_decide; [|by apply grows_refl].
  pose proof (aggregate_records_spec reg clock 0 (records set) 0 a Hi) as H'.
  unfold mbind, M_bind. destruct (aggregate_records reg clock 0 (records set) 0 a) as [[n| | |] a'];
    [|apply H'..]. case_decide; apply H'.
Qed.

Lemma expired_lost now cb k a calls res a' calls' :
  agg_inv a → expired now cb a calls res a' calls' → lost k a → lost k a'.
Proof.
  intros Hi H (p & f & Hk & Hf & Hn).
  assert (Hkept : ∀ ip it f0 rest m f' l d a',
    due now a ip it f0 rest → becomes a m (<[flowRecord it := f']> (flowRecords a)) l d a' →
    (l = rest ∨ l = ip :: rest) → (m = flowKeyRecordMap a ∨ m = delete (flowKey it) (flowKeyRecordMap a)) →
    lost k a').
  { intros ip it f0 rest m f' l d a1 (Hp & _ & _ & _ & Hm & Hf0 & Hpi & _) (_ & Hm' & Hr & Hq & _) Hl Hmap.
    assert (Hin : ip ∈ pq (queue_of a)) by (rewrite <- Hp; left).
    assert (Hr1 : flowRecord it ≠ p) by (intros E; rewrite E in Hf0; congruence).
    assert (Hk1 : flowKey it ≠ k) by (intros E; rewrite E in Hm; congruence).
    exists p, f. rewrite Hm', Hr, lookup_insert_ne by done. split_and!; [|done|].
    - destruct Hmap as [-> | ->]; [done|by rewrite lookup_delete_ne].
    - rewrite Hq. intros Hx. apply Hn. rewrite <- Hp. destruct Hl as [-> | ->]; [by right|done]. }
  destruct H; eauto. by exists p, f.
Qed.

Lemma expire_loop_keeps (P : AggregationProcess → Prop) fuel now cb a calls :
  (∀ a calls res a' calls', agg_inv a → P a → expired now cb a calls res a' calls' → P a') →
  agg_inv a → P a →
  agg_inv (expire_loop fuel now cb (a, calls)).2.1 ∧ P (expire_loop fuel now cb (a, calls)).2.1.
Proof.
  intros HP. revert a calls. induction fuel as [|fuel IH]; intros a calls Hi Ha; [done|].
  destruct (expire_one_spec now cb a calls Hi) as (res & a1 & calls1 & E & Hi1 & Hx).
  pose proof (HP _ _ _ _ _ Hi Ha Hx) as Ha1. cbn [expire_loop]. unfold mbind, M_bind. rewrite E.
  destruct res as [[]| | |]; eauto.
Qed.

Lemma for_all_flows_keeps cb l a calls :
  agg_inv a → (∀ k p, (k, p) ∈ l → flowKeyRecordMap a !! k = Some p) →
  let a' := (for_all_flows cb l (a, calls)).2.1 in
  agg_inv a' ∧ ∀ k, lost k a → lost k a'.
Proof.
  revert a calls. induction l as [|[k p] l IH]; intros a calls Hi Hl; [done|]. cbn [for_all_flows].
  pose proof (Hl k p ltac:(left)) as Hk. pose proof Hi as [Hq Hlinks].
  destruct (proj1 Hlinks k p Hk) as (f & it & Hf & Hret & _).
  erewrite M_bind_Ok by (apply in_process_run; unfold get_flow; by rewrite Hf).
  unfold mbind, M_bind, run_callback. simpl. destruct (cb calls k f) as [res f'].
  set (a1 := with_flowRecords (<[p := by_callback f f']> (flowRecords a)) a).
  assert (Hi1 : agg_inv a1) by (split; [done|by eapply links_record]).
  assert (Hlost : ∀ k, lost k a → lost k a1).
  { intros k0 (p0 & f0 & Hk0 & Hf0 & Hn0). destruct (decide (p0 = p)) as [->|].
    - exists p, (by_callback f f'). simpl. rewrite lookup_insert_eq. by simplify_eq.
    - exists p0, f0. simpl. by rewrite lookup_insert_ne. }
  destruct res as [[]| | |]; [|done..].
  destruct (IH a1 (calls ++ [(k, f)]) Hi1) as [H1 H2]; [by intros; apply Hl; right|]. eauto.
Qed.

Lemma agg_step_keeps a a' : agg_step a a' → agg_inv a → agg_inv a' ∧ ∀ k, lost k a → lost k a'.
Proof.
  destruct 1 as [reg clock message a|now cb a|cb a]; intros Hi.
  - pose proof (message_grows reg clock message a Hi) as Hg. split; [apply Hg|].
    intros k. by apply grows_lost.
  - unfold ForAllExpiredFlowRecordsDo. cbn [fst]. split.
    + by apply (expire_loop_keeps (λ _, True)).
    + intros k Hk. apply (expire_loop_keeps (lost k)); [|done|done].
      intros. by eapply expired_lost.
  - apply for_all_flows_keeps; [done|]. intros k p. by rewrite elem_of_map_to_list.
Qed.

Lemma init_inv input a : InitAggregationProcess input = Ok a → agg_inv a.
Proof.
  unfold InitAggregationProcess. destruct (MessageChan input); [|done]. case_decide; [done|].
  rewrite go_bind_Ok. intros (? & _ & [= <-]). split.
  - apply pq_inv_reachable, rtc_refl.
  - split; [done|]. by intros ip ?%not_elem_of_nil.
Qed.

Lemma agg_steps_keep a a' : rtc agg_step a a' → agg_inv a → agg_inv a' ∧ ∀ k, lost k a → lost k a'.
Proof.
  induction 1 as [|a b c Hab _ IH]; intros Hi; [done|].
  destruct (agg_step_keeps a b Hab Hi) as [H1 H2]. destruct (IH H1) as [H3 H4]. eauto.
Qed.

Lemma reachable_inv a : agg_reachable a → agg_inv a.
Proof. intros (input & a0 & H0 & H). eapply agg_steps_keep; [done|by eapply init_inv]. Qed.

(** ** Lemmas: lost flows *)

(** The flow of the popped item is lost when it is left in the map and not queued. *)
Lemma dropped_lost now a ip it f rest f' d a' :
  due now a ip it f rest →
  becomes a (flowKeyRecordMap a) (<[flowRecord it := by_callback f f']> (flowRecords a)) rest d a' →
  lost (flowKey it) a'.
Proof.
  intros (_ & Hn & _ & _ & Hm & _ & Hpi & _) (_ & Hm' & Hr & Hp & _).
  exists (flowRecord it), (by_callback f f'). rewrite Hm', Hr, lookup_insert_eq.
  split_and!; [done|done|]. rewrite Hp. simpl. by rewrite Hpi.
Qed.

(** A callback that fails leaves the flow it was given in the map, out of the queue. *)
Lemma failed_run_loses now cb a calls res a' calls' :
  agg_inv a → expiry_run now cb a calls res a' calls' → res ≠ Ok tt → ∃ k, lost k a'.
Proof.
  intros Hi H. induction H as [|a calls res a' calls' H Hok|a calls a1 calls1 res a' calls' H Hi1 _ IH];
    intros Hne; [done| |auto].
  destruct H as [|ip it f rest a' Hdue|ip it f rest a' Hdue|ip it f rest r f' a' Hdue _ _ _ Hb| | |];
    try done.
  exists (flowKey it). by eapply dropped_lost.
Qed.

Lemma run_lost now cb a calls res a' calls' k :
  expiry_run now cb a calls res a' calls' → agg_inv a → lost k a → lost k a'.
Proof. induction 1; eauto using expired_lost. Qed.

Lemma exact_iteration now cb a calls a' calls' x it f :
  agg_inv a → expired now cb a calls (Ok true) a' calls' →
  x ∈ pq (queue_of a) → data_of a !! x = Some it → flowRecords a !! flowRecord it = Some f →
  ReadyToSend f = true → activeExpireTime it = now → now <= inactiveExpireTime it →
  lost (flowKey it) a' ∨
  (x ∈ pq (queue_of a') ∧ data_of a' !! x = Some it ∧ flowRecords a' !! flowRecord it = Some f).
Proof.
  intros Hi H Hx Hit Hf Hready Hact Hinact.
  destruct (expired_cases _ _ _ _ _ _ _ _ _ _ Hi H Hx Hit Hf) as [(rest0 & _)|(? & ? & ? & _)];
    [|by right].
  remember (Ok true) as res eqn:Hres.
  destruct H as [|ip it0 f0 rest a' Hdue|ip it0 f0 rest a' Hdue|ip it0 f0 rest r f' a' Hdue
    |ip it0 f0 rest f' a' Hdue|ip it0 f0 rest f' a' Hdue|ip it0 f0 rest f' a' Hdue]; [done|..];
    (destruct (due_split _ _ _ _ _ _ _ _ _ Hdue Hx Hit Hf) as [(-> & -> & ->)|Hr];
     [try congruence; try lia; try (left; by eapply dropped_lost)
     |right; rewrite <- Hf;
      eapply others_kept in Hr as (? & ? & ? & _); eauto; intros; by rewrite lookup_insert_ne]).
Qed.

(** A ready flow whose active timeout ends exactly now is dropped from the queue. *)
Lemma exact_run_loses now cb a calls res a' calls' x it f :
  expiry_run now cb a calls res a' calls' → res = Ok tt → agg_inv a →
  x ∈ pq (queue_of a) → data_of a !! x = Some it → flowRecords a !! flowRecord it = Some f →
  ReadyToSend f = true → activeExpireTime it = now → now <= inactiveExpireTime it →
  lost (flowKey it) a'.
Proof.
  induction 1 as [a calls H|a calls res a' calls' H Hok|a calls a1 calls1 res a' calls' H Hi1 Hrun IH];
    intros Hres Hi Hx Hit Hf Hready Hact Hinact.
  - pose proof (run_quiet _ _ _ _ _ _ _ (run_stop _ _ _ _ H) eq_refl x Hx) as Hq.
    rewrite (key_of_item a x it) in Hq by done. unfold min_expire in Hq. case_decide; lia.
  - by destruct res.
  - destruct (exact_iteration _ _ _ _ _ _ _ _ _ Hi H Hx Hit Hf) as [Hl|(? & ? & ?)]; [done..| |by eauto].
    by eapply run_lost.
Qed.

(** ** Lemmas: reading the flows *)

Lemma mismatch_complete {A} `{EqDecision A} (empty w c : A) :
  w ≠ empty → mismatch empty w c = false ↔ c = w.
Proof.
  intros Hne. unfold mismatch. rewrite bool_decide_true by done. simpl. rewrite bool_decide_eq_false.
  split; [|intros -> Hn; by apply Hn]. intros Hn. destruct (decide (w = c)) as [->|]; [done|]. by destruct Hn.
Qed.

(** A complete filter matches one key. *)
Lemma filtered_out_complete k current :
  complete_filter k = true → filtered_out k current = false ↔ current = k.
Proof.
  unfold complete_filter, filtered_out. rewrite !andb_true_iff, !bool_decide_eq_true.
  intros [[[[H1 H2] H3] H4] H5]. rewrite !orb_false_iff, !mismatch_complete by done.
  destruct k, current; simpl. naive_solver.
Qed.

Lemma filter_key (k : FlowKey) (m : gmap FlowKey ptr) (P : FlowKey * ptr → Prop) `{∀ x, Decision (P x)} :
  (∀ kp, P kp ↔ kp.1 = k) →
  filter P (map_to_list m) = match m !! k with Some p => [(k, p)] | None => [] end.
Proof.
  intros HP.
  assert (Hin : ∀ k' p, (k', p) ∈ filter P (map_to_list m) ↔ k' = k ∧ m !! k = Some p).
  { intros k' p. rewrite list_elem_of_filter, elem_of_map_to_list, HP. simpl. naive_solver. }
  pose proof (list.NoDup_filter P _ (NoDup_map_to_list m)) as Hnd. revert Hin Hnd.
  destruct (filter P (map_to_list m)) as [|[k1 p1] [|[k2 p2] l]]; intros Hin Hnd.
  - destruct (m !! k) as [p|] eqn:E; [|done].
    by pose proof (proj2 (Hin k p) (conj eq_refl eq_refl)) as ?%not_elem_of_nil.
  - destruct (proj1 (Hin k1 p1) ltac:(left)) as [-> ->]. done.
  - destruct (proj1 (Hin k1 p1) ltac:(left)) as [-> E1].
    destruct (proj1 (Hin k2 p2) ltac:(right; left)) as [-> E2].
    assert (p1 = p2) by congruence. subst. inversion_clear Hnd as [|? ? Hn _]. destruct Hn. left.
Qed.

(** The flows a filter lets through. *)
Definition matches (key : option FlowKey) (current : FlowKey) : bool :=
  match key with None => true | Some k => negb (filtered_out k current) end.

(** ** Example *)

Definition ex_input : AggregationInput :=
  mkAggregationInput (Some 0%nat) 2 ["sourcePodName"; "destinationPodName"] (Some antrea_elements) 100 150.
Definition ex_a0 : AggregationProcess :=
  from_ok (mkAggregationProcess ∅ ∅ empty_queue 0 [] None 0 0) (InitAggregationProcess ex_input).

Definition ex_message (rs : list IPFIXRecord) : Message :=
  AddSet {| headerBuffer := []; setType := Data; records := rs; set_isDecoding := true; set_length := 0 |}
    (NewMessage true).

Definition ex_message1 : Message := ex_message [ex_record 1234 10 20 1000 8000 "pod1" "pod2"].
Definition ex_a1 : AggregationProcess :=
  (AggregateMsgByFlowKey loaded_registry (λ _, 1000) ex_message1 ex_a0).2.

Lemma ex_a1_reachable : agg_reachable ex_a1.
Proof.
  exists ex_input, ex_a0. split; [apply from_ok_eq; vm_compute; reflexivity|].
  apply rtc_once. apply (step_message loaded_registry (λ _, 1000) ex_message1 ex_a0).
Qed.

Definition ex_key : FlowKey := mkFlowKey "10.0.0.1" "10.0.0.2" 6 1234 5678.
Definition ok_callback : FlowKeyRecordMapCallBack := λ _ _ f, (Ok tt, f).
Definition failing_callback : FlowKeyRecordMapCallBack := λ _ _ f, (Err (ErrTransport 1), f).

(** ** Properties *)

(** C21: the map of flows and the expiry queue agree in every state the process can reach
    by messages, expiry runs and callbacks, whatever their outcomes.  Every queued item
    belongs to a flow of the map, whose record points back to it; every flow of the map
    has a record and an item that name it, with at most [MaxRetries] retries; and two
    flows never share a record. *)
Theorem flows_consistent a :
  agg_reachable a →
  (∀ ip, ip ∈ pq (queue_of a) →
     ∃ it f, items (queue_of a) !! ip = Some it ∧
       flowKeyRecordMap a !! flowKey it = Some (flowRecord it) ∧
       flowRecords a !! flowRecord it = Some f ∧ PriorityQueueItem f = ip) ∧
  (∀ k p, flowKeyRecordMap a !! k = Some p →
     ∃ f it, flowRecords a !! p = Some f ∧ 0 <= waitForReadyToSendRetries f <= MaxRetries ∧
       items (queue_of a) !! PriorityQueueItem f = Some it ∧ flowKey it = k ∧ flowRecord it = p) ∧
  (∀ k k' p, flowKeyRecordMap a !! k = Some p → flowKeyRecordMap a !! k' = Some p → k = k').
Proof.
  intros [_ [H1 H2]]%reachable_inv. split_and!.
  - intros ip Hip. destruct (H2 ip Hip) as (it & f & Hd & Hm & Hf & Hp). rewrite data_lookup in Hd.
    destruct (items (queue_of a) !! ip) as [it0|]; [|done]. injection Hd as <-. exists it0, f. done.
  - intros k p Hk. destruct (H1 k p Hk) as (f & it & Hf & Hr & Hd & <- & <-). rewrite data_lookup in Hd.
    destruct (items (queue_of a) !! PriorityQueueItem f) as [it0|] eqn:E; [|done]. injection Hd as <-.
    exists f, it0. done.
  - intros k k' p Hk Hk'. destruct (H1 k p Hk) as (f & it & Hf & _ & Hd & <- & _).
    destruct (H1 k' p Hk') as (f' & it' & Hf' & _ & Hd' & <- & _). congruence.
Qed.

Lemma flows_consistent_witness :
  ∃ p f it, flowKeyRecordMap ex_a1 !! ex_key = Some p ∧ flowRecords ex_a1 !! p = Some f ∧
    items (queue_of ex_a1) !! PriorityQueueItem f = Some it ∧ flowKey it = ex_key.
Proof.
  destruct (flows_consistent ex_a1 ex_a1_reachable) as (_ & H & _).
  destruct (H ex_key 0%nat) as (f & it & Hf & _ & Hit & Hk & _); [vm_compute; reflexivity|].
  exists 0%nat, f, it. split; [vm_compute; reflexivity|]. by split_and!.
Defined.

(** C15: the expiry run implements its specification.  The loop over the heap-based
    queue, with its popping, updating and pushing, always ends when the active timeout
    is not negative, and is a sequence of the specified iterations, in which the queue
    is a bag of items: give up or retry a flow that is not ready, call back a ready one
    and then delete it, queue it again, drop it, or fail. *)
Theorem expiry_refines now cb a calls :
  agg_reachable a → 0 <= activeExpiryTimeout a →
  ∃ res a' calls', ForAllExpiredFlowRecordsDo now cb (a, calls) = (res, (a', calls')) ∧
    expiry_run now cb a calls res a' calls'.
Proof.
  intros Hi%reachable_inv HT. destruct (expire_refines now cb a calls Hi HT) as (r & a' & c & ? & _ & ?). eauto.
Qed.

Lemma expiry_refines_witness :
  ∃ a' calls', ForAllExpiredFlowRecordsDo 1101 ok_callback (ex_a1, []) = (Ok tt, (a', calls')) ∧
    expiry_run 1101 ok_callback ex_a1 [] (Ok tt) a' calls' ∧ fst <$> calls' = [ex_key].
Proof.
  destruct (expiry_refines 1101 ok_callback ex_a1 []) as (res & a' & calls' & E & H);
    [exact ex_a1_reachable|vm_compute; discriminate|].
  assert (Hr : res = (ForAllExpiredFlowRecordsDo 1101 ok_callback (ex_a1, [])).1) by (rewrite E; reflexivity).
  assert (Hc : calls' = (ForAllExpiredFlowRecordsDo 1101 ok_callback (ex_a1, [])).2.2)
    by (rewrite E; reflexivity).
  assert (Hres : res = Ok tt) by (rewrite Hr; vm_compute; reflexivity). subst res. rewrite Hres in *.
  exists a', calls'. split; [exact E|]. split; [exact H|]. rewrite Hc. vm_compute. reflexivity.
Defined.

(** What an expiry run means for the flows.  From every reachable state the run
    returns, unless the callback does not: either normally, or with the callback's
    error or panic.  The callback is only given flows that are ready to send.  When the
    run returns normally, every ready flow that was due has been given to the callback,
    and no queued flow is due any more.  A flow that was not due keeps its place in the
    map and the queue, its times and its record. *)
Theorem expiry_correct now cb a :
  agg_reachable a → 0 <= activeExpiryTimeout a →
  ∃ res a' calls, ForAllExpiredFlowRecordsDo now cb (a, []) = (res, (a', calls)) ∧
    (res = Ok tt ∨ ∃ calls0 k f r f', cb calls0 k f = (r, f') ∧ r ≠ Ok tt ∧ res = with_err ErrCallback r) ∧
    Forall (λ c, ReadyToSend c.2 = true) calls ∧
    (res = Ok tt → ∀ x, x ∈ pq (queue_of a') → now < key_of (queue_of a') x) ∧
    ∀ x it f, x ∈ pq (queue_of a) → data_of a !! x = Some it → flowRecords a !! flowRecord it = Some f →
      if decide (min_expire it <= now)
      then res = Ok tt → ReadyToSend f = true → (flowKey it, f) ∈ calls
      else x ∈ pq (queue_of a') ∧ data_of a' !! x = Some it ∧
           flowRecords a' !! flowRecord it = Some f ∧
           flowKeyRecordMap a' !! flowKey it = flowKeyRecordMap a !! flowKey it.
Proof.
  intros Hi%reachable_inv HT.
  destruct (expire_refines now cb a [] Hi HT) as (res & a' & calls & E & _ & H).
  exists res, a', calls. split_and!; [done|by eapply run_errors| |by eapply run_quiet|].
  - destruct (run_calls _ _ _ _ _ _ _ H) as (new & -> & Hn). done.
  - intros x it f Hx Hit Hf. case_decide.
    + intros. by eapply run_covers.
    + eapply run_untouched; [done..|lia].
Qed.

Lemma expiry_correct_witness :
  ∃ a' calls, ForAllExpiredFlowRecordsDo 1101 ok_callback (ex_a1, []) = (Ok tt, (a', calls)) ∧
    (∀ x, x ∈ pq (queue_of a') → 1101 < key_of (queue_of a') x) ∧ calls ≠ [].
Proof.
  destruct (expiry_correct 1101 ok_callback ex_a1) as (res & a' & calls & E & _ & _ & Hq & Hc);
    [exact ex_a1_reachable|vm_compute; discriminate|].
  assert (Hr : (ForAllExpiredFlowRecordsDo 1101 ok_callback (ex_a1, [])).1 = Ok tt) by (vm_compute; reflexivity).
  rewrite E in Hr. cbn [fst] in Hr. subst res.
  exists a', calls. split; [exact E|]. split; [by apply Hq|].
  destruct (flowRecords ex_a1 !! 0%nat) as [f|] eqn:Hf; [|vm_compute in Hf; discriminate].
  specialize (Hc 0%nat (mkItemToExpire ex_key 0%nat 1100 1150 0) f).
  assert (Hin : 0%nat ∈ pq (queue_of ex_a1)) by evaluate.
  specialize (Hc Hin ltac:(vm_compute; reflexivity) Hf). rewrite decide_True in Hc by (vm_compute; discriminate).
  assert (Hready : ReadyToSend f = true).
  { assert (ReadyToSend <$> (flowRecords ex_a1 !! 0%nat) = Some true) as Hb by (vm_compute; reflexivity).
    rewrite Hf in Hb. by injection Hb. }
  intros Hnil. specialize (Hc eq_refl Hready). rewrite Hnil in Hc. by apply not_elem_of_nil in Hc.
Defined.

(** What a message does to the flows.  A message that is not a data set changes
    nothing.  When a data set is aggregated without error, the flows are the old ones
    and those of its valid records, at least one record is valid, no flow leaves the
    map, gets another item, enters or leaves the queue or stops being ready, and the
    invariant is kept; when a record fails, the flows are among these. *)
Theorem message_flows reg clock message set a :
  agg_reachable a → msg_set message = Some set →
  let '(res, a') := AggregateMsgByFlowKey reg clock message a in
  grows a a' ∧
  (setType set ≠ Data → res = Ok tt ∧ a' = a) ∧
  (setType set = Data →
   let flows := dom (flowKeyRecordMap a) ∪ list_to_set (omap valid_key (records set)) in
   match res with
   | Ok _ => dom (flowKeyRecordMap a') = flows ∧
             Exists (λ r, validateDataRecord r = true) (records set)
   | Err _ => dom (flowKeyRecordMap a') ⊆ flows
   | Panic => dom (flowKeyRecordMap a') ⊆ flows
   | Block => dom (flowKeyRecordMap a') ⊆ flows
   end).
Proof.
  intros Hi%reachable_inv Hset. pose proof (message_grows reg clock message a Hi) as Hg.
  destruct (AggregateMsgByFlowKey reg clock message a) as [res a'] eqn:E. split; [exact Hg|].
  unfold AggregateMsgByFlowKey in E. rewrite Hset in E.
  rewrite (M_bind_Ok _ _ _ set a) in E by done.
  destruct (decide (setType set = Data)) as [Ht|Ht]; [|split; [by injection E as <- <-|done]].
  split; [done|]. intros _ flows.
  pose proof (aggregate_records_spec reg clock 0 (records set) 0 a Hi) as H.
  unfold mbind, M_bind in E.
  destruct (aggregate_records reg clock 0 (records set) 0 a) as [[n| | |] a1];
    [|injection E as <- <-; apply H..].
  destruct H as (_ & Hd & Hn). case_decide as Hall; injection E as <- <-.
  - rewrite Hd. reflexivity.
  - split; [done|]. destruct (decide (Forall (λ r, validateDataRecord r = false) (records set))) as [Hf|Hf].
    + destruct Hall. rewrite Hn. simpl. f_equal. by rewrite filter_all.
    + apply not_Forall_Exists in Hf; [|apply _]. eapply Exists_impl; [|exact Hf].
      intros r Hr. simpl in Hr. by destruct (validateDataRecord r).
Qed.

Lemma message_flows_witness :
  dom (flowKeyRecordMap (AggregateMsgByFlowKey loaded_registry (λ _, 1050) (ex_message [ex_second]) ex_a1).2)
  = {[ex_key]}.
Proof.
  pose proof (message_flows loaded_registry (λ _, 1050) (ex_message [ex_second])
    {| headerBuffer := []; setType := Data; records := [ex_second]; set_isDecoding := true; set_length := 0 |}
    ex_a1 ex_a1_reachable eq_refl) as H.
  assert (Hr : (AggregateMsgByFlowKey loaded_registry (λ _, 1050) (ex_message [ex_second]) ex_a1).1 = Ok tt)
    by (vm_compute; reflexivity).
  destruct (AggregateMsgByFlowKey loaded_registry (λ _, 1050) (ex_message [ex_second]) ex_a1) as [res a'].
  cbn [fst] in Hr. subst res. destruct H as (_ & _ & H). destruct (H eq_refl) as [Hd _].
  cbn [snd]. rewrite Hd. evaluate.
Defined.

(** C39: a callback that fails loses the flow it was given.  When an expiry run ends with
    a failed callback, some flow is in the map without being in the queue, and it stays
    so for ever: no later message, expiry run or callback queues or deletes it. *)
Theorem failed_callback_loses_flow now cb a res a' calls :
  agg_reachable a → 0 <= activeExpiryTimeout a →
  ForAllExpiredFlowRecordsDo now cb (a, []) = (res, (a', calls)) → res ≠ Ok tt →
  ∃ k, lost k a' ∧ ∀ a'', rtc agg_step a' a'' → lost k a''.
Proof.
  intros Hi%reachable_inv HT E Hne.
  destruct (expire_refines now cb a [] Hi HT) as (res1 & a1 & calls1 & E1 & Hi1 & H).
  rewrite E in E1. injection E1 as <- <- <-.
  destruct (failed_run_loses _ _ _ _ _ _ _ Hi H Hne) as [k Hk].
  exists k. split; [done|]. intros a'' Hr. by apply (agg_steps_keep a' a'').
Qed.

Definition ex_failed : AggregationProcess :=
  (ForAllExpiredFlowRecordsDo 1101 failing_callback (ex_a1, [])).2.1.
Definition ex_failed_calls : list call :=
  (ForAllExpiredFlowRecordsDo 1101 failing_callback (ex_a1, [])).2.2.

Lemma failed_callback_loses_flow_witness :
  ∃ k, lost k ex_failed ∧ ∀ a'', rtc agg_step ex_failed a'' → lost k a''.
Proof.
  apply (failed_callback_loses_flow 1101 failing_callback ex_a1 (Err (ErrCallback (ErrTransport 1)))
    ex_failed ex_failed_calls ex_a1_reachable).
  - vm_compute. discriminate.
  - vm_compute. reflexivity.
  - discriminate.
Defined.

(** A flow whose active timeout ends exactly when the expiry run reads the clock is
    lost even when every callback succeeds: it is popped because it is not after the
    current time, and not queued again because it is not before it. *)
Theorem exact_deadline_loses_flow now cb a a' calls x it f :
  agg_reachable a → 0 <= activeExpiryTimeout a →
  ForAllExpiredFlowRecordsDo now cb (a, []) = (Ok tt, (a', calls)) →
  x ∈ pq (queue_of a) → data_of a !! x = Some it → flowRecords a !! flowRecord it = Some f →
  ReadyToSend f = true → activeExpireTime it = now → now <= inactiveExpireTime it →
  (flowKey it, f) ∈ calls ∧ ∀ a'', rtc agg_step a' a'' → lost (flowKey it) a''.
Proof.
  intros Hi%reachable_inv HT E Hx Hit Hf Hready Hact Hinact.
  destruct (expire_refines now cb a [] Hi HT) as (res1 & a1 & calls1 & E1 & Hi1 & H).
  rewrite E in E1. injection E1 as <- <- <-. split.
  - eapply run_covers; try done. unfold min_expire. case_decide; lia.
  - intros a'' Hr. apply (agg_steps_keep a' a'' Hr Hi1). by eapply exact_run_loses.
Qed.

Definition ex_dropped : AggregationProcess :=
  (ForAllExpiredFlowRecordsDo 1100 ok_callback (ex_a1, [])).2.1.

Lemma exact_deadline_loses_flow_witness : lost ex_key ex_dropped.
Proof.
  destruct (flowRecords ex_a1 !! 0%nat) as [f|] eqn:Hf; [|vm_compute in Hf; discriminate].
  refine (proj2 (exact_deadline_loses_flow 1100 ok_callback ex_a1 ex_dropped
    (ForAllExpiredFlowRecordsDo 1100 ok_callback (ex_a1, [])).2.2 0%nat
    (mkItemToExpire ex_key 0%nat 1100 1150 0) f ex_a1_reachable _ _ _ _ Hf _ _ _)
    ex_dropped (rtc_refl _ _)).
  - vm_compute. discriminate.
  - vm_compute. reflexivity.
  - evaluate.
  - vm_compute. reflexivity.
  - assert (ReadyToSend <$> (flowRecords ex_a1 !! 0%nat) = Some true) as Hb by (vm_compute; reflexivity).
    rewrite Hf in Hb. by injection Hb.
  - reflexivity.
  - simpl. lia.
Defined.

(** [GetRecords] returns the element maps of exactly the flows that its filter
    matches, where an absent key, an empty address and a zero protocol or port match
    everything; the direct look-up of a complete key gives what the scan would. *)
Theorem get_records_filter key a :
  GetRecords key a =
  go_mapM (λ '(_, p), element_map a p)
    (filter (λ kp, matches key kp.1 = true) (map_to_list (flowKeyRecordMap a))).
Proof.
  unfold GetRecords, matches. destruct key as [k|].
  - destruct (complete_filter k) eqn:Hc.
    + rewrite (filter_key k).
      * destruct (flowKeyRecordMap a !! k) as [p|]; [|done]. simpl. by destruct (element_map a p).
      * intros [k' p]. simpl. rewrite negb_true_iff. by apply filtered_out_complete.
    + f_equal. apply list_filter_iff. intros [k' p]. simpl. by rewrite negb_true_iff.
  - f_equal. by rewrite filter_all by (apply list.Forall_forall; done).
Qed.
