(* ===== verification/Workers.v ===== *)
(** * The workers of the aggregation process

    src/pkg/intermediate/worker.go and [Start] and [Stop] of aggregate.go, as a
    transition system of goroutines over the message channel, the unbuffered stop
    channels and the mutex of the process.  Of a message only the number of times its
    processing takes the mutex matters (once for every record that is added, see
    AggregationProcess.v). *)

From Stdlib Require Import Lia.
From stdpp Require Import base list numbers relations.
From S2P Require Import Prelude.

(** Where a worker is: in its [select], in its job with a number of records to go,
    inside the critical section of one of them, or returned. *)
Inductive worker : Type :=
| Selecting
| InJob (n : nat)
| InCritical (n : nat)
| Returned.

(** Where the goroutine that calls [Stop] is: not yet called, waiting for the mutex,
    stopping worker [i] while it holds the mutex, sending on [stopChan], returned. *)
Inductive stopper : Type :=
| NotCalled
| Locking
| Stopping (i : nat)
| Sending
| Stopped.

(** Where [Start] is: starting workers while it holds the mutex, waiting on
    [stopChan], returned. *)
Inductive starter : Type :=
| Starting (i : nat)
| Waiting
| Started.

Record system : Type := mkSystem {
  workerNum : nat;
  workerList : list worker;
  messages : list nat;
  closed : bool;
  locked : bool;
  start_pc : starter;
  stop_pc : stopper;
}.

Definition createWorker : worker := Selecting.

Definition with_worker (i : nat) (w : worker) (s : system) : system :=
  mkSystem (workerNum s) (<[i := w]> (workerList s)) (messages s) (closed s) (locked s) (start_pc s)
    (stop_pc s).
Definition with_locked (b : bool) (s : system) : system :=
  mkSystem (workerNum s) (workerList s) (messages s) (closed s) b (start_pc s) (stop_pc s).
Definition with_stop (pc : stopper) (s : system) : system :=
  mkSystem (workerNum s) (workerList s) (messages s) (closed s) (locked s) (start_pc s) pc.
Definition with_start (pc : starter) (s : system) : system :=
  mkSystem (workerNum s) (workerList s) (messages s) (closed s) (locked s) pc (stop_pc s).

Definition take_message (i n : nat) (ms : list nat) (s : system) : system :=
  mkSystem (workerNum s) (<[i := InJob n]> (workerList s)) ms (closed s) (locked s) (start_pc s)
    (stop_pc s).

(** [w.start()]: one iteration of the loop of worker [i]. *)
Inductive worker_step (i : nat) : system → system → Prop :=
| worker_receives n ms s :
    workerList s !! i = Some Selecting → messages s = n :: ms →
    worker_step i s (take_message i n ms s)
| worker_spins s :
    (* the channel is closed and empty: [break] leaves the select, not the loop *)
    workerList s !! i = Some Selecting → messages s = [] → closed s = true → worker_step i s s
| worker_locks n s :
    workerList s !! i = Some (InJob (S n)) → locked s = false →
    worker_step i s (with_worker i (InCritical n) (with_locked true s))
| worker_unlocks n s :
    workerList s !! i = Some (InCritical n) →
    worker_step i s (with_worker i (InJob n) (with_locked false s))
| worker_done s :
    workerList s !! i = Some (InJob 0) → worker_step i s (with_worker i Selecting s).

(** [Start]. *)
Inductive start_step : system → system → Prop :=
| start_worker i s :
    start_pc s = Starting i → i < workerNum s →
    start_step s (mkSystem (workerNum s) (workerList s ++ [createWorker]) (messages s) (closed s)
                    (locked s) (Starting (S i)) (stop_pc s))
| start_unlocks i s :
    start_pc s = Starting i → workerNum s <= i →
    start_step s (with_start Waiting (with_locked false s)).

(** [Stop]; [w.stop()] sends on a channel that only a worker in its select receives
    from, and the last send meets [Start]. *)
Inductive stop_step : system → system → Prop :=
| stop_called s : stop_pc s = NotCalled → stop_step s (with_stop Locking s)
| stop_locks s :
    stop_pc s = Locking → locked s = false → stop_step s (with_stop (Stopping 0) (with_locked true s))
| stop_worker i s :
    stop_pc s = Stopping i → workerList s !! i = Some Selecting →
    stop_step s (with_stop (Stopping (S i)) (with_worker i Returned s))
| stop_unlocks i s :
    stop_pc s = Stopping i → length (workerList s) <= i →
    stop_step s (with_stop Sending (with_locked false s))
| stop_returns s :
    stop_pc s = Sending → start_pc s = Waiting →
    stop_step s (with_stop Stopped (with_start Started s)).

(** A message is sent to the channel, or the channel is closed. *)
Inductive env_step : system → system → Prop :=
| env_sends n s :
    closed s = false →
    env_step s (mkSystem (workerNum s) (workerList s) (messages s ++ [n]) (closed s) (locked s)
                  (start_pc s) (stop_pc s))
| env_closes s :
    env_step s (mkSystem (workerNum s) (workerList s) (messages s) true (locked s) (start_pc s)
                  (stop_pc s)).

Inductive sys_step : system → system → Prop :=
| step_worker i s s' : worker_step i s s' → sys_step s s'
| step_start s s' : start_step s s' → sys_step s s'
| step_stop s s' : stop_step s s' → sys_step s s'
| step_env s s' : env_step s s' → sys_step s s'.

(** [Start] has taken the mutex. *)
Definition initial (n : nat) : system := mkSystem n [] [] false true (Starting 0) NotCalled.

(** The goroutines that hold the mutex. *)
Definition critical (w : worker) : nat := match w with InCritical _ => 1 | _ => 0 end.

Definition holders (s : system) : nat :=
  sum_list_with critical (workerList s) +
  (match start_pc s with Starting _ => 1 | _ => 0 end) +
  (match stop_pc s with Stopping _ => 1 | _ => 0 end).

(** ** Lemmas *)

Lemma sum_insert {A} (g : A → nat) l i x y :
  l !! i = Some x → sum_list_with g (<[i := y]> l) + g x = sum_list_with g l + g y.
Proof.
  revert i. induction l as [|z l IH]; intros [|i] Hi; try done; simpl in *.
  - simplify_eq. lia.
  - specialize (IH i Hi). lia.
Qed.

Lemma sum_lookup {A} (g : A → nat) l i x : l !! i = Some x → g x <= sum_list_with g l.
Proof.
  revert i. induction l as [|z l IH]; intros [|i] Hi; try done; simpl in *.
  - simplify_eq. lia.
  - specialize (IH i Hi). lia.
Qed.

(** The mutex is locked exactly when one goroutine is in its critical section. *)
Definition exclusive (s : system) : Prop := holders s = if locked s then 1 else 0.

Lemma exclusive_step s s' : sys_step s s' → exclusive s → exclusive s'.
Proof.
  unfold exclusive, holders.
  destruct 1 as [i s s' H|s s' H|s s' H|s s' H]; intros He.
  - destruct H as [n ms s Hw Hm|s Hw|n s Hw Hl|n s Hw|s Hw]; simpl; [..|
      pose proof (sum_insert critical _ _ _ Selecting Hw); simpl in *; lia].
    + pose proof (sum_insert critical _ _ _ (InJob n) Hw). simpl in *. lia.
    + done.
    + pose proof (sum_insert critical _ _ _ (InCritical n) Hw). rewrite Hl in He. simpl in *. lia.
    + pose proof (sum_insert critical _ _ _ (InJob n) Hw).
      pose proof (sum_lookup critical _ _ _ Hw). simpl in *. destruct (locked s); lia.
  - destruct H as [i s Hp|i s Hp]; rewrite Hp in He; simpl.
    + rewrite sum_list_with_app. simpl. lia.
    + destruct (locked s); lia.
  - destruct H as [s Hp|s Hp Hl|i s Hp Hw|i s Hp|s Hp Hst]; rewrite Hp in He; simpl.
    + done.
    + rewrite Hl in He. lia.
    + pose proof (sum_insert critical _ _ _ Returned Hw). simpl in *. lia.
    + destruct (locked s); lia.
    + rewrite Hst in He. lia.
  - by destruct H.
Qed.

Lemma exclusive_reachable n s : rtc sys_step (initial n) s → exclusive s.
Proof.
  intros H. assert (H0 : exclusive (initial n)) by done.
  induction H as [|x y z Hxy _ IH]; eauto using exclusive_step.
Qed.

(** [Stop] holds the mutex and has not come past a worker that is about to take it. *)
Definition blocked (j n : nat) (s : system) : Prop :=
  exclusive s ∧ (∃ i, stop_pc s = Stopping i ∧ i <= j) ∧ workerList s !! j = Some (InJob (S n)).

Lemma blocked_locked j n s :
  blocked j n s →
  locked s = true ∧ (∀ i, start_pc s ≠ Starting i) ∧ ∀ i m, workerList s !! i ≠ Some (InCritical m).
Proof.
  intros (He & (i & Hi & _) & _). unfold exclusive, holders in He. rewrite Hi in He.
  destruct (locked s); [|lia]. split_and!; [done| |].
  - intros k Hk. rewrite Hk in He. lia.
  - intros k m Hk. pose proof (sum_lookup critical _ _ _ Hk). simpl in *. lia.
Qed.

Lemma blocked_step j n s s' : sys_step s s' → blocked j n s → blocked j n s'.
Proof.
  intros Hs Hb. pose proof (blocked_locked _ _ _ Hb) as (Hl & Hst & Hc).
  destruct Hb as (He & (k & Hk & Hkj) & Hw). split; [by eapply exclusive_step|].
  destruct Hs as [i s s' H|s s' H|s s' H|s s' H].
  - destruct H as [m ms s Hwi|s Hwi|m s Hwi|m s Hwi|s Hwi]; simpl; try congruence;
      try (by exfalso; eapply Hc); (split; [by eauto|]); try done;
      (rewrite list_lookup_insert_ne; [done|]; intros ->; congruence).
  - destruct H as [i s Hp|i s Hp]; by destruct (Hst i).
  - destruct H as [s Hp|s Hp|i s Hp Hwi|i s Hp Hlen|s Hp]; simpl; try congruence.
    + assert (i = k) by congruence. subst. assert (k ≠ j) by congruence.
      split; [eexists; split; [done|lia]|]. by rewrite list_lookup_insert_ne.
    + apply lookup_lt_Some in Hw. assert (i = k) by congruence. lia.
  - destruct H; simpl; eauto.
Qed.

Lemma blocked_forever j n s s' : rtc sys_step s s' → blocked j n s → blocked j n s'.
Proof. induction 1; eauto using blocked_step. Qed.

(** ** Properties *)

(** The mutex of the process is exclusive.  In every state that [Start], [Stop] and
    any number of workers can reach, it is locked exactly when one of them is inside
    its critical section, and never more than one is. *)
Theorem mutex_exclusive n s :
  rtc sys_step (initial n) s → holders s = if locked s then 1 else 0.
Proof. apply exclusive_reachable. Qed.

(** [Stop] has locked while a worker is between receiving a message and its lock. *)
Definition ex_blocked : system := mkSystem 1 [InJob 1] [] false true Waiting (Stopping 0).

Lemma ex_blocked_reachable : rtc sys_step (initial 1) ex_blocked.
Proof.
  eapply rtc_l; [apply step_start, (start_worker 0); [reflexivity|apply Nat.lt_0_1]|].
  eapply rtc_l; [apply step_start, (start_unlocks 1); [reflexivity|reflexivity]|].
  eapply rtc_l; [apply step_env, (env_sends 1); reflexivity|].
  eapply rtc_l; [apply (step_worker 0), (worker_receives 0 1 []); reflexivity|].
  eapply rtc_l; [apply step_stop, stop_called; reflexivity|].
  eapply rtc_l; [apply step_stop, stop_locks; reflexivity|]. apply rtc_refl.
Qed.

Lemma mutex_exclusive_witness : holders ex_blocked = 1.
Proof. exact (mutex_exclusive 1 ex_blocked ex_blocked_reachable). Defined.

(** C40: [Stop] deadlocks.  When it takes the mutex while a worker that it has still to
    stop is processing a message with a record to add, neither of them ever goes on:
    in every later state [Stop] still holds the mutex at or before that worker, which
    still waits for it, and [Stop] never returns. *)
Theorem stop_deadlocks n s i j m s' :
  rtc sys_step (initial n) s → stop_pc s = Stopping i → i <= j →
  workerList s !! j = Some (InJob (S m)) → rtc sys_step s s' →
  stop_pc s' ≠ Stopped ∧ locked s' = true ∧ workerList s' !! j = Some (InJob (S m)).
Proof.
  intros Hr Hp Hi Hw Hs.
  assert (Hb : blocked j m s) by (split; [by eapply exclusive_reachable|eauto]).
  pose proof (blocked_forever _ _ _ _ Hs Hb) as Hb'.
  destruct (blocked_locked _ _ _ Hb') as [Hl _]. destruct Hb' as (_ & (k & Hk & _) & Hw').
  split_and!; [by rewrite Hk|done|done].
Qed.

(** A second message is sent while [Stop] and the worker wait for each other. *)
Definition ex_blocked_later : system := mkSystem 1 [InJob 1] [2] false true Waiting (Stopping 0).

Lemma stop_deadlocks_witness :
  stop_pc ex_blocked_later ≠ Stopped ∧ locked ex_blocked_later = true ∧
  workerList ex_blocked_later !! 0 = Some (InJob 1).
Proof.
  apply (stop_deadlocks 1 ex_blocked 0 0 0 ex_blocked_later ex_blocked_reachable eq_refl (le_n 0) eq_refl).
  apply rtc_once, step_env, (env_sends 2). reflexivity.
Defined.

Lemma stop_loop s k :
  stop_pc s = Stopping k → (∀ i, k <= i < length (workerList s) → workerList s !! i = Some Selecting) →
  ∃ s', rtc stop_step s s' ∧ stop_pc s' = Sending ∧ start_pc s' = start_pc s ∧ locked s' = false.
Proof.
  remember (length (workerList s) - k) as d eqn:Hd. revert s k Hd.
  induction d as [|d IH]; intros s k Hd Hp Hw.
  - eexists. split; [apply rtc_once; apply (stop_unlocks k); [done|lia]|done].
  - assert (Hk : workerList s !! k = Some Selecting) by (apply Hw; lia).
    destruct (IH (with_stop (Stopping (S k)) (with_worker k Returned s)) (S k)) as (s' & Hs & H).
    + simpl. rewrite length_insert. lia.
    + done.
    + intros i Hi. simpl in *. rewrite length_insert in Hi. rewrite list_lookup_insert_ne by lia.
      apply Hw. lia.
    + exists s'. split; [|done]. eapply rtc_l; [by apply stop_worker|done].
Qed.

(** [Stop] returns when the workers are idle: from every state in which the mutex is
    free, [Stop] has been called, [Start] is waiting and every worker is in its select,
    the steps of [Stop] alone end all workers, release the mutex and let both [Start]
    and [Stop] return. *)
Theorem stop_returns_when_idle s :
  stop_pc s = Locking → locked s = false → start_pc s = Waiting →
  Forall (λ w, w = Selecting) (workerList s) →
  ∃ s', rtc stop_step s s' ∧ stop_pc s' = Stopped ∧ start_pc s' = Started ∧ locked s' = false.
Proof.
  intros Hp Hl Hst Hw.
  destruct (stop_loop (with_stop (Stopping 0) (with_locked true s)) 0) as (s1 & H1 & P1 & S1 & L1).
  { done. }
  { intros i Hi. simpl in *. destruct (lookup_lt_is_Some_2 (workerList s) i) as [w Hx]; [lia|].
    by rewrite Hx, (Forall_lookup_1 _ _ _ _ Hw Hx). }
  exists (with_stop Stopped (with_start Started s1)). split; [|done]. eapply rtc_l; [by apply stop_locks|]. eapply rtc_r; [exact H1|].
  apply stop_returns; [done|]. by rewrite S1.
Qed.

Lemma stop_returns_when_idle_witness :
  ∃ s', rtc stop_step (mkSystem 2 [Selecting; Selecting] [] false false Waiting Locking) s' ∧
    stop_pc s' = Stopped ∧ start_pc s' = Started ∧ locked s' = false.
Proof.
  apply (stop_returns_when_idle (mkSystem 2 [Selecting; Selecting] [] false false Waiting Locking));
    [reflexivity..|repeat constructor].
Defined.
