(* ===== verification/FirstRecord.v ===== *)
(** * The first record of a flow

    [addFieldsForStatsAggregation] and [addFieldsForThroughputCalculation] of
    src/pkg/intermediate/aggregate.go: the elements they add to the record that starts
    a flow, as a list, and the proof that the two calls append exactly that list.  The
    model of the two functions is in Aggregate.v. *)

From Stdlib Require Import ZArith Lia.
From Stdlib.Strings Require Import Byte.
From stdpp Require Import base gmap strings list numbers.
From S2P Require Import Prelude Bytes InfoElement Records Registry NetIP Aggregate.

#[local] Open Scope Z_scope.

(** A data record as [AddRecord] leaves it. *)
Definition plain (tid : Z) (dec : bool) (es : list InfoElementWithValue) : IPFIXRecord :=
  DataRecord (data_record_of tid dec es).

(** ** Specification: the added elements *)

(** The Antrea element of a name, which the registry must have. *)
Definition has_antrea (reg : Registry) (n : string) : Prop :=
  ∃ ie, RegistryGetInfoElement n AntreaEnterpriseID reg = Ok ie ∧ Name ie = n.

#[global] Instance has_antrea_dec reg n : Decision (has_antrea reg n).
Proof.
  refine (cast_if (decide (Name <$> match RegistryGetInfoElement n AntreaEnterpriseID reg with
                                    | Ok ie => Some ie | _ => None end = Some n)));
    unfold has_antrea; destruct (RegistryGetInfoElement n AntreaEnterpriseID reg); naive_solver.
Defined.

Definition antrea_ie (reg : Registry) (n : string) : InfoElement :=
  from_ok (NewInfoElement n 0 Unsigned64 AntreaEnterpriseID 8)
    (RegistryGetInfoElement n AntreaEnterpriseID reg).

(** All names the two functions add. *)
Definition added_names (els : AggregationElements) : list string :=
  (AggregatedSourceStatsElements els ++ AggregatedDestinationStatsElements els) ++
  AntreaFlowEndSecondsElements els ++ throughput_list els.

(** The mean rate of a flow in bits per second, zero for a flow that starts and ends in
    the same second. *)
Definition mean_rate (r : IPFIXRecord) (count : string) : Z :=
  let seconds := u32_or_0 r "flowEndSeconds" - u32_or_0 r "flowStartSeconds" in
  if decide (0 < seconds) then u64 (u64_or_0 r count * 8) / seconds else 0.

Definition mean_rates (r : IPFIXRecord) : list Z :=
  [mean_rate r "octetTotalCount"; mean_rate r "reverseOctetTotalCount"].

Section spec.
Context (reg : Registry) (els : AggregationElements) (fs fd : bool) (r : IPFIXRecord).

(** The statistics of the two nodes: the record's where it comes from that node. *)
Definition stats_fields (i : nat) (n : string) : list InfoElementWithValue :=
  let v := u64_or_0 r n in
  [Unsigned64InfoElement (antrea_ie reg (default "" (AggregatedSourceStatsElements els !! i)))
     (if fs then v else 0);
   Unsigned64InfoElement (antrea_ie reg (default "" (AggregatedDestinationStatsElements els !! i)))
     (if fd then v else 0)].

Definition time_field (n : string) : InfoElementWithValue :=
  Unsigned32InfoElement (antrea_ie reg n)
    (if (fs && Contains n "Source") || (fd && Contains n "Destination")
     then u32_or_0 r "flowEndSeconds" else 0).

Definition throughput_fields (i : nat) (n : string) : list InfoElementWithValue :=
  let v := default 0 (mean_rates r !! i) in
  [Unsigned64InfoElement (antrea_ie reg n) v;
   Unsigned64InfoElement (antrea_ie reg (default "" (SourceThroughputElements els !! i)))
     (if fs then v else 0);
   Unsigned64InfoElement (antrea_ie reg (default "" (DestinationThroughputElements els !! i)))
     (if fd then v else 0)].

Definition first_fields : list InfoElementWithValue :=
  mjoin (imap stats_fields (StatsElements els)) ++
  (time_field <$> AntreaFlowEndSecondsElements els) ++
  mjoin (imap throughput_fields (ThroughputElements els)).

End spec.

(** The record has what starting a flow reads, and none of the elements it adds. *)
Definition can_start (els : AggregationElements) (r : IPFIXRecord) : Prop :=
  has_u32 r "flowStartSeconds" ∧ has_u32 r "flowEndSeconds" ∧
  is_Some (u64_at r "octetTotalCount") ∧ is_Some (u64_at r "reverseOctetTotalCount") ∧
  Forall (λ n, is_Some (u64_at r n)) (StatsElements els) ∧
  Forall (λ n, lookup_rec r n = None) (added_names els).

(** The configuration has lists of the same lengths, at most two throughputs, no name
    twice among the added ones, and all of these in the registry. *)
Definition wf_added (reg : Registry) (els : AggregationElements) : Prop :=
  length (AggregatedSourceStatsElements els) = length (StatsElements els) ∧
  length (AggregatedDestinationStatsElements els) = length (StatsElements els) ∧
  length (SourceThroughputElements els) = length (ThroughputElements els) ∧
  length (DestinationThroughputElements els) = length (ThroughputElements els) ∧
  (length (ThroughputElements els) <= 2)%nat ∧
  NoDup (added_names els) ∧ Forall (has_antrea reg) (added_names els).

(** ** Lemmas: appending to a record *)

Lemma plain_full tid dec es : full (plain tid dec es).
Proof. by exists es. Qed.

Lemma lookup_plain tid dec es n : lookup_rec (plain tid dec es) n = find_named n es.
Proof. by apply lookup_rec_named. Qed.

Lemma add_element_plain tid dec es e :
  Z.of_nat (length es) < 65535 →
  add_element e (plain tid dec es) = (Ok tt, plain tid dec (es ++ [e])).
Proof.
  intros Hn. unfold add_element, plain, AddInfoElement, DataAddInfoElement, data_record_of. cbn.
  rewrite decide_True by (rewrite length_fmap; lia).
  unfold u16. rewrite Z.mod_small by lia. apply (f_equal (λ d, (Ok tt, DataRecord d))). f_equal.
  - rewrite length_app. simpl. lia.
  - by rewrite fmap_app.
  - destruct dec; [done|]. rewrite total_length_app. unfold total_length. simpl. lia.
Qed.

Lemma find_named_app n es es' :
  find_named n (es ++ es') = match find_named n es with Some e => Some e | None => find_named n es' end.
Proof. induction es as [|e es IH]; simpl; [done|]. by case_decide. Qed.

Lemma find_named_elem es e :
  NoDup (GetName <$> es) → e ∈ es → find_named (GetName e) es = Some e.
Proof.
  induction es as [|e0 es IH]; [by intros _ ?%not_elem_of_nil|].
  rewrite fmap_cons, list.NoDup_cons, elem_of_cons. intros [Hn Hnd] [->|He]; cbn [find_named].
  - by rewrite decide_True.
  - rewrite decide_False; [auto|]. intros E. apply Hn. rewrite E. by apply list_elem_of_fmap_2.
Qed.

Lemma find_named_None n es : n ∉ GetName <$> es → find_named n es = None.
Proof.
  induction es as [|e es IH]; [done|]. rewrite fmap_cons, not_elem_of_cons. intros [H1 H2]. simpl.
  by rewrite decide_False by congruence; auto.
Qed.

(** What a record already has is found also after something was appended. *)
Lemma value_app {A} (get : InfoElementWithValue → go A) tid dec es new n v :
  value_at get (plain tid dec es) n = Some v → value_at get (plain tid dec (es ++ new)) n = Some v.
Proof.
  unfold value_at. rewrite !lookup_plain, find_named_app. by destruct (find_named n es).
Qed.

(** A loop whose every iteration appends a list of its own. *)
Lemma append_loop tid dec es (f : nat → string → Rec unit) (new : nat → string → list InfoElementWithValue)
    k l added :
  (∀ i x acc, l !! i = Some x → Z.of_nat (length (es ++ acc ++ new i x)) < 65536 →
     f (k + i)%nat x (plain tid dec (es ++ acc)) = (Ok tt, plain tid dec (es ++ acc ++ new i x))) →
  Z.of_nat (length (es ++ added ++ mjoin (imap new l))) < 65536 →
  rec_fold (λ i x _, f i x) k l tt (plain tid dec (es ++ added)) =
    (Ok tt, plain tid dec (es ++ added ++ mjoin (imap new l))).
Proof.
  revert k new added. induction l as [|x l IH]; intros k new added Hf Hn.
  { cbn. by rewrite app_nil_r. }
  change (imap new (x :: l)) with (new 0%nat x :: imap (new ∘ S) l) in *.
  change (mjoin (new 0%nat x :: imap (new ∘ S) l)) with (new 0%nat x ++ mjoin (imap (new ∘ S) l)) in *.
  pose proof (Hf 0%nat x added eq_refl) as H0. rewrite Nat.add_0_r in H0.
  cbn [rec_fold]. rewrite !length_app in Hn.
  rewrite (M_bind_Ok _ _ _ _ _ (H0 ltac:(rewrite !length_app; lia))).
  rewrite (IH (S k) (new ∘ S) (added ++ new 0%nat x)).
  - by rewrite <- !app_assoc.
  - intros i y acc Hy Hl. specialize (Hf (S i) y acc Hy Hl). by rewrite Nat.add_succ_r in Hf.
  - rewrite !length_app. lia.
Qed.

Lemma antrea_lookup reg n :
  has_antrea reg n →
  RegistryGetInfoElement n AntreaEnterpriseID reg = Ok (antrea_ie reg n) ∧ Name (antrea_ie reg n) = n.
Proof. intros (ie & E & Hn). unfold antrea_ie. by rewrite E. Qed.

Lemma add_antrea_plain reg new n v tid dec es :
  has_antrea reg n → Z.of_nat (length es) < 65535 →
  add_antrea reg new n v (plain tid dec es) = (Ok tt, plain tid dec (es ++ [new (antrea_ie reg n) v])).
Proof.
  intros [E _]%antrea_lookup Hl. unfold add_antrea. rewrite (bind_lift _ _ _ _ E).
  by apply add_element_plain.
Qed.

Section first.
Context (reg : Registry) (els : AggregationElements) (fs fd : bool).
Context (tid : Z) (dec : bool) (es : list InfoElementWithValue).
Hypotheses (Hwf : wf_added reg els) (Hst : can_start els (plain tid dec es)).

Lemma added_antrea n : n ∈ added_names els → has_antrea reg n.
Proof. destruct Hwf as (_ & _ & _ & _ & _ & _ & H). rewrite list.Forall_forall in H. apply H. Qed.

Lemma added_list (l : list string) i n : l !! i = Some n → l ⊆ added_names els → has_antrea reg n.
Proof. intros Hn Hs. apply added_antrea, Hs. by eapply list_elem_of_lookup_2. Qed.

Lemma stats_step i n acc :
  StatsElements els !! i = Some n →
  Z.of_nat (length (es ++ acc ++ stats_fields reg els fs fd (plain tid dec es) i n)) < 65536 →
  add_stats_element reg els fs fd i n (plain tid dec (es ++ acc)) =
    (Ok tt, plain tid dec (es ++ acc ++ stats_fields reg els fs fd (plain tid dec es) i n)).
Proof.
  intros Hn Hl. destruct Hwf as (L1 & L2 & _). destruct Hst as (_ & _ & _ & _ & Hs & _).
  pose proof (lookup_lt_Some _ _ _ Hn) as Hi.
  destruct (lookup_lt_is_Some_2 (AggregatedSourceStatsElements els) i) as [src Hsrc]; [lia|].
  destruct (lookup_lt_is_Some_2 (AggregatedDestinationStatsElements els) i) as [dst Hdst]; [lia|].
  destruct (antrea_lookup reg src) as [Es _]; [eapply added_list; [done|unfold added_names; set_solver]|].
  destruct (antrea_lookup reg dst) as [Ed _]; [eapply added_list; [done|unfold added_names; set_solver]|].
  eapply Forall_lookup_1 in Hs as [v Hv]; [|exact Hn].
  pose proof (value_app _ _ _ _ acc _ _ Hv) as (e & He & Hg)%value_at_Some.
  unfold stats_fields, u64_or_0 in *. rewrite Hsrc, Hdst, Hv in *. cbn [default] in *.
  rewrite !length_app in Hl. simpl in Hl.
  unfold add_stats_element, at_index. rewrite Hsrc, Hdst.
  erewrite bind_ask by (rewrite full_element_of, He by apply plain_full; done).
  cbv beta iota.
  rewrite (bind_lift _ _ _ src), (bind_lift _ _ _ _ Es) by done.
  rewrite (bind_lift _ _ _ (if fs then v else 0)) by (by destruct fs).
  erewrite M_bind_Ok by (apply add_element_plain; rewrite !length_app; lia).
  rewrite (bind_lift _ _ _ dst), (bind_lift _ _ _ _ Ed) by done.
  rewrite (bind_lift _ _ _ (if fd then v else 0)) by (by destruct fd).
  rewrite add_element_plain by (rewrite !length_app; simpl; lia). by rewrite <- !app_assoc.
Qed.

Lemma throughput_step i n acc :
  ThroughputElements els !! i = Some n →
  Z.of_nat (length (es ++ acc ++ throughput_fields reg els fs fd (plain tid dec es) i n)) < 65536 →
  add_throughput reg els (mean_rates (plain tid dec es)) fs fd i n (plain tid dec (es ++ acc)) =
    (Ok tt, plain tid dec (es ++ acc ++ throughput_fields reg els fs fd (plain tid dec es) i n)).
Proof.
  intros Hn Hl. destruct Hwf as (_ & _ & L1 & L2 & L3 & _).
  pose proof (lookup_lt_Some _ _ _ Hn) as Hi.
  destruct (lookup_lt_is_Some_2 (SourceThroughputElements els) i) as [src Hsrc]; [lia|].
  destruct (lookup_lt_is_Some_2 (DestinationThroughputElements els) i) as [dst Hdst]; [lia|].
  destruct (lookup_lt_is_Some_2 (mean_rates (plain tid dec es)) i) as [v Hv]; [unfold mean_rates; simpl; lia|].
  assert (Hin : ∀ l m, l !! i = Some m → l ⊆ throughput_list els → has_antrea reg m).
  { intros l m Hm Hs. eapply added_list; [exact Hm|]. unfold added_names. set_solver. }
  unfold throughput_fields in *. rewrite Hsrc, Hdst, Hv in *. cbn [default] in *.
  rewrite !length_app in Hl. simpl in Hl.
  unfold add_throughput, at_index. rewrite Hsrc, Hdst, Hv. rewrite (bind_lift _ _ _ v) by done.
  erewrite M_bind_Ok by (apply add_antrea_plain;
    [eapply Hin; [exact Hn|unfold throughput_list; set_solver]|rewrite !length_app; lia]).
  rewrite (bind_lift _ _ _ src) by done.
  erewrite M_bind_Ok by (apply add_antrea_plain;
    [eapply Hin; [exact Hsrc|unfold throughput_list; set_solver]|rewrite !length_app; simpl; lia]).
  rewrite (bind_lift _ _ _ dst) by done.
  rewrite add_antrea_plain;
    [|eapply Hin; [exact Hdst|unfold throughput_list; set_solver]|rewrite !length_app; simpl; lia].
  by rewrite <- !app_assoc.
Qed.

Lemma time_step i n acc :
  AntreaFlowEndSecondsElements els !! i = Some n →
  Z.of_nat (length (es ++ acc ++ [time_field reg fs fd (plain tid dec es) n])) < 65536 →
  add_end_seconds reg fs fd (u32_or_0 (plain tid dec es) "flowEndSeconds") n (plain tid dec (es ++ acc)) =
    (Ok tt, plain tid dec (es ++ acc ++ [time_field reg fs fd (plain tid dec es) n])).
Proof.
  intros Hn Hl. rewrite !length_app in Hl. simpl in Hl. unfold add_end_seconds.
  rewrite add_antrea_plain; [by rewrite <- app_assoc| |rewrite !length_app; lia].
  eapply added_list; [exact Hn|]. unfold added_names. set_solver.
Qed.

Lemma mjoin_single {A B} (f : A → B) l : mjoin (imap (λ _ x, [f x]) l) = f <$> l.
Proof. induction l as [|x l IH]; [done|]. rewrite fmap_cons, <- IH. done. Qed.

Lemma by_name32 n acc v :
  u32_at (plain tid dec es) n = Some v →
  getUnsigned32ValueByIeName n (plain tid dec (es ++ acc)) = Ok v.
Proof.
  intros (e & He & Hg)%(value_app _ _ _ _ acc)%value_at_Some. unfold getUnsigned32ValueByIeName.
  by rewrite full_element_of, He by apply plain_full.
Qed.

Lemma by_name64 n acc v :
  u64_at (plain tid dec es) n = Some v →
  getUnsigned64ValueByIeName n (plain tid dec (es ++ acc)) = Ok v.
Proof.
  intros (e & He & Hg)%(value_app _ _ _ _ acc)%value_at_Some. unfold getUnsigned64ValueByIeName.
  by rewrite full_element_of, He by apply plain_full.
Qed.

Hypothesis Hlen : Z.of_nat (length (es ++ first_fields reg els fs fd (plain tid dec es))) < 65536.

(** The two calls append exactly the specified elements. *)
Lemma first_fields_added :
  (addFieldsForStatsAggregation reg (Some els) fs fd;;
   addFieldsForThroughputCalculation reg (Some els) fs fd) (plain tid dec es) =
  (Ok tt, plain tid dec (es ++ first_fields reg els fs fd (plain tid dec es))).
Proof.
  unfold first_fields in *. set (r := plain tid dec es) in *.
  set (S := mjoin (imap (stats_fields reg els fs fd r) _)) in *.
  rewrite !length_app in Hlen. rewrite length_fmap in Hlen.
  destruct Hst as (H1 & H2 & [o Ho] & [ro Hro] & _).
  assert (E1 : addFieldsForStatsAggregation reg (Some els) fs fd r = (Ok tt, plain tid dec (es ++ S))).
  { unfold addFieldsForStatsAggregation, rec_iter, r. rewrite <- (app_nil_r es) at 1.
    apply (append_loop tid dec es _ (stats_fields reg els fs fd r) 0 _ []);
      [intros; by apply stats_step|rewrite !length_app; simpl; fold S; lia]. }
  rewrite (M_bind_Ok _ _ _ _ _ E1). unfold addFieldsForThroughputCalculation.
  erewrite bind_ask by (by apply by_name32, has_u32_at).
  erewrite bind_ask by (by apply by_name32, has_u32_at).
  erewrite bind_ask by (by apply by_name64). erewrite bind_ask by (by apply by_name64).
  assert (E2 : rec_iter (λ _, add_end_seconds reg fs fd (u32_or_0 r "flowEndSeconds"))
      (AntreaFlowEndSecondsElements els) (plain tid dec (es ++ S)) =
    (Ok tt, plain tid dec (es ++ S ++ (time_field reg fs fd r <$> AntreaFlowEndSecondsElements els)))).
  { rewrite <- mjoin_single.
    apply (append_loop tid dec es _ (λ _ x, [time_field reg fs fd r x]) 0 _ S);
      [intros; by eapply time_step|]. rewrite mjoin_single, !length_app, length_fmap. lia. }
  rewrite (M_bind_Ok _ _ _ _ _ E2). rewrite app_assoc, (app_assoc S).
  assert (Hv : (if decide (u32_or_0 r "flowStartSeconds" < u32_or_0 r "flowEndSeconds")
     then [u64 (o * 8) / (u32_or_0 r "flowEndSeconds" - u32_or_0 r "flowStartSeconds");
           u64 (ro * 8) / (u32_or_0 r "flowEndSeconds" - u32_or_0 r "flowStartSeconds")]
     else [0; 0]) = mean_rates r).
  { unfold mean_rates, mean_rate, u64_or_0. rewrite Ho, Hro. by repeat case_decide; try lia. }
  cbv zeta. fold r. rewrite Hv. rewrite <- (app_assoc es). unfold rec_iter.
  rewrite (append_loop tid dec es _ (throughput_fields reg els fs fd r));
    [by rewrite <- !app_assoc|intros; by apply throughput_step|].
  rewrite !length_app, length_fmap. lia.
Qed.

End first.

(** ** Lemmas: finding the added elements *)

Lemma pairs_perm {A} (d : A) (l1 : list string) (l2 l3 : list A) :
  length l2 = length l1 → length l3 = length l1 →
  mjoin (imap (λ i _, [default d (l2 !! i); default d (l3 !! i)]) l1) ≡ₚ l2 ++ l3.
Proof.
  revert l2 l3. induction l1 as [|x l1 IH]; intros [|y l2] [|z l3] H2 H3; try done.
  change (y :: z :: mjoin (imap (λ i _, [default d (l2 !! i); default d (l3 !! i)]) l1)
          ≡ₚ y :: (l2 ++ z :: l3)).
  rewrite IH by (simpl in *; lia). apply perm_skip. by rewrite <- Permutation_middle.
Qed.

Lemma rows_perm (l1 l2 l3 : list string) :
  length l2 = length l1 → length l3 = length l1 →
  mjoin (imap (row l2 l3) l1) ≡ₚ l1 ++ l2 ++ l3.
Proof.
  revert l2 l3. induction l1 as [|x l1 IH]; intros [|y l2] [|z l3] H2 H3; try done.
  change (x :: y :: z :: mjoin (imap (row l2 l3) l1) ≡ₚ x :: (l1 ++ y :: l2 ++ z :: l3)).
  rewrite IH by (simpl in *; lia). apply perm_skip. rewrite <- Permutation_middle.
  apply perm_skip. rewrite !app_assoc. by rewrite <- Permutation_middle.
Qed.

Lemma fmap_mjoin_imap {A B C} (g : B → C) (h : nat → A → list B) l :
  g <$> mjoin (imap h l) = mjoin (imap (λ i x, g <$> h i x) l).
Proof.
  revert h. induction l as [|x l IH]; intros h; [done|].
  change (g <$> (h 0%nat x ++ mjoin (imap (h ∘ S) l)) =
          (g <$> h 0%nat x) ++ mjoin (imap ((λ i x, g <$> h i x) ∘ S) l)).
  by rewrite fmap_app, IH.
Qed.

Lemma mjoin_imap_ext {A B} (f g : nat → A → list B) l :
  (∀ i x, l !! i = Some x → f i x = g i x) → mjoin (imap f l) = mjoin (imap g l).
Proof. intros H. f_equal. by apply imap_ext. Qed.

(** The values of a record with the added elements. *)
Definition started (els : AggregationElements) (fs fd : bool) (r r' : IPFIXRecord) : Prop :=
  full r' ∧ frame (added_names els) r r' ∧
  (∀ i n src dst, StatsElements els !! i = Some n →
     AggregatedSourceStatsElements els !! i = Some src →
     AggregatedDestinationStatsElements els !! i = Some dst →
     u64_at r' src = Some (if fs then u64_or_0 r n else 0) ∧
     u64_at r' dst = Some (if fd then u64_or_0 r n else 0)) ∧
  (∀ n, n ∈ AntreaFlowEndSecondsElements els →
     u32_at r' n = Some (if (fs && Contains n "Source") || (fd && Contains n "Destination")
                         then u32_or_0 r "flowEndSeconds" else 0)) ∧
  (∀ i n src dst, ThroughputElements els !! i = Some n →
     SourceThroughputElements els !! i = Some src → DestinationThroughputElements els !! i = Some dst →
     let v := default 0 (mean_rates r !! i) in
     u64_at r' n = Some v ∧ u64_at r' src = Some (if fs then v else 0) ∧
     u64_at r' dst = Some (if fd then v else 0)).

Section added.
Context (reg : Registry) (els : AggregationElements) (fs fd : bool).
Context (tid : Z) (dec : bool) (es : list InfoElementWithValue).
Hypotheses (Hwf : wf_added reg els) (Hst : can_start els (plain tid dec es)).
Abbreviation r := (plain tid dec es).
Abbreviation new := (first_fields reg els fs fd (plain tid dec es)).

Lemma added_name l i n : l !! i = Some n → l ⊆ added_names els → Name (antrea_ie reg n) = n.
Proof.
  intros Hn Hs. apply (antrea_lookup reg n). by eapply (added_list reg els Hwf).
Qed.

(** The added elements have the names of the configuration, in another order. *)
Lemma first_fields_names : GetName <$> new ≡ₚ added_names els.
Proof.
  destruct Hwf as (L1 & L2 & L3 & L4 & _). unfold first_fields, added_names.
  rewrite !fmap_app, !fmap_mjoin_imap, <- list_fmap_compose.
  apply Permutation_app; [|apply Permutation_app].
  - erewrite mjoin_imap_ext; [by apply (pairs_perm ""%string (StatsElements els))|].
    intros i n Hi. pose proof (lookup_lt_Some _ _ _ Hi).
    destruct (lookup_lt_is_Some_2 (AggregatedSourceStatsElements els) i) as [src Hs]; [lia|].
    destruct (lookup_lt_is_Some_2 (AggregatedDestinationStatsElements els) i) as [dst Hd]; [lia|].
    rewrite Hs, Hd. unfold stats_fields, GetName. rewrite Hs, Hd. simpl.
    rewrite (added_name _ _ _ Hs), (added_name _ _ _ Hd); [done|unfold added_names; set_solver..].
  - apply Permutation_refl'. rewrite <- list_fmap_id. apply list_fmap_ext. intros i n Hn.
    eapply added_name; [exact Hn|unfold added_names; set_solver].
  - unfold throughput_list. rewrite <- rows_perm by done. apply Permutation_refl', mjoin_imap_ext.
    intros i n Hi. pose proof (lookup_lt_Some _ _ _ Hi).
    destruct (lookup_lt_is_Some_2 (SourceThroughputElements els) i) as [src Hs]; [lia|].
    destruct (lookup_lt_is_Some_2 (DestinationThroughputElements els) i) as [dst Hd]; [lia|].
    unfold row, throughput_fields, GetName. rewrite Hs, Hd. simpl.
    rewrite (added_name _ _ _ Hs), (added_name _ _ _ Hd), (added_name _ _ _ Hi);
      [done|unfold added_names, throughput_list; set_solver..].
Qed.

Lemma lookup_added e : e ∈ new → lookup_rec (plain tid dec (es ++ new)) (GetName e) = Some e.
Proof.
  intros He. pose proof first_fields_names as HP. rewrite lookup_plain, find_named_app.
  destruct Hst as (_ & _ & _ & _ & _ & Ha). rewrite list.Forall_forall in Ha.
  rewrite <- (lookup_plain tid dec), Ha.
  - apply find_named_elem; [|done]. rewrite HP. by destruct Hwf as (_ & _ & _ & _ & _ & ? & _).
  - rewrite <- HP. by apply list_elem_of_fmap_2.
Qed.

Lemma value_added {A} (get : InfoElementWithValue → go A) e n v :
  e ∈ new → GetName e = n → get e = Ok v → value_at get (plain tid dec (es ++ new)) n = Some v.
Proof. intros He <- Hv. apply value_at_Some. eauto using lookup_added. Qed.

Lemma first_fields_started : started els fs fd r (plain tid dec (es ++ new)).
Proof.
  destruct Hwf as (L1 & L2 & L3 & L4 & _). split; [apply plain_full|]. split_and!.
  - intros n Hn. rewrite !lookup_plain, find_named_app.
    destruct (find_named n es); [done|]. apply find_named_None. by rewrite first_fields_names.
  - intros i n src dst Hn Hs Hd.
    assert (Hin : Forall (λ e, e ∈ new) (stats_fields reg els fs fd r i n)).
    { apply list.Forall_forall. intros e He. unfold first_fields. apply elem_of_app. left. apply list_elem_of_join.
      eexists. split; [exact He|]. apply elem_of_lookup_imap. eauto. }
    unfold stats_fields in Hin. rewrite Hs, Hd, !list.Forall_cons in Hin. destruct Hin as (I1 & I2 & _).
    split; [apply (value_added _ _ _ _ I1)|apply (value_added _ _ _ _ I2)]; try done;
      unfold GetName; simpl; eapply added_name; try done; unfold added_names; set_solver.
  - intros n Hn. apply (value_added _ (time_field reg fs fd r n)); [| |done].
    + unfold first_fields. rewrite !elem_of_app. right. left. by apply list_elem_of_fmap_2.
    + apply list_elem_of_lookup in Hn as [i Hn]. eapply added_name; [exact Hn|].
      unfold added_names. set_solver.
  - intros i n src dst Hn Hs Hd v.
    assert (Hin : Forall (λ e, e ∈ new) (throughput_fields reg els fs fd r i n)).
    { apply list.Forall_forall. intros e He. unfold first_fields. rewrite !elem_of_app. do 2 right. apply list_elem_of_join.
      eexists. split; [exact He|]. apply elem_of_lookup_imap. eauto. }
    unfold throughput_fields in Hin. rewrite Hs, Hd, !list.Forall_cons in Hin. fold v in Hin.
    destruct Hin as (I1 & I2 & I3 & _).
    split_and!; [apply (value_added _ _ _ _ I1)|apply (value_added _ _ _ _ I2)|apply (value_added _ _ _ _ I3)];
      try done;
      unfold GetName; simpl; eapply added_name; try done; unfold added_names, throughput_list; set_solver.
Qed.

End added.
