(* ===== verification/Flows.v ===== *)
(** * What the aggregation process knows of a flow

    An abstract specification of the flows of src/pkg/intermediate/aggregate.go: a
    finite map from flow keys to summaries, which says what every record does to its flow.
    The process of AggregationProcess.v, with its shared flow records, its queue and
    its records as lists of elements, is proved to implement it for any sequence of
    records of any number of flows, in any order, with and without correlation. *)

From Stdlib Require Import ZArith Lia.
From Stdlib.Strings Require Import Byte.
From stdpp Require Import base gmap strings list numbers.
From S2P Require Import Prelude Bytes InfoElement Records Sets Registry NetIP Heap PriorityQueue.
From S2P Require Import Aggregate Correlate FirstRecord AggregationProcess.

#[local] Open Scope Z_scope.

(** ** Where a record comes from *)

(** The string of an optional element. *)
Definition text (o : option InfoElementWithValue) : option string :=
  o ≫= λ e, match GetStringValue e with Ok s => Some s | _ => None end.

(** The record has a Pod name on this side and none on the other. *)
Definition from_here (here there : option InfoElementWithValue) : bool :=
  match text here with
  | Some s => bool_decide (s ≠ "") && bool_decide (default "" (text there) = "")
  | None => false
  end.

Definition from_side (look : string → option InfoElementWithValue) (isSrc : bool) : bool :=
  if isSrc then from_here (look "sourcePodName") (look "destinationPodName")
  else from_here (look "destinationPodName") (look "sourcePodName").

(** Both records come from the source node, or both from the destination node. *)
Definition same_side (look1 look2 : string → option InfoElementWithValue) : bool :=
  (from_side look1 true && from_side look2 true) || (from_side look1 false && from_side look2 false).

(** A flow between nodes that no network policy drops or rejects. *)
Definition needs_correlation (r : IPFIXRecord) : bool :=
  let egress := u8_at r "egressNetworkPolicyRuleAction" in
  let ingress := u8_at r "ingressNetworkPolicyRuleAction" in
  bool_decide (default 0 (u8_at r "flowType") = FlowTypeInterNode) &&
  negb (bool_decide (egress = Some NetworkPolicyRuleActionDrop ∨ egress = Some NetworkPolicyRuleActionReject)) &&
  negb (bool_decide (ingress = Some NetworkPolicyRuleActionReject)).

(** The node whose statistics a record fills: both when there is nothing to correlate. *)
Definition fills (r : IPFIXRecord) (isSrc : bool) : bool :=
  if needs_correlation r then Bool.eqb (from_side (lookup_rec r) true) isSrc else true.

(** ** The specification *)

Record flow_summary : Type := mkFlowSummary {
  sum_ready : bool;
  sum_latest : Z;                                      (* the latest end time *)
  sum_end : bool → Z;                                  (* the last end time of a node *)
  sum_count : bool → string → Z;                       (* the statistics of a node *)
  sum_common : string → Z;                             (* the statistics of the flow *)
  sum_reason : Z;                                      (* flowEndReason *)
  sum_tcp : string;                                    (* tcpState *)
  sum_other : string → option InfoElementWithValue;    (* every other element *)
}.

Definition end_of (r : IPFIXRecord) : Z := u32_or_0 r "flowEndSeconds".

Definition summary_first (r : IPFIXRecord) : flow_summary := {|
  sum_ready := negb (needs_correlation r);
  sum_latest := end_of r;
  sum_end isSrc := if fills r isSrc then end_of r else 0;
  sum_count isSrc n := if fills r isSrc then u64_or_0 r n else 0;
  sum_common n := u64_or_0 r n;
  sum_reason := default 0 (u8_at r "flowEndReason");
  sum_tcp := default "" (string_at r "tcpState");
  sum_other := lookup_rec r;
|}.

(** The first record of the other node completes the flow. *)
Definition joins (r : IPFIXRecord) (s : flow_summary) : bool :=
  needs_correlation r && negb (sum_ready s) && negb (same_side (lookup_rec r) (sum_other s)).

Definition summary_join (fields : list string) (r : IPFIXRecord) (s : flow_summary) : flow_summary := {|
  sum_ready := true;
  sum_latest := sum_latest s; sum_end := sum_end s; sum_count := sum_count s;
  sum_common := sum_common s; sum_reason := sum_reason s; sum_tcp := sum_tcp s;
  sum_other n := if decide (n ∈ fields) then merged (lookup_rec r n) (sum_other s n) else sum_other s n;
|}.

(** The time the record is compared with: the last end time of its node, or the start of
    the flow when none is known.  When both nodes are filled it is the destination's. *)
Definition sum_prev (r : IPFIXRecord) (s : flow_summary) (isSrc : bool) : Z :=
  if decide (sum_end s isSrc = 0) then u32_or_0 r "flowStartSeconds" else sum_end s isSrc.

Definition previous (r : IPFIXRecord) (s : flow_summary) (fs fd : bool) : Z :=
  if fd then sum_prev r s false else if fs then sum_prev r s true else 0.

(** The statistics, the end reason and the TCP state after the record. *)
Definition summary_count (r : IPFIXRecord) (fs fd : bool) (s : flow_summary) : flow_summary :=
  let latest := bool_decide (sum_latest s <= end_of r) in
  let count isSrc n :=
    let old := sum_count s isSrc n in
    if (if isSrc then fs else fd : bool) then node_value (Contains n "Delta") (u64_or_0 r n) old
    else old in
  {| sum_ready := sum_ready s; sum_latest := Z.max (sum_latest s) (end_of r);
     sum_end isSrc := if (if isSrc then fs else fd : bool) then end_of r else sum_end s isSrc;
     sum_count := count;
     sum_common n := common_value (Contains n "Delta") latest fs fd (u64_or_0 r n) (sum_common s n)
                       (count true n) (count false n);
     sum_reason := if decide (sum_reason s = EndOfFlowReason) then EndOfFlowReason
                   else default 0 (u8_at r "flowEndReason");
     sum_tcp := if latest then default ""%string (string_at r "tcpState") else sum_tcp s;
     sum_other := sum_other s |}.

(** A record that is not later than the previous one only sets the times. *)
Definition summary_stale (r : IPFIXRecord) (fs fd : bool) (s : flow_summary) : flow_summary := {|
  sum_ready := sum_ready s; sum_latest := Z.max (sum_latest s) (end_of r);
  sum_end isSrc := if (if isSrc then fs else fd : bool) then end_of r else sum_end s isSrc;
  sum_count := sum_count s; sum_common := sum_common s;
  sum_reason := sum_reason s; sum_tcp := sum_tcp s; sum_other := sum_other s |}.

Definition summary_update (r : IPFIXRecord) (fs fd : bool) (s : flow_summary) : flow_summary :=
  if decide (end_of r <= previous r s fs fd) then summary_stale r fs fd s else summary_count r fs fd s.

Definition summary_next (fields : list string) (r : IPFIXRecord) (s : flow_summary) : flow_summary :=
  summary_update r (fills r true) (fills r false) (if joins r s then summary_join fields r s else s).

Definition record_key (r : IPFIXRecord) : FlowKey :=
  (from_ok (mkFlowKey "" "" 0 0 0, false) (getFlowKeyFromRecord r)).1.

Abbreviation summaries := (gmap FlowKey flow_summary).

Definition flows_step (fields : list string) (m : summaries) (r : IPFIXRecord) : summaries :=
  let k := record_key r in
  <[k := match m !! k with Some s => summary_next fields r s | None => summary_first r end]> m.

(** ** What records and configurations are covered *)

(** All names that aggregation writes. *)
Definition aggregate_names (els : AggregationElements) : list string :=
  time_names ++ reason_names ++ stats_list els ++ throughput_list els.

Definition pod_names : list string := ["sourcePodName"; "destinationPodName"].
Definition type_names : list string :=
  ["flowType"; "egressNetworkPolicyRuleAction"; "ingressNetworkPolicyRuleAction"].

(** The element is missing, or of this type. *)
Definition reads {A} (get : InfoElementWithValue → go A) (r : IPFIXRecord) (n : string) : Prop :=
  lookup_rec r n = None ∨ is_Some (value_at get r n).

(** A configuration without repeated names, whose added elements are in the registry,
    and whose correlated fields are not aggregated. *)
Definition wf_config (reg : Registry) (els : AggregationElements) (fields : list string) : Prop :=
  wf_elements els ∧ Forall (has_antrea reg) (added_names els) ∧
  AntreaFlowEndSecondsElements els = [node_time true; node_time false] ∧
  NoDup fields ∧ Forall (λ n, n ∉ aggregate_names els) (fields ++ pod_names).

(** A record with everything the configuration asks for.  [kind] gives the type of a
    correlated field, the same in all records. *)
Definition complete (els : AggregationElements) (fields : list string)
    (kind : string → InfoElementWithValue) (r : IPFIXRecord) : Prop :=
  can_start els r ∧ is_okb (getFlowKeyFromRecord r) = true ∧ 0 < end_of r ∧
  Forall (λ n, is_Some (lookup_rec r n)) (NonStatsElements els) ∧
  ("flowEndReason" ∈ NonStatsElements els → is_Some (u8_at r "flowEndReason")) ∧
  ("tcpState" ∈ NonStatsElements els → is_Some (string_at r "tcpState")) ∧
  Forall (reads GetUnsigned8Value r) type_names ∧ Forall (reads GetStringValue r) pod_names ∧
  Forall (λ n, from_option (λ e, typed e && same_struct e (kind n)) false (lookup_rec r n) = true) fields.

#[global] Instance complete_dec els fields kind r : Decision (complete els fields kind r).
Proof. unfold complete, can_start, reads, has_u32. apply _. Defined.

(** The record is as [AddRecord] leaves it, with room for the added elements. *)
Definition roomy (els : AggregationElements) (r : IPFIXRecord) : Prop :=
  ∃ tid dec es, r = plain tid dec es ∧
    Z.of_nat (length es + length (added_names els)) < 65536.

(** ** Lemmas: where a record comes from *)

Lemma u8_of_reads n r : full r → reads GetUnsigned8Value r n → u8_of n r = Ok (u8_at r n).
Proof.
  intros Hf H. unfold u8_of, value_at. rewrite full_element_of by done. cbn [mbind go_bind].
  destruct H as [->|[v (e & -> & Hv)%value_at_Some]]; [done|]. cbn. by rewrite Hv.
Qed.

Lemma string_of_reads n r : full r → reads GetStringValue r n → string_of n r = Ok (text (lookup_rec r n)).
Proof.
  intros Hf H. unfold string_of. rewrite full_element_of by done. cbn [mbind go_bind].
  destruct H as [->|[v (e & -> & Hv)%value_at_Some]]; [done|]. cbn. by rewrite Hv.
Qed.

Lemma is_record_from_spec here there r :
  full r → reads GetStringValue r here → reads GetStringValue r there →
  is_record_from here there r = Ok (from_here (lookup_rec r here) (lookup_rec r there)).
Proof.
  intros Hf Hh Ht. unfold is_record_from, from_here.
  rewrite (string_of_reads here), (string_of_reads there) by done. cbn [mbind go_bind].
  destruct (text (lookup_rec r here)) as [s|]; [|done].
  case_decide as Hs; [by rewrite (bool_decide_false (s ≠ "")) by (intros Hn; by apply Hn)|].
  rewrite (bool_decide_true (s ≠ "")) by done. by destruct (text (lookup_rec r there)).
Qed.

Lemma from_side_spec (isSrc : bool) r :
  full r → Forall (reads GetStringValue r) pod_names →
  (if isSrc then isRecordFromSrc r else isRecordFromDst r) = Ok (from_side (lookup_rec r) isSrc).
Proof.
  intros Hf (H1 & (H2 & _)%list.Forall_cons)%list.Forall_cons.
  destruct isSrc; by apply is_record_from_spec.
Qed.

Lemma same_side_spec r1 r2 :
  full r1 → full r2 → Forall (reads GetStringValue r1) pod_names → Forall (reads GetStringValue r2) pod_names →
  areRecordsFromSameNode r1 r2 = Ok (same_side (lookup_rec r1) (lookup_rec r2)).
Proof.
  intros F1 F2 H1 H2. unfold areRecordsFromSameNode, same_side, go_and.
  rewrite (from_side_spec true r1), (from_side_spec true r2), (from_side_spec false r1),
    (from_side_spec false r2) by done. cbn [mbind go_bind].
  destruct (from_side (lookup_rec r1) true), (from_side (lookup_rec r2) true); cbn [mbind go_bind andb orb]; try done;
    by destruct (from_side (lookup_rec r1) false).
Qed.

Lemma needs_correlation_spec r :
  full r → Forall (reads GetUnsigned8Value r) type_names →
  u8_of "flowType" r = Ok (u8_at r "flowType") ∧
  isCorrelationRequired (default 0 (u8_at r "flowType")) r = Ok (needs_correlation r).
Proof.
  intros Hf H. unfold type_names in H. rewrite !list.Forall_cons in H. destruct H as (H1 & H2 & H3 & _).
  split; [by apply u8_of_reads|]. unfold isCorrelationRequired, needs_correlation.
  case_decide; [rewrite bool_decide_true by done|by rewrite bool_decide_false].
  rewrite (u8_of_reads "egressNetworkPolicyRuleAction") by done. cbn [mbind go_bind].
  case_decide as He; [by rewrite (bool_decide_true _ He)|rewrite (bool_decide_false _ He)].
  rewrite u8_of_reads by done. done.
Qed.

(** The flags that the callers of [aggregateRecords] pass. *)
Lemma fills_correlated r isSrc :
  needs_correlation r = true →
  fills r isSrc = if isSrc then from_side (lookup_rec r) true else negb (from_side (lookup_rec r) true).
Proof. intros E. unfold fills. rewrite E. by destruct (from_side _ _), isSrc. Qed.

Lemma fills_uncorrelated r isSrc : needs_correlation r = false → fills r isSrc = true.
Proof. intros E. unfold fills. by rewrite E. Qed.

(** ** The records of a flow and their summary *)

Record summarised (els : AggregationElements) (fields : list string)
    (kind : string → InfoElementWithValue) (s : flow_summary) (r : IPFIXRecord) : Prop := {
  su_full : full r;
  su_latest : u32_at r "flowEndSeconds" = Some (sum_latest s) ∧ in_u 32 (sum_latest s);
  su_end : ∀ isSrc, u32_at r (node_time isSrc) = Some (sum_end s isSrc) ∧ in_u 32 (sum_end s isSrc);
  su_count : ∀ i n src dst, StatsElements els !! i = Some n →
    AggregatedSourceStatsElements els !! i = Some src →
    AggregatedDestinationStatsElements els !! i = Some dst →
    u64_at r src = Some (sum_count s true n) ∧ u64_at r dst = Some (sum_count s false n) ∧
    u64_at r n = Some (sum_common s n);
  su_reason : "flowEndReason" ∈ NonStatsElements els → u8_at r "flowEndReason" = Some (sum_reason s);
  su_tcp : "tcpState" ∈ NonStatsElements els → string_at r "tcpState" = Some (sum_tcp s);
  su_rates : ∀ n, n ∈ throughput_list els → is_Some (u64_at r n);
  su_other : ∀ n, n ∉ aggregate_names els → lookup_rec r n = sum_other s n;
  su_pods : Forall (reads GetStringValue r) pod_names;
  su_fields : Forall (λ n, from_option (λ e, same_struct e (kind n)) false (lookup_rec r n) = true) fields;
}.

Lemma value_or_0 r n v : u32_at r n = Some v → u32_or_0 r n = v.
Proof. unfold u32_or_0. by intros ->. Qed.

Lemma value64_or_0 r n v : u64_at r n = Some v → u64_or_0 r n = v.
Proof. unfold u64_or_0. by intros ->. Qed.

Section flows.
Context (reg : Registry) (els : AggregationElements) (fields : list string).
Context (kind : string → InfoElementWithValue).
Hypothesis Hwf : wf_config reg els fields.
Implicit Types (r inc : IPFIXRecord) (s : flow_summary).

Lemma wf_rows l2 l3 l1 i n :
  length l2 = length l1 → length l3 = length l1 → (l1 : list string) !! i = Some n →
  ∃ src dst : string, l2 !! i = Some src ∧ l3 !! i = Some dst.
Proof.
  intros H2 H3 Hi%lookup_lt_Some. destruct (lookup_lt_is_Some_2 l2 i) as [src Hs]; [lia|].
  destruct (lookup_lt_is_Some_2 l3 i) as [dst Hd]; [lia|]. eauto.
Qed.

(** The names of the parts are different. *)
Lemma config_disjoint n :
  (n ∈ fields ++ pod_names → n ∉ aggregate_names els) ∧
  (n ∈ time_names → n ∈ aggregate_names els) ∧
  (n ∈ reason_names → n ∈ aggregate_names els) ∧
  (n ∈ stats_list els → n ∈ aggregate_names els) ∧
  (n ∈ throughput_list els → n ∈ aggregate_names els).
Proof.
  destruct Hwf as (_ & _ & _ & _ & H). rewrite list.Forall_forall in H.
  split; [apply H|]. unfold aggregate_names. rewrite !elem_of_app. tauto.
Qed.

Lemma fields_disjoint n : n ∈ fields → n ∉ aggregate_names els.
Proof. intros Hn. apply config_disjoint, elem_of_app. by left. Qed.

Lemma pods_disjoint n : n ∈ pod_names → n ∉ aggregate_names els.
Proof. intros Hn. apply config_disjoint, elem_of_app. by right. Qed.

Lemma written_names :
  "flowEndSeconds" ∈ aggregate_names els ∧ (∀ isSrc, node_time isSrc ∈ aggregate_names els) ∧
  "flowEndReason" ∈ aggregate_names els ∧ "tcpState" ∈ aggregate_names els.
Proof.
  split_and!; [|intros [|]| |].
  - apply (proj1 (proj2 (config_disjoint _))). left.
  - apply (proj1 (proj2 (config_disjoint _))). right. left.
  - apply (proj1 (proj2 (config_disjoint _))). do 2 right. left.
  - apply (proj1 (proj2 (proj2 (config_disjoint _)))). left.
  - apply (proj1 (proj2 (proj2 (config_disjoint _)))). right. left.
Qed.

Lemma stats_row_written i n src dst m :
  StatsElements els !! i = Some n → AggregatedSourceStatsElements els !! i = Some src →
  AggregatedDestinationStatsElements els !! i = Some dst → m ∈ [n; src; dst] → m ∈ stats_list els.
Proof.
  intros Hn Es Ed Hm. destruct Hwf as ((L1 & L2 & _) & _). eapply (row_in _ _ _ i n); [done..|].
  unfold row. by rewrite Es, Ed.
Qed.

Lemma summarised_stats s r n :
  summarised els fields kind s r → n ∈ stats_list els → is_Some (u64_at r n).
Proof.
  intros Hs Hn. destruct Hwf as ((L1 & L2 & _) & _).
  apply in_row in Hn as (i & x & Hx & Hn); [|done|done].
  destruct (wf_rows _ _ _ _ _ L1 L2 Hx) as (src & dst & Es & Ed).
  destruct (su_count _ _ _ _ _ Hs i x src dst Hx Es Ed) as (H1 & H2 & H3).
  unfold row in Hn. rewrite Es, Ed, !elem_of_cons, elem_of_nil in Hn. simpl in Hn.
  destruct Hn as [->|[->|[->|[]]]]; eauto.
Qed.

Lemma summarised_aggregatable s r inc :
  full inc → complete els fields kind inc → summarised els fields kind s r → aggregatable inc r els.
Proof.
  intros Hf (Hst & _ & _ & Hns & Hre & Htc & _) Hs. pose proof Hst as (H1 & H2 & _ & _ & H5 & _).
  split_and!; try done; [apply Hs| | |].
  - unfold time_names. destruct (su_latest _ _ _ _ _ Hs) as [E1 E2].
    destruct (su_end _ _ _ _ _ Hs true) as [E3 E4], (su_end _ _ _ _ _ Hs false) as [E5 E6].
    repeat apply list.Forall_cons_2; [..|constructor]; by eapply has_u32_value.
  - rewrite list.Forall_forall in Hns |- *. intros n Hn. split; [auto|]. split; intros ->.
    + split; [auto|]. rewrite (su_reason _ _ _ _ _ Hs); eauto.
    + split; [auto|]. rewrite (su_tcp _ _ _ _ _ Hs); eauto.
  - rewrite list.Forall_app, !list.Forall_forall. split; intros n Hn.
    + by eapply summarised_stats.
    + by eapply su_rates.
Qed.

Lemma previous_spec s r inc fs fd :
  summarised els fields kind s r → prevFlowEndSeconds inc r fs fd = previous inc s fs fd.
Proof.
  intros Hs. unfold prevFlowEndSeconds, previous, prev_time, sum_prev.
  destruct (su_end _ _ _ _ _ Hs true) as [E1 _], (su_end _ _ _ _ _ Hs false) as [E2 _].
  by rewrite (value_or_0 _ _ _ E1), (value_or_0 _ _ _ E2).
Qed.

(** *** One record aggregated *)

Lemma update_latest inc fs fd s :
  sum_latest (summary_update inc fs fd s) = Z.max (sum_latest s) (end_of inc).
Proof. unfold summary_update. by case_decide. Qed.

Lemma update_end inc fs fd s isSrc :
  sum_end (summary_update inc fs fd s) isSrc =
  if (if isSrc then fs else fd : bool) then end_of inc else sum_end s isSrc.
Proof. unfold summary_update. by case_decide. Qed.

Lemma update_other inc fs fd s : sum_other (summary_update inc fs fd s) = sum_other s.
Proof. unfold summary_update. by case_decide. Qed.

Lemma update_ready inc fs fd s : sum_ready (summary_update inc fs fd s) = sum_ready s.
Proof. unfold summary_update. by case_decide. Qed.

Lemma summarised_times s r inc fs fd r' :
  has_u32 inc "flowEndSeconds" → summarised els fields kind s r → times_post inc r fs fd r' →
  let s' := summary_update inc fs fd s in
  (u32_at r' "flowEndSeconds" = Some (sum_latest s') ∧ in_u 32 (sum_latest s')) ∧
  ∀ isSrc, u32_at r' (node_time isSrc) = Some (sum_end s' isSrc) ∧ in_u 32 (sum_end s' isSrc).
Proof.
  intros [_ Hi] Hs (T1 & T2 & T3). destruct (su_latest _ _ _ _ _ Hs) as [E1 E2].
  destruct (su_end _ _ _ _ _ Hs true) as [E3 E4], (su_end _ _ _ _ _ Hs false) as [E5 E6].
  rewrite (value_or_0 _ _ _ E1) in T1. rewrite (value_or_0 _ _ _ E3) in T2.
  rewrite (value_or_0 _ _ _ E5) in T3. fold (end_of inc) in *.
  cbv zeta. rewrite update_latest. split; [split; [done|by apply max_in_u]|].
  intros [|]; rewrite update_end; (split; [done|]); [by destruct fs|by destruct fd].
Qed.

(** Elements that no aggregation writes are as before. *)
Lemma summarised_frame s r r' W n :
  summarised els fields kind s r → frame W r r' → W ⊆ aggregate_names els →
  n ∉ aggregate_names els → lookup_rec r' n = sum_other s n.
Proof.
  intros Hs Hfr HW Hn. rewrite Hfr by (intros ?; by apply Hn, HW). by eapply su_other.
Qed.

Lemma summarised_pods s r r' W :
  summarised els fields kind s r → frame W r r' → W ⊆ aggregate_names els →
  Forall (reads GetStringValue r') pod_names ∧
  Forall (λ n, from_option (λ e, same_struct e (kind n)) false (lookup_rec r' n) = true) fields.
Proof.
  intros Hs Hfr HW. assert (Hl : ∀ n, n ∈ fields ++ pod_names → lookup_rec r' n = lookup_rec r n).
  { intros n Hn%(proj1 (config_disjoint n)). apply Hfr. intros ?. by apply Hn, HW. }
  pose proof (su_pods _ _ _ _ _ Hs) as H1. pose proof (su_fields _ _ _ _ _ Hs) as H2.
  rewrite list.Forall_forall in H1, H2. split; apply list.Forall_forall; intros n Hn.
  - pose proof (Hl n ltac:(apply elem_of_app; by right)) as E.
    unfold reads. rewrite (value_at_lookup _ r), E by done. by apply H1.
  - rewrite Hl by (apply elem_of_app; by left). by apply H2.
Qed.

Lemma stale_summarised s r inc fs fd r' :
  complete els fields kind inc → summarised els fields kind s r →
  end_of inc <= previous inc s fs fd → aggregated inc r els fs fd r' →
  summarised els fields kind (summary_update inc fs fd s) r'.
Proof.
  intros Hc Hs Hle (Hf & HT & H). rewrite (previous_spec _ _ _ _ _ Hs), decide_True in H by done.
  assert (HW : time_names ⊆ aggregate_names els) by (intros n; apply config_disjoint).
  destruct (disjoint_parts els (proj1 Hwf)) as (D1 & D2 & D3).
  destruct (summarised_pods _ _ _ _ Hs H HW) as [HP HF]. destruct (summarised_times _ _ _ _ _ _ (proj1 (proj2 (proj1 Hc))) Hs HT) as [HL HE].
  assert (Hu : summary_update inc fs fd s = summary_stale inc fs fd s)
    by (unfold summary_update; by rewrite decide_True).
  constructor; try done.
  - intros i n src dst Hn Es Ed. rewrite Hu. destruct (su_count _ _ _ _ _ Hs i n src dst Hn Es Ed) as (H1 & H2 & H3).
    pose proof (λ m, stats_row_written i n src dst m Hn Es Ed) as Hrow. setoid_rewrite elem_of_cons in Hrow.
    rewrite !(frame_value _ _ _ _ _ H); [done|apply D2, Hrow; rewrite ?elem_of_cons; tauto..].
  - intros Hn. rewrite Hu, (frame_value _ _ _ _ _ H); [exact (su_reason _ _ _ _ _ Hs Hn)|]. apply D1; unfold reason_names; rewrite !elem_of_cons; tauto.
  - intros Hn. rewrite Hu, (frame_value _ _ _ _ _ H); [exact (su_tcp _ _ _ _ _ Hs Hn)|]. apply D1; unfold reason_names; rewrite !elem_of_cons; tauto.
  - intros n Hn. rewrite (frame_value _ _ _ _ _ H); [exact (su_rates _ _ _ _ _ Hs n Hn)|]. by apply D3.
  - intros n Hn. rewrite update_other. by eapply summarised_frame.
Qed.

Lemma counted_summarised s r inc fs fd r' :
  complete els fields kind inc → summarised els fields kind s r →
  previous inc s fs fd < end_of inc → aggregated inc r els fs fd r' →
  summarised els fields kind (summary_update inc fs fd s) r'.
Proof.
  intros Hc Hs Hlt (Hf & HT & H). rewrite (previous_spec _ _ _ _ _ Hs), decide_False in H by (unfold end_of in *; lia).
  destruct H as (H & PN & PS & PT). destruct Hwf as ((L1 & L2 & L3 & L4 & _) & _).
  destruct (summarised_pods _ _ _ _ Hs H ltac:(done)) as [HP HF].
  destruct (summarised_times _ _ _ _ _ _ (proj1 (proj2 (proj1 Hc))) Hs HT) as [HL HE].
  assert (Hu : summary_update inc fs fd s = summary_count inc fs fd s)
    by (unfold summary_update; by rewrite decide_False by lia).
  assert (Hlat : u32_or_0 r "flowEndSeconds" = sum_latest s) by (apply value_or_0; apply Hs).
  destruct Hc as (_ & _ & _ & _ & HR & HTc & _).
  constructor; try done.
  - intros i n src dst Hn Es Ed. rewrite Hu.
    destruct (su_count _ _ _ _ _ Hs i n src dst Hn Es Ed) as (H1 & H2 & H3).
    pose proof (PS i n Hn) as P. unfold stats_post in P. rewrite Es, Ed, Hlat in P. cbn [from_option id] in P.
    rewrite (value64_or_0 _ _ _ H1), (value64_or_0 _ _ _ H2), (value64_or_0 _ _ _ H3) in P.
    destruct P as (P1 & P2 & P3). split_and!; [exact P1|exact P2|exact P3].
  - intros Hn. rewrite Hu. destruct (PN _ Hn) as [P _]. rewrite (P eq_refl), (su_reason _ _ _ _ _ Hs Hn).
    destruct (HR Hn) as [v Hv]. cbn [summary_count sum_reason].
    rewrite Hv. cbn [from_option id]. repeat case_decide; congruence.
  - intros Hn. rewrite Hu. destruct (PN _ Hn) as [_ P]. rewrite (P eq_refl), (su_tcp _ _ _ _ _ Hs Hn), Hlat.
    destruct (HTc Hn) as [v Hv]. cbn [summary_count sum_tcp].
    rewrite Hv. unfold end_of. by repeat case_bool_decide.
  - intros n Hn. apply in_row in Hn as (i & x & Hx & Hn); [|done|done].
    destruct (wf_rows _ _ _ _ _ L3 L4 Hx) as (src & dst & Es & Ed). destruct (PT i x Hx) as (P1 & P2 & P3).
    unfold row in Hn. rewrite Es, Ed, !elem_of_cons, elem_of_nil in *. simpl in *.
    destruct Hn as [->|[->|[->|[]]]]; eauto.
  - intros n Hn. rewrite update_other. eapply summarised_frame; [done|exact H|done|done].
Qed.

(** Aggregating a complete record is one update of the summary. *)
Lemma aggregate_summarised s r inc fs fd :
  full inc → complete els fields kind inc → summarised els fields kind s r →
  ∃ r', aggregateRecords (Some els) inc fs fd r = (Ok tt, r') ∧
        summarised els fields kind (summary_update inc fs fd s) r'.
Proof.
  intros Hf Hc Hs.
  destruct (aggregateRecords_spec inc r els fs fd (proj1 Hwf)) as (r' & E & H);
    [by eapply summarised_aggregatable|].
  exists r'. split; [done|]. destruct (decide (end_of inc <= previous inc s fs fd)).
  - by eapply stale_summarised.
  - eapply counted_summarised; try done. lia.
Qed.

(** *** The first record *)

Lemma config_added : wf_added reg els.
Proof.
  destruct Hwf as ((L1 & L2 & L3 & L4 & L5 & _ & Hnd) & Hreg & Ht & _). split_and!; try done.
  unfold added_names. rewrite Ht, Permutation_app_swap_app.
  eapply sublist_NoDup; [exact Hnd|]. apply sublist_app; [by apply sublist_cons|].
  apply sublist_inserts_l, sublist_app; [|done]. unfold stats_list. by apply sublist_inserts_l.
Qed.

Lemma added_subset : added_names els ⊆ aggregate_names els.
Proof.
  destruct Hwf as (_ & _ & Ht & _). unfold added_names, aggregate_names. rewrite Ht.
  intros n. unfold stats_list, time_names. rewrite !elem_of_app, !elem_of_cons.
  change (node_time true) with "flowEndSecondsFromSourceNode"%string.
  change (node_time false) with "flowEndSecondsFromDestinationNode"%string. tauto.
Qed.

Lemma present_not_added r n :
  can_start els r → is_Some (lookup_rec r n) → n ∉ added_names els.
Proof.
  intros (_ & _ & _ & _ & _ & H) [e He] Hn. rewrite list.Forall_forall in H. rewrite H in He; done.
Qed.

Lemma started_value {A} (get : InfoElementWithValue → go A) r r' fs fd n v :
  can_start els r → started els fs fd r r' → value_at get r n = Some v → value_at get r' n = Some v.
Proof.
  intros Hst (_ & Hfr & _) Hv. rewrite <- Hv. eapply frame_value; [exact Hfr|].
  eapply present_not_added; [done|]. apply value_at_Some in Hv as (e & -> & _). eauto.
Qed.

Lemma started_summarised inc r' :
  complete els fields kind inc → started els (fills inc true) (fills inc false) inc r' →
  summarised els fields kind (summary_first inc) r'.
Proof.
  intros (Hst & _ & _ & _ & HR & HT & _ & HP & HF) Hs. pose proof Hst as (_ & [_ He] & _ & _ & Hstats & _).
  pose proof Hs as (Hf & Hfr & S1 & S2 & S3). destruct Hwf as ((L1 & L2 & L3 & L4 & _) & _ & Ht & _).
  rewrite list.Forall_forall in Hstats.
  constructor; [done| | | | | | | | |].
  - split; [|done]. eapply started_value; [done..|].
    apply has_u32_at. apply Hst.
  - intros isSrc. rewrite (S2 (node_time isSrc)) by (rewrite Ht; destruct isSrc; set_solver).
    cbn [summary_first sum_end]. destruct isSrc, (fills inc true), (fills inc false); by split.
  - intros i n src dst Hn Es Ed. destruct (S1 i n src dst Hn Es Ed) as [P1 P2]. split_and!; [done|done|].
    destruct (Hstats n) as [v Hv]; [by eapply list_elem_of_lookup_2|].
    rewrite (started_value _ _ _ _ _ _ _ Hst Hs Hv). cbn [summary_first sum_common].
    by rewrite (value64_or_0 _ _ _ Hv).
  - intros [v Hv]%HR. rewrite (started_value _ _ _ _ _ _ _ Hst Hs Hv). cbn [summary_first sum_reason]. by rewrite Hv.
  - intros [v Hv]%HT. rewrite (started_value _ _ _ _ _ _ _ Hst Hs Hv). cbn [summary_first sum_tcp]. by rewrite Hv.
  - intros n Hn. apply in_row in Hn as (i & x & Hx & Hn); [|done|done].
    destruct (wf_rows _ _ _ _ _ L3 L4 Hx) as (src & dst & Es & Ed).
    destruct (S3 i x src dst Hx Es Ed) as (P1 & P2 & P3).
    unfold row in Hn. rewrite Es, Ed, !elem_of_cons, elem_of_nil in Hn. simpl in Hn.
    destruct Hn as [->|[->|[->|[]]]]; eauto.
  - intros n Hn. apply Hfr. intros ?. by apply Hn, added_subset.
  - rewrite list.Forall_forall in HP |- *. intros n Hn. unfold reads.
    assert (Hl : lookup_rec r' n = lookup_rec inc n).
    { apply Hfr. intros ?. by apply (pods_disjoint n), added_subset. }
    rewrite (value_at_lookup _ inc), Hl by done. by apply HP.
  - rewrite list.Forall_forall in HF |- *. intros n Hn.
    assert (Hl : lookup_rec r' n = lookup_rec inc n).
    { apply Hfr. intros ?. by apply (fields_disjoint n), added_subset. }
    rewrite Hl. specialize (HF n Hn). destruct (lookup_rec inc n); [|done]. simpl in *.
    by apply andb_prop in HF as [_ ->].
Qed.

(** *** Correlation *)

Lemma same_struct_common e e' k :
  same_struct e k = true → same_struct e' k = true → same_struct e e' = true.
Proof. by destruct e, k, e'. Qed.

Lemma same_struct_takes e e' k : same_struct (takes_value e e') k = same_struct e k.
Proof. by destruct e. Qed.

Lemma correlate_summarised s r inc :
  full inc → complete els fields kind inc → summarised els fields kind s r →
  ∃ r', correlateRecords fields inc r = (Ok tt, r') ∧
        summarised els fields kind (summary_join fields inc s) r'.
Proof.
  intros Hi (_ & _ & _ & _ & _ & _ & _ & HP & HF) Hs. destruct Hwf as (_ & _ & _ & Hnd & _).
  pose proof (su_fields _ _ _ _ _ Hs) as HK. rewrite list.Forall_forall in HF, HK, HP.
  pose proof (su_pods _ _ _ _ _ Hs) as HPs. rewrite list.Forall_forall in HPs.
  assert (Hc : ∀ n, n ∈ fields → ∃ e e', lookup_rec inc n = Some e ∧ lookup_rec r n = Some e' ∧
    typed e = true ∧ same_struct e (kind n) = true ∧ same_struct e' (kind n) = true).
  { intros n Hn. specialize (HF n Hn). specialize (HK n Hn).
    destruct (lookup_rec inc n) as [e|]; [|done]. destruct (lookup_rec r n) as [e'|]; [|done].
    apply andb_prop in HF as [? ?]. by exists e, e'. }
  destruct (correlateRecords_spec fields inc r) as (r' & E & Hf' & Hl); [done|done|apply Hs| |].
  { apply list.Forall_forall. intros n (e & e' & E1 & E2 & ? & ? & ?)%Hc. unfold correlatable.
    rewrite E1, E2. split; [done|]. intros _. by eapply same_struct_common. }
  exists r'. split; [done|].
  assert (Ha : ∀ n, n ∈ aggregate_names els → lookup_rec r' n = lookup_rec r n).
  { intros n Hn. rewrite Hl, decide_False; [done|]. intros ?. by apply (fields_disjoint n). }
  assert (Hv : ∀ A (get : InfoElementWithValue → go A) n, n ∈ aggregate_names els →
    value_at get r' n = value_at get r n) by (intros; by apply value_at_lookup, Ha).
  destruct Hs as [S1 [S2 S2'] S3 S4 S5 S6 S7 S8 S9 S10].
  constructor; [done| | | | | | | | |].
  - rewrite Hv; [done|apply written_names].
  - intros isSrc. rewrite Hv; [by apply S3|apply written_names].
  - intros i n src dst Hn Es Ed.
    pose proof (λ m, stats_row_written i n src dst m Hn Es Ed) as Hrow. setoid_rewrite elem_of_cons in Hrow.
    rewrite !Hv by (apply (proj1 (proj2 (proj2 (proj2 (config_disjoint _))))), Hrow; rewrite ?elem_of_cons; tauto). by eapply S4.
  - intros Hn. rewrite Hv; [by apply S5|apply written_names].
  - intros Hn. rewrite Hv; [by apply S6|apply written_names].
  - intros n Hn. rewrite Hv; [by apply S7|]. by apply (proj2 (proj2 (proj2 (proj2 (config_disjoint n))))).
  - intros n Hn. cbn [summary_join sum_other]. rewrite Hl, S8 by done. done.
  - apply list.Forall_forall. intros n Hn. specialize (HPs n Hn). unfold reads, value_at in *. rewrite Hl.
    case_decide as Hin; [|done]. destruct (Hc n Hin) as (e & e' & E1 & E2 & _ & K1 & K2). rewrite E1, E2 in *.
    cbn [merged]. destruct (blank e); [done|]. right. destruct HPs as [|[v Hg]]; [done|].
    cbn in Hg |- *. pose proof (same_struct_common _ _ _ K1 K2). destruct e, e'; try done; cbn; eauto.
  - apply list.Forall_forall. intros n Hn. rewrite Hl, decide_True by done.
    destruct (Hc n Hn) as (e & e' & E1 & E2 & _ & K1 & K2). rewrite E1, E2. cbn [merged].
    destruct (blank e); [done|]. cbn. by rewrite same_struct_takes.
Qed.

(** *** One record at the process *)

Definition set_record (p : ptr) (f : AggregationFlowRecord) (a : AggregationProcess) : AggregationProcess :=
  with_flowRecords (<[p := f]> (flowRecords a)) a.

Lemma set_record_twice p f f' a : set_record p f' (set_record p f a) = set_record p f' a.
Proof. unfold set_record. cbn. by rewrite insert_insert_eq. Qed.

Lemma run_record_Ok {A} p (m : Rec A) a f x r :
  flowRecords a !! p = Some f → m (Record_ f) = (Ok x, r) →
  run_record p m a = (Ok x, set_record p (with_record r f) a).
Proof. intros Hf Hm. unfold run_record. by rewrite Hf, Hm. Qed.

Lemma get_flow_set p f a : get_flow p (set_record p f a) = (Ok f, set_record p f a).
Proof. unfold get_flow, set_record. cbn. by rewrite lookup_insert_eq. Qed.

(** The flow keeps its queue item and its retries. *)
Definition same_item (f f' : AggregationFlowRecord) : Prop :=
  PriorityQueueItem f' = PriorityQueueItem f ∧ waitForReadyToSendRetries f' = waitForReadyToSendRetries f.

(** The flow record at [p] has this summary. *)
Definition has_summary (a : AggregationProcess) (p : ptr) (s : flow_summary) : Prop :=
  ∃ f, flowRecords a !! p = Some f ∧ ReadyToSend f = sum_ready s ∧ summarised els fields kind s (Record_ f).

Lemma aggregate_flow a p f s inc fs fd :
  aggregateElements a = Some els → full inc → complete els fields kind inc →
  flowRecords a !! p = Some f → ReadyToSend f = sum_ready s → summarised els fields kind s (Record_ f) →
  ∃ f', run_record p (aggregateRecords (aggregateElements a) inc fs fd) a = (Ok tt, set_record p f' a) ∧
    same_item f f' ∧ ReadyToSend f' = ReadyToSend f ∧
    summarised els fields kind (summary_update inc fs fd s) (Record_ f').
Proof.
  intros Ha Hi Hc Hf Hr Hs. rewrite Ha.
  destruct (aggregate_summarised s (Record_ f) inc fs fd Hi Hc Hs) as (r' & E & Hs').
  exists (with_record r' f). split; [by apply run_record_Ok|]. by split_and!.
Qed.

(** The two records are correlated when the incoming one is the first of the other node. *)
Lemma correlate_flow a p f s inc :
  correlateFields a = fields → full inc → complete els fields kind inc → needs_correlation inc = true →
  flowRecords a !! p = Some f → ReadyToSend f = sum_ready s → summarised els fields kind s (Record_ f) →
  let s' := if joins inc s then summary_join fields inc s else s in
  ∃ b f', M_lift (if ReadyToSend f then Ok false else negb <$> areRecordsFromSameNode inc (Record_ f)) a = (Ok b, a) ∧
    (if b then run_record p (correlateRecords (correlateFields a) inc);;
               f ← get_flow p; set_flow p (correlated f)
     else mret tt) a = (Ok tt, if b then set_record p f' a else a) ∧
    (b = false → f' = f) ∧ same_item f f' ∧
    ReadyToSend f' = sum_ready s' ∧ summarised els fields kind s' (Record_ f').
Proof.
  intros Ha Hi Hc Hn Hf Hr Hs s'. subst s'.
  assert (Hsame : areRecordsFromSameNode inc (Record_ f) = Ok (same_side (lookup_rec inc) (sum_other s))).
  { rewrite same_side_spec; [|done|apply Hs| |apply Hs].
    - unfold same_side, from_side. rewrite !(su_other _ _ _ _ _ Hs); [done|..];
        apply pods_disjoint; unfold pod_names; rewrite !elem_of_cons; tauto.
    - by destruct Hc as (_ & _ & _ & _ & _ & _ & _ & HP & _). }
  unfold joins. rewrite Hn, <- Hr, Hsame. cbn [andb]. destruct (ReadyToSend f) eqn:Hready; cbn [negb andb].
  { exists false, f. split_and!; try done. by rewrite <- Hr. }
  destruct (same_side _ _) eqn:Hss; cbn [negb].
  { exists false, f. split_and!; try done. by rewrite <- Hr. }
  destruct (correlate_summarised s (Record_ f) inc Hi Hc Hs) as (r' & E & Hs').
  exists true, (correlated (with_record r' f)). split_and!; try done.
  rewrite Ha, (M_bind_Ok _ _ _ _ _ (run_record_Ok p _ a f tt r' Hf E)).
  rewrite (M_bind_Ok _ _ _ _ _ (get_flow_set _ _ _)).
  change (set_flow p ?f ?a) with (Ok tt, set_record p f a). by rewrite set_record_twice.
Qed.

Lemma update_flow_summarised a p f s inc :
  aggregateElements a = Some els → correlateFields a = fields → full inc → complete els fields kind inc →
  flowRecords a !! p = Some f → ReadyToSend f = sum_ready s → summarised els fields kind s (Record_ f) →
  ∃ f', update_flow p inc (needs_correlation inc) a = (Ok tt, set_record p f' a) ∧ same_item f f' ∧
    ReadyToSend f' = sum_ready (summary_next fields inc s) ∧
    summarised els fields kind (summary_next fields inc s) (Record_ f').
Proof.
  intros Ha Hcf Hi Hc Hf Hr Hs. unfold update_flow, summary_next. rewrite (M_bind_Ok _ _ _ a a) by done.
  destruct (needs_correlation inc) eqn:Hn.
  2:{ rewrite !fills_uncorrelated by done. unfold joins. rewrite Hn. cbn [andb].
      destruct (aggregate_flow a p f s inc true true) as (f' & E & Hit & Hr' & Hs'); try done.
      exists f'. split_and!; [done|done| |done]. by rewrite update_ready, Hr'. }
  rewrite (M_bind_Ok _ _ _ f a) by (unfold get_flow; by rewrite Hf).
  destruct (correlate_flow a p f s inc) as (b & f1 & E1 & E2 & Hb & Hit1 & Hr1 & Hs1); try done.
  rewrite (M_bind_Ok _ _ _ _ _ E1), (M_bind_Ok _ _ _ _ _ E2).
  assert (Hsrc : isRecordFromSrc inc = Ok (from_side (lookup_rec inc) true)).
  { apply (from_side_spec true); [done|]. by destruct Hc as (_ & _ & _ & _ & _ & _ & _ & HP & _). }
  rewrite Hsrc, !fills_correlated by done. cbn [M_lift].
  set (a1 := if b then set_record p f1 a else a).
  rewrite (M_bind_Ok _ _ _ (from_side (lookup_rec inc) true) a1) by done.
  assert (Hf1 : flowRecords a1 !! p = Some f1).
  { subst a1. destruct b; [apply lookup_insert_eq|]. by rewrite (Hb eq_refl). }
  assert (Ha1 : aggregateElements a1 = aggregateElements a) by (subst a1; by destruct b).
  destruct (aggregate_flow a1 p f1 (if joins inc s then summary_join fields inc s else s) inc (from_side (lookup_rec inc) true)
    (negb (from_side (lookup_rec inc) true))) as (f2 & E & Hit2 & Hr2 & Hs2); [congruence|done..|].
  exists f2. rewrite <- Ha1. split_and!; [|unfold same_item in *; split; intuition congruence|by rewrite update_ready, Hr2|done].
  rewrite E. f_equal. subst a1. destruct b; [apply set_record_twice|done].
Qed.

(** A new flow is stored with the added elements. *)
Lemma add_fields_summarised a inc :
  aggregateElements a = Some els → roomy els inc → complete els fields kind inc →
  ∃ r', add_fields reg (needs_correlation inc) inc a = (Ok r', a) ∧
        summarised els fields kind (summary_first inc) r'.
Proof.
  intros Ha (tid & dec & es & -> & Hroom) Hc. set (inc := plain tid dec es) in *.
  pose proof Hc as (Hst & _ & _ & _ & _ & _ & _ & HP & _).
  exists (plain tid dec (es ++ first_fields reg els (fills inc true) (fills inc false) inc)).
  split; [|eapply started_summarised; [done|]; by apply first_fields_started; [apply config_added|]].
  assert (Hlen : length (first_fields reg els (fills inc true) (fills inc false) inc) = length (added_names els)).
  { rewrite <- (length_fmap GetName). apply Permutation_length. by apply first_fields_names; [apply config_added|..]. }
  pose proof (first_fields_added reg els (fills inc true) (fills inc false) tid dec es config_added Hst) as E.
  fold inc in E; specialize (E ltac:(rewrite length_app, Hlen; lia)).
  unfold add_fields. rewrite (M_bind_Ok _ _ _ a a) by done. rewrite Ha.
  set (src := if needs_correlation inc then from_side (lookup_rec inc) true else true).
  rewrite (M_bind_Ok _ _ _ src a).
  2:{ subst src. destruct (needs_correlation inc); [|done]. unfold M_lift.
      by rewrite (from_side_spec true) by (done || apply plain_full). }
  cbv zeta.
  assert (H1 : fills inc true = src) by (subst src; unfold fills; destruct (needs_correlation inc); [by destruct (from_side _ _)|done]).
  assert (H2 : fills inc false = if needs_correlation inc then negb src else true)
    by (subst src; unfold fills; destruct (needs_correlation inc); [by destruct (from_side _ _)|done]).
  rewrite <- H2, <- H1. by rewrite E.
Qed.

Lemma create_flow_runs now key record record' ipv4 ft c a :
  agg_inv a → add_fields reg c record a = (Ok record', a) →
  ∃ p f a', create_flow reg now key record ipv4 ft c a = (Ok p, a') ∧ flowRecords a !! p = None ∧
    flowRecords a' = <[p := f]> (flowRecords a) ∧ flowKeyRecordMap a' = flowKeyRecordMap a ∧
    Record_ f = record' ∧ ReadyToSend f = negb c ∧ waitForReadyToSendRetries f = 0 ∧
    data_of a !! PriorityQueueItem f = None ∧ pq (queue_of a') ≡ₚ PriorityQueueItem f :: pq (queue_of a) ∧
    data_of a' = <[PriorityQueueItem f := mkItemToExpire key p (now + activeExpiryTimeout a)
                     (now + inactiveExpiryTimeout a) 0]> (data_of a).
Proof.
  intros [Hq Hl] E. unfold create_flow. rewrite (M_bind_Ok _ _ _ _ _ E), (M_bind_Ok _ _ _ a a) by done. cbv zeta.
  set (p := fresh (dom (flowRecords a))). set (item := fresh (dom (items (queue_of a)))).
  set (f := mkAggregationFlowRecord _ _ _ _ _ _ _). set (it := mkItemToExpire _ _ _ _ _).
  assert (Hit : items (queue_of a) !! item = None) by (apply not_elem_of_dom, is_fresh).
  set (q0 := {| pq := pq (queue_of a); items := <[item := it]> (items (queue_of a)) |}).
  assert (Hq0 : pq_inv q0) by (by apply pq_inv_alloc).
  assert (Hni : item ∉ pq q0).
  { intros Hin. destruct (proj2 Hl item Hin) as (x & _ & Hx & _). rewrite data_lookup, Hit in Hx. done. }
  destruct (Push_spec q0 item it Hq0) as (q & Eq & _ & Hpq & Hd); [apply lookup_insert_eq|done|].
  rewrite (M_bind_Ok _ _ _ tt (with_flowRecords (<[p := f]> (flowRecords a)) a)) by done.
  rewrite (M_bind_Ok _ _ _ tt (with_queue q0 (with_flowRecords (<[p := f]> (flowRecords a)) a))) by done.
  rewrite (M_bind_Ok _ _ _ tt (with_queue q (with_flowRecords (<[p := f]> (flowRecords a)) a)))
    by (unfold run_queue; simpl; by rewrite Eq).
  eexists p, f, _. split; [done|]. split_and!; try done.
  - apply not_elem_of_dom, is_fresh.
  - cbn. by rewrite data_lookup, Hit.
  - cbn. rewrite Hd. unfold pq_data, q0. cbn [items]. by rewrite fmap_insert.
Qed.

(** Setting the times of an item changes nothing else. *)
Lemma item_update_spec key p inactive a f it :
  agg_inv a → flowRecords a !! p = Some f → data_of a !! PriorityQueueItem f = Some it →
  ∃ q, (f ← get_flow p; it ← get_item (PriorityQueueItem f);
        run_queue (Update (PriorityQueueItem f) key p (activeExpireTime it) inactive);; mret p) a =
         (Ok p, with_queue q a) ∧ pq q ≡ₚ pq (queue_of a) ∧
       pq_data q = <[PriorityQueueItem f := mkItemToExpire key p (activeExpireTime it) inactive 0]> (data_of a).
Proof.
  intros [Hq _] Hf Hd. rewrite data_lookup in Hd.
  destruct (items (queue_of a) !! PriorityQueueItem f) as [it1|] eqn:E1; [|done]. injection Hd as <-.
  destruct (Update_any (queue_of a) (PriorityQueueItem f) key p (activeExpireTime it1) inactive it1 Hq E1)
    as (q & E & _ & Hp & Hq').
  rewrite (M_bind_Ok _ _ _ f a) by (unfold get_flow; by rewrite Hf).
  rewrite (M_bind_Ok _ _ _ it1 a) by (unfold get_item; by rewrite E1).
  rewrite (M_bind_Ok _ _ _ _ _ (run_queue_Ok _ _ _ E)). by exists q.
Qed.

(** ** The refinement *)

Definition related (m : summaries) (a : AggregationProcess) : Prop :=
  agg_inv a ∧ aggregateElements a = Some els ∧ correlateFields a = fields ∧
  dom m = dom (flowKeyRecordMap a) ∧
  ∀ k p s, flowKeyRecordMap a !! k = Some p → m !! k = Some s → has_summary a p s.

(** Different flows have different records. *)
Lemma pointers_differ a k k' p :
  agg_inv a → flowKeyRecordMap a !! k = Some p → flowKeyRecordMap a !! k' = Some p → k = k'.
Proof.
  intros [_ [Hl _]] H1 H2. destruct (Hl _ _ H1) as (f & it & Hf & _ & Hd & <- & _).
  destruct (Hl _ _ H2) as (f' & it' & Hf' & _ & Hd' & <- & _). by simplify_eq.
Qed.

(** The flow of one key has a new summary, the others keep theirs. *)
Lemma related_insert m a a' k p s f :
  related m a → grows a a' → flowKeyRecordMap a' = <[k := p]> (flowKeyRecordMap a) →
  flowRecords a' = <[p := f]> (flowRecords a) →
  (flowKeyRecordMap a !! k = Some p ∨ flowRecords a !! p = None) →
  ReadyToSend f = sum_ready s → summarised els fields kind s (Record_ f) →
  related (<[k := s]> m) a'.
Proof.
  intros (Hi & Ha & Hc & Hd & Hm) (Hi' & (_ & _ & E1 & E2) & _) HK HR Hp Hr Hs.
  split_and!; [done|congruence|congruence|by rewrite HK, !dom_insert_L, Hd|].
  intros k' p' s'. rewrite HK, !lookup_insert. unfold has_summary. rewrite HR.
  case_decide as Hk; [intros [= <-] [= <-]; exists f; by rewrite lookup_insert_eq|].
  intros H1 H2. destruct (Hm _ _ _ H1 H2) as (f' & Hf' & Hr' & Hs'). exists f'.
  rewrite lookup_insert_ne; [done|]. intros <-. destruct Hp as [Hp|Hp]; [|congruence].
  by apply Hk, (pointers_differ a k k' p).
Qed.

(** What the process needs of a record. *)
Definition usable (inc : IPFIXRecord) : Prop := roomy els inc ∧ complete els fields kind inc.

Lemma usable_full inc : usable inc → full inc.
Proof. intros [(tid & dec & es & -> & _) _]. apply plain_full. Qed.

Lemma usable_valid inc : usable inc → validateDataRecord inc = true.
Proof.
  intros [(tid & dec & es & -> & H) _]. apply bool_decide_eq_true. cbn.
  rewrite length_fmap. unfold u16. rewrite Z.mod_small by lia. done.
Qed.

Lemma usable_key inc : usable inc → ∃ v4, getFlowKeyFromRecord inc = Ok (record_key inc, v4).
Proof.
  intros [_ (_ & Hk & _)]. unfold record_key. destruct (getFlowKeyFromRecord inc) as [[k v4]| | |]; try done.
  by exists v4.
Qed.

(** The process has the configuration of the specification, and the invariant. *)
Definition configured (a : AggregationProcess) : Prop :=
  agg_inv a ∧ aggregateElements a = Some els ∧ correlateFields a = fields.

(** A record of a flow that is in the map: its flow record has the next summary, its item
    a new inactive time. *)
Lemma addOrUpdate_present a now inc v4 p f it s :
  configured a → usable inc → flowKeyRecordMap a !! record_key inc = Some p → flowRecords a !! p = Some f →
  data_of a !! PriorityQueueItem f = Some it → ReadyToSend f = sum_ready s →
  summarised els fields kind s (Record_ f) →
  ∃ a' f', addOrUpdateRecordInMap reg now (record_key inc) inc v4 a = (Ok tt, a') ∧ grows a a' ∧
    flowKeyRecordMap a' = flowKeyRecordMap a ∧ flowRecords a' = <[p := f']> (flowRecords a) ∧
    same_item f f' ∧ ReadyToSend f' = sum_ready (summary_next fields inc s) ∧
    summarised els fields kind (summary_next fields inc s) (Record_ f') ∧
    pq (queue_of a') ≡ₚ pq (queue_of a) ∧
    data_of a' = <[PriorityQueueItem f := mkItemToExpire (record_key inc) p (activeExpireTime it)
                     (now + inactiveExpiryTimeout a) 0]> (data_of a).
Proof.
  intros (Hi & Ha & Hcf) Hu Hk Hp Hit Hr Hs. pose proof (usable_full _ Hu) as Hf. destruct Hu as [Hroom Hc].
  destruct (needs_correlation_spec inc Hf) as [Hft Hcr]; [apply Hc|].
  pose proof (addOrUpdate_spec reg now (record_key inc) inc v4 a Hi) as Hspec.
  unfold addOrUpdateRecordInMap in *.
  rewrite (M_bind_Ok _ _ _ (u8_at inc "flowType") a) in * by (unfold M_lift; by rewrite Hft). cbv zeta in *.
  rewrite (M_bind_Ok _ _ _ (needs_correlation inc) a) in * by (unfold M_lift; by rewrite Hcr).
  rewrite (M_bind_Ok _ _ _ a a) in * by done. rewrite Hk in *.
  destruct (update_flow_summarised a p f s inc Ha Hcf Hf Hc Hp Hr Hs) as (f' & E & [Hsi Hre] & Hr' & Hs').
  pose proof (update_flow_grows p inc (needs_correlation inc) a Hi (ex_intro _ _ Hk)) as [Hg1 _].
  rewrite E in Hg1. cbn [snd] in Hg1.
  destruct (item_update_spec (record_key inc) p (now + inactiveExpiryTimeout a) (set_record p f' a) f' it)
    as (q & E2 & Hpq & Hd); [apply Hg1|apply lookup_insert_eq|by rewrite Hsi|].
  rewrite (M_bind_Ok _ _ _ p (with_queue q (set_record p f' a))) in *
    by (rewrite (M_bind_Ok _ _ _ _ _ E); exact E2).
  destruct Hspec as [Hg _]. eexists _, f'. split; [done|]. split_and!; try done.
  - cbn. by apply insert_id.
  - cbn. by rewrite Hd, Hsi.
Qed.

(** A record of a new flow: its flow record has the first summary, its item is queued. *)
Lemma addOrUpdate_absent a now inc v4 :
  configured a → usable inc → flowKeyRecordMap a !! record_key inc = None →
  ∃ a' p f, addOrUpdateRecordInMap reg now (record_key inc) inc v4 a = (Ok tt, a') ∧ grows a a' ∧
    flowKeyRecordMap a' = <[record_key inc := p]> (flowKeyRecordMap a) ∧ flowRecords a !! p = None ∧
    flowRecords a' = <[p := f]> (flowRecords a) ∧ ReadyToSend f = sum_ready (summary_first inc) ∧
    summarised els fields kind (summary_first inc) (Record_ f) ∧ waitForReadyToSendRetries f = 0 ∧
    data_of a !! PriorityQueueItem f = None ∧ pq (queue_of a') ≡ₚ PriorityQueueItem f :: pq (queue_of a) ∧
    data_of a' = <[PriorityQueueItem f := mkItemToExpire (record_key inc) p (now + activeExpiryTimeout a)
                     (now + inactiveExpiryTimeout a) 0]> (data_of a).
Proof.
  intros (Hi & Ha & Hcf) Hu Hk. pose proof (usable_full _ Hu) as Hf. destruct Hu as [Hroom Hc].
  destruct (needs_correlation_spec inc Hf) as [Hft Hcr]; [apply Hc|].
  pose proof (addOrUpdate_spec reg now (record_key inc) inc v4 a Hi) as Hspec.
  unfold addOrUpdateRecordInMap in *.
  rewrite (M_bind_Ok _ _ _ (u8_at inc "flowType") a) in * by (unfold M_lift; by rewrite Hft). cbv zeta in *.
  rewrite (M_bind_Ok _ _ _ (needs_correlation inc) a) in * by (unfold M_lift; by rewrite Hcr).
  rewrite (M_bind_Ok _ _ _ a a) in * by done. rewrite Hk in *.
  destruct (add_fields_summarised a inc Ha Hroom Hc) as (r' & E & Hs').
  destruct (create_flow_runs now (record_key inc) inc r' v4 (default 0 (u8_at inc "flowType")) _ a Hi E)
    as (p & f & a1 & E1 & Hp & HR1 & HK1 & Hrec & Hready & H0 & Hn & Hpq & Hd).
  rewrite (M_bind_Ok _ _ _ _ _ E1) in *. destruct Hspec as [Hg _]. eexists _, p, f. split; [done|].
  split_and!; try done; [cbn; by rewrite HK1|by rewrite Hrec].
Qed.

Lemma addOrUpdate_related m a now inc v4 :
  related m a → usable inc →
  ∃ a', addOrUpdateRecordInMap reg now (record_key inc) inc v4 a = (Ok tt, a') ∧
        related (flows_step fields m inc) a'.
Proof.
  intros HR Hu. pose proof HR as (Hi & Ha & Hcf & Hd & Hm). unfold flows_step.
  destruct (flowKeyRecordMap a !! record_key inc) as [p|] eqn:Hk.
  - assert (is_Some (m !! record_key inc)) as [s Hs] by (apply elem_of_dom; rewrite Hd; apply elem_of_dom; eauto).
    rewrite Hs. destruct (Hm _ p s Hk Hs) as (f & Hp & Hr & Hsum).
    destruct (proj1 (proj2 Hi) _ _ Hk) as (f0 & it & Hf0 & _ & Hit & _). simplify_eq.
    destruct (addOrUpdate_present a now inc v4 p f it s) as (a' & f' & E & Hg & HK & HRc & _ & Hr' & Hs' & _);
      [done..|]. exists a'. split; [done|].
    apply (related_insert m a a' _ p _ f'); [done|done|by rewrite HK, insert_id|done|by left|done|done].
  - assert (m !! record_key inc = None) as -> by (apply not_elem_of_dom; rewrite Hd; by apply not_elem_of_dom).
    destruct (addOrUpdate_absent a now inc v4) as (a' & p & f & E & Hg & HK & Hp & HRc & Hr & Hs & _); [done..|].
    exists a'. split; [done|]. apply (related_insert m a a' _ p _ f); [done..|by right|done|done].
Qed.

Lemma aggregate_records_related clock i rs n m a :
  related m a → Forall usable rs →
  ∃ a', aggregate_records reg clock i rs n a = (Ok n, a') ∧ related (foldl (flows_step fields) m rs) a'.
Proof.
  revert i m a. induction rs as [|inc rs IH]; intros i m a HR Hu; [by exists a|].
  apply list.Forall_cons in Hu as [Hu Hus]. cbn [aggregate_records foldl].
  rewrite usable_valid by done. destruct (usable_key _ Hu) as [v4 Hk].
  rewrite (M_bind_Ok _ _ _ (record_key inc, v4) a) by (unfold M_lift; by rewrite Hk). cbv beta iota.
  destruct (addOrUpdate_related m a (clock i) inc v4 HR Hu) as (a1 & E & HR1).
  rewrite (M_bind_Ok _ _ _ _ _ E). by apply IH.
Qed.

(** What a message means to the flows. *)
Definition message_step (m : summaries) (msg : Message) : summaries :=
  match msg_set msg with
  | Some set => if decide (setType set = Data) then foldl (flows_step fields) m (records set) else m
  | None => m
  end.

(** A template message, or a data message with usable records, one at least. *)
Definition usable_message (msg : Message) : Prop :=
  match msg_set msg with
  | Some set => setType set = Data → records set ≠ [] ∧ Forall usable (records set)
  | None => False
  end.

Lemma message_related clock m a msg :
  related m a → usable_message msg →
  ∃ a', AggregateMsgByFlowKey reg clock msg a = (Ok tt, a') ∧ related (message_step m msg) a'.
Proof.
  intros HR Hu. unfold usable_message, message_step, AggregateMsgByFlowKey in *.
  destruct (msg_set msg) as [set|]; [|done]. rewrite (M_bind_Ok _ _ _ set a) by done.
  case_decide; [|by exists a]. destruct Hu as [Hne Hus]; [done|].
  destruct (aggregate_records_related clock 0 (records set) 0 m a HR Hus) as (a' & E & HR').
  rewrite (M_bind_Ok _ _ _ _ _ E). exists a'. split; [|done].
  rewrite decide_False; [done|]. by destruct (records set).
Qed.

(** The messages of a channel, one after the other; the clock is read again for each. *)
Fixpoint aggregate_messages (clocks : nat → nat → Z) (i : nat) (msgs : list Message) : AP unit :=
  match msgs with
  | [] => mret tt
  | msg :: msgs => AggregateMsgByFlowKey reg (clocks i) msg;; aggregate_messages clocks (S i) msgs
  end.

Lemma messages_related clocks i msgs m a :
  related m a → Forall usable_message msgs →
  ∃ a', aggregate_messages clocks i msgs a = (Ok tt, a') ∧ related (foldl message_step m msgs) a'.
Proof.
  revert i m a. induction msgs as [|msg msgs IH]; intros i m a HR Hu; [by exists a|].
  apply list.Forall_cons in Hu as [Hu Hus]. cbn [aggregate_messages foldl].
  destruct (message_related (clocks i) m a msg HR Hu) as (a1 & E & HR1).
  rewrite (M_bind_Ok _ _ _ _ _ E). by apply IH.
Qed.

Lemma init_related input a :
  in_AggregateElements input = Some els → in_CorrelateFields input = fields →
  InitAggregationProcess input = Ok a → related ∅ a.
Proof.
  intros He Hc E. pose proof (init_inv _ _ E) as Hi. unfold InitAggregationProcess in E.
  destruct (MessageChan input); [|done]. case_decide; [done|].
  apply go_bind_Ok in E as (? & _ & [= <-]). split_and!; done.
Qed.

End flows.

(** ** Lemmas: the records of one flow *)

(** The summary of a flow from its records, first record first. *)
Definition summarise (fields : list string) (rs : list IPFIXRecord) : option flow_summary :=
  match rs with
  | [] => None
  | r :: rs => Some (foldl (λ s r, summary_next fields r s) (summary_first r) rs)
  end.

(** The records of the data messages, in order. *)
Definition data_records (msgs : list Message) : list IPFIXRecord :=
  msgs ≫= λ msg, match msg_set msg with
                 | Some set => if decide (setType set = Data) then records set else []
                 | None => []
                 end.

Abbreviation of_key k := (filter (λ r, record_key r = k)).

Lemma summarise_snoc fields rs r :
  summarise fields (rs ++ [r]) =
  Some (match summarise fields rs with Some s => summary_next fields r s | None => summary_first r end).
Proof. destruct rs as [|r0 rs]; [done|]. cbn [app summarise]. by rewrite foldl_snoc. Qed.

Lemma flows_of_key fields rs k :
  foldl (flows_step fields) ∅ rs !! k = summarise fields (of_key k rs).
Proof.
  induction rs as [|r rs IH] using rev_ind; [done|]. rewrite foldl_snoc, list.filter_app. unfold flows_step at 1.
  cbn [filter list_filter]. rewrite lookup_insert. case_decide as Hk.
  - subst k. by rewrite summarise_snoc, IH.
  - by rewrite app_nil_r.
Qed.

Lemma data_records_cons m ms : data_records (m :: ms) = data_records [m] ++ data_records ms.
Proof. exact (bind_app _ [m] ms). Qed.

Lemma messages_flows fields msgs m :
  foldl (message_step fields) m msgs = foldl (flows_step fields) m (data_records msgs).
Proof.
  revert m. induction msgs as [|msg msgs IH]; intros m; [done|].
  rewrite data_records_cons, foldl_app. cbn [foldl]. rewrite IH. unfold message_step, data_records at 2.
  cbn [mbind list_bind]. rewrite app_nil_r. destruct (msg_set msg) as [set|]; [|done]. by case_decide.
Qed.

(** A process that starts empty has the flows of its messages. *)
Lemma aggregate_from_start reg els fields kind clocks input a msgs :
  wf_config reg els fields → in_AggregateElements input = Some els → in_CorrelateFields input = fields →
  InitAggregationProcess input = Ok a → Forall (usable_message els fields kind) msgs →
  ∃ a', aggregate_messages reg clocks 0 msgs a = (Ok tt, a') ∧
    related els fields kind (foldl (flows_step fields) ∅ (data_records msgs)) a'.
Proof.
  intros Hwf He Hc Hinit Hu. pose proof (init_related els fields kind input a He Hc Hinit) as HR.
  rewrite <- messages_flows. by apply messages_related.
Qed.

Lemma related_flow els fields kind m a k s :
  related els fields kind m a → m !! k = Some s →
  ∃ p f, flowKeyRecordMap a !! k = Some p ∧ flowRecords a !! p = Some f ∧
    ReadyToSend f = sum_ready s ∧ summarised els fields kind s (Record_ f).
Proof.
  intros (_ & _ & _ & Hd & Hm) Hk.
  assert (is_Some (flowKeyRecordMap a !! k)) as [p Hp] by (apply elem_of_dom; rewrite <- Hd; by eapply elem_of_dom_2).
  destruct (Hm k p s Hp Hk) as (f & Hf & Hr & Hs). by exists p, f.
Qed.

Lemma related_flows els fields kind m a k :
  related els fields kind m a →
  match m !! k with
  | None => flowKeyRecordMap a !! k = None
  | Some s => ∃ p f, flowKeyRecordMap a !! k = Some p ∧ flowRecords a !! p = Some f ∧
      ReadyToSend f = sum_ready s ∧ summarised els fields kind s (Record_ f)
  end.
Proof.
  intros HR. destruct (m !! k) as [s|] eqn:Hk; [by eapply related_flow|].
  destruct HR as (_ & _ & _ & Hd & _). apply not_elem_of_dom. rewrite <- Hd. by apply not_elem_of_dom.
Qed.

(** ** Example: two flows, one of them between two nodes *)

Definition ex_fields : list string := ["sourcePodName"; "destinationPodName"].
Definition ex_kind (n : string) : InfoElementWithValue := StringInfoElement (ex_ie n StringType) "".

Lemma ex_config : wf_config loaded_registry antrea_elements ex_fields.
Proof.
  split; [exact antrea_wf|]. split; [evaluate|]. split; [reflexivity|]. split; evaluate.
Qed.

(** A record of a flow between two nodes, from the node whose Pod it names. *)
Definition ex_node_record (last packets octets : Z) (src dst : string) : IPFIXRecord :=
  plain 256 true (ex_elements 1234 10 last packets octets src dst ++
                  [Unsigned8InfoElement (ex_ie "flowType" Unsigned8) 2]).

Definition ex_flow_records : list IPFIXRecord :=
  [ex_node_record 20 1000 8000 "pod1" ""; ex_record 4321 10 20 100 800 "pod1" "pod3";
   ex_node_record 21 1000 8000 "" "pod2"; ex_node_record 30 1500 12000 "pod1" ""].

Definition ex_flow_messages : list Message :=
  [ex_message (take 2 ex_flow_records); ex_message (drop 2 ex_flow_records)].

Lemma ex_usable r : r ∈ ex_flow_records → usable antrea_elements ex_fields ex_kind r.
Proof.
  unfold ex_flow_records. rewrite !elem_of_cons, elem_of_nil.
  intros [->|[->|[->|[->|[]]]]]; (split; [eexists _, _, _; split; [reflexivity|vm_compute; reflexivity]|evaluate]).
Qed.

Lemma ex_usable_messages : Forall (usable_message antrea_elements ex_fields ex_kind) ex_flow_messages.
Proof.
  repeat apply list.Forall_cons_2; [..|constructor]; intros _; (split; [discriminate|]);
    apply list.Forall_forall; intros r Hr; apply ex_usable;
    rewrite <- (take_drop 2 ex_flow_records), elem_of_app; auto.
Qed.

Lemma ex_a0_start : InitAggregationProcess ex_input = Ok ex_a0.
Proof. apply from_ok_eq. vm_compute. reflexivity. Qed.

(** ** Properties *)

(** C17: the aggregation process implements the summaries.  With a well-formed
    configuration, any sequence of messages with usable records - records of any number
    of flows in any order, correlated or not - is aggregated without error; afterwards
    the process has exactly the flows of these records, and the record of each flow has
    the values that the specification computes from the records of that flow alone: the
    times and statistics of both nodes, the common statistics, the end reason, the TCP
    state, the correlated fields and every other element; it is ready to be sent exactly
    when the specification says so. *)
Theorem aggregation_refines reg els fields kind clocks input a msgs :
  wf_config reg els fields → in_AggregateElements input = Some els → in_CorrelateFields input = fields →
  InitAggregationProcess input = Ok a → Forall (usable_message els fields kind) msgs →
  ∃ a', aggregate_messages reg clocks 0 msgs a = (Ok tt, a') ∧
    ∀ k, match summarise fields (of_key k (data_records msgs)) with
         | None => flowKeyRecordMap a' !! k = None
         | Some s => ∃ p f, flowKeyRecordMap a' !! k = Some p ∧ flowRecords a' !! p = Some f ∧
             ReadyToSend f = sum_ready s ∧ summarised els fields kind s (Record_ f)
         end.
Proof.
  intros Hwf He Hc Hinit Hu.
  destruct (aggregate_from_start reg els fields kind clocks input a msgs Hwf He Hc Hinit Hu) as (a' & E & HR).
  exists a'. split; [done|]. intros k. rewrite <- flows_of_key. by apply related_flows.
Qed.

(** Both flows are stored, and the flow between the nodes has the Pod names of both. *)
Lemma aggregation_refines_witness :
  ∃ a' p f, aggregate_messages loaded_registry (λ _ _, 1000) 0 ex_flow_messages ex_a0 = (Ok tt, a') ∧
    flowKeyRecordMap a' !! ex_key = Some p ∧ flowRecords a' !! p = Some f ∧ ReadyToSend f = true ∧
    string_at (Record_ f) "destinationPodName" = Some "pod2"%string.
Proof.
  destruct (aggregation_refines loaded_registry antrea_elements ex_fields ex_kind (λ _ _, 1000)
    ex_input ex_a0 ex_flow_messages) as (a' & E & H).
  - exact ex_config.
  - reflexivity.
  - reflexivity.
  - exact ex_a0_start.
  - exact ex_usable_messages.
  - specialize (H ex_key).
    assert (Hr : of_key ex_key (data_records ex_flow_messages) =
      [ex_node_record 20 1000 8000 "pod1" ""; ex_node_record 21 1000 8000 "" "pod2";
       ex_node_record 30 1500 12000 "pod1" ""]) by (vm_compute; reflexivity).
    rewrite Hr in H. cbn [summarise foldl] in H. destruct H as (p & f & Hp & Hf & Hrd & Hs).
    exists a', p, f. split; [exact E|]. split; [exact Hp|]. split; [exact Hf|].
    split; [rewrite Hrd; vm_compute; reflexivity|].
    unfold value_at. rewrite (su_other _ _ _ _ _ Hs); [vm_compute; reflexivity|evaluate].
Defined.
