(* ===== verification/FlowTotals.v ===== *)
(** * What a flow adds up to

    Consequences of the specification in Flows.v: the statistics of a node are the sums
    of what its records report, a flow between two nodes is ready when both have
    reported, and what a late record does to the records after it.  The theorems are
    about the records the aggregation process has stored. *)

From Stdlib Require Import ZArith Lia.
From Stdlib.Strings Require Import Byte.
From stdpp Require Import base gmap strings list numbers.
From S2P Require Import Prelude Bytes InfoElement Records Sets Registry NetIP Heap PriorityQueue.
From S2P Require Import Aggregate Correlate FirstRecord AggregationProcess Flows.

#[local] Open Scope Z_scope.

(** ** Specification *)

(** The records that fill the statistics of a node. *)
Definition of_node (isSrc : bool) (rs : list IPFIXRecord) : list IPFIXRecord :=
  filter (λ r, fills r isSrc = true) rs.

(** The deltas added up, modulo 2^64, or the last total. *)
Definition total (n : string) (rs : list IPFIXRecord) : Z :=
  let vs := (λ r, u64_or_0 r n) <$> rs in
  if Contains n "Delta" then u64 (foldr Z.add 0 vs) else default 0 (list.last vs).

Definition last_end (rs : list IPFIXRecord) : Z := default 0 (list.last (end_of <$> rs)).

(** The records of a flow come in the order of time from each node; either all of them
    need correlation or none; and none of them is empty. *)
Definition well_timed (c : bool) (rs : list IPFIXRecord) : Prop :=
  (∀ isSrc, in_order 0 (of_node isSrc rs)) ∧
  Forall (λ r, needs_correlation r = c ∧ u32_or_0 r "flowStartSeconds" < end_of r) rs.

(** ** Lemmas: lists of records *)

Lemma Forall_snoc {A} (P : A → Prop) l x : Forall P (l ++ [x]) ↔ Forall P l ∧ P x.
Proof. by rewrite list.Forall_app, list.Forall_singleton. Qed.

Lemma last_end_snoc rs r : last_end (rs ++ [r]) = end_of r.
Proof. unfold last_end. rewrite fmap_app. cbn [fmap list_fmap]. by rewrite last_snoc. Qed.

Lemma in_order_snoc prev rs r :
  in_order prev (rs ++ [r]) ↔ in_order prev rs ∧ default prev (list.last (end_of <$> rs)) < end_of r.
Proof.
  revert prev. induction rs as [|r0 rs IH]; intros prev; cbn [app in_order].
  - cbn. unfold end_of. tauto.
  - rewrite IH, fmap_cons, last_cons. fold (end_of r0).
    destruct (list.last (end_of <$> rs)); cbn [from_option id]; tauto.
Qed.

Lemma total_snoc n rs r :
  total n (rs ++ [r]) = node_value (Contains n "Delta") (u64_or_0 r n) (total n rs).
Proof.
  unfold total, node_value. rewrite fmap_app. cbn [fmap list_fmap].
  destruct (Contains n "Delta"); [|by rewrite last_snoc].
  rewrite foldr_app. cbn [foldr]. unfold u64. rewrite Zplus_mod_idemp_r. f_equal.
  induction ((λ r, u64_or_0 r n) <$> rs) as [|v vs IH]; simpl; lia.
Qed.

Lemma of_node_snoc isSrc rs r :
  of_node isSrc (rs ++ [r]) = if fills r isSrc then of_node isSrc rs ++ [r] else of_node isSrc rs.
Proof.
  unfold of_node. rewrite list.filter_app. cbn [filter list_filter].
  destruct (fills r isSrc); [done|by rewrite app_nil_r].
Qed.

Lemma well_timed_snoc c rs r :
  well_timed c (rs ++ [r]) →
  well_timed c rs ∧ needs_correlation r = c ∧ u32_or_0 r "flowStartSeconds" < end_of r ∧
  ∀ isSrc, fills r isSrc = true → last_end (of_node isSrc rs) < end_of r.
Proof.
  intros [Ho Hf]. apply Forall_snoc in Hf as [Hf [H1 H2]].
  assert (H : ∀ isSrc, in_order 0 (of_node isSrc rs) ∧
    (fills r isSrc = true → last_end (of_node isSrc rs) < end_of r)).
  { intros isSrc. specialize (Ho isSrc). rewrite of_node_snoc in Ho. destruct (fills r isSrc); [|by split].
    by apply in_order_snoc in Ho as [? ?]. }
  split_and!; [split; [intros; apply H|done]|done|done|intros; by apply H].
Qed.

(** ** Lemmas: the summary of a flow *)

Lemma join_end fields r s : sum_end (if joins r s then summary_join fields r s else s) = sum_end s.
Proof. by destruct (joins r s). Qed.
Lemma join_count fields r s : sum_count (if joins r s then summary_join fields r s else s) = sum_count s.
Proof. by destruct (joins r s). Qed.

Lemma next_end fields r s isSrc :
  sum_end (summary_next fields r s) isSrc = if fills r isSrc then end_of r else sum_end s isSrc.
Proof. unfold summary_next. rewrite update_end, join_end. by destruct isSrc. Qed.

(** A record that is later than the one it is compared with counts for its nodes. *)
Lemma next_count fields r s isSrc n :
  previous r s (fills r true) (fills r false) < end_of r →
  sum_count (summary_next fields r s) isSrc n =
  if fills r isSrc then node_value (Contains n "Delta") (u64_or_0 r n) (sum_count s isSrc n)
  else sum_count s isSrc n.
Proof.
  intros Hp. unfold summary_next, summary_update.
  rewrite decide_False.
  2:{ unfold previous, sum_prev in *. rewrite join_end. lia. }
  cbn [summary_count sum_count]. rewrite join_count. by destruct isSrc.
Qed.

(** The nodes that fill a record of a homogeneous flow: both, or exactly one. *)
Lemma previous_of_node r s c :
  needs_correlation r = c → u32_or_0 r "flowStartSeconds" < end_of r →
  (∀ isSrc, fills r isSrc = true → sum_end s isSrc < end_of r) →
  previous r s (fills r true) (fills r false) < end_of r.
Proof.
  intros Hc Hst He. unfold previous, sum_prev. destruct (fills r false) eqn:F1.
  - specialize (He false F1). case_decide; lia.
  - assert (fills r true = true) as F2.
    { revert F1. unfold fills. destruct (needs_correlation r); [|done]. by destruct (from_side _ _). }
    rewrite F2. specialize (He true F2). case_decide; lia.
Qed.

Lemma summarise_totals fields c rs :
  well_timed c rs → rs ≠ [] →
  ∃ s, summarise fields rs = Some s ∧
    ∀ isSrc, sum_end s isSrc = last_end (of_node isSrc rs) ∧
      ∀ n, Forall (λ r, in_u 64 (u64_or_0 r n)) rs → sum_count s isSrc n = total n (of_node isSrc rs).
Proof.
  induction rs as [|r rs IH] using rev_ind; [done|]. intros (Hw & Hc & Hst & Hlate)%well_timed_snoc _.
  rewrite summarise_snoc. destruct (decide (rs = [])) as [->|Hne].
  { eexists. split; [done|]. intros isSrc. rewrite of_node_snoc. cbn [summarise summary_first sum_end sum_count].
    split; [destruct (fills r isSrc); [by rewrite last_end_snoc|done]|]. intros n [_ Hr]%Forall_snoc.
    destruct (fills r isSrc); unfold total; cbn; [|by destruct (Contains n "Delta")].
    destruct (Contains n "Delta"); [|done]. rewrite Z.add_0_r. symmetry.
    by apply (in_u_mod 64). }
  destruct (IH Hw Hne) as (s & -> & HIH). eexists. split; [done|].
  assert (Hprev : previous r s (fills r true) (fills r false) < end_of r).
  { eapply previous_of_node; [done|done|]. intros isSrc Hf. rewrite (proj1 (HIH isSrc)). by apply Hlate. }
  intros isSrc. destruct (HIH isSrc) as [HE HC]. rewrite next_end, of_node_snoc. split.
  - destruct (fills r isSrc); [by rewrite last_end_snoc|done].
  - intros n [Hrs Hr]%Forall_snoc. rewrite next_count, HC by done.
    destruct (fills r isSrc); [|done]. by rewrite total_snoc.
Qed.

(** A flow that needs correlation is ready when a record of the other node has come. *)
Definition both_reported (rs : list IPFIXRecord) : bool :=
  match rs with
  | [] => false
  | r :: rs => existsb (λ r', negb (same_side (lookup_rec r') (lookup_rec r))) rs
  end.

Lemma next_ready fields r s :
  sum_ready (summary_next fields r s) = sum_ready s || joins r s.
Proof.
  unfold summary_next. rewrite update_ready. unfold joins.
  destruct (needs_correlation r), (sum_ready s) eqn:E, (same_side _ _); cbn; rewrite ?E; done.
Qed.

Lemma next_other fields r s :
  joins r s = false → sum_other (summary_next fields r s) = sum_other s.
Proof. intros E. unfold summary_next. by rewrite update_other, E. Qed.

Lemma summarise_ready fields c r rs :
  Forall (λ r, needs_correlation r = c) (r :: rs) →
  ∃ s, summarise fields (r :: rs) = Some s ∧
    sum_ready s = (if c then both_reported (r :: rs) else true) ∧
    (sum_ready s = false → sum_other s = lookup_rec r).
Proof.
  induction rs as [|r' rs IH] using rev_ind; intros Hc.
  { eexists. split; [done|]. apply list.Forall_cons in Hc as [Hc _]. cbn. rewrite Hc. by destruct c. }
  rewrite app_comm_cons in Hc |- *. apply Forall_snoc in Hc as [Hcs Hc].
  destruct (IH Hcs) as (s & E & Hr & Ho). rewrite summarise_snoc, E. eexists. split; [done|].
  rewrite next_ready. cbn [both_reported app] in *. rewrite existsb_app. cbn [existsb].
  rewrite orb_false_r. destruct (sum_ready s) eqn:Es.
  { split; [|done]. destruct c; [by rewrite <- Hr|done]. }
  destruct c; [|done]. rewrite <- Hr. cbn [orb].
  assert (Hj : joins r' s = negb (same_side (lookup_rec r') (lookup_rec r))).
  { unfold joins. by rewrite Hc, Es, (Ho eq_refl). }
  rewrite Hj. split; [done|]. intros Hn. rewrite next_other by congruence. by apply Ho.
Qed.

(** ** Properties *)


(** When a flow is ready.  After any sequence of messages with usable records, a flow
    whose records do not need correlation is ready from its first record on, and a
    flow between two nodes is ready exactly when, after its first record, one from the
    other node has come. *)
Theorem flow_ready reg els fields kind clocks input a msgs k c :
  wf_config reg els fields → in_AggregateElements input = Some els → in_CorrelateFields input = fields →
  InitAggregationProcess input = Ok a → Forall (usable_message els fields kind) msgs →
  let rs := of_key k (data_records msgs) in
  rs ≠ [] → Forall (λ r, needs_correlation r = c) rs →
  ∃ a' p f, aggregate_messages reg clocks 0 msgs a = (Ok tt, a') ∧
    flowKeyRecordMap a' !! k = Some p ∧ flowRecords a' !! p = Some f ∧
    ReadyToSend f = (if c then both_reported rs else true).
Proof.
  intros Hwf He Hcf Hinit Hu rs Hne Hc.
  destruct (aggregate_from_start reg els fields kind clocks input a msgs Hwf He Hcf Hinit Hu) as (a' & E & HR).
  pose proof (flows_of_key fields (data_records msgs) k) as Hk. fold rs in Hk.
  destruct rs as [|r rs]; [done|]. destruct (summarise_ready fields c r rs Hc) as (s & Hs & Hr & _).
  rewrite Hs in Hk. destruct (related_flow _ _ _ _ _ _ _ HR Hk) as (p & f & Hp & Hf & Hrf & _).
  exists a', p, f. by rewrite <- Hr.
Qed.

(** A late record makes the next duplicate count twice.  On its own a record that ends
    when the last one of its flow did is not counted; after a record that ends earlier
    it is, because the late record has moved the node's end time back. *)
Theorem late_record_recounts els inc late r :
  wf_elements els → aggregatable inc r els → aggregatable late r els →
  u32_or_0 r (node_time false) = end_of inc → 0 < end_of late < end_of inc →
  (∃ r1, aggregate_run els true true [inc] r = (Ok tt, r1) ∧ frame time_names r r1) ∧
  ∃ r2, aggregate_run els true true [late; inc] r = (Ok tt, r2) ∧
    ∀ i n src, StatsElements els !! i = Some n → AggregatedSourceStatsElements els !! i = Some src →
      Contains n "Delta" = true → u64_at r2 src = Some (u64 (u64_or_0 inc n + u64_or_0 r src)).
Proof.
  intros Hwf Hinc Hlate Ht Hl. unfold aggregate_run, rec_iter. cbn [rec_fold].
  assert (Hprev : ∀ x, prevFlowEndSeconds x r true true = end_of inc).
  { intros x. unfold prevFlowEndSeconds, prev_time. rewrite Ht. by rewrite decide_False by lia. }
  destruct (aggregateRecords_spec inc r els true true Hwf Hinc) as (r1 & E1 & _ & _ & H1).
  rewrite Hprev, decide_True in H1 by done. split.
  { exists r1. split; [by rewrite (M_bind_Ok _ _ _ _ _ E1)|done]. }
  destruct (aggregateRecords_spec late r els true true Hwf Hlate) as (ra & Ea & Hag).
  pose proof (aggregatable_kept late r els true true ra inc Hwf Hlate Hag Hinc) as Hinc'.
  pose proof (prev_after late inc r els true true ra eq_refl Hlate Hag (proj1 Hl)) as Hp.
  destruct Hag as (_ & _ & Ha). rewrite Hprev, decide_True in Ha by (unfold end_of in *; lia).
  destruct (aggregateRecords_spec inc ra els true true Hwf Hinc') as (r2 & E2 & _ & _ & H2).
  rewrite Hp, decide_False in H2 by (unfold end_of in *; lia). destruct H2 as (_ & _ & HS & _).
  exists r2. split; [by rewrite (M_bind_Ok _ _ _ _ _ Ea), (M_bind_Ok _ _ _ _ _ E2)|].
  intros i n src Hn Hs Hd. destruct (HS i n Hn) as (P & _ & _). rewrite Hs in P. cbn [from_option id] in P.
  rewrite P, Hd. unfold node_value. do 3 f_equal. unfold u64_or_0. rewrite (frame_value _ _ _ _ _ Ha); [done|].
  destruct (disjoint_parts els Hwf) as (_ & D & _). apply D. unfold stats_list. rewrite !elem_of_app.
  right. left. by eapply list_elem_of_lookup_2.
Qed.


Lemma flow_ready_witness :
  ∃ a' p f, aggregate_messages loaded_registry (λ _ _, 1000) 0 ex_flow_messages ex_a0 = (Ok tt, a') ∧
    flowKeyRecordMap a' !! ex_key = Some p ∧ flowRecords a' !! p = Some f ∧ ReadyToSend f = true.
Proof.
  destruct (flow_ready loaded_registry antrea_elements ex_fields ex_kind (λ _ _, 1000)
    ex_input ex_a0 ex_flow_messages ex_key true) as (a' & p & f & E & Hp & Hf & H).
  - exact ex_config.
  - reflexivity.
  - reflexivity.
  - exact ex_a0_start.
  - exact ex_usable_messages.
  - vm_compute. discriminate.
  - evaluate.
  - exists a', p, f. split; [exact E|]. split; [exact Hp|]. split; [exact Hf|]. rewrite H. vm_compute. reflexivity.
Defined.

(** 500 packets are reported once and counted twice. *)
Lemma late_record_recounts_witness :
  ∃ r, aggregate_run antrea_elements true true
         [ex_record 1234 10 15 900 7000 "pod1" "pod2"; ex_record 1234 10 20 1000 8000 "pod1" "pod2"]
         ex_stored = (Ok tt, r) ∧
    u64_at r "packetDeltaCountFromSourceNode" = Some 1000.
Proof.
  destruct (late_record_recounts antrea_elements (ex_record 1234 10 20 1000 8000 "pod1" "pod2")
    (ex_record 1234 10 15 900 7000 "pod1" "pod2") ex_stored) as (_ & r & E & H).
  - exact antrea_wf.
  - split_and!; [apply full_filled; evaluate|apply full_filled; evaluate|evaluate..].
  - split_and!; [apply full_filled; evaluate|apply full_filled; evaluate|evaluate..].
  - vm_compute. reflexivity.
  - split; vm_compute; reflexivity.
  - exists r. split; [exact E|].
    rewrite (H 1%nat "packetDeltaCount" "packetDeltaCountFromSourceNode" eq_refl eq_refl eq_refl)%string.
    vm_compute. reflexivity.
Defined.
