(* ===== verification/WorkerPool.v ===== *)
(** * Several workers on one aggregation process

    The workers of src/pkg/intermediate/worker.go at work on the messages of one channel,
    this time with what they do to the process: Workers.v is about the mutex and [Stop],
    this file about the flows.  A worker that has received a message runs
    [AggregateMsgByFlowKey] on it; [addOrUpdateRecordInMap] holds the mutex, so it is one
    step, and between two records of a message other workers may add theirs.  Whatever
    the interleaving, the flows are those of all records in some order. *)

From Stdlib Require Import ZArith Lia.
From Stdlib.Strings Require Import Byte.
From stdpp Require Import base gmap strings list numbers relations.
From S2P Require Import Prelude Bytes InfoElement Records Sets Registry NetIP Heap PriorityQueue.
From S2P Require Import Aggregate Correlate FirstRecord AggregationProcess Flows.

#[local] Open Scope Z_scope.

(** A worker in its [select], or in its job: the records to go, the number of invalid
    ones so far and the number of all. *)
Inductive pool_worker : Type :=
| Waits
| Works (rest : list IPFIXRecord) (invalidRecs total : nat).

#[global] Instance waits_dec w : Decision (w = Waits).
Proof. refine (match w with Waits => left eq_refl | Works _ _ _ => right _ end). discriminate. Defined.

(** The log of the records added so far only serves the statements. *)
Record pool : Type := mkPool {
  pool_process : AggregationProcess;
  pool_messages : list Message;
  pool_workers : list pool_worker;
  pool_log : list IPFIXRecord;
  pool_errors : list error;
}.

Definition with_job (i : nat) (w : pool_worker) (s : pool) : pool :=
  mkPool (pool_process s) (pool_messages s) (<[i := w]> (pool_workers s)) (pool_log s) (pool_errors s).

(** The job ends with [return err]; the worker logs the error and selects again. *)
Definition job_returns (i : nat) (e : option error) (s : pool) : pool :=
  mkPool (pool_process s) (pool_messages s) (<[i := Waits]> (pool_workers s)) (pool_log s)
    (pool_errors s ++ option_list e).

(** What a worker has to do with a message. *)
Definition job_of (msg : Message) : pool_worker :=
  match msg_set msg with
  | Some set => if decide (setType set = Data) then Works (records set) 0 (length (records set)) else Waits
  | None => Waits
  end.

Inductive pool_step (reg : Registry) : pool → pool → Prop :=
| pool_receives i msg msgs s :
    pool_workers s !! i = Some Waits → pool_messages s = msg :: msgs → is_Some (msg_set msg) →
    pool_step reg s
      (mkPool (pool_process s) msgs (<[i := job_of msg]> (pool_workers s)) (pool_log s) (pool_errors s))
| pool_invalid i r rest n t s :
    pool_workers s !! i = Some (Works (r :: rest) n t) → validateDataRecord r = false →
    pool_step reg s (with_job i (Works rest (S n) t) s)
| pool_no_key i r rest n t e s :
    pool_workers s !! i = Some (Works (r :: rest) n t) → validateDataRecord r = true →
    getFlowKeyFromRecord r = Err e → pool_step reg s (job_returns i (Some e) s)
| pool_adds i r rest n t now key ipv4 a' s :
    pool_workers s !! i = Some (Works (r :: rest) n t) → validateDataRecord r = true →
    getFlowKeyFromRecord r = Ok (key, ipv4) →
    addOrUpdateRecordInMap reg now key r ipv4 (pool_process s) = (Ok tt, a') →
    pool_step reg s
      (mkPool a' (pool_messages s) (<[i := Works rest n t]> (pool_workers s)) (pool_log s ++ [r]) (pool_errors s))
| pool_fails i r rest n t now key ipv4 e a' s :
    pool_workers s !! i = Some (Works (r :: rest) n t) → validateDataRecord r = true →
    getFlowKeyFromRecord r = Ok (key, ipv4) →
    addOrUpdateRecordInMap reg now key r ipv4 (pool_process s) = (Err e, a') →
    pool_step reg s
      (mkPool a' (pool_messages s) (<[i := Waits]> (pool_workers s)) (pool_log s) (pool_errors s ++ [e]))
| pool_done i n t s :
    pool_workers s !! i = Some (Works [] n t) →
    pool_step reg s (job_returns i (if decide (n = t) then Some ErrAllRecordsInvalid else None) s).

(** [n] workers and the messages that will come. *)
Definition pool_start (a : AggregationProcess) (n : nat) (msgs : list Message) : pool :=
  mkPool a msgs (replicate n Waits) [] [].

(** The channel is empty and every worker waits. *)
Definition pool_idle (s : pool) : Prop := pool_messages s = [] ∧ Forall (λ w, w = Waits) (pool_workers s).

Ltac pool_fields :=
  cbn [pool_start with_job job_returns pool_process pool_messages pool_workers pool_log pool_errors].

(** ** Lemmas: the work that is left *)

Definition job_records (w : pool_worker) : list IPFIXRecord :=
  match w with Waits => [] | Works rest _ _ => rest end.

Definition jobs_left (ws : list pool_worker) : list IPFIXRecord := ws ≫= job_records.

Lemma jobs_split ws i w :
  ws !! i = Some w → jobs_left ws = jobs_left (take i ws) ++ job_records w ++ jobs_left (drop (S i) ws).
Proof.
  intros Hw. rewrite <- (take_drop_middle ws i w Hw) at 1. unfold jobs_left.
  by rewrite bind_app, bind_cons.
Qed.

(** Only the changed worker's records matter. *)
Lemma jobs_insert ws i w w' :
  ws !! i = Some w → jobs_left (<[i := w']> ws) ++ job_records w ≡ₚ jobs_left ws ++ job_records w'.
Proof.
  intros Hw. pose proof (lookup_lt_Some _ _ _ Hw) as Hi.
  rewrite (jobs_split ws i w Hw), insert_take_drop by done. unfold jobs_left.
  rewrite bind_app, bind_cons, <- !app_assoc. apply Permutation_app_head.
  etrans; [apply Permutation_app_comm|]. rewrite app_assoc.
  apply Permutation_app_tail, Permutation_app_comm.
Qed.

Lemma data_records_message m msgs :
  is_Some (msg_set m) → data_records (m :: msgs) = job_records (job_of m) ++ data_records msgs.
Proof.
  intros [set Hs]. unfold data_records. rewrite bind_cons. f_equal. unfold job_of. rewrite Hs. by case_decide.
Qed.

Section pool.
Context (reg : Registry) (els : AggregationElements) (fields : list string).
Context (kind : string → InfoElementWithValue).
Hypothesis Hwf : wf_config reg els fields.
Context (a0 : AggregationProcess) (workers : nat) (msgs : list Message).
Hypothesis Ha0 : related els fields kind ∅ a0.
Hypothesis Hmsgs : Forall (usable_message els fields kind) msgs.
Implicit Types (s : pool).

(** Every record is in the log, in a job or in a message of the channel; the process has
    the flows of the log; and a job that works on records has had no invalid one. *)
Record pool_inv s : Prop := {
  pi_records : pool_log s ++ jobs_left (pool_workers s) ++ data_records (pool_messages s)
               ≡ₚ data_records msgs;
  pi_flows : related els fields kind (foldl (flows_step fields) ∅ (pool_log s)) (pool_process s);
  pi_messages : Forall (usable_message els fields kind) (pool_messages s);
  pi_jobs : Forall (λ w, Forall (usable els fields kind) (job_records w) ∧
                         match w with Waits => True | Works _ n t => n = 0%nat ∧ (0 < t)%nat end)
              (pool_workers s);
  pi_errors : pool_errors s = [];
  pi_workers : length (pool_workers s) = workers;
}.

Lemma start_inv : pool_inv (pool_start a0 workers msgs).
Proof.
  constructor; pool_fields; try done.
  - assert (Hj : jobs_left (replicate workers Waits) = []).
    { induction workers as [|n IH]; [done|]. exact IH. }
    by rewrite Hj.
  - by apply Forall_replicate.
  - apply length_replicate.
Qed.

Lemma job_of_usable m :
  usable_message els fields kind m →
  is_Some (msg_set m) ∧ Forall (usable els fields kind) (job_records (job_of m)) ∧
  match job_of m with Waits => True | Works _ n t => n = 0%nat ∧ (0 < t)%nat end.
Proof.
  unfold usable_message, job_of. destruct (msg_set m) as [set|]; [|done]. intros Hu. split; [done|].
  case_decide as Ht; [|done]. destruct (Hu Ht) as [Hne Hus]. split; [done|]. split; [done|].
  destruct (records set); [done|]. simpl. lia.
Qed.

Lemma jobs_ok s i w : pool_inv s → pool_workers s !! i = Some w →
  Forall (usable els fields kind) (job_records w) ∧
  match w with Waits => True | Works _ n t => n = 0%nat ∧ (0 < t)%nat end.
Proof. intros Hi Hw. exact (Forall_lookup_1 _ _ _ _ (pi_jobs _ Hi) Hw). Qed.

(** A usable record is added, whatever the other workers did before. *)
Lemma add_record s i r rest n t now key v4 :
  pool_inv s → pool_workers s !! i = Some (Works (r :: rest) n t) → getFlowKeyFromRecord r = Ok (key, v4) →
  ∃ a', addOrUpdateRecordInMap reg now key r v4 (pool_process s) = (Ok tt, a') ∧
    related els fields kind (foldl (flows_step fields) ∅ (pool_log s ++ [r])) a'.
Proof.
  intros Hi Hw Hk. destruct (jobs_ok _ _ _ Hi Hw) as [Hu _]. apply list.Forall_cons in Hu as [Hu _].
  destruct (usable_key els fields kind r Hu) as [v4' Hk']. rewrite Hk in Hk'. injection Hk' as -> ->.
  rewrite foldl_snoc. by apply addOrUpdate_related; [|apply Hi|].
Qed.

Lemma pool_inv_step s s' : pool_step reg s s' → pool_inv s → pool_inv s'.
Proof.
  intros Hs Hi. pose proof Hi as [H1 H2 H3 H4 H5 H6].
  destruct Hs as [i m ms s Hw Hm Hset|i r rest n t s Hw Hv|i r rest n t e s Hw Hv Hk
                 |i r rest n t now key v4 a' s Hw Hv Hk Ha|i r rest n t now key v4 e a' s Hw Hv Hk Ha
                 |i n t s Hw];
    destruct (jobs_ok _ _ _ Hi Hw) as [Hu Hnt].
  - rewrite Hm in *. apply list.Forall_cons in H3 as [Hum H3]. destruct (job_of_usable m Hum) as (_ & J1 & J2).
    constructor; pool_fields; try done; [|by apply Forall_insert|by rewrite length_insert].
    rewrite <- H1, data_records_message by done. apply Permutation_app_head.
    rewrite app_assoc. apply Permutation_app_tail.
    pose proof (jobs_insert _ i _ (job_of m) Hw) as HP. cbn [job_records] in HP. by rewrite app_nil_r in HP.
  - apply list.Forall_cons in Hu as [Hu _]. by rewrite (usable_valid els fields kind) in Hv.
  - apply list.Forall_cons in Hu as [Hu _]. destruct (usable_key els fields kind r Hu) as [v4 Hk'].
    by rewrite Hk in Hk'.
  - destruct (add_record s i r rest n t now key v4 Hi Hw Hk) as (a2 & E & HR).
    rewrite Ha in E. injection E as <-. apply list.Forall_cons in Hu as [Hu Hus].
    constructor; pool_fields; try done; [|by apply Forall_insert|by rewrite length_insert].
    rewrite <- H1, <- app_assoc. apply Permutation_app_head. rewrite app_assoc.
    apply Permutation_app_tail. pose proof (jobs_insert _ i _ (Works rest n t) Hw) as HP.
    cbn [job_records] in HP. rewrite <- Permutation_middle in HP.
    apply (Permutation_app_inv_r rest). exact HP.
  - destruct (add_record s i r rest n t now key v4 Hi Hw Hk) as (a2 & E & HR). by rewrite Ha in E.
  - destruct Hnt as [-> Ht]. rewrite decide_False by lia. constructor; pool_fields; try done;
      [|by apply Forall_insert|by rewrite H5|by rewrite length_insert].
    rewrite <- H1. apply Permutation_app_head, Permutation_app_tail.
    pose proof (jobs_insert _ i _ Waits Hw) as HP. cbn [job_records] in HP. by rewrite !app_nil_r in HP.
Qed.

Lemma inv_reachable s : rtc (pool_step reg) (pool_start a0 workers msgs) s → pool_inv s.
Proof.
  intros Hr. apply (rtc_invariant (pool_step reg) pool_inv _ _ pool_inv_step Hr). apply start_inv.
Qed.

(** As long as there is work, some worker can go on. *)
Lemma pool_progress s :
  pool_inv s → (0 < workers)%nat → pool_idle s ∨ ∃ s', pool_step reg s s'.
Proof.
  intros Hi Hn. destruct (decide (Exists (λ w, w ≠ Waits) (pool_workers s))) as [He|He].
  - right. apply Exists_exists in He as (w & (i & Hw)%list_elem_of_lookup & Hne).
    destruct w as [|[|r rest] n t]; [done|eexists; by eapply pool_done|].
    destruct (jobs_ok _ _ _ Hi Hw) as [Hu _]. apply list.Forall_cons in Hu as [Hu _].
    destruct (usable_key els fields kind r Hu) as [v4 Hk].
    destruct (add_record s i r rest n t 0 _ _ Hi Hw Hk) as (a' & E & _).
    eexists. eapply pool_adds; [done|by eapply usable_valid|done|done].
  - assert (Hall : Forall (λ w, w = Waits) (pool_workers s)).
    { apply list.Forall_forall. intros w Hw. destruct (decide (w = Waits)) as [|Hne]; [done|].
      destruct He. apply Exists_exists. eauto. }
    destruct (pool_messages s) as [|m ms] eqn:Hm; [by left|right].
    assert (is_Some (pool_workers s !! 0%nat)) as [w Hw] by (apply lookup_lt_is_Some_2; rewrite (pi_workers _ Hi); lia).
    rewrite (Forall_lookup_1 _ _ _ _ Hall Hw) in Hw.
    pose proof (pi_messages _ Hi) as Hus. rewrite Hm in Hus. apply list.Forall_cons in Hus as [Hu _].
    destruct (job_of_usable m Hu) as (Hset & _). eexists. by eapply pool_receives.
Qed.

(** The steps a job, a message and the whole pool can still make. *)
Definition job_steps (w : pool_worker) : nat :=
  match w with Waits => 0 | Works rest _ _ => S (length rest) end.
Definition message_steps (m : Message) : nat := S (job_steps (job_of m)).
Definition steps_left s : nat :=
  (sum_list_with message_steps (pool_messages s) + sum_list_with job_steps (pool_workers s))%nat.

Lemma job_steps_insert (ws : list pool_worker) i w w' :
  ws !! i = Some w →
  (sum_list_with job_steps (<[i := w']> ws) + job_steps w = sum_list_with job_steps ws + job_steps w')%nat.
Proof.
  intros Hw. rewrite insert_take_drop by (by eapply lookup_lt_Some).
  rewrite <- (take_drop_middle ws i w Hw) at 3. rewrite !sum_list_with_app. simpl. lia.
Qed.

Lemma step_lighter s s' : pool_step reg s s' → (steps_left s' < steps_left s)%nat.
Proof.
  intros Hs. unfold steps_left.
  destruct Hs as [i m ms s Hw Hm Hset|i r rest n t s Hw Hv|i r rest n t e s Hw Hv Hk
                 |i r rest n t now key v4 a' s Hw Hv Hk Ha|i r rest n t now key v4 e a' s Hw Hv Hk Ha
                 |i n t s Hw]; pool_fields.
  - pose proof (job_steps_insert _ i _ (job_of m) Hw) as HS. rewrite Hm. cbn [sum_list_with job_steps] in *.
    unfold message_steps at 2. lia.
  - pose proof (job_steps_insert _ i _ (Works rest (S n) t) Hw) as HS. cbn [job_steps length] in HS. lia.
  - pose proof (job_steps_insert _ i _ Waits Hw) as HS. cbn [job_steps length] in HS. lia.
  - pose proof (job_steps_insert _ i _ (Works rest n t) Hw) as HS. cbn [job_steps length] in HS. lia.
  - pose proof (job_steps_insert _ i _ Waits Hw) as HS. cbn [job_steps length] in HS. lia.
  - pose proof (job_steps_insert _ i _ Waits Hw) as HS. cbn [job_steps length] in HS. lia.
Qed.

Lemma run_bounded n s s' : nsteps (pool_step reg) n s s' → (n + steps_left s' <= steps_left s)%nat.
Proof. induction 1 as [s|n s s1 s' H1 _ IH]; [lia|]. apply step_lighter in H1. lia. Qed.

End pool.

(** ** A scheduler

    One step of worker [i], and a run by a schedule: the relation, executed. *)

Definition pool_next (reg : Registry) (now : Z) (i : nat) (s : pool) : option pool :=
  match pool_workers s !! i with
  | Some Waits =>
      match pool_messages s with
      | msg :: msgs =>
          if decide (is_Some (msg_set msg)) then
            Some (mkPool (pool_process s) msgs (<[i := job_of msg]> (pool_workers s)) (pool_log s) (pool_errors s))
          else None
      | [] => None
      end
  | Some (Works [] n t) => Some (job_returns i (if decide (n = t) then Some ErrAllRecordsInvalid else None) s)
  | Some (Works (r :: rest) n t) =>
      if validateDataRecord r then
        match getFlowKeyFromRecord r with
        | Ok (key, ipv4) =>
            match addOrUpdateRecordInMap reg now key r ipv4 (pool_process s) with
            | (Ok _, a') => Some (mkPool a' (pool_messages s) (<[i := Works rest n t]> (pool_workers s))
                                    (pool_log s ++ [r]) (pool_errors s))
            | (Err e, a') => Some (mkPool a' (pool_messages s) (<[i := Waits]> (pool_workers s)) (pool_log s)
                                     (pool_errors s ++ [e]))
            | _ => None
            end
        | Err e => Some (job_returns i (Some e) s)
        | _ => None
        end
      else Some (with_job i (Works rest (S n) t) s)
  | None => None
  end.

Lemma pool_next_step reg now i s s' : pool_next reg now i s = Some s' → pool_step reg s s'.
Proof.
  unfold pool_next. destruct (pool_workers s !! i) as [[|[|r rest] n t]|] eqn:Hw; [| | |done].
  - destruct (pool_messages s) as [|m ms] eqn:Hm; [done|]. case_decide; [|done]. intros [= <-].
    by apply pool_receives.
  - intros [= <-]. by apply pool_done.
  - destruct (validateDataRecord r) eqn:Hv; [|intros [= <-]; by eapply pool_invalid].
    destruct (getFlowKeyFromRecord r) as [[key v4]|e| |] eqn:Hk; [|intros [= <-]; by eapply pool_no_key|done..].
    destruct (addOrUpdateRecordInMap reg now key r v4 (pool_process s)) as [[[]|e| |] a'] eqn:Ha; [| |done..].
    + intros [= <-]. by eapply pool_adds.
    + intros [= <-]. by eapply pool_fails.
Qed.

Fixpoint pool_run (reg : Registry) (now : Z) (schedule : list nat) (s : pool) : option pool :=
  match schedule with
  | [] => Some s
  | i :: schedule => s ← pool_next reg now i s; pool_run reg now schedule s
  end.

Lemma pool_run_steps reg now schedule s s' :
  pool_run reg now schedule s = Some s' → nsteps (pool_step reg) (length schedule) s s'.
Proof.
  revert s. induction schedule as [|i schedule IH]; intros s; cbn [pool_run length].
  - intros [= <-]. constructor.
  - intros (s1 & H1 & H)%bind_Some. econstructor; [by eapply pool_next_step|by apply IH].
Qed.

(** ** Properties *)

(** C19: the workers do not interfere.  Let any positive number of workers take the
    messages of a channel and add their records, each record in one step and in any
    interleaving.  No record fails and no run is longer than the records and
    two steps for each message; as long as there is work some worker can go on; and when
    there is none the process has exactly the flows that the specification computes
    from all the records, added one after the other in some order. *)
Theorem workers_linearize reg els fields kind input a workers msgs :
  wf_config reg els fields → in_AggregateElements input = Some els → in_CorrelateFields input = fields →
  InitAggregationProcess input = Ok a → Forall (usable_message els fields kind) msgs → (0 < workers)%nat →
  ∀ n s, nsteps (pool_step reg) n (pool_start a workers msgs) s →
    (n <= length (data_records msgs) + 2 * length msgs)%nat ∧ pool_errors s = [] ∧
    (pool_idle s ∨ ∃ s', pool_step reg s s') ∧
    (pool_idle s → pool_log s ≡ₚ data_records msgs ∧
       ∀ k, match summarise fields (of_key k (pool_log s)) with
            | None => flowKeyRecordMap (pool_process s) !! k = None
            | Some sum => ∃ p f, flowKeyRecordMap (pool_process s) !! k = Some p ∧
                flowRecords (pool_process s) !! p = Some f ∧
                ReadyToSend f = sum_ready sum ∧ summarised els fields kind sum (Record_ f)
            end).
Proof.
  intros Hwf He Hc Hinit Hu Hn n s Hr. pose proof (init_related els fields kind input a He Hc Hinit) as HR.
  assert (Hi : pool_inv els fields kind workers msgs s).
  { eapply inv_reachable; [done..|]. by eapply rtc_nsteps_2. }
  split_and!; [|by eapply pi_errors|by eapply pool_progress|].
  - apply run_bounded in Hr. unfold steps_left, pool_start in Hr. cbn in Hr.
    assert (Hz : sum_list_with job_steps (replicate workers Waits) = 0%nat).
    { clear. induction workers as [|w IH]; [done|]. exact IH. }
    assert (Hm : (sum_list_with message_steps msgs <= length (data_records msgs) + 2 * length msgs)%nat).
    { clear - Hu. induction Hu as [|m ms Hm _ IH]; [done|]. cbn [sum_list_with length].
      destruct (job_of_usable els fields kind m Hm) as (Hset & _).
      rewrite data_records_message, length_app by done.
      change (message_steps m) with (S (job_steps (job_of m))).
      destruct (job_of m); cbn [job_steps job_records length]; lia. }
    lia.
  - intros [Hm Hw]. pose proof (pi_records _ _ _ _ _ _ Hi) as HP. rewrite Hm in HP.
    assert (Hj : jobs_left (pool_workers s) = []).
    { clear - Hw. induction Hw as [|w ws -> _ IH]; [done|exact IH]. }
    rewrite Hj, !app_nil_r in HP. split; [done|]. intros k. rewrite <- flows_of_key.
    apply related_flows, Hi.
Qed.

(** Two workers, each with one of two messages, take turns. *)
Definition ex_schedule : list nat := [0; 1; 0; 1; 1; 0; 1; 0]%nat.
Definition ex_pool_end : pool :=
  default (pool_start ex_a0 2 []) (pool_run loaded_registry 1000 ex_schedule (pool_start ex_a0 2 ex_flow_messages)).

Lemma workers_linearize_witness :
  pool_errors ex_pool_end = [] ∧ pool_log ex_pool_end ≡ₚ data_records ex_flow_messages ∧
  is_Some (flowKeyRecordMap (pool_process ex_pool_end) !! ex_key).
Proof.
  assert (Hr : nsteps (pool_step loaded_registry) 8 (pool_start ex_a0 2 ex_flow_messages) ex_pool_end).
  { apply (pool_run_steps _ 1000 ex_schedule).
    assert (Hs : is_Some (pool_run loaded_registry 1000 ex_schedule (pool_start ex_a0 2 ex_flow_messages)))
      by evaluate.
    unfold ex_pool_end. destruct (pool_run _ _ _ _); [reflexivity|by destruct Hs]. }
  destruct (workers_linearize loaded_registry antrea_elements ex_fields ex_kind ex_input ex_a0 2 ex_flow_messages
    ex_config eq_refl eq_refl ex_a0_start ex_usable_messages ltac:(lia) 8%nat ex_pool_end Hr) as (_ & He & _ & Hd).
  assert (Hidle : pool_idle ex_pool_end) by (split; [vm_compute; reflexivity|evaluate]).
  destruct (Hd Hidle) as [HP Hk]. split; [exact He|]. split; [exact HP|].
  specialize (Hk ex_key).
  assert (Hl : length (of_key ex_key (pool_log ex_pool_end)) = 3%nat) by (vm_compute; reflexivity).
  destruct (of_key ex_key (pool_log ex_pool_end)) as [|r rs]; [discriminate Hl|].
  destruct Hk as (p & f & Hp & _). exists p. exact Hp.
Defined.
