(* ===== verification/Timeline.v ===== *)
(** * The life of a flow in the aggregation process

    Messages and expiry runs of src/pkg/intermediate/aggregate.go in any order.  The
    specification is about one flow at a time: its summary, its two deadlines, its
    retries, and the summaries that are reported for it.  The process, which has all
    flows in one priority queue, is proved to give every flow the life it would have
    alone. *)

From Stdlib Require Import ZArith Lia.
From Stdlib.Strings Require Import Byte.
From stdpp Require Import base gmap strings list numbers.
From S2P Require Import Prelude Bytes InfoElement Records Sets Registry NetIP Heap PriorityQueue.
From S2P Require Import Aggregate Correlate FirstRecord AggregationProcess Flows.

#[local] Open Scope Z_scope.

(** ** The specification *)

(** What the process knows of a flow; [en_queued] is false for a flow whose item has left
    the queue and which is therefore never reported again. *)
Record entry : Type := mkEntry {
  en_summary : flow_summary;
  en_active : Z;
  en_inactive : Z;
  en_retries : Z;
  en_queued : bool;
}.

(** What can happen to a flow: one of its records arrives, or an expiry run starts. *)
Inductive flow_event : Type := Arrives (t : Z) (r : IPFIXRecord) | ExpiryAt (now : Z).

Section spec.
(** The correlated fields, the timeouts, and what the callback does to a flow that it
    reports. *)
Context (fields : list string) (active inactive : Z) (after_report : flow_summary → flow_summary).

(** A record starts the flow, or updates it and moves its inactive deadline. *)
Definition arrive (t : Z) (r : IPFIXRecord) (o : option entry) : entry :=
  match o with
  | None => mkEntry (summary_first r) (t + active) (t + inactive) 0 true
  | Some e => mkEntry (summary_next fields r (en_summary e)) (en_active e) (t + inactive) (en_retries e)
                (en_queued e)
  end.

Definition en_due (now : Z) (e : entry) : bool :=
  en_queued e && bool_decide (Z.min (en_active e) (en_inactive e) <= now).

(** The flow is popped: what becomes of it, and what is reported. *)
Definition pop_entry (now : Z) (e : entry) : option entry * list flow_summary :=
  let s := en_summary e in
  if sum_ready s then
    (if decide (en_inactive e < now) then None
     else Some (if decide (en_active e < now)
                then mkEntry (after_report s) (now + active) (en_inactive e) (en_retries e) true
                else mkEntry (after_report s) (en_active e) (en_inactive e) (en_retries e) false),
     [s])
  else if decide (en_retries e = MaxRetries) then (None, [])
  else (Some (mkEntry s (now + active) (now + inactive) (en_retries e + 1) true), []).

(** It is popped until it is not due. *)
Fixpoint expire_entry (fuel : nat) (now : Z) (o : option entry) : option entry * list flow_summary :=
  match fuel, o with
  | S fuel, Some e =>
      if en_due now e then
        let '(o1, l1) := pop_entry now e in
        let '(o2, l2) := expire_entry fuel now o1 in (o2, l1 ++ l2)
      else (o, [])
  | _, _ => (o, [])
  end.

(** It is popped at most four times. *)
Definition life_step (st : option entry * list flow_summary) (ev : flow_event)
    : option entry * list flow_summary :=
  match ev with
  | Arrives t r => (Some (arrive t r st.1), st.2)
  | ExpiryAt now => let '(o, l) := expire_entry 5 now st.1 in (o, st.2 ++ l)
  end.

(** The flow after its events, and everything reported for it. *)
Definition flow_life (evs : list flow_event) : option entry * list flow_summary :=
  foldl life_step (None, []) evs.

End spec.

(** The events that concern a flow: its own records and all expiry runs. *)
Definition concerns (k : FlowKey) (ev : flow_event) : Prop :=
  match ev with Arrives _ r => record_key r = k | ExpiryAt _ => True end.

#[global] Instance concerns_dec k ev : Decision (concerns k ev).
Proof. destruct ev; simpl; apply _. Defined.

(** ** What the process does *)

(** A message is aggregated, with the clock that is read for its records; or the expired
    flows are reported. *)
Inductive agg_event : Type := MessageAt (clock : nat → Z) (msg : Message) | ExpiryRun (now : Z).

Definition process_event (reg : Registry) (cb : FlowKeyRecordMapCallBack) (ev : agg_event) : Run unit :=
  match ev with
  | MessageAt clock msg => in_process (AggregateMsgByFlowKey reg clock msg)
  | ExpiryRun now => ForAllExpiredFlowRecordsDo now cb
  end.

Fixpoint process_events (reg : Registry) (cb : FlowKeyRecordMapCallBack) (evs : list agg_event) : Run unit :=
  match evs with
  | [] => mret tt
  | ev :: evs => process_event reg cb ev;; process_events reg cb evs
  end.

(** The same for the flows. *)
Definition flow_events (ev : agg_event) : list flow_event :=
  match ev with
  | MessageAt clock msg =>
      match msg_set msg with
      | Some set => if decide (setType set = Data) then imap (λ i r, Arrives (clock i) r) (records set) else []
      | None => []
      end
  | ExpiryRun now => [ExpiryAt now]
  end.

Definition usable_event els fields kind (ev : agg_event) : Prop :=
  match ev with MessageAt _ msg => usable_message els fields kind msg | ExpiryRun _ => True end.

(** The calls for one flow. *)
Definition calls_of (k : FlowKey) (calls : list call) : list call := filter (λ c, c.1 = k) calls.

(** A call with a ready flow that has this summary. *)
Definition reported els fields kind (c : call) (s : flow_summary) : Prop :=
  ReadyToSend c.2 = true ∧ summarised els fields kind s (Record_ c.2).

(** A callback that never fails and does to a flow what [after] says. *)
Definition callback_does els fields kind (after : flow_summary → flow_summary) (cb : FlowKeyRecordMapCallBack)
    : Prop :=
  ∀ calls k f s, ReadyToSend f = true → summarised els fields kind s (Record_ f) → sum_ready s = true →
    ∃ f', cb calls k f = (Ok tt, f') ∧ ReadyToSend f' = sum_ready (after s) ∧
          summarised els fields kind (after s) (Record_ f').

(** The process has this of the flow. *)
Definition entry_at els fields kind (a : AggregationProcess) (k : FlowKey) (o : option entry) : Prop :=
  match o with
  | None => flowKeyRecordMap a !! k = None
  | Some e =>
      ∃ p f it, flowKeyRecordMap a !! k = Some p ∧ flowRecords a !! p = Some f ∧
        ReadyToSend f = sum_ready (en_summary e) ∧
        summarised els fields kind (en_summary e) (Record_ f) ∧
        waitForReadyToSendRetries f = en_retries e ∧
        data_of a !! PriorityQueueItem f = Some it ∧
        it = mkItemToExpire k p (en_active e) (en_inactive e) 0 ∧
        (PriorityQueueItem f ∈ pq (queue_of a) ↔ en_queued e = true)
  end.

(** ** Lemmas: the process and the entries *)

Section timeline.
Context (reg : Registry) (els : AggregationElements) (fields : list string).
Context (kind : string → InfoElementWithValue) (after : flow_summary → flow_summary).
Context (active inactive : Z).
Hypothesis Hwf : wf_config reg els fields.
Implicit Types (m : FlowKey → option entry) (a : AggregationProcess).

#[local] Abbreviation entry_at := (entry_at els fields kind).
#[local] Abbreviation configured := (configured els fields).
#[local] Abbreviation reported := (reported els fields kind).
#[local] Abbreviation step := (life_step fields active inactive after).
#[local] Abbreviation lives := (FlowKey → option entry * list flow_summary).

(** The process and the calls made so far are as the lives of the flows say. *)
Definition tracked (L : lives) (s : AggregationProcess * list call) : Prop :=
  configured s.1 ∧ activeExpiryTimeout s.1 = active ∧ inactiveExpiryTimeout s.1 = inactive ∧
  ∀ k, entry_at s.1 k (L k).1 ∧ Forall2 reported (calls_of k s.2) (L k).2.

(** The lives after some events. *)
Definition live (evs : list flow_event) (L : lives) : lives := λ k, foldl step (L k) (filter (concerns k) evs).

Lemma tracked_ext L L' s : (∀ k, L k = L' k) → tracked L s → tracked L' s.
Proof. intros HL (? & ? & ? & H). split_and!; try done. intros k. by rewrite <- HL. Qed.

Lemma live_app evs evs' L k : live (evs ++ evs') L k = live evs' (live evs L) k.
Proof. unfold live. by rewrite list.filter_app, foldl_app. Qed.

(** The entries of flows whose record and item stay as they are. *)
Lemma entry_frame a a' k o :
  entry_at a k o → flowKeyRecordMap a' !! k = flowKeyRecordMap a !! k →
  (∀ p f it, flowKeyRecordMap a !! k = Some p → flowRecords a !! p = Some f →
     data_of a !! PriorityQueueItem f = Some it → flowKey it = k →
     flowRecords a' !! p = Some f ∧ data_of a' !! PriorityQueueItem f = Some it ∧
     (PriorityQueueItem f ∈ pq (queue_of a') ↔ PriorityQueueItem f ∈ pq (queue_of a))) →
  entry_at a' k o.
Proof.
  intros He Hk H. destruct o as [e|]; cbn in *; [|by rewrite Hk].
  destruct He as (p & f & it & Hp & Hf & Hr & Hs & Hn & Hd & Hit & Hq). exists p, f, it. rewrite Hk.
  destruct (H p f it Hp Hf Hd) as (H1 & H2 & H3); [by rewrite Hit|]. split_and!; try done. by rewrite H3.
Qed.

(** A record makes its flow arrive and leaves the others alone. *)
Lemma addOrUpdate_entry a now inc v4 m :
  configured a → usable els fields kind inc → (∀ k, entry_at a k (m k)) →
  ∃ a', addOrUpdateRecordInMap reg now (record_key inc) inc v4 a = (Ok tt, a') ∧ configured a' ∧ same_config a a' ∧
    ∀ k, entry_at a' k (if decide (record_key inc = k)
                        then Some (arrive fields (activeExpiryTimeout a) (inactiveExpiryTimeout a) now inc (m k))
                        else m k).
Proof.
  intros Hc Hu Hm. pose proof Hc as (Hi & Ha & Hcf). pose proof (Hm (record_key inc)) as Hk.
  assert (Hother : ∀ k p f it, k ≠ record_key inc → flowKeyRecordMap a !! k = Some p → flowRecords a !! p = Some f →
    data_of a !! PriorityQueueItem f = Some it → flowKey it = k →
    ∀ p0 f0, flowKeyRecordMap a !! record_key inc = Some p0 → flowRecords a !! p0 = Some f0 →
    p ≠ p0 ∧ PriorityQueueItem f ≠ PriorityQueueItem f0).
  { intros k p f it Hne Hkp Hpf Hd Hik p0 f0 Hk0 Hf0.
    destruct (proj1 (proj2 Hi) _ _ Hk0) as (f1 & it1 & H1 & _ & H2 & H3 & _).
    rewrite Hf0 in H1. injection H1 as <-. split; intros E; rewrite E in *; congruence. }
  destruct (m (record_key inc)) as [e|] eqn:Em.
  - destruct Hk as (p & f & it & Hp & Hf & Hr & Hs & Hn & Hd & -> & Hq).
    destruct (addOrUpdate_present reg els fields kind Hwf a now inc v4 p f _ (en_summary e) Hc Hu Hp Hf Hd Hr Hs)
      as (a' & f' & E & Hg & HK & HR & [Hsi Hre] & Hr' & Hs' & Hpq & Hdata).
    pose proof Hg as (Hi' & Hsc & _). pose proof Hsc as (_ & _ & E1 & E2).
    exists a'. split; [done|]. split; [split_and!; [done|congruence|congruence]|]. split; [done|]. intros k.
    case_decide as Hkk; [subst k; rewrite Em|].
    + exists p, f'. eexists. cbn [arrive en_summary en_active en_inactive en_retries en_queued].
      rewrite HK, HR, lookup_insert_eq, Hsi, Hdata, lookup_insert_eq, Hpq, Hre. by split_and!.
    + apply (entry_frame a); [done|by rewrite HK|]. intros p1 f1 it1 Hp1 Hf1 Hd1 Hk1.
      destruct (Hother k p1 f1 it1) with (p0 := p) (f0 := f) as [N1 N2]; [done..|].
      rewrite HR, Hdata, Hpq, !lookup_insert_ne by done. by split_and!.
  - destruct (addOrUpdate_absent reg els fields kind Hwf a now inc v4 Hc Hu Hk)
      as (a' & p & f & E & Hg & HK & Hp & HR & Hr & Hs & Hre & Hdn & Hpq & Hdata).
    pose proof Hg as (Hi' & Hsc & _). pose proof Hsc as (_ & _ & E1 & E2).
    exists a'. split; [done|]. split; [split_and!; [done|congruence|congruence]|]. split; [done|]. intros k.
    case_decide as Hkk; [subst k; rewrite Em|].
    + exists p, f. eexists. cbn [arrive en_summary en_active en_inactive en_retries en_queued].
      rewrite HK, HR, !lookup_insert_eq, Hdata, lookup_insert_eq, Hpq, elem_of_cons.
      split_and!; [done..|]. by split; [|left].
    + apply (entry_frame a); [done|by rewrite HK, lookup_insert_ne|]. intros p1 f1 it1 Hp1 Hf1 Hd1 Hk1.
      rewrite HR, Hdata, Hpq, !lookup_insert_ne, elem_of_cons by congruence. split_and!; [done..|].
      split; [intros [?|?]; [congruence|done]|by right].
Qed.

Lemma aggregate_records_tracked clock i rs n L a calls :
  tracked L (a, calls) → Forall (usable els fields kind) rs →
  ∃ a', aggregate_records reg clock i rs n a = (Ok n, a') ∧
        tracked (live (imap (λ j r, Arrives (clock (i + j)%nat) r) rs) L) (a', calls).
Proof.
  revert i L a. induction rs as [|inc rs IH]; intros i L a HT Hu; [by exists a|].
  apply list.Forall_cons in Hu as [Hu Hus]. cbn [aggregate_records].
  rewrite (usable_valid els fields kind) by done. destruct (usable_key els fields kind _ Hu) as [v4 Hk].
  rewrite (M_bind_Ok _ _ _ (record_key inc, v4) a) by (unfold M_lift; by rewrite Hk). cbv beta iota.
  destruct HT as (Hc & Hact & Hinact & HL). cbn [fst snd] in *.
  destruct (addOrUpdate_entry a (clock i) inc v4 (λ k, (L k).1) Hc Hu (λ k, proj1 (HL k)))
    as (a1 & E & Hc1 & (E1 & E2 & _) & Hm1).
  rewrite (M_bind_Ok _ _ _ _ _ E).
  destruct (IH (S i) (live [Arrives (clock i) inc] L) a1) as (a' & E' & HT'); [|done|].
  { split_and!; cbn [fst snd]; [done|congruence|congruence|]. intros k. specialize (Hm1 k).
    unfold live. cbn [filter list_filter concerns]. rewrite Hact, Hinact in Hm1.
    destruct (decide (record_key inc = k)); (split; [exact Hm1|apply HL]). }
  exists a'. split; [done|]. eapply tracked_ext; [|exact HT']. intros k. cbn [imap].
  rewrite Nat.add_0_r, <- live_app. cbn [app]. do 2 f_equal.
  apply imap_ext. intros j r _. cbn. by rewrite Nat.add_succ_r.
Qed.

Lemma message_tracked clock msg L a calls :
  tracked L (a, calls) → usable_message els fields kind msg →
  ∃ a', AggregateMsgByFlowKey reg clock msg a = (Ok tt, a') ∧
        tracked (live (flow_events (MessageAt clock msg)) L) (a', calls).
Proof.
  intros HT Hu. unfold usable_message, flow_events, AggregateMsgByFlowKey in *.
  destruct (msg_set msg) as [set|]; [|done]. rewrite (M_bind_Ok _ _ _ set a) by done.
  case_decide; [|by exists a]. destruct Hu as [Hne Hus]; [done|].
  destruct (aggregate_records_tracked clock 0 (records set) 0 L a calls HT Hus) as (a' & E & HT').
  rewrite (M_bind_Ok _ _ _ _ _ E). exists a'. split; [|done].
  rewrite decide_False; [done|]. by destruct (records set).
Qed.

(** *** Expiry runs *)

(** A flow is popped until it is not due. *)
Inductive entry_run (now : Z) : option entry → list flow_summary → option entry → Prop :=
| entry_rest o : (∀ e, o = Some e → en_due now e = false) → entry_run now o [] o
| entry_pop e o1 l1 o2 l2 :
    en_due now e = true → pop_entry active inactive after now e = (o1, l1) → entry_run now o1 l2 o2 →
    entry_run now (Some e) (l1 ++ l2) o2.

(** How often a flow can still be popped. *)
Definition en_weight (now : Z) (o : option entry) : nat :=
  match o with
  | Some e => Z.to_nat (MaxRetries - en_retries e) + (if decide (en_active e < now) then 1 else 0) + 1
  | None => 0
  end.

Definition en_bounded (o : option entry) : Prop :=
  from_option (λ e, 0 <= en_retries e <= MaxRetries) True o.

Lemma expire_at_rest fuel now o :
  (∀ e, o = Some e → en_due now e = false) → expire_entry active inactive after fuel now o = (o, []).
Proof. intros H. destruct fuel, o as [e|]; cbn; try done. by rewrite (H e). Qed.

Lemma pop_bounded now e o l :
  pop_entry active inactive after now e = (o, l) → en_bounded (Some e) → en_bounded o.
Proof. unfold pop_entry, en_bounded. intros H Hb. repeat case_match; simplify_eq; cbn in *; try done; lia. Qed.

(** Popping makes a flow lighter, unless it has left the queue. *)
Lemma pop_lighter now e o l :
  0 <= active → pop_entry active inactive after now e = (o, l) → en_bounded (Some e) →
  (en_weight now o < en_weight now (Some e))%nat ∨ ∀ e', o = Some e' → en_queued e' = false.
Proof.
  intros HT H Hb. unfold pop_entry, en_bounded in *. cbn in Hb.
  destruct (sum_ready (en_summary e)); [destruct (decide (en_inactive e < now));
    [|destruct (decide (en_active e < now)) as [Ha|]]|destruct (decide (en_retries e = MaxRetries))]; simplify_eq.
  - left. cbn. lia.
  - left. cbn. rewrite decide_False, decide_True by lia. lia.
  - right. by intros e' [= <-].
  - left. cbn. lia.
  - left. cbn. rewrite decide_False by lia. lia.
Qed.

Lemma expire_entry_spec fuel now o l o' :
  0 <= active → entry_run now o l o' → en_bounded o → (en_weight now o < fuel)%nat →
  expire_entry active inactive after fuel now o = (o', l).
Proof.
  intros HT H. revert fuel. induction H as [o H|e o1 l1 o2 l2 Hdue Hpop Hrun IH]; intros fuel Hb Hw.
  { by apply expire_at_rest. }
  destruct fuel as [|fuel]; [lia|]. cbn [expire_entry]. rewrite Hdue, Hpop.
  destruct (pop_lighter _ _ _ _ HT Hpop Hb) as [Hl|Hq].
  - rewrite IH; [done|by eapply pop_bounded|lia].
  - assert (Hrest : ∀ e', o1 = Some e' → en_due now e' = false) by (intros e' He; unfold en_due; by rewrite (Hq e' He)).
    rewrite expire_at_rest by done. destruct Hrun as [|e1 ? ? ? ? Hd]; [done|]. by rewrite (Hrest e1) in Hd.
Qed.

(** *** One iteration of the expiry loop *)

Lemma min_expire_min k p act inact i : min_expire (mkItemToExpire k p act inact i) = Z.min act inact.
Proof. unfold min_expire. cbn. case_decide; lia. Qed.

(** The entry of the flow that is popped. *)
Lemma due_entry now a ip it f rest m :
  due now a ip it f rest → (∀ k, entry_at a k (m k)) →
  ∃ e, m (flowKey it) = Some e ∧ en_due now e = true ∧
    it = mkItemToExpire (flowKey it) (flowRecord it) (en_active e) (en_inactive e) 0 ∧
    ReadyToSend f = sum_ready (en_summary e) ∧ summarised els fields kind (en_summary e) (Record_ f) ∧
    waitForReadyToSendRetries f = en_retries e ∧ (ip ∉ rest) ∧ PriorityQueueItem f = ip.
Proof.
  intros (Hp & Hnin & Hit & Hle & Hm & Hf & Hpi & _) He. specialize (He (flowKey it)).
  destruct (m (flowKey it)) as [e|]; [|cbn in He; congruence]. exists e. split; [done|].
  destruct He as (p1 & f1 & it1 & Hp1 & Hf1 & Hr & Hs & Hn & Hd & Hi1 & Hq).
  rewrite Hm in Hp1. injection Hp1 as <-. rewrite Hf in Hf1. injection Hf1 as <-.
  rewrite Hpi, Hit in Hd. injection Hd as <-. rewrite Hpi in Hq. split_and!; try done.
  unfold en_due. rewrite (proj1 Hq) by (rewrite <- Hp; left). rewrite Hi1, min_expire_min in Hle.
  by apply bool_decide_eq_true.
Qed.

(** When no item is due, no entry is. *)
Lemma none_due now a m :
  (∀ x, x ∈ pq (queue_of a) → now < key_of (queue_of a) x) → (∀ k, entry_at a k (m k)) →
  ∀ k e, m k = Some e → en_due now e = false.
Proof.
  intros Hx He k e Hk. specialize (He k). rewrite Hk in He.
  destruct He as (p & f & it & _ & _ & _ & _ & _ & Hd & -> & Hq). unfold en_due.
  destruct (en_queued e); [|done]. specialize (Hx _ (proj2 Hq eq_refl)).
  rewrite (key_of_item _ _ _ Hd), min_expire_min in Hx. apply bool_decide_eq_false. lia.
Qed.

(** The entries of the other flows. *)
Lemma others_entry now a ip it f rest mm f' l d a' k o :
  agg_inv a → due now a ip it f rest → entry_at a k o → flowKey it ≠ k →
  becomes a mm (<[flowRecord it := f']> (flowRecords a)) l d a' →
  (l = rest ∨ l = ip :: rest) → (mm = flowKeyRecordMap a ∨ mm = delete (flowKey it) (flowKeyRecordMap a)) →
  (∀ y, y ≠ ip → d !! y = data_of a !! y) → entry_at a' k o.
Proof.
  intros Hi (Hp & _ & Hit & _ & Hm & Hf & Hpi & _) He Hne (_ & EK & ER & EQ & ED) Hl Hmm Hd.
  apply (entry_frame a); [done| |].
  - rewrite EK. destruct Hmm as [-> | ->]; [done|by rewrite lookup_delete_ne].
  - intros p1 f1 it1 Hp1 Hf1 Hd1 Hk1.
    assert (Hip : PriorityQueueItem f1 ≠ ip) by (intros E; rewrite E in Hd1; congruence).
    rewrite ER, ED, EQ, Hd, lookup_insert_ne by (done || intros E; rewrite E in *; congruence).
    split_and!; [done..|]. rewrite <- Hp, elem_of_cons.
    destruct Hl as [-> | ->]; [|rewrite elem_of_cons]; naive_solver.
Qed.

(** The entry of the popped flow when it stays in the map. *)
Lemma popped_entry now a ip it f rest f' l d a' e' :
  due now a ip it f rest → becomes a (flowKeyRecordMap a) (<[flowRecord it := f']> (flowRecords a)) l d a' →
  PriorityQueueItem f' = ip → ReadyToSend f' = sum_ready (en_summary e') →
  summarised els fields kind (en_summary e') (Record_ f') → waitForReadyToSendRetries f' = en_retries e' →
  d !! ip = Some (mkItemToExpire (flowKey it) (flowRecord it) (en_active e') (en_inactive e') 0) →
  (ip ∈ l ↔ en_queued e' = true) → entry_at a' (flowKey it) (Some e').
Proof.
  intros (_ & _ & _ & _ & Hm & _ & _ & _) (_ & EK & ER & EQ & ED) Hpi Hr Hs Hn Hd Hq.
  exists (flowRecord it), f'. eexists. rewrite EK, ER, lookup_insert_eq, ED, Hpi, EQ. by split_and!.
Qed.

Lemma gone_entry a mm recs l d a' k : becomes a (delete k mm) recs l d a' → entry_at a' k None.
Proof. intros (_ & EK & _). cbn. by rewrite EK, lookup_delete_eq. Qed.

(** What an iteration does to the entries: nothing is due, or one entry is popped. *)
Definition popped_one (now : Z) (calls : list call) m (res : go bool) (a1 : AggregationProcess)
    (calls1 : list call) : Prop :=
  ∃ k0 e new, res = Ok true ∧ m k0 = Some e ∧ en_due now e = true ∧ calls1 = calls ++ new ∧
    Forall (λ c, c.1 = k0) new ∧ Forall2 reported new (pop_entry active inactive after now e).2 ∧
    ∀ k, entry_at a1 k (if decide (k0 = k) then (pop_entry active inactive after now e).1 else m k).

Lemma popped_one_intro now calls calls1 m a it f rest ip e o l new mm f' lq d a1 :
  agg_inv a → (∀ k, entry_at a k (m k)) → due now a ip it f rest → m (flowKey it) = Some e →
  en_due now e = true → pop_entry active inactive after now e = (o, l) →
  becomes a mm (<[flowRecord it := f']> (flowRecords a)) lq d a1 →
  (lq = rest ∨ lq = ip :: rest) → (mm = flowKeyRecordMap a ∨ mm = delete (flowKey it) (flowKeyRecordMap a)) →
  (∀ y, y ≠ ip → d !! y = data_of a !! y) → calls1 = calls ++ new →
  Forall (λ c, c.1 = flowKey it) new → Forall2 reported new l → entry_at a1 (flowKey it) o →
  popped_one now calls m (Ok true) a1 calls1.
Proof.
  intros Hi Hm Hdue He Hd Hpop Hb Hl Hmm Hdat Hc Hnew Hrep Ho.
  exists (flowKey it), e, new. rewrite Hpop. split_and!; try done. intros k. case_decide as Hk; [by subst k|].
  by eapply others_entry.
Qed.

(** A flow that is not ready waits again, or is given up. *)
Lemma waited_popped now a calls a1 m ip it f rest :
  agg_inv a → activeExpiryTimeout a = active → inactiveExpiryTimeout a = inactive →
  (∀ k, entry_at a k (m k)) → due now a ip it f rest → ReadyToSend f = false →
  let f' := with_retries (waitForReadyToSendRetries f + 1) f in
  (waitForReadyToSendRetries f = MaxRetries ∧
     becomes a (delete (flowKey it) (flowKeyRecordMap a)) (<[flowRecord it := f']> (flowRecords a))
       rest (data_of a) a1 ∨
   waitForReadyToSendRetries f < MaxRetries ∧
     becomes a (flowKeyRecordMap a) (<[flowRecord it := f']> (flowRecords a)) (ip :: rest)
       (<[ip := mkItemToExpire (flowKey it) (flowRecord it) (now + activeExpiryTimeout a)
                  (now + inactiveExpiryTimeout a) 0]> (data_of a)) a1) →
  popped_one now calls m (Ok true) a1 calls.
Proof.
  intros Hi HA HI Hm Hdue Hr f' H.
  destruct (due_entry now a ip it f rest m Hdue Hm) as (e & He & Hd & Hit & Hre & Hs & Hrt & Hnin & Hpi).
  assert (Hpop : pop_entry active inactive after now e = if decide (en_retries e = MaxRetries) then (None, []) else
    (Some (mkEntry (en_summary e) (now + active) (now + inactive) (en_retries e + 1) true), []))
    by (unfold pop_entry; by rewrite <- Hre, Hr). rewrite <- Hrt in Hpop.
  destruct H as [[Hn Hb]|[Hn Hb]].
  - rewrite decide_True in Hpop by done.
    eapply popped_one_intro with (new := []); try done; [by left|by right|by rewrite app_nil_r|by eapply gone_entry].
  - rewrite decide_False in Hpop by lia.
    eapply popped_one_intro with (new := []); try done; [by right|by left| |by rewrite app_nil_r|].
    + intros y Hy. by rewrite lookup_insert_ne.
    + eapply popped_entry; try done; cbn; [by rewrite lookup_insert_eq, HA, HI|]. rewrite elem_of_cons. tauto.
Qed.

(** A ready flow is reported, and then deleted, queued again or dropped. *)
Lemma reported_popped now a cb calls a1 m ip it f rest f' :
  callback_does els fields kind after cb → agg_inv a → activeExpiryTimeout a = active →
  (∀ k, entry_at a k (m k)) → due now a ip it f rest → ReadyToSend f = true →
  cb calls (flowKey it) f = (Ok tt, f') →
  let g := by_callback f f' in
  (inactiveExpireTime it < now ∧
     becomes a (delete (flowKey it) (flowKeyRecordMap a)) (<[flowRecord it := g]> (flowRecords a))
       rest (data_of a) a1 ∨
   now <= inactiveExpireTime it ∧ activeExpireTime it < now ∧
     becomes a (flowKeyRecordMap a) (<[flowRecord it := g]> (flowRecords a)) (ip :: rest)
       (<[ip := mkItemToExpire (flowKey it) (flowRecord it) (now + activeExpiryTimeout a)
                  (inactiveExpireTime it) 0]> (data_of a)) a1 ∨
   now <= inactiveExpireTime it ∧ now <= activeExpireTime it ∧
     becomes a (flowKeyRecordMap a) (<[flowRecord it := g]> (flowRecords a)) rest (data_of a) a1) →
  popped_one now calls m (Ok true) a1 (calls ++ [(flowKey it, f)]).
Proof.
  intros Hcb Hi HA Hm Hdue Hr Ec g H.
  destruct (due_entry now a ip it f rest m Hdue Hm) as (e & He & Hd & Hit & Hre & Hs & Hrt & Hnin & Hpi).
  destruct (Hcb calls (flowKey it) f (en_summary e)) as (f1 & Ef & Hgr & Hgs); [done|done|congruence|].
  rewrite Ec in Ef. injection Ef as <-. rewrite Hr in Hre.
  assert (HE : inactiveExpireTime it = en_inactive e ∧ activeExpireTime it = en_active e) by (by rewrite Hit).
  destruct HE as [HE1 HE2]. rewrite HE1, HE2 in H.
  assert (Hrep : Forall2 reported [(flowKey it, f)] [en_summary e]) by (constructor; [done|constructor]).
  assert (Hnew : Forall (λ c : call, c.1 = flowKey it) [(flowKey it, f)]) by (by repeat constructor).
  eassert (Hpop : pop_entry active inactive after now e = _) by (unfold pop_entry; rewrite <- Hre; reflexivity).
  destruct H as [[H1 Hb]|[(H1 & H2 & Hb)|(H1 & H2 & Hb)]].
  - rewrite decide_True in Hpop by done. eapply popped_one_intro; try done; [by left|by right|by eapply gone_entry].
  - rewrite decide_False, decide_True in Hpop by lia. eapply popped_one_intro; try done; [by right|by left| |].
    + intros y Hy. by rewrite lookup_insert_ne.
    + eapply popped_entry; try done; cbn; [by rewrite lookup_insert_eq, HA|]. rewrite elem_of_cons. tauto.
  - rewrite !decide_False in Hpop by lia. eapply popped_one_intro; try done; [by left|by left|].
    eapply popped_entry; try done; cbn. rewrite <- Hit. apply Hdue.
Qed.

Lemma expired_popped now cb a calls res a1 calls1 m :
  callback_does els fields kind after cb → configured a → activeExpiryTimeout a = active →
  inactiveExpiryTimeout a = inactive → (∀ k, entry_at a k (m k)) → expired now cb a calls res a1 calls1 →
  (res = Ok false ∧ a1 = a ∧ calls1 = calls ∧ ∀ k e, m k = Some e → en_due now e = false) ∨
  popped_one now calls m res a1 calls1.
Proof.
  intros Hcb (Hi & _) HA HI Hm H.
  destruct H as [Hq|ip it f rest a1 Hdue Hr Hn Hb|ip it f rest a1 Hdue Hr Hn Hb|ip it f rest res f' a1 Hdue Hr Ec Hne Hb
    |ip it f rest f' a1 Hdue Hr Ec Hin Hb|ip it f rest f' a1 Hdue Hr Ec Hin Hac Hb|ip it f rest f' a1 Hdue Hr Ec Hin Hac Hb].
  1:{ left. split_and!; try done. by eapply none_due. }
  all: right; try (by eapply waited_popped; eauto); try (eapply reported_popped; eauto; tauto).
  destruct (due_entry now a ip it f rest m Hdue Hm) as (e & _ & _ & _ & Hre & Hs & _).
  destruct (Hcb calls (flowKey it) f (en_summary e)) as (g & Eg & _); [done|done|congruence|]. congruence.
Qed.

(** *** Whole runs *)

Lemma calls_of_app k calls new : calls_of k (calls ++ new) = calls_of k calls ++ calls_of k new.
Proof. apply list.filter_app. Qed.

Lemma calls_of_one k0 k new :
  Forall (λ c, c.1 = k0) new → calls_of k new = if decide (k0 = k) then new else [].
Proof.
  intros H. unfold calls_of. induction H as [|c new Hc Hn IH]; [by case_decide|].
  rewrite filter_cons, IH. by repeat case_decide; simplify_eq.
Qed.

(** A run is a run of every entry by itself, and the calls for a flow are the reports of
    its entry. *)
Lemma run_entries now cb a calls res a' calls' m :
  callback_does els fields kind after cb → expiry_run now cb a calls res a' calls' → configured a →
  activeExpiryTimeout a = active → inactiveExpiryTimeout a = inactive → (∀ k, entry_at a k (m k)) →
  res = Ok tt ∧ ∃ new, calls' = calls ++ new ∧
    ∀ k, ∃ l o, entry_run now (m k) l o ∧ Forall2 reported (calls_of k new) l ∧ entry_at a' k o.
Proof.
  intros Hcb H. revert m. induction H as [a calls H|a calls res a' calls' H Hok|a calls a1 calls1 res a' calls' H Hi1 Hrun IH];
    intros m Hc HA HI Hm; pose proof (expired_popped _ _ _ _ _ _ _ m Hcb Hc HA HI Hm H) as [(Er & Ea & Ec & Hq)|Hp].
  - split; [done|]. exists []. rewrite app_nil_r. split; [done|]. intros k. exists [], (m k).
    split_and!; [by constructor; apply Hq|constructor|done].
  - by destruct Hp as (? & ? & ? & ? & _).
  - by subst res.
  - destruct Hp as (? & ? & ? & -> & _). done.
  - done.
  - destruct Hp as (k0 & e & new0 & _ & He & Hd & -> & Hn0 & Hr0 & Hm1).
    pose proof (expired_config _ _ _ _ _ _ _ H) as (E1 & E2 & E3 & E4).
    edestruct IH as (-> & new & -> & Hnew); [| | |exact Hm1|];
      [split_and!; [done|rewrite E4; apply Hc|rewrite E3; apply Hc]|congruence|congruence|].
    split; [done|]. exists (new0 ++ new). split; [by rewrite app_assoc|]. intros k.
    destruct (Hnew k) as (l & o & Hl & Hr & Ho). rewrite calls_of_app, (calls_of_one k0) by done.
    case_decide as Hk; [|by exists l, o]. subst k0. rewrite He.
    exists ((pop_entry active inactive after now e).2 ++ l), o. split_and!; [|by apply Forall2_app|done].
    eapply entry_pop; [done|by apply surjective_pairing|done].
Qed.

Lemma entry_bounded a k o : agg_inv a → entry_at a k o → en_bounded o.
Proof.
  intros [_ Hl] He. destruct o as [e|]; [|done]. destruct He as (p & f & it & Hp & Hf & _ & _ & Hn & _).
  cbn. rewrite <- Hn. by eapply links_retries.
Qed.

Lemma bounded_weight now o : en_bounded o → (en_weight now o < 5)%nat.
Proof. destruct o as [e|]; cbn; [|lia]. unfold MaxRetries. intros H. case_decide; lia. Qed.

Lemma expiry_tracked now cb L a calls :
  0 <= active → callback_does els fields kind after cb → tracked L (a, calls) →
  ∃ s, ForAllExpiredFlowRecordsDo now cb (a, calls) = (Ok tt, s) ∧ tracked (live [ExpiryAt now] L) s.
Proof.
  intros HT Hcb (Hc & HA & HI & HL). cbn [fst snd] in *.
  destruct (expire_refines now cb a calls) as (res & a' & calls' & E & Hi' & Hrun); [apply Hc|by rewrite HA|].
  destruct (run_entries now cb a calls res a' calls' (λ k, (L k).1) Hcb Hrun Hc HA HI (λ k, proj1 (HL k)))
    as (-> & new & -> & Hnew).
  exists (a', calls ++ new). split; [done|].
  assert (Hcfg : same_config a a').
  { clear -Hrun. induction Hrun as [| |a calls a1 calls1 res a' calls' H _ _ IH]; [done|by eapply expired_config|].
    apply expired_config in H. unfold same_config in *. intuition congruence. }
  destruct Hcfg as (E1 & E2 & E3 & E4). split_and!; cbn [fst snd]; [|congruence|congruence|].
  { split_and!; [done|rewrite E4; apply Hc|rewrite E3; apply Hc]. }
  intros k. destruct (Hnew k) as (l & o & Hl & Hr & Ho). destruct (HL k) as [He Hk].
  unfold live. cbn [filter list_filter concerns]. rewrite decide_True by done. cbn [foldl life_step].
  rewrite (expire_entry_spec 5 now _ l o); [|done|done|by eapply entry_bounded; [apply Hc|]
    |by eapply bounded_weight, entry_bounded; [apply Hc|]].
  cbn [fst snd]. split; [done|]. rewrite calls_of_app. by apply Forall2_app.
Qed.

Lemma events_tracked cb evs L s :
  0 <= active → callback_does els fields kind after cb → tracked L s →
  Forall (usable_event els fields kind) evs →
  ∃ s', process_events reg cb evs s = (Ok tt, s') ∧ tracked (live (evs ≫= flow_events) L) s'.
Proof.
  intros HT Hcb. revert L s. induction evs as [|ev evs IH]; intros L s Hs Hu; [by exists s|].
  apply list.Forall_cons in Hu as [Hu Hus]. cbn [process_events]. destruct s as [a calls].
  assert (∃ s1, process_event reg cb ev (a, calls) = (Ok tt, s1) ∧ tracked (live (flow_events ev) L) s1)
    as (s1 & E & H1).
  { destruct ev as [clock msg|now]; cbn [process_event].
    - destruct (message_tracked clock msg L a calls Hs Hu) as (a' & E & H'). exists (a', calls).
      by rewrite (in_process_run _ _ _ _ _ E).
    - by apply expiry_tracked. }
  rewrite (M_bind_Ok _ _ _ _ _ E). destruct (IH _ _ H1 Hus) as (s' & E' & H'). exists s'. split; [done|].
  eapply tracked_ext; [|exact H']. intros k. cbn [mbind list_bind]. by rewrite live_app.
Qed.

End timeline.

(** A process that starts empty gives every flow its life. *)
Lemma events_from_start reg els fields kind after cb input a evs :
  wf_config reg els fields → in_AggregateElements input = Some els → in_CorrelateFields input = fields →
  0 <= in_ActiveExpiryTimeout input → InitAggregationProcess input = Ok a →
  callback_does els fields kind after cb → Forall (usable_event els fields kind) evs →
  ∃ a' calls, process_events reg cb evs (a, []) = (Ok tt, (a', calls)) ∧
    ∀ k, let '(o, reports) := flow_life fields (in_ActiveExpiryTimeout input) (in_InactiveExpiryTimeout input)
                                after (filter (concerns k) (evs ≫= flow_events)) in
         Forall2 (reported els fields kind) (calls_of k calls) reports ∧ entry_at els fields kind a' k o.
Proof.
  intros Hwf He Hc HT Hinit Hcb Hu. destruct (init_related els fields kind input a He Hc Hinit) as (Hi & Ha & Hcf & _ & _).
  assert (Htr : tracked els fields kind (in_ActiveExpiryTimeout input) (in_InactiveExpiryTimeout input)
    (λ _, (None, [])) (a, [])).
  { unfold InitAggregationProcess in Hinit. destruct (MessageChan input); [|done]. case_decide; [done|].
    apply go_bind_Ok in Hinit as (? & _ & [= <-]). by split_and!. }
  destruct (events_tracked reg els fields kind after _ _ Hwf cb evs _ _ HT Hcb Htr Hu) as ([a' calls] & E & _ & _ & _ & H).
  exists a', calls. split; [done|]. intros k. specialize (H k). unfold live in H.
  change (foldl _ (None, []) ?l) with (flow_life fields (in_ActiveExpiryTimeout input) (in_InactiveExpiryTimeout input) after l) in H.
  destruct (flow_life _ _ _ _ _) as [o reports]. by destruct H.
Qed.

(** ** Properties *)

(** C6: every flow has the life it would have alone.  A new aggregation process with a
    well-formed configuration is given any sequence of messages with usable records and
    of expiry runs, at any times, with a callback that never fails.  Nothing fails; and
    for every flow key, the calls of the callback with that key are, in order, with the
    summaries that the specification reports for the events of this flow alone - its own
    records and the expiry runs - and the process then has of the flow what the
    specification has: its summary, deadlines, retries and whether it is queued, or that
    it is gone. *)
Theorem flows_live_independently reg els fields kind after cb input a evs :
  wf_config reg els fields → in_AggregateElements input = Some els → in_CorrelateFields input = fields →
  0 <= in_ActiveExpiryTimeout input → InitAggregationProcess input = Ok a →
  callback_does els fields kind after cb → Forall (usable_event els fields kind) evs →
  ∃ a' calls, process_events reg cb evs (a, []) = (Ok tt, (a', calls)) ∧
    ∀ k, let '(o, reports) := flow_life fields (in_ActiveExpiryTimeout input) (in_InactiveExpiryTimeout input)
                                after (filter (concerns k) (evs ≫= flow_events)) in
         Forall2 (reported els fields kind) (calls_of k calls) reports ∧ entry_at els fields kind a' k o.
Proof. apply events_from_start. Qed.

(** ** Example: a flow that is reported, deleted and created again *)

Definition ex_life_events : list agg_event :=
  [MessageAt (λ _, 1000) (ex_message [ex_record 1234 10 20 1000 8000 "pod1" "pod2"; ex_record 4321 10 20 100 800 "pod1" "pod3"]);
   ExpiryRun 1101;
   MessageAt (λ _, 1110) (ex_message [ex_record 1234 10 30 1500 12000 "pod1" "pod2"]);
   ExpiryRun 1300;
   MessageAt (λ _, 1400) (ex_message [ex_record 1234 10 50 1900 22000 "pod1" "pod2"]);
   ExpiryRun 1450].
Lemma ex_life_usable : Forall (usable_event antrea_elements ex_fields ex_kind) ex_life_events.
Proof.
  assert (H : ∀ rs, rs ≠ [] → Forall (usable antrea_elements ex_fields ex_kind) rs →
    usable_message antrea_elements ex_fields ex_kind (ex_message rs)) by (intros rs ? ? _; by split).
  unfold ex_life_events. repeat apply list.Forall_cons_2; try exact I; [..|constructor]; apply H; try discriminate;
    repeat apply list.Forall_cons_2; try constructor; try (eexists _, _, _; split; [reflexivity|vm_compute; reflexivity]);
    evaluate.
Qed.

Lemma ok_callback_does els fields kind : callback_does els fields kind id ok_callback.
Proof. intros calls k f s Hr Hs Hrs. exists f. split_and!; [done|cbn; congruence|done]. Qed.

(** The flow is reported twice, with 500 and with 1000 packets. *)
Lemma flows_live_independently_witness :
  ∃ a' calls, process_events loaded_registry ok_callback ex_life_events (ex_a0, []) = (Ok tt, (a', calls)) ∧
    (λ c, u64_at (Record_ c.2) "packetDeltaCountFromSourceNode") <$> calls_of ex_key calls = [Some 500; Some 1000].
Proof.
  destruct (flows_live_independently loaded_registry antrea_elements ex_fields ex_kind id ok_callback ex_input ex_a0
    ex_life_events) as (a' & calls & E & H).
  - exact ex_config.
  - reflexivity.
  - reflexivity.
  - vm_compute. discriminate.
  - exact ex_a0_start.
  - apply ok_callback_does.
  - exact ex_life_usable.
  - exists a', calls. split; [exact E|]. specialize (H ex_key).
    destruct (flow_life _ _ _ _ _) as [o reports] eqn:Eo. destruct H as [H _].
    assert (Hc : (λ s, sum_count s true "packetDeltaCount") <$> reports = [500; 1000])
      by (apply (f_equal snd) in Eo; cbn [snd] in Eo; rewrite <- Eo; vm_compute; reflexivity).
    clear Eo E. destruct reports as [|s1 [|s2 [|]]]; try discriminate Hc. injection Hc as Hc1 Hc2.
    inversion_clear H as [|c1 ? l ? [_ H1] H']; subst.
    inversion_clear H' as [|c2 ? l' ? [_ H2] H'']; subst. inversion_clear H''. cbn.
    rewrite (proj1 (su_count _ _ _ _ _ H1 1%nat "packetDeltaCount" "packetDeltaCountFromSourceNode"
      "packetDeltaCountFromDestinationNode" eq_refl eq_refl eq_refl)),
      (proj1 (su_count _ _ _ _ _ H2 1%nat "packetDeltaCount" "packetDeltaCountFromSourceNode"
      "packetDeltaCountFromDestinationNode" eq_refl eq_refl eq_refl)). by rewrite Hc1, Hc2.
Defined.
