(* ===== verification/Reset.v ===== *)
(** * Resetting a reported record

    [ResetStatAndThroughputElementsInRecord] of src/pkg/intermediate/aggregate.go, which
    a user calls after sending a record: it sets the deltas and the throughputs of the
    record to zero and changes nothing else. *)

From Stdlib Require Import ZArith Lia.
From Stdlib.Strings Require Import Byte.
From stdpp Require Import base gmap strings list numbers.
From S2P Require Import Prelude Bytes InfoElement Records Sets Registry NetIP Heap PriorityQueue.
From S2P Require Import Aggregate Correlate FirstRecord AggregationProcess Flows.

#[local] Open Scope Z_scope.

(** ** Lemmas: setting names to zero *)

(** These names are zero, every other element is as it was. *)
Definition zeroed (W : list string) (r r' : IPFIXRecord) : Prop :=
  full r' ∧ frame W r r' ∧ ∀ n, n ∈ W → u64_at r' n = Some 0.

Definition all_u64 (W : list string) (r : IPFIXRecord) : Prop := Forall (λ n, is_Some (u64_at r n)) W.

Lemma zeroed_refl r : full r → zeroed [] r r.
Proof. intros Hf. split_and!; [done|by intros n _|by intros n ?%not_elem_of_nil]. Qed.

Lemma zeroed_trans W1 W2 r1 r2 r3 : zeroed W1 r1 r2 → zeroed W2 r2 r3 → zeroed (W1 ++ W2) r1 r3.
Proof.
  intros (_ & F1 & Z1) (Hf & F2 & Z2). split_and!; [done| |].
  - intros n. rewrite elem_of_app. intros Hn. rewrite F2, F1 by tauto. done.
  - intros n [Hn|Hn]%elem_of_app; [|by apply Z2]. destruct (decide (n ∈ W2)) as [|H2]; [by apply Z2|].
    rewrite (frame_value _ _ _ _ _ F2 H2). by apply Z1.
Qed.

Lemma zeroed_u64 W V r r' : zeroed W r r' → all_u64 V r → all_u64 V r'.
Proof.
  intros (_ & F & Z) H. eapply list.Forall_impl; [exact H|]. intros n Hn. cbn in Hn |- *.
  destruct (decide (n ∈ W)) as [Hw|Hw]; [by rewrite Z|by rewrite (frame_value _ _ _ _ _ F Hw)].
Qed.

(** A loop whose iterations set their names to zero. *)
Lemma zero_loop {A} (f : nat → A → Rec unit) (W : nat → A → list string) k l r :
  (∀ i x r, l !! i = Some x → full r → all_u64 (W (k + i)%nat x) r →
     ∃ r', f (k + i)%nat x r = (Ok tt, r') ∧ zeroed (W (k + i)%nat x) r r') →
  full r → all_u64 (mjoin (imap (λ i, W (k + i)%nat) l)) r →
  ∃ r', rec_fold (λ i x _, f i x) k l tt r = (Ok tt, r') ∧ zeroed (mjoin (imap (λ i, W (k + i)%nat) l)) r r'.
Proof.
  revert k r. induction l as [|x l IH]; intros k r Hstep Hf Hu; [exists r; by split; [|apply zeroed_refl]|].
  cbn [imap mjoin list_join rec_fold] in *. apply list.Forall_app in Hu as [Hu Hus].
  destruct (Hstep 0%nat x r) as (r1 & E1 & Z1); [done|done|done|]. rewrite Nat.add_0_r in *.
  rewrite (M_bind_Ok _ _ _ _ _ E1).
  assert (Hi : imap ((λ i, W (k + i)%nat) ∘ S) l = imap (λ i, W (S k + i)%nat) l)
    by (apply imap_ext; intros i y _; cbn; by rewrite Nat.add_succ_r).
  rewrite Hi in *.
  destruct (IH (S k) r1) as (r' & E' & Z'); [|apply Z1|by eapply zeroed_u64|].
  { intros i y r2 Hy Hf2 Hu2. specialize (Hstep (S i) y r2 Hy Hf2). rewrite Nat.add_succ_r in Hstep. by apply Hstep. }
  exists r'. split; [done|]. by eapply zeroed_trans.
Qed.

Lemma reset_u64 e v :
  GetUnsigned64Value e = Ok v →
  GetUnsigned64Value (ResetValue e) = Ok 0 ∧ GetInfoElement (ResetValue e) = GetInfoElement e.
Proof. by destruct e. Qed.

(** The [i]-th names of the arrays. *)
Definition names_at (i : nat) (arrays : list (list string)) : list string := omap (λ l, l !! i) arrays.

Lemma reset_elements_spec arrays i r :
  full r → Forall (λ l, is_Some (l !! i)) arrays → all_u64 (names_at i arrays) r →
  ∃ r', reset_elements arrays i r = (Ok tt, r') ∧ zeroed (names_at i arrays) r r'.
Proof.
  intros Hf Hl Hu.
  assert (HW : mjoin (imap (λ k array, names_at i [array]) arrays) = names_at i arrays).
  { clear. induction arrays as [|l arrays IH]; [done|].
    change (names_at i [l] ++ mjoin (imap (λ k array, names_at i [array]) arrays) = names_at i (l :: arrays)).
    rewrite IH. unfold names_at. cbn [omap list_omap]. by destruct (l !! i). }
  unfold reset_elements, rec_iter. rewrite <- HW in Hu |- *.
  apply (zero_loop _ (λ _ array, names_at i [array])); [|done|done].
  clear r Hf Hu. intros j array r Hj Hf Hu. rewrite list.Forall_forall in Hl.
  destruct (Hl array) as [n Hn]; [by eapply list_elem_of_lookup_2|]. cbn in Hu |- *. rewrite Hn in Hu |- *.
  apply list.Forall_cons in Hu as [[v Hv] _]. apply value_at_Some in Hv as (e & He & Hv).
  destruct (reset_u64 e v Hv) as [Hz Hi].
  destruct (set_element_spec n (λ e, Ok (ResetValue e)) r e (ResetValue e)) as (r' & E & Hf' & Hl' & Hfr); [done..|].
  exists r'. unfold at_index. rewrite Hn. rec_step. rec_step. rewrite He. split; [done|]. split_and!; [done|done|].
  intros m ->%list_elem_of_singleton. apply value_at_Some. eauto.
Qed.

(** ** Lemmas: the whole reset *)

Definition stats_arrays (els : AggregationElements) : list (list string) :=
  [StatsElements els; AggregatedSourceStatsElements els; AggregatedDestinationStatsElements els].
Definition throughput_arrays (els : AggregationElements) : list (list string) :=
  [ThroughputElements els; SourceThroughputElements els; DestinationThroughputElements els].

Definition delta_names (els : AggregationElements) (i : nat) (x : string) : list string :=
  if Contains x "Delta" then names_at i (stats_arrays els) else [].

(** The names that are reset. *)
Definition reset_stats (els : AggregationElements) : list string :=
  mjoin (imap (delta_names els) (StatsElements els)).
Definition reset_throughput (els : AggregationElements) : list string :=
  mjoin (imap (λ i _, names_at i (throughput_arrays els)) (ThroughputElements els)).

Lemma names_at_in i arrays n : n ∈ names_at i arrays → n ∈ mjoin arrays.
Proof.
  intros (l & Hl & Hn)%list_elem_of_omap. apply list_elem_of_join. exists l.
  split; [by eapply list_elem_of_lookup_2|done].
Qed.

Lemma reset_stats_in els n :
  n ∈ reset_stats els ↔ ∃ i x, StatsElements els !! i = Some x ∧ Contains x "Delta" = true ∧
                               n ∈ names_at i (stats_arrays els).
Proof.
  unfold reset_stats. rewrite list_elem_of_join. split.
  - intros (w & Hn & (i & x & -> & Hx)%elem_of_lookup_imap). exists i, x. unfold delta_names in Hn.
    destruct (Contains x "Delta"); [done|]. by apply not_elem_of_nil in Hn.
  - intros (i & x & Hx & Hd & Hn). exists (delta_names els i x). unfold delta_names. rewrite Hd. split; [done|].
    apply elem_of_lookup_imap. exists i, x. by rewrite Hd.
Qed.

Lemma reset_stats_subset els : reset_stats els ⊆ stats_list els.
Proof.
  intros n (i & x & _ & _ & Hn%names_at_in)%reset_stats_in. cbn in Hn. by rewrite app_nil_r in Hn.
Qed.

Lemma reset_throughput_subset els : reset_throughput els ⊆ throughput_list els.
Proof.
  apply mjoin_imap_subset. intros i x n _ Hn%names_at_in. cbn in Hn. by rewrite app_nil_r in Hn.
Qed.

Lemma all_u64_subset V W r : all_u64 W r → V ⊆ W → all_u64 V r.
Proof. unfold all_u64. rewrite !list.Forall_forall. auto. Qed.

(** All arrays of a configuration have the position. *)
Lemma arrays_long els i :
  wf_elements els →
  (is_Some (StatsElements els !! i) → Forall (λ l, is_Some (l !! i)) (stats_arrays els)) ∧
  (is_Some (ThroughputElements els !! i) → Forall (λ l, is_Some (l !! i)) (throughput_arrays els)).
Proof.
  intros (L1 & L2 & L3 & L4 & _).
  split; intros H; apply lookup_lt_is_Some_1 in H; repeat constructor; apply lookup_lt_is_Some_2; lia.
Qed.

Lemma reset_spec els r :
  wf_elements els → full r → all_u64 (stats_list els ++ throughput_list els) r →
  ∃ r', ResetStatAndThroughputElementsInRecord (Some els) r = (Ok tt, r') ∧
        zeroed (reset_stats els ++ reset_throughput els) r r'.
Proof.
  intros Hwf Hf [Hs Ht]%list.Forall_app. unfold ResetStatAndThroughputElementsInRecord, rec_iter.
  erewrite bind_lift by reflexivity. cbv beta.
  destruct (zero_loop (λ i x, if Contains x "Delta" then reset_elements (stats_arrays els) i else mret tt)
    (delta_names els) 0 (StatsElements els) r) as (r1 & E1 & Z1); [| done|by eapply all_u64_subset, reset_stats_subset|].
  { intros i x r1 Hx Hf1 Hu1. unfold delta_names in *. cbn [Nat.add] in *. destruct (Contains x "Delta").
    - apply reset_elements_spec; [done| |done]. apply arrays_long; eauto.
    - exists r1. split; [done|by apply zeroed_refl]. }
  rewrite (M_bind_Ok _ _ _ _ _ E1).
  destruct (zero_loop (λ i (_ : string), reset_elements (throughput_arrays els) i)
    (λ i _, names_at i (throughput_arrays els)) 0 (ThroughputElements els) r1) as (r2 & E2 & Z2);
    [|apply Z1|by eapply all_u64_subset, reset_throughput_subset; eapply zeroed_u64|].
  { intros i x r2 Hx Hf2 Hu2. apply reset_elements_spec; [done| |done]. apply arrays_long; eauto. }
  exists r2. split; [exact E2|]. by eapply zeroed_trans.
Qed.

(** The names of a statistic that is not a delta are not reset. *)
Lemma totals_not_reset els i n m :
  wf_elements els → StatsElements els !! i = Some n → Contains n "Delta" = false →
  m ∈ names_at i (stats_arrays els) → m ∉ reset_stats els.
Proof.
  intros Hwf Hn Hd Hm (j & x & Hx & Hdx & Hmx)%reset_stats_in. destruct Hwf as (L1 & L2 & _ & _ & _ & _ & Hnd).
  do 2 apply list.NoDup_app in Hnd as (_ & _ & Hnd). apply list.NoDup_app in Hnd as (Hnd & _).
  assert (Hrow : ∀ i x m, StatsElements els !! i = Some x → m ∈ names_at i (stats_arrays els) →
    m ∈ row (AggregatedSourceStatsElements els) (AggregatedDestinationStatsElements els) i x).
  { clear. intros i x m Hx (l & Hl & Hm)%list_elem_of_omap. unfold row. rewrite !elem_of_cons.
    apply elem_of_cons in Hl as [->|Hl]; [left; congruence|right].
    apply elem_of_cons in Hl as [->|Hl]; [left; by rewrite Hm|right].
    apply list_elem_of_singleton in Hl as ->. left. by rewrite Hm. }
  destruct (decide (i = j)) as [->|Hij]; [congruence|].
  by apply (rows_disjoint _ _ _ i j n x m Hnd L1 L2 Hn Hx Hij); apply Hrow.
Qed.

(** ** What it does to a flow *)

(** The deltas of a reported flow start again from zero. *)
Definition reset_summary (s : flow_summary) : flow_summary := {|
  sum_ready := sum_ready s; sum_latest := sum_latest s; sum_end := sum_end s;
  sum_count isSrc n := if Contains n "Delta" then 0 else sum_count s isSrc n;
  sum_common n := if Contains n "Delta" then 0 else sum_common s n;
  sum_reason := sum_reason s; sum_tcp := sum_tcp s; sum_other := sum_other s |}.

(** The callback of a user who sends the record and then resets it. *)
Definition reset_callback (aggregateElements : option AggregationElements) : FlowKeyRecordMapCallBack :=
  λ _ _ f, let '(res, r) := ResetStatAndThroughputElementsInRecord aggregateElements (Record_ f) in
           (res, with_record r f).

Lemma reset_summarised reg els fields kind s r :
  wf_config reg els fields → summarised els fields kind s r →
  ∃ r', ResetStatAndThroughputElementsInRecord (Some els) r = (Ok tt, r') ∧
        summarised els fields kind (reset_summary s) r'.
Proof.
  intros Hwf Hs. pose proof (proj1 Hwf) as Hels. pose proof (disjoint_parts els Hels) as (D1 & D2 & D3).
  destruct (reset_spec els r) as (r' & E & Hf' & Hfr & Hz); [done|apply Hs| |].
  { apply list.Forall_app. split; apply list.Forall_forall; intros n Hn; [by eapply summarised_stats|by eapply su_rates]. }
  exists r'. split; [done|].
  assert (Hkeep : ∀ n, n ∉ stats_list els → n ∉ throughput_list els → lookup_rec r' n = lookup_rec r n).
  { intros n H1 H2. apply Hfr. rewrite elem_of_app. intros [H%reset_stats_subset|H%reset_throughput_subset]; auto. }
  assert (Hk : ∀ A (get : InfoElementWithValue → go A) n, n ∈ time_names ++ reason_names →
    value_at get r' n = value_at get r n).
  { intros A get n Hn. apply value_at_lookup, Hkeep; intros H; [apply D2 in H|apply D3 in H]; rewrite elem_of_app in Hn; tauto. }
  assert (Ho : ∀ n, n ∉ aggregate_names els → lookup_rec r' n = lookup_rec r n).
  { intros n Hn. unfold aggregate_names in Hn. rewrite !elem_of_app in Hn. apply Hkeep; tauto. }
  pose proof Hwf as (_ & _ & _ & _ & Hdis). rewrite list.Forall_forall in Hdis.
  assert (Hsum : ∀ n, n ∈ fields ++ pod_names → lookup_rec r' n = lookup_rec r n) by auto.
  destruct Hs as [S1 [S2 S2'] S3 S4 S5 S6 S7 S8 S9 S10].
  constructor; [done| | | | | | | | |].
  - rewrite Hk by (cbn; set_solver). done.
  - intros isSrc. rewrite Hk by (destruct isSrc; cbn; set_solver). apply S3.
  - intros i n src dst Hn Es Ed. destruct (S4 i n src dst Hn Es Ed) as (P1 & P2 & P3).
    assert (Hin : ∀ m, m = src ∨ m = dst ∨ m = n → m ∈ names_at i (stats_arrays els)).
    { intros m. unfold names_at, stats_arrays. cbn [omap list_omap]. rewrite Hn, Es, Ed, !elem_of_cons. tauto. }
    cbn [reset_summary sum_count sum_common]. destruct (Contains n "Delta") eqn:Hd.
    + split_and!; apply Hz, elem_of_app; left; apply reset_stats_in; exists i, n; split_and!; auto.
    + assert (Hm : ∀ m, m = src ∨ m = dst ∨ m = n → u64_at r' m = u64_at r m); [|by rewrite !Hm by tauto].
      intros m Hm. eapply frame_value; [exact Hfr|]. rewrite elem_of_app. intros [H|H%reset_throughput_subset].
      * eapply (totals_not_reset els i n m); eauto.
      * apply D3 in H as (_ & _ & H). apply H, (stats_row_written reg els fields Hwf i n src dst); [done..|].
        rewrite !elem_of_cons. tauto.
  - intros Hn. rewrite Hk by (cbn; set_solver). by apply S5.
  - intros Hn. rewrite Hk by (cbn; set_solver). by apply S6.
  - intros n Hn. destruct (decide (n ∈ reset_stats els ++ reset_throughput els)) as [Hi|Hi]; [by rewrite Hz|].
    rewrite (frame_value _ _ _ _ _ Hfr Hi). by apply S7.
  - intros n Hn. rewrite Ho by done. by apply S8.
  - rewrite list.Forall_forall in S9 |- *. intros n Hn. unfold reads, value_at.
    rewrite Hsum by (apply elem_of_app; by right). by apply S9.
  - rewrite list.Forall_forall in S10 |- *. intros n Hn. rewrite Hsum by (apply elem_of_app; by left). by apply S10.
Qed.
