(* ===== verification/Conservation.v ===== *)
(** * Nothing is reported twice or not at all

    The deltas of a flow over its whole life in the aggregation process, when the
    callback resets every record that it has sent: what is reported, together with what
    is still stored, is what the records of the flow have brought, however messages and
    expiry runs are interleaved and how often the flow is deleted and created again. *)

From Stdlib Require Import ZArith Lia.
From Stdlib.Strings Require Import Byte.
From stdpp Require Import base gmap strings list numbers.
From S2P Require Import Prelude Bytes InfoElement Records Sets Registry NetIP Heap PriorityQueue.
From S2P Require Import Aggregate Correlate FirstRecord AggregationProcess Flows FlowTotals Timeline Reset.

#[local] Open Scope Z_scope.

(** ** What is counted *)

Definition sum_of {A} (f : A → Z) (l : list A) : Z := foldr Z.add 0 (f <$> l).

(** The values of an element in the records that were reported for a flow, added up. *)
Definition reported_u64 (k : FlowKey) (calls : list call) (name : string) : Z :=
  sum_of (λ c, u64_or_0 (Record_ c.2) name) (calls_of k calls).

(** The value in the record that is stored for it. *)
Definition stored_u64 (k : FlowKey) (a : AggregationProcess) (name : string) : Z :=
  match flowKeyRecordMap a !! k ≫= λ p, flowRecords a !! p with
  | Some f => u64_or_0 (Record_ f) name
  | None => 0
  end.

Definition messages_of (evs : list agg_event) : list Message :=
  omap (λ ev, match ev with MessageAt _ msg => Some msg | ExpiryRun _ => None end) evs.

Definition arrivals (evs : list flow_event) : list IPFIXRecord :=
  omap (λ ev, match ev with Arrives _ r => Some r | ExpiryAt _ => None end) evs.

(** ** Lemmas: sums *)

Lemma sum_of_app {A} (f : A → Z) l l' : sum_of f (l ++ l') = sum_of f l + sum_of f l'.
Proof.
  unfold sum_of. rewrite fmap_app, foldr_app. generalize (foldr Z.add 0 (f <$> l')). intros z.
  induction (f <$> l); simpl; lia.
Qed.

Lemma sum_of_Forall2 {A B} (f : A → Z) (g : B → Z) l l' :
  Forall2 (λ x y, f x = g y) l l' → sum_of f l = sum_of g l'.
Proof. unfold sum_of. induction 1 as [|x y l l' H _ IH]; [done|]. cbn in *. by rewrite H, IH. Qed.

Lemma arrivals_of_key evs k :
  arrivals (filter (concerns k) (evs ≫= flow_events)) = of_key k (data_records (messages_of evs)).
Proof.
  assert (Hfilter : ∀ l, arrivals (filter (concerns k) l) = of_key k (arrivals l)).
  { intros l. unfold arrivals. induction l as [|[t r|now] l IH]; [done| |].
    - rewrite filter_cons. cbn [concerns omap list_omap]. rewrite filter_cons.
      repeat case_decide; try done. cbn [omap list_omap]. f_equal. exact IH.
    - rewrite filter_cons, decide_True by done. done. }
  rewrite Hfilter. f_equal. induction evs as [|[clock msg|now] evs IH]; [done| |exact IH].
  unfold arrivals in *. cbn [mbind list_bind]. rewrite omap_app.
  change (messages_of (MessageAt clock msg :: evs)) with (msg :: messages_of evs).
  rewrite data_records_cons, <- IH. f_equal.
  unfold data_records. cbn [mbind list_bind flow_events]. rewrite app_nil_r.
  destruct (msg_set msg) as [set|]; [|done]. case_decide; [|done]. clear.
  generalize (records set). intros rs. revert clock. induction rs as [|r rs IH]; intros clock; [done|].
  cbn. f_equal. apply (IH (λ i, clock (S i))).
Qed.

(** ** Lemmas: one flow *)

(** Records that need no correlation fill both nodes. *)
Lemma of_node_all isSrc rs : Forall (λ r, needs_correlation r = false) rs → of_node isSrc rs = rs.
Proof.
  intros H. unfold of_node. induction H as [|r rs Hr _ IH]; [done|].
  rewrite filter_cons, decide_True, IH by (by apply fills_uncorrelated). done.
Qed.

Section conservation.
Context (fields : list string) (active inactive : Z) (isSrc : bool) (n : string).
Hypothesis Hdelta : Contains n "Delta" = true.

#[local] Abbreviation count := (λ s : flow_summary, sum_count s isSrc n).
#[local] Abbreviation life_step := (life_step fields active inactive reset_summary).

(** What is stored of a flow that may be gone. *)
Definition residue (o : option entry) : Z := from_option (λ e, count (en_summary e)) 0 o.

(** The common statistic is the destination's. *)
Definition common_dst (s : flow_summary) : Prop := sum_common s n = sum_count s false n.

(** The flow is ready, no end time of it is later than [last], and its common statistic
    is the destination's. *)
Definition ready_until (last : Z) (o : option entry) : Prop :=
  from_option (λ e, let s := en_summary e in
    sum_ready s = true ∧ (∀ b, sum_end s b <= last) ∧ sum_latest s <= last ∧
    common_dst s) True o.

Lemma next_common r s :
  needs_correlation r = false → previous r s (fills r true) (fills r false) < end_of r →
  sum_latest s <= end_of r →
  sum_latest (summary_next fields r s) = end_of r ∧
  common_dst (summary_next fields r s).
Proof.
  intros Hc Hp Hl. unfold summary_next, joins. rewrite Hc. cbn [andb]. unfold summary_update.
  unfold common_dst. rewrite decide_False by lia. cbn [summary_count sum_latest sum_common sum_count]. split; [lia|].
  unfold common_value. rewrite bool_decide_true, !fills_uncorrelated, Hdelta by done. done.
Qed.

Lemma expire_conserves fuel now last o o' l :
  ready_until last o → expire_entry active inactive reset_summary fuel now o = (o', l) →
  ready_until last o' ∧ Forall common_dst l ∧ sum_of count l + residue o' = residue o.
Proof.
  revert o o' l. induction fuel as [|fuel IH]; intros o o' l Hr E; [by simplify_eq/=|].
  destruct o as [e|]; [|by simplify_eq/=]. cbn [expire_entry] in E.
  destruct (en_due now e); [|by simplify_eq/=]. destruct (pop_entry _ _ _ _ _) as [o1 l1] eqn:E1.
  destruct (expire_entry _ _ _ _ _ _) as [o2 l2] eqn:E2. simplify_eq.
  assert (ready_until last o1 ∧ Forall common_dst l1 ∧ sum_of count l1 + residue o1 = residue (Some e))
    as (Hr1 & Hc1 & H1).
  { destruct Hr as (Hr & He & Hl & Hn). unfold pop_entry in E1. rewrite Hr in E1.
    repeat case_decide; simplify_eq; cbn; unfold common_dst; cbn; rewrite ?Hdelta;
      split_and!; auto with lia. }
  destruct (IH _ _ _ Hr1 E2) as (Hr2 & Hc2 & H2). split; [done|]. split; [by apply list.Forall_app|].
  rewrite sum_of_app. lia.
Qed.

(** A record of a flow that needs no correlation. *)
Lemma arrive_conserves last t r o :
  ready_until last o → last < end_of r → needs_correlation r = false →
  u32_or_0 r "flowStartSeconds" < end_of r →
  let e := arrive fields active inactive t r o in
  ready_until (end_of r) (Some e) ∧ residue (Some e) =
    match o with Some _ => u64 (u64_or_0 r n + residue o) | None => u64_or_0 r n end.
Proof.
  intros Hr Hl Hc Hst. cbv zeta. assert (Hf : ∀ b, fills r b = true) by (intros; by apply fills_uncorrelated).
  destruct o as [e|]; cbn [arrive en_summary residue ready_until from_option id].
  - destruct Hr as (Hr & He & Hlt & _). cbv zeta.
    assert (Hp : previous r (en_summary e) (fills r true) (fills r false) < end_of r).
    { eapply previous_of_node; [done|done|]. intros b _. specialize (He b). lia. }
    destruct (next_common r (en_summary e)) as [E1 E2]; [done|done|lia|]. split_and!.
    + by rewrite next_ready, Hr.
    + intros b. by rewrite next_end, Hf.
    + by rewrite E1.
    + done.
    + rewrite next_count, Hf by done. unfold node_value. by rewrite Hdelta.
  - cbn [summary_first sum_ready sum_end sum_count sum_latest sum_common]. rewrite Hc, !Hf.
    split_and!; try done; [intros b; by rewrite Hf|]. unfold common_dst. cbn. by rewrite Hf.
Qed.

Lemma life_conserves evs :
  well_timed false (arrivals evs) →
  let '(o, reports) := flow_life fields active inactive reset_summary evs in
  ready_until (last_end (arrivals evs)) o ∧ Forall common_dst reports ∧
  u64 (sum_of count reports + residue o) = total n (arrivals evs).
Proof.
  unfold flow_life. induction evs as [|ev evs IH] using rev_ind; intros Hw.
  { cbn. split_and!; [done|constructor|]. unfold total. by rewrite Hdelta. }
  rewrite foldl_snoc. unfold arrivals in *. rewrite omap_app in Hw |- *. cbn [omap list_omap] in *.
  destruct ev as [t r|now].
  - apply well_timed_snoc in Hw as (Hw & Hc & Hst & Hlate). specialize (IH Hw).
    destruct (foldl _ _ _) as [o reports]. destruct IH as (Hr & Hcd & IH). cbn [Timeline.life_step fst snd].
    specialize (Hlate isSrc (fills_uncorrelated _ _ Hc)). rewrite of_node_all in Hlate
      by (eapply list.Forall_impl; [apply Hw|by intros x [? _]]).
    destruct (arrive_conserves _ t r o Hr Hlate Hc Hst) as [Hr' ->]. rewrite last_end_snoc.
    split; [done|]. split; [done|].
    rewrite total_snoc, <- IH. unfold node_value, u64. rewrite Hdelta.
    destruct o as [e|]; cbn [residue from_option]; rewrite ?Zplus_mod_idemp_r; f_equal; lia.
  - rewrite app_nil_r in *. specialize (IH Hw). destruct (foldl _ _ _) as [o reports]. destruct IH as (Hr & Hcd & IH).
    cbn [Timeline.life_step fst snd]. destruct (expire_entry _ _ _ _ _ _) as [o' l] eqn:E.
    destruct (expire_conserves _ _ _ _ _ _ Hr E) as (Hr' & Hl & H). split; [done|].
    split; [by apply list.Forall_app|]. rewrite <- IH, sum_of_app. f_equal. lia.
Qed.

End conservation.

(** ** Lemmas: the process *)

Lemma reset_callback_does reg els fields kind :
  wf_config reg els fields → callback_does els fields kind reset_summary (reset_callback (Some els)).
Proof.
  intros Hwf calls k f s Hr Hs Hrs. destruct (reset_summarised reg els fields kind s (Record_ f) Hwf Hs) as (r' & E & Hs').
  unfold reset_callback. rewrite E. exists (with_record r' f). split_and!; [done| |done]. cbn. by rewrite Hr, Hrs.
Qed.

(** What the calls and the store hold of a statistic, in terms of summaries. *)
Lemma held_u64 els fields kind a k calls o reports name (f : flow_summary → Z) :
  (∀ s r, summarised els fields kind s r → u64_at r name = Some (f s)) →
  Forall2 (reported els fields kind) (calls_of k calls) reports → entry_at els fields kind a k o →
  reported_u64 k calls name = sum_of f reports ∧ stored_u64 k a name = from_option (λ e, f (en_summary e)) 0 o.
Proof.
  intros Hname Hr He. split.
  - unfold reported_u64. apply sum_of_Forall2. eapply list.Forall2_impl; [exact Hr|]. intros c s [_ Hs].
    unfold u64_or_0. by rewrite (Hname _ _ Hs).
  - unfold stored_u64. destruct o as [e|]; cbn in He; [|by rewrite He].
    destruct He as (p & g & it & -> & Hg & _ & Hs & _). cbn [mbind option_bind]. rewrite Hg. cbn.
    unfold u64_or_0. by rewrite (Hname _ _ Hs).
Qed.

(** The reported and the stored deltas of a process that starts empty. *)
Lemma deltas_from_start reg els fields kind input a evs k :
  wf_config reg els fields → in_AggregateElements input = Some els → in_CorrelateFields input = fields →
  0 <= in_ActiveExpiryTimeout input → InitAggregationProcess input = Ok a →
  Forall (usable_event els fields kind) evs →
  let rs := of_key k (data_records (messages_of evs)) in
  well_timed false rs →
  ∃ a' calls, process_events reg (reset_callback (Some els)) evs (a, []) = (Ok tt, (a', calls)) ∧
    ∀ i n src dst name, StatsElements els !! i = Some n → AggregatedSourceStatsElements els !! i = Some src →
      AggregatedDestinationStatsElements els !! i = Some dst → Contains n "Delta" = true →
      name ∈ [n; src; dst] →
      u64 (reported_u64 k calls name + stored_u64 k a' name) = total n rs.
Proof.
  intros Hwf He Hc HT Hinit Hu rs Hw.
  destruct (events_from_start reg els fields kind reset_summary (reset_callback (Some els)) input a evs)
    as (a' & calls & E & H); [done..|by eapply reset_callback_does|done|].
  exists a', calls. split; [done|]. intros i n src dst name Hn Hs Hd Hdel Hname. specialize (H k).
  pose proof (λ b, life_conserves fields (in_ActiveExpiryTimeout input) (in_InactiveExpiryTimeout input) b n Hdel
    (filter (concerns k) (evs ≫= flow_events))) as Hlife.
  rewrite arrivals_of_key in Hlife. specialize (λ b, Hlife b Hw).
  destruct (flow_life _ _ _ _ _) as [o reports]. destruct H as [Hr Ho].
  assert (Hname' : ∃ f : flow_summary → Z, (∀ s r, summarised els fields kind s r → u64_at r name = Some (f s)) ∧
    u64 (sum_of f reports + from_option (λ e, f (en_summary e)) 0 o) = total n rs).
  { rewrite !elem_of_cons in Hname. destruct Hname as [->|[->|[->|[]%not_elem_of_nil]]].
    - exists (λ s, sum_common s n). split; [intros s r H; by eapply H|].
      destruct (Hlife false) as (Hu1 & Hcd & Htot). etransitivity; [|exact Htot]. do 2 f_equal.
      + apply sum_of_Forall2, list.Forall_Forall2_diag. exact Hcd.
      + destruct o as [e|]; [apply Hu1|done].
    - exists (λ s, sum_count s true n). split; [intros s r H; by eapply H|apply (Hlife true)].
    - exists (λ s, sum_count s false n). split; [intros s r H; by eapply H|apply (Hlife false)]. }
  destruct Hname' as (f & Hf & <-). by destruct (held_u64 _ _ _ _ _ _ _ _ name f Hf Hr Ho) as [-> ->].
Qed.

Lemma usable_events els fields kind evs :
  Forall (usable_message els fields kind) (messages_of evs) → Forall (usable_event els fields kind) evs.
Proof.
  induction evs as [|[clock msg|now] evs IH]; [constructor| |by constructor; auto].
  intros [H Hs]%list.Forall_cons. constructor; [exact H|by apply IH].
Qed.

(** ** Properties *)


