(* ===== verification/Pipeline.v ===== *)
(** * From exported records to aggregated flows

    The exporting process, the TCP handler, the collecting process and the aggregation
    process in a row: what a user exports on one side is what the flows on the other
    side add up.  The messages are taken off the collector's channel and aggregated one
    after the other, as a single worker does. *)

From Stdlib Require Import ZArith Lia.
From Stdlib.Strings Require Import Byte.
From stdpp Require Import base gmap strings list numbers.
From S2P Require Import Prelude Bytes InfoElement Records Sets Wire Registry Exporter Collector Tcp EndToEnd.
From S2P Require Import NetIP Heap PriorityQueue Aggregate Correlate FirstRecord AggregationProcess Flows.
From S2P Require Import FlowTotals Timeline Reset Conservation.

#[local] Open Scope Z_scope.

(** The records of a session as the collector delivers them. *)
Definition exported_records (ops : list export_op) : list IPFIXRecord :=
  ops ≫= λ o, match o with
              | ExportTemplate _ _ => []
              | ExportData tid recs => (λ es, plain tid true (canonical <$> es)) <$> recs
              end.

(** Every data set has a record, and every record is complete for the configuration. *)
Definition usable_export (els : AggregationElements) (fields : list string)
    (kind : string → InfoElementWithValue) (o : export_op) : Prop :=
  match o with
  | ExportTemplate _ _ => True
  | ExportData tid recs =>
      recs ≠ [] ∧
      Forall (λ es, complete els fields kind (plain tid true (canonical <$> es)) ∧
                    Z.of_nat (length es + length (added_names els)) < 65536) recs
  end.

#[global] Instance usable_export_dec els fields kind o : Decision (usable_export els fields kind o).
Proof. destruct o; simpl; apply _. Defined.

(** ** Lemmas *)

Lemma report_records now obs host st o m :
  reports now obs host st o m → data_records [m] = exported_records [o].
Proof.
  intros (_ & _ & _ & _ & s & Hs & H). unfold data_records, exported_records. cbn. rewrite Hs.
  destruct o as [tid es|tid recs].
  - destruct H as [Ht _]. rewrite Ht. done.
  - destruct H as [Ht Hr]. rewrite Ht, Hr. done.
Qed.

Lemma report_usable els fields kind now obs host st o m :
  usable_export els fields kind o → reports now obs host st o m → usable_message els fields kind m.
Proof.
  intros Hu (_ & _ & _ & _ & s & Hs & H). unfold usable_message. rewrite Hs.
  destruct o as [tid es|tid recs]; [by destruct H as [-> _]|]. intros _. destruct Hu as [Hne Hu].
  destruct H as [_ Hr]. rewrite Hr. split; [by destruct recs|]. apply Forall_fmap.
  eapply Forall_impl; [|exact Hu]. intros es [Hc Hl]. split; [|exact Hc].
  exists tid, true, (canonical <$> es). by rewrite length_fmap.
Qed.

Lemma exported_records_cons o ops : exported_records (o :: ops) = exported_records [o] ++ exported_records ops.
Proof. exact (bind_app _ [o] ops). Qed.

Lemma session_records els fields kind now obs host st ops ms :
  Forall (usable_export els fields kind) ops → all_reported now obs host st ops ms →
  data_records ms = exported_records ops ∧ Forall (usable_message els fields kind) ms.
Proof.
  revert st ms. induction ops as [|o ops IH]; intros st [|m ms] Hu H; try done.
  apply list.Forall_cons in Hu as [Hu Hus]. destruct H as [Hr H]. destruct (IH _ _ Hus H) as [E Hms].
  rewrite data_records_cons, exported_records_cons, E, (report_records _ _ _ _ _ _ Hr).
  split; [done|]. by constructor; [eapply report_usable|].
Qed.

(** ** Properties *)

(** C5: exported records become flows.  A new exporting process, the TCP handler of a new
    collecting process and a new aggregation process, over a connection that takes
    every write: for any sequence of allowed exports of complete records, every send
    succeeds, the handler ends with the stream, all messages on the collector's channel
    are aggregated without error, and the aggregation process then has exactly the
    flows of the exported records, each with the summary of the records that were
    exported for it. *)
Theorem exported_flows_aggregated Write json_encode reg now cnow obs addr host input c ops jbl
    els fields kind clocks ainput a :
  (∀ c bs, Write c bs = (Z.of_nat (length bs), None)) → export_host addr = Ok host →
  in_u 32 obs → all_allowed reg (mkExportSpec ∅ 0) ops → Forall (usable_export els fields kind) ops →
  wf_config reg els fields → in_AggregateElements ainput = Some els → in_CorrelateFields ainput = fields →
  InitAggregationProcess ainput = Ok a →
  let ep := mkExportingProcess (Some c) obs 0 startTemplateID ∅ false false false jbl in
  ∃ pkts ep' cp' a',
    export_all Write json_encode now ops ep = (Ok tt, ep') ∧
    connToCollector ep' = Some (mkConn (conn_sent c ++ pkts) (conn_closed c)) ∧
    handleTCPClient reg cnow addr (mkStream (concat pkts) (Some ErrEOF))
      (InitCollectingProcess input) = (Ok tt, cp') ∧
    aggregate_messages reg clocks 0 (messageChan cp') a = (Ok tt, a') ∧
    ∀ k, match summarise fields (of_key k (exported_records ops)) with
         | None => flowKeyRecordMap a' !! k = None
         | Some s => ∃ p f, flowKeyRecordMap a' !! k = Some p ∧ flowRecords a' !! p = Some f ∧
             ReadyToSend f = sum_ready s ∧ summarised els fields kind s (Record_ f)
         end.
Proof.
  intros HW Hh Hobs Hops Hu Hwf He Hc Hinit ep.
  destruct (session_delivered Write json_encode reg now cnow obs addr host input c ops jbl HW Hh Hobs Hops)
    as (pkts & ep' & cp' & E1 & E2 & E3 & Hrep).
  destruct (session_records els fields kind _ _ _ _ _ _ Hu Hrep) as [Hd Hms].
  destruct (aggregate_from_start reg els fields kind clocks ainput a _ Hwf He Hc Hinit Hms) as (a' & E4 & HR).
  exists pkts, ep', cp', a'. split_and!; [done..|]. intros k. rewrite <- Hd, <- flows_of_key.
  by apply related_flows.
Qed.

(** C4: what is exported is what is reported.  The same chain, with expiry runs at any
    times between the messages and a callback that resets what it has sent: for every
    flow of the exported records that needs no correlation and is exported in the order
    of time, and every delta of the configuration, the values in the records that the
    callback was given and in the one still stored add up, modulo 2^64, to the values
    that were exported. *)
Theorem exported_deltas_reported Write json_encode reg now cnow obs addr host input c ops jbl
    els fields kind ainput a :
  (∀ c bs, Write c bs = (Z.of_nat (length bs), None)) → export_host addr = Ok host →
  in_u 32 obs → all_allowed reg (mkExportSpec ∅ 0) ops → Forall (usable_export els fields kind) ops →
  wf_config reg els fields → in_AggregateElements ainput = Some els → in_CorrelateFields ainput = fields →
  0 <= in_ActiveExpiryTimeout ainput → InitAggregationProcess ainput = Ok a →
  let ep := mkExportingProcess (Some c) obs 0 startTemplateID ∅ false false false jbl in
  ∃ pkts ep' cp',
    export_all Write json_encode now ops ep = (Ok tt, ep') ∧
    connToCollector ep' = Some (mkConn (conn_sent c ++ pkts) (conn_closed c)) ∧
    handleTCPClient reg cnow addr (mkStream (concat pkts) (Some ErrEOF))
      (InitCollectingProcess input) = (Ok tt, cp') ∧
    ∀ evs k, messages_of evs = messageChan cp' → well_timed false (of_key k (exported_records ops)) →
      ∃ a' calls, process_events reg (reset_callback (Some els)) evs (a, []) = (Ok tt, (a', calls)) ∧
        ∀ i n src dst name, StatsElements els !! i = Some n →
          AggregatedSourceStatsElements els !! i = Some src →
          AggregatedDestinationStatsElements els !! i = Some dst → Contains n "Delta" = true →
          name ∈ [n; src; dst] →
          u64 (reported_u64 k calls name + stored_u64 k a' name) = total n (of_key k (exported_records ops)).
Proof.
  intros HW Hh Hobs Hops Hu Hwf He Hc HT Hinit ep.
  destruct (session_delivered Write json_encode reg now cnow obs addr host input c ops jbl HW Hh Hobs Hops)
    as (pkts & ep' & cp' & E1 & E2 & E3 & Hrep).
  destruct (session_records els fields kind _ _ _ _ _ _ Hu Hrep) as [Hd Hms].
  exists pkts, ep', cp'. split_and!; [done..|]. intros evs k Hm. rewrite <- Hm in *. rewrite <- Hd.
  intros Hw. by eapply deltas_from_start; [..|apply usable_events|].
Qed.

(** ** Example: two reports of a flow *)

Definition ex_element (n : string) (ent : Z) : InfoElement :=
  from_ok (ex_ie n Unsigned8) (RegistryGetInfoElement n ent loaded_registry).
Definition ex_count (n : string) (v : Z) : InfoElementWithValue :=
  Unsigned64InfoElement (ex_element n IANAEnterpriseID) v.

(** A record of registered elements. *)
Definition ex_report (last packets octets : Z) : list InfoElementWithValue :=
  [IPAddressInfoElement (ex_element "sourceIPv4Address" IANAEnterpriseID) (ip4 10 0 0 1);
   IPAddressInfoElement (ex_element "destinationIPv4Address" IANAEnterpriseID) (ip4 10 0 0 2);
   Unsigned16InfoElement (ex_element "sourceTransportPort" IANAEnterpriseID) 1234;
   Unsigned16InfoElement (ex_element "destinationTransportPort" IANAEnterpriseID) 5678;
   Unsigned8InfoElement (ex_element "protocolIdentifier" IANAEnterpriseID) 6;
   DateTimeSecondsInfoElement (ex_element "flowStartSeconds" IANAEnterpriseID) 10;
   DateTimeSecondsInfoElement (ex_element "flowEndSeconds" IANAEnterpriseID) last;
   Unsigned8InfoElement (ex_element "flowEndReason" IANAEnterpriseID) 2;
   StringInfoElement (ex_element "tcpState" AntreaEnterpriseID) "ESTABLISHED";
   StringInfoElement (ex_element "sourcePodName" AntreaEnterpriseID) "pod1";
   StringInfoElement (ex_element "destinationPodName" AntreaEnterpriseID) "pod2";
   ex_count "packetTotalCount" packets; ex_count "packetDeltaCount" 500; ex_count "octetTotalCount" octets;
   Unsigned64InfoElement (ex_element "reverseOctetTotalCount" IANAReversedEnterpriseID) octets].

Definition ex_session : list export_op :=
  [ExportTemplate 256 (ResetValue <$> ex_report 0 0 0);
   ExportData 256 [ex_report 20 1000 8000]; ExportData 256 [ex_report 30 1500 12000]].

Lemma exported_flows_aggregated_witness :
  ∃ pkts ep' cp' a' p f,
    export_all write_all json_none 1000 ex_session
      (mkExportingProcess (Some (mkConn [] false)) 1 0 startTemplateID ∅ false false false 0) =
      (Ok tt, ep') ∧
    connToCollector ep' = Some (mkConn ([] ++ pkts) false) ∧
    handleTCPClient loaded_registry 1001 "10.0.0.7:41000" (mkStream (concat pkts) (Some ErrEOF))
      (example_cp "tcp") = (Ok tt, cp') ∧
    aggregate_messages loaded_registry (λ _ _, 1000) 0 (messageChan cp') ex_a0 = (Ok tt, a') ∧
    flowKeyRecordMap a' !! ex_key = Some p ∧ flowRecords a' !! p = Some f ∧
    u64_at (Record_ f) "packetDeltaCountFromSourceNode" = Some 1000.
Proof.
  destruct (exported_flows_aggregated write_all json_none loaded_registry 1000 1001 1
    "10.0.0.7:41000" "10.0.0.7" (example_input_collector "tcp") (mkConn [] false) ex_session 0
    antrea_elements ex_fields ex_kind (λ _ _, 1000) ex_input ex_a0)
    as (pkts & ep' & cp' & a' & E1 & E2 & E3 & E4 & H).
  - reflexivity.
  - reflexivity.
  - evaluate.
  - evaluate.
  - evaluate.
  - exact ex_config.
  - reflexivity.
  - reflexivity.
  - exact ex_a0_start.
  - specialize (H ex_key).
    assert (Hr : of_key ex_key (exported_records ex_session) =
      [plain 256 true (canonical <$> ex_report 20 1000 8000); plain 256 true (canonical <$> ex_report 30 1500 12000)])
      by (vm_compute; reflexivity).
    rewrite Hr in H. cbn [summarise foldl] in H. destruct H as (p & f & Hp & Hf & _ & Hs).
    exists pkts, ep', cp', a', p, f. split; [exact E1|]. split; [exact E2|]. split; [exact E3|].
    split; [exact E4|]. split; [exact Hp|]. split; [exact Hf|].
    destruct (su_count _ _ _ _ _ Hs 1%nat "packetDeltaCount" "packetDeltaCountFromSourceNode"
      "packetDeltaCountFromDestinationNode" eq_refl eq_refl eq_refl) as [Hc _].
    rewrite Hc. vm_compute. reflexivity.
Defined.

Lemma exported_deltas_reported_witness :
  ∃ pkts ep' cp',
    export_all write_all json_none 1000 ex_session
      (mkExportingProcess (Some (mkConn [] false)) 1 0 startTemplateID ∅ false false false 0) =
      (Ok tt, ep') ∧
    connToCollector ep' = Some (mkConn ([] ++ pkts) false) ∧
    handleTCPClient loaded_registry 1001 "10.0.0.7:41000" (mkStream (concat pkts) (Some ErrEOF))
      (example_cp "tcp") = (Ok tt, cp') ∧
    ∀ evs, messages_of evs = messageChan cp' →
      ∃ a' calls, process_events loaded_registry (reset_callback (Some antrea_elements)) evs (ex_a0, []) =
          (Ok tt, (a', calls)) ∧
        u64 (reported_u64 ex_key calls "packetDeltaCount" + stored_u64 ex_key a' "packetDeltaCount") = 1000.
Proof.
  destruct (exported_deltas_reported write_all json_none loaded_registry 1000 1001 1
    "10.0.0.7:41000" "10.0.0.7" (example_input_collector "tcp") (mkConn [] false) ex_session 0
    antrea_elements ex_fields ex_kind ex_input ex_a0)
    as (pkts & ep' & cp' & E1 & E2 & E3 & H).
  - reflexivity.
  - reflexivity.
  - evaluate.
  - evaluate.
  - evaluate.
  - exact ex_config.
  - reflexivity.
  - reflexivity.
  - vm_compute. discriminate.
  - exact ex_a0_start.
  - exists pkts, ep', cp'. split; [exact E1|]. split; [exact E2|]. split; [exact E3|]. intros evs Hm.
    destruct (H evs ex_key Hm) as (a' & calls & E & Hsum).
    + split; [intros [|]; vm_compute; auto|evaluate].
    + exists a', calls. split; [exact E|].
      rewrite (Hsum 1%nat "packetDeltaCount" "packetDeltaCountFromSourceNode"
        "packetDeltaCountFromDestinationNode" "packetDeltaCount" eq_refl eq_refl eq_refl eq_refl
        (list_elem_of_here _ _))%string.
      vm_compute. reflexivity.
Defined.
